(* ===== verification/_CoqProject ===== *)
-Q . S2P
Prelude.v
Redis.v
Serde.v
Models.v
Errors.v
Net.v
Float.v
Shutdown.v
Ddos.v
Dnssec.v
Auth.v
RateLimit.v
Quota.v
RedisCache.v
RedisPerf.v
CA.v
CaServices.v
Storage.v
TunnelsApi.v
ApiStack.v
ServicePlans.v
SshHub.v
EdgeRouter.v
Metrics.v
DnsHandler.v
System.v
CliKeys.v
CliTunnel.v
ClientSystem.v
Schema.v
Compression.v
Config.v
DnsServer.v
EdgeStart.v
CaBatch.v
Interleaving.v
ControlSocket.v
Services.v
TestService.v
CertManager.v
DotEnhanced.v
Metering.v
SignerMonitor.v
CaUpkeep.v
Legacy.v
Batchers.v
