(* ===== verification/Prelude.v ===== *)
(** * FleetingDNS

    FleetingDNS gives a local service a public HTTPS name for a short time.  A
    client asks the control API for a tunnel and receives a name, a slot (a TCP
    port of the edge), a certificate and an SSH key; it connects to the SSH hub
    with that key and asks for a reverse forward of its slot; viewers resolve the
    name at the DNS daemon and connect to the edge router, which reads the TLS
    SNI and splices the bytes to the slot.  The services share nothing but a Redis
    server.  This library models those services as the Rust sources write them
    and proves what makes them correct, separately and together.

    ** Layout

    - [Prelude]: results and the state-and-error monad [io], machine integers,
      time, strings, decimal numbers, tactics ([inv_io], [map_keys], [key_ne],
      [eval_eq]) and the lemmas the components share.
    - [Redis]: the Redis server as a parameter: commands ([RedisServer]), their
      documented laws ([RedisSpec]), a server that answers ([RedisAvailable]), a
      small logic for sequences of commands ([reads], [writes], [runs]) and the
      instance [MemRedis].
    - [Serde]: JSON values, derived serde encodings and the codec class [Codec]
      (serde_json text, UUID text, RFC 3339), with the instance [BitCodec].
    - [Models]: crates/backendapi/src/models.rs, crates/common/src/tunnel.rs and
      the records of crates/common/src/redis: tunnels, lookups, SSH sessions, with
      the round trip of each encoding and the hub's view of the API's record.
    - [Errors]: crates/common/src/error.rs (module [FE]) and
      crates/backendapi/src/error.rs (module [AE]).
    - [Net], [Float]: IP addresses with their text forms; binary64 arithmetic.
    - [Shutdown]: crates/common/src/shutdown.rs and cmd/fleetingdns-ctl: the
      shutdown coordinator, its control protocol and the control client.
    - [Ddos]: crates/common/src/ddos_protection.rs, the connection limiter.
    - [Dnssec]: crates/dnsd/src/sign.rs: key manager, signature cache, signers,
      validator and monitor.
    - [Auth]: crates/auth/src/lib.rs, the authentication middleware, the token
      endpoints and the API configuration.
    - [RateLimit]: crates/backendapi/src/rate_limiting.rs with its middleware.
    - [Quota]: crates/backendapi/src/quota_enforcement.rs.
    - [RedisCache]: crates/common/src/redis/cache.rs, tunnel.rs and auth.rs: slot
      mappings, liveness, grants, the tunnel registry and its scans by subdomain
      and by slot, SSH sessions.
    - [RedisPerf]: crates/common/src/redis/client.rs, the slot operations with
      timeouts, bulk forms and statistics.
    - [CA]: crates/edf-ca: requests, registry with its Redis store, rate limiter,
      issue, validate, revoke.
    - [CaServices]: crates/edgehub/src/certificate_manager.rs, the wildcard
      certificate of the edge.
    - [Storage]: crates/backendapi/src/storage.rs: tunnel records, the subdomain
      claim, DNS mapping, grants, sessions, port allocator.
    - [TunnelsApi]: crates/backendapi/src/handlers/tunnels.rs on the composed API
      state (Redis, quota, authority, usage events).
    - [ApiStack]: the router of crates/backendapi/src/lib.rs, its layers
      (crates/backendapi/src/middleware) and the quota, certificate, statistics
      and health handlers.
    - [ServicePlans]: crates/backendapi/src/handlers/admin.rs and
      user_service_plan.rs over a database given by its statements, with a logic
      for sequences of them ([hoare]) and the instance [MemDb].
    - [SshHub]: crates/edgehub/src/ssh_server.rs: authentication, brute-force
      lockout, the slot gate of forward requests, background tasks, a step
      relation over all events of the hub, certificate validation.
    - [EdgeRouter]: cmd/edgehub-bin/src/main.rs: SNI, request head, cookie gate,
      routing of a connection.
    - [Metrics]: crates/dnsd/src/metrics_manager.rs.
    - [DnsHandler]: crates/dnsd/src/dns_handler.rs and the stream framing of
      crates/dnsd/src/lib.rs.
    - [System]: theorems across the services.
    - [CliKeys], [CliTunnel]: cmd/edf-cli: configuration, key store, SSH client,
      tunnel manager and commands, over a file system, a clock, an HTTP client and
      an SSH transport given as classes ([MemMachine] is an instance).
    - [ClientSystem]: the client, the API and the hub on one network.
    - [Schema]: crates/migration and crates/models: the statements of the
      migrations on a schema, the columns of the entities, the repositories.
    - [Compression]: crates/dnsd/src/response_compression.rs.
    - [Config]: crates/common/src/config.rs, the API's configuration and start-up.
    - [DnsServer]: the UDP loop of crates/dnsd/src/lib.rs.
    - [EdgeStart]: the start of cmd/edgehub-bin, SshServer::new,
      crates/common/src/tls.rs, the SSH host key and the authority's files.
    - [CaBatch]: crates/edf-ca/src/batch_operations.rs.
    - [Interleaving]: port allocation, tunnel registration and quota requests of
      the API, cut at their commands and locks and interleaved.
    - [ControlSocket]: the socket files and control tasks of all daemons of a
      machine (crates/common/src/shutdown.rs) and the main of cmd/fleetingdns-ctl.
    - [Services]: cmd/slot-setter, cmd/dnsd-bin and the accept loops of the TCP
      listeners.
    - [TestService]: crates/test-service, the demonstration server and its client.
    - [CertManager]: crates/common/src/cert_manager.rs, the ACME manager.
    - [DotEnhanced]: crates/dnsd/src/dot_enhanced.rs.
    - [Metering]: crates/common/src/billing.rs with the tunnel handlers.
    - [SignerMonitor]: the validators and monitors a signer of
      crates/dnsd/src/sign.rs hands out, and its reports.
    - [CaUpkeep]: builders, cleanup and statistics of crates/edf-ca, and the
      certificates of crates/edgehub/src/ssh_server.rs with that authority.
    - [Legacy]: crates/backendapi/src/auth.rs and crates/edgehub/src/redis_auth.rs,
      superseded by [Auth] and [RedisCache].
    - [Batchers]: crates/common/src/batch_audit_logger.rs and
      batch_metrics_collector.rs.

    Each operation is a definition with the source's name; a Rust function that
    talks to Redis is a computation [io R E A] over the server state, and [?] is
    the monad's bind: an error keeps the effects already performed.

    ** What is shown

    - Isolation: two tunnels never own one subdomain ([store_tunnel_exclusive]);
      no port is handed out twice while reserved ([allocate_port_exclusive]), in
      any interleaving of requests ([concurrent_ports_exclusive]); the
      hub lets a session bind a slot only if it authenticated as the tunnel that
      owns it, if it has a Redis pool ([tcpip_forward_owner]); only the owner can
      show, delete, probe a tunnel or mint a grant for it ([handlers_owner_only]).
    - Authentication: production requests need a token signed with the secret
      ([auth_production_sound], [jwt_roundtrip]); the hub accepts only the key of a
      live session, unless it was started without its session store and told to
      accept every key ([auth_publickey_sound]); lockouts start when they should and
      hold against any traffic ([lockout_after_failures], [lockout_holds]);
      protected tunnels need a live grant ([router_gate],
      [router_refuses_without_grant]); certificates validate only on the
      authority's word ([certificate_valid_sound]), after a restart as far as the
      store was written ([ca_restart_transparent]), and not after a revocation whose
      deletion succeeded ([ca_revoke_final]).
    - Routing: the scans find exactly the registered tunnels; a stored tunnel is
      found by the edge; DNS answers come from the slot record; every datagram is
      answered once, to its sender ([udp_answers_each]); responses are cached for 300
      seconds; compressing a response is transparent ([compression_transparent]).
    - The API's front: every endpoint but four is behind the layers, and its
      handler runs once and as the authenticated user ([protected_endpoints]); no
      address gets more than twice its rate through in a minute
      ([middleware_minute_limit]).
    - Invariants: in every reachable state of the hub a bound port has one accept
      loop and a session that holds it ([no_zombie_listeners]); the service plan
      tables stay consistent in every history ([service_plans_invariant]).
    - Refinement and equivalence: the port allocator takes the first free probe
      ([allocate_port_correct]); the quota of requests one after the other is exact
      ([quota_exact]); the stream
      server answers packet by packet ([dot_framing_correct]); the connection
      limiter decides as one that remembers everything ([ddos_decisions_exact]);
      the bulk slot operations are the plain ones ([bulk_slots_equiv]); batched
      issuance is issuance one by one ([batching_transparent]).
    - Availability: the edge's certificate never runs out ([wildcard_always_served]);
      waiting for a shutdown ends ([wait_for_shutdown_terminates]); what the
      signer issues, the validator judges by the records alone
      ([signed_message_verdict]).
    - The whole path: a created tunnel is reachable at the edge
      ([created_tunnel_reachable]), its key opens its slot at the hub
      ([created_tunnel_binds]), a minted grant opens the gate
      ([minted_grant_opens_edge]).
    - The client: a forward against a ready local API and hub ends with a session
      bound to the created tunnel's slot ([client_end_to_end]); the keep-alive loop
      ends ([run_until_expiry_correct]); the key store round trips and keeps the key
      private ([key_store_roundtrip]).
    - Start-up: a hub is closed unless told otherwise, whatever fails
      ([edge_fail_closed]); settings load in every environment ([from_env_total]);
      the host key survives restarts ([host_key_stable]); the migrations apply and
      revert ([migrations_roundtrip]).
    - Operation: the control client is answered by the daemon that took the socket
      path last, as long as its task accepts and nobody removed the file
      ([control_socket_served]); whatever fails, a tunnel is metered by at most one
      opening and one closing by its owner, and is open while its record lasts
      ([metered_intervals]); sessions of the test service are exact
      ([test_sessions_exact]); the ACME manager's certificate survives restarts
      ([cert_restart_keeps]); the superseded tokens agree with the current ones
      ([old_tokens_agree]).
    - Behaviour that differs from what comments promise is stated as it is:
      [store_tunnel_conflict] (the refused record stays registered),
      [reaped_tunnel_reported_live] (liveness outlives a reaped listener),
      [dns_cache_window] (a deleted name is answered from the cache),
      [create_tunnel_correct] (fixed domain and default lifetime),
      [required_scopes_spec], [rotation_gap] (a time without signing keys before
      every rotation), [forced_rotation_keeps_key], [external_shutdown_forced],
      [ip_block_exact] (a cleanup lifts a block early), [quota_endpoints_correct]
      (asking spends quota, anyone resets anyone), [assign_service_plan_correct]
      (no administrator is needed), [unset_secret_forgeable] (the API runs with a
      public secret), [migrated_plans_unavailable] (migrations and entities name
      different tables), [production_refuses_client], [release_forward_fails],
      [ca_restart_forgets], [slot_gate_open_without_pool],
      [concurrent_registration] (of two tunnels a user creates at once one is listed
      nowhere), [quota_overrun] (two requests at a time get past a quota),
      [hub_refuses_certificates] (the hub looks certificates up by another text than
      the authority files them under), [slot_setter_answer] (the setter writes the
      key as given), [clone_drop_cuts_off] (dropping a clone removes the control
      socket), [dot_connection_budget] (connections of an address are counted for
      ever), [created_monitor_blind] (a created monitor never alerts),
      [outage_logged_as_info], [batcher_statistics_blind], [failed_revocation_undone]
      (a revocation whose deletion fails is undone by the next lookup).

    Every class of parameters has a concrete instance, and every theorem with
    hypotheses a witness evaluated on it (the modules whose names end in [Demo]).

    ** Conventions and limits

    - Time is an integer number of nanoseconds.  An operation reads the clock
      once: all clock reads of one operation, and the server's, are the same
      instant, and the clocks of the services agree.  The issuance of a certificate
      has a second instant, that of its registration, where it matters
      ([issue_client_certificate_at]).
    - Random choices (UUIDs, tokens, the first port, key pairs) are arguments.
    - Library code is a parameter with its documented laws: Redis, serde_json,
      uuid, chrono's text forms, SSH keys, the listener of the operating system,
      Hickory, the TTL cache and hash of the DNS daemon, MD5 and HMAC, rcgen,
      rustls, russh, reqwest, governor, zstd, the relational database, the file
      system and the clock of the client's machine.
    - Fixed-width arithmetic wraps where the source casts or a release build
      would wrap; panics are modelled in [RateLimit], [Config] and [DnsServer], as
      [None].  The texts of parser errors are modelled only where they are shown to
      a user.  Logging, tracing and metrics calls are left out, except for the level at
      which errors are logged.
    - Loops follow the source: recursion on the list scanned, on the events
      delivered or on the number of attempts left (1000 for the port allocator, 30
      for the migration runner, the sources' bounds).  Two loops have fuel:
      [dot_loop], the length of the input, which every frame shortens, and
      [run_loop], the keep-alive intervals until the expiry, which
      [loop_fuel_enough] shows to be enough.
    - Redis commands of different requests interleave between operations, not
      inside one, except in [Interleaving]; the claim of a subdomain and the
      reservation of a port are single commands, so their exclusivity does not
      depend on this.
    - Paths of control sockets are compared as texts: two names of one file count
      as two files.
    - A call that runs into a timeout stops in a state the environment chooses.
    - Some modelled files are declared by no crate and so not compiled:
      dnsd/src/dot_enhanced.rs, common/src/cert_manager.rs, batch_audit_logger.rs and
      batch_metrics_collector.rs, edgehub/src/redis_auth.rs, backendapi/src/auth.rs;
      they are modelled as written.
    - Not modelled: the set-up of logs, traces and metrics
      (common/src/telemetry.rs, metrics.rs) and the generation of SSH keys
      (common/src/ssh_keys.rs), which are calls of libraries; edgehub/src/redis.rs,
      which no crate declares and which uses a module that does not exist; the
      crates with only a placeholder; the parser of command lines; the russh and
      TLS transports and the copying of bytes between sockets. *)

From Stdlib Require Export ZArith Lia Ascii String.
From stdpp Require Export base option list gmap strings pretty.

#[export] Set Default Goal Selector "!".
#[export] Set Warnings "-clear-no-such-hyp".
Open Scope string_scope.
Open Scope list_scope.
Open Scope Z_scope.

(** String equality as the boolean the sources branch on. *)
Declare Scope fdns_scope.
Delimit Scope fdns_scope with fdns.
Infix "=?s" := String.eqb (at level 70, no associativity) : fdns_scope.
Open Scope fdns_scope.

(** ** Results and effectful computations *)

(** Rust's [Result<A, E>]. *)
Inductive result (E A : Type) : Type :=
  | Ok (a : A)
  | Err (e : E).
Arguments Ok {E A} a.
Arguments Err {E A} e.

#[export] Instance result_ret {E} : MRet (result E) := λ A a, Ok a.
#[export] Instance result_bind {E} : MBind (result E) := λ A B f m,
  match m with Ok a => f a | Err e => Err e end.

(** [Result::map_err]. *)
Definition map_err {E E' A} (f : E → E') (m : result E A) : result E' A :=
  match m with Ok a => Ok a | Err e => Err (f e) end.
(** [Result::ok]. *)
Definition res_ok {E A} (m : result E A) : option A :=
  match m with Ok a => Some a | Err _ => None end.
(** [Option::ok_or]. *)
Definition ok_or {E A} (o : option A) (e : E) : result E A :=
  match o with Some a => Ok a | None => Err e end.
Definition is_ok {E A} (m : result E A) : bool :=
  match m with Ok _ => true | Err _ => false end.

(** A computation on a store [S] that may fail.  A failure keeps the
    effects already performed, as the [?] operator of the source does. *)
Definition io (S E A : Type) : Type := S → S * result E A.

#[export] Instance io_ret {S E} : MRet (io S E) := λ A a s, (s, Ok a).
#[export] Instance io_bind {S E} : MBind (io S E) := λ A B f m s,
  match m s with
  | (s', Ok a) => f a s'
  | (s', Err e) => (s', Err e)
  end.

Definition io_fail {S E A} (e : E) : io S E A := λ s, (s, Err e).
Definition io_lift {S E A} (r : result E A) : io S E A := λ s, (s, r).
Definition io_map_err {S E E' A} (f : E → E') (m : io S E A) : io S E' A :=
  λ s, let '(s', r) := m s in (s', map_err f r).
(** Run [m] and hand its result, success or error, to the continuation. *)
Definition io_try {S E E' A B} (m : io S E A) (k : result E A → io S E' B)
  : io S E' B := λ s, let '(s', r) := m s in k r s'.

(** ** Machine integers *)

Definition wrap (w z : Z) : Z := z mod 2 ^ w.
(** [x as u16] and so on, from any integer type. *)
Definition as_u16 (z : Z) : Z := wrap 16 z.
Definition as_u32 (z : Z) : Z := wrap 32 z.
Definition as_u64 (z : Z) : Z := wrap 64 z.
Definition as_i64 (z : Z) : Z :=
  let u := wrap 64 z in if decide (u < 2 ^ 63) then u else u - 2 ^ 64.

Definition u16_ok (z : Z) : Prop := 0 ≤ z < 2 ^ 16.
Definition u32_ok (z : Z) : Prop := 0 ≤ z < 2 ^ 32.
Definition u64_ok (z : Z) : Prop := 0 ≤ z < 2 ^ 64.
Definition i64_ok (z : Z) : Prop := - 2 ^ 63 ≤ z < 2 ^ 63.

Lemma wrap_range w z : 0 ≤ w → 0 ≤ wrap w z < 2 ^ w.
Proof. intros. unfold wrap. apply Z.mod_pos_bound, Z.pow_pos_nonneg; lia. Qed.

Lemma as_u16_range z : u16_ok (as_u16 z).
Proof. apply wrap_range. lia. Qed.

Lemma as_u16_id z : u16_ok z → as_u16 z = z.
Proof. intros. apply Z.mod_small. done. Qed.

Lemma as_u32_id z : u32_ok z → as_u32 z = z.
Proof. intros. apply Z.mod_small. done. Qed.

Lemma as_u64_id z : u64_ok z → as_u64 z = z.
Proof. intros. apply Z.mod_small. done. Qed.

Lemma as_u64_add_l a b : as_u64 (as_u64 a + b) = as_u64 (a + b).
Proof. unfold as_u64, wrap. by rewrite Z.add_mod_idemp_l by lia. Qed.

Lemma as_u64_add_r a b : as_u64 (a + as_u64 b) = as_u64 (a + b).
Proof. unfold as_u64, wrap. by rewrite Z.add_mod_idemp_r by lia. Qed.

Lemma as_u64_le z : 0 ≤ z → 0 ≤ as_u64 z ≤ z.
Proof.
  intros. unfold as_u64, wrap. pose proof (Z.mod_pos_bound z (2 ^ 64)).
  pose proof (Z.mod_le z (2 ^ 64)). lia.
Qed.

Lemma as_i64_id z : i64_ok z → as_i64 z = z.
Proof.
  unfold i64_ok, as_i64, wrap. intros [Hlo Hhi].
  destruct (decide (0 ≤ z)).
  - rewrite Z.mod_small by lia. case_decide; lia.
  - assert (z mod 2 ^ 64 = z + 2 ^ 64) as ->
      by (symmetry; apply Z.mod_unique with (q := -1); lia).
    case_decide; lia.
Qed.

(** ** Time

    Instants ([Instant], [SystemTime], [DateTime<Utc>]) and durations are
    integers counting nanoseconds. *)
Definition secs (n : Z) : Z := n * 1000000000.
Definition millis (n : Z) : Z := n * 1000000.
(** [chrono::Duration::num_seconds]: truncation towards zero. *)
Definition num_seconds (d : Z) : Z := Z.quot d 1000000000.
(** [Duration::as_millis], [Duration::as_micros] of a non-negative duration. *)
Definition as_millis (d : Z) : Z := d / 1000000.
Definition as_micros (d : Z) : Z := d / 1000.

(** [Instant::duration_since]: zero for a later instant. *)
Definition duration_since (now t : Z) : Z := Z.max 0 (now - t).

(** [DateTime::timestamp]: whole seconds since the epoch, rounded down. *)
Definition timestamp (t : Z) : Z := t / 1000000000.

Lemma num_seconds_secs n : num_seconds (secs n) = n.
Proof. unfold num_seconds, secs. apply Z.quot_mul. lia. Qed.

Lemma num_seconds_le d : 0 ≤ d → secs (num_seconds d) ≤ d.
Proof.
  intros. unfold num_seconds, secs. rewrite Z.quot_div_nonneg by lia.
  pose proof (Z.mul_div_le d 1000000000). lia.
Qed.

Lemma num_seconds_gap t d : t ≤ d → t + secs (num_seconds (d - t)) ≤ d < t + secs (num_seconds (d - t)) + secs 1.
Proof.
  intros. unfold num_seconds, secs. rewrite Z.quot_div_nonneg by lia.
  pose proof (Z.div_mod (d - t) 1000000000). pose proof (Z.mod_pos_bound (d - t) 1000000000). lia.
Qed.

Lemma num_seconds_pos d : 0 < num_seconds d → 0 < d.
Proof.
  unfold num_seconds. intros Hd. destruct (Z.le_gt_cases d 0) as [Hle|]; [|done].
  pose proof (Z.quot_pos (- d) 1000000000). rewrite Z.quot_opp_l in * by lia. lia.
Qed.

Lemma num_seconds_nonneg d : 0 ≤ d → 0 ≤ num_seconds d.
Proof. intros. apply Z.quot_pos; lia. Qed.

(** ** Strings

    A Rust [str] is its UTF-8 bytes: a [string] of [ascii] characters. *)

Definition code (a : ascii) : Z := Z.of_N (N_of_ascii a).
Definition in_range (lo hi : Z) (a : ascii) : bool := (lo <=? code a) && (code a <=? hi).
(** [u8::is_ascii_digit] and the other ASCII classes. *)
Definition is_ascii_digit (a : ascii) : bool := in_range 48 57 a.
Definition is_ascii_lowercase (a : ascii) : bool := in_range 97 122 a.
Definition is_ascii_uppercase (a : ascii) : bool := in_range 65 90 a.
Definition is_ascii_alphanumeric (a : ascii) : bool :=
  is_ascii_digit a || is_ascii_lowercase a || is_ascii_uppercase a.
Definition to_ascii_lowercase (a : ascii) : ascii :=
  if is_ascii_uppercase a then ascii_of_N (Z.to_N (code a + 32)) else a.

Fixpoint str_map (f : ascii → ascii) (s : string) : string :=
  match s with "" => "" | String a s' => String (f a) (str_map f s') end.
Fixpoint str_all (p : ascii → bool) (s : string) : bool :=
  match s with "" => true | String a s' => p a && str_all p s' end.
Definition str_has (c : ascii) (s : string) : bool :=
  negb (str_all (λ a, negb (Ascii.eqb a c)) s).
(** [str::len]: the length in bytes. *)
Definition str_len (s : string) : Z := Z.of_nat (String.length s).

(** [str::split(c)] for an ASCII character: at least one piece. *)
Fixpoint str_split (c : ascii) (s : string) : list string :=
  match s with
  | "" => [""]
  | String a s' =>
      if Ascii.eqb a c then "" :: str_split c s'
      else match str_split c s' with
           | [] => [String a ""]
           | p :: ps => String a p :: ps
           end
  end.

(** [str::split_once(c)]. *)
Fixpoint str_split_once (c : ascii) (s : string) : option (string * string) :=
  match s with
  | "" => None
  | String a s' =>
      if Ascii.eqb a c then Some ("", s')
      else match str_split_once c s' with
           | Some (x, y) => Some (String a x, y)
           | None => None
           end
  end.

(** [str::strip_prefix] and [str::starts_with]. *)
Fixpoint strip_prefix (p s : string) : option string :=
  match p, s with
  | "", _ => Some s
  | String a p', String b s' => if Ascii.eqb a b then strip_prefix p' s' else None
  | String _ _, "" => None
  end.
Definition starts_with (p s : string) : bool :=
  match strip_prefix p s with Some _ => true | None => false end.

(** [str::contains] of a string. *)
Fixpoint str_contains (p s : string) : bool :=
  starts_with p s || match s with "" => false | String _ s' => str_contains p s' end.

Definition str_rev (s : string) : string :=
  string_of_list_ascii (rev (list_ascii_of_string s)).

(** The UTF-8 encodings of the code points with the Unicode [White_Space]
    property, which [str::trim] removes: one, two and three bytes. *)
Definition ws1 (a : ascii) : bool := in_range 9 13 a || in_range 32 32 a.
Definition ws2 (a b : ascii) : bool :=
  (code a =? 194) && ((code b =? 133) || (code b =? 160)).
Definition ws3 (a b c : ascii) : bool :=
  ((code a =? 225) && (code b =? 154) && (code c =? 128))
  || ((code a =? 226) && (code b =? 128)
      && (in_range 128 138 c || in_range 168 169 c || (code c =? 175)))
  || ((code a =? 226) && (code b =? 129) && (code c =? 159))
  || ((code a =? 227) && (code b =? 128) && (code c =? 128)).

Fixpoint trim_start (s : string) : string :=
  match s with
  | String a s1 =>
      if ws1 a then trim_start s1 else
      match s1 with
      | String b s2 =>
          if ws2 a b then trim_start s2 else
          match s2 with
          | String c s3 => if ws3 a b c then trim_start s3 else s
          | "" => s
          end
      | "" => s
      end
  | "" => ""
  end.
(** The same on the reversed bytes, for [str::trim_end]. *)
Fixpoint trim_start_rev (s : string) : string :=
  match s with
  | String a s1 =>
      if ws1 a then trim_start_rev s1 else
      match s1 with
      | String b s2 =>
          if ws2 b a then trim_start_rev s2 else
          match s2 with
          | String c s3 => if ws3 c b a then trim_start_rev s3 else s
          | "" => s
          end
      | "" => s
      end
  | "" => ""
  end.
Definition trim_end (s : string) : string := str_rev (trim_start_rev (str_rev s)).
Definition str_trim (s : string) : string := trim_end (trim_start s).

(** [str::trim_end_matches(c)]. *)
Fixpoint drop_char (c : ascii) (s : string) : string :=
  match s with
  | String a s' => if Ascii.eqb a c then drop_char c s' else s
  | "" => ""
  end.
Definition trim_end_matches (c : ascii) (s : string) : string :=
  str_rev (drop_char c (str_rev s)).

Definition eq_ignore_ascii_case (s t : string) : bool :=
  String.eqb (str_map to_ascii_lowercase s) (str_map to_ascii_lowercase t).

(** [slice::join] of string slices. *)
Fixpoint str_join (sep : string) (l : list string) : string :=
  match l with
  | [] => ""
  | [s] => s
  | s :: l => s +:+ sep +:+ str_join sep l
  end.

(** ** Decimal numbers *)

(** The value of a string of digits, after the digits already read. *)
Fixpoint dec_value (acc : Z) (s : string) : option Z :=
  match s with
  | "" => Some acc
  | String a s' =>
      if is_ascii_digit a then dec_value (10 * acc + (code a - 48)) s' else None
  end.

(** [str::parse::<i64>]: an optional sign and at least one digit. *)
Definition parse_i64 (s : string) : option Z :=
  let digits s := if String.eqb s "" then None else dec_value 0 s in
  v ← match s with
      | String a s' =>
          if Ascii.eqb a "-" then Z.opp <$> digits s'
          else if Ascii.eqb a "+" then digits s' else digits s
      | "" => None
      end;
  if bool_decide (- 2 ^ 63 ≤ v < 2 ^ 63) then Some v else None.

(** ** Lemmas on strings *)

#[local] Arguments String.append : simpl nomatch.

Lemma str_all_app p s t : str_all p (s +:+ t) = str_all p s && str_all p t.
Proof. induction s as [|a s IH]; cbn; [done|]. rewrite IH. by destruct (p a). Qed.

Lemma str_all_impl (p q : ascii → bool) s :
  (∀ a, p a = true → q a = true) → str_all p s = true → str_all q s = true.
Proof.
  intros Hpq. induction s as [|a s IH]; cbn; [done|].
  rewrite !andb_true_iff. intros [??]; auto.
Qed.

Lemma str_has_cons c a s : str_has c (String a s) = Ascii.eqb a c || str_has c s.
Proof. unfold str_has. cbn. by destruct (Ascii.eqb a c). Qed.

Lemma str_has_app c s t : str_has c (s +:+ t) = str_has c s || str_has c t.
Proof. unfold str_has. by rewrite str_all_app, negb_andb. Qed.

(** A string whose characters all satisfy a predicate that [c] fails has no [c]. *)
Lemma str_has_all p c s : str_all p s = true → p c = false → str_has c s = false.
Proof.
  intros Hs Hc. unfold str_has. rewrite negb_false_iff.
  eapply str_all_impl; [|exact Hs]. intros a Ha. rewrite negb_true_iff.
  destruct (Ascii.eqb_spec a c); congruence.
Qed.

Lemma str_split_nonnil c s : str_split c s ≠ [].
Proof. destruct s; cbn; [done|]. repeat case_match; done. Qed.

Lemma str_split_none c s : str_has c s = false → str_split c s = [s].
Proof.
  induction s as [|a s IH]; [done|].
  rewrite str_has_cons, orb_false_iff. intros [Ha Hs]. cbn.
  by rewrite Ha, (IH Hs).
Qed.

Lemma str_split_app c s t :
  str_has c s = false → str_split c (s +:+ String c t) = s :: str_split c t.
Proof.
  induction s as [|a s IH]; cbn.
  - intros _. by rewrite Ascii.eqb_refl.
  - rewrite str_has_cons, orb_false_iff. intros [Ha Hs].
    by rewrite Ha, (IH Hs).
Qed.

Lemma str_join_split c s : str_join (String c "") (str_split c s) = s.
Proof.
  induction s as [|a s IH]; [done|]. cbn [str_split].
  pose proof (str_split_nonnil c s) as Hnn.
  destruct (str_split c s) as [|p ps] eqn:E; [done|].
  destruct (Ascii.eqb_spec a c) as [->|_].
  - change (String c (str_join (String c "") (p :: ps)) = String c s). by rewrite IH.
  - rewrite <- IH. by destruct ps.
Qed.

Lemma str_split_once_app c s t :
  str_has c s = false → str_split_once c (s +:+ String c t) = Some (s, t).
Proof.
  induction s as [|a s IH]; cbn.
  - intros _. by rewrite Ascii.eqb_refl.
  - rewrite str_has_cons, orb_false_iff. intros [Ha Hs].
    by rewrite Ha, (IH Hs).
Qed.

Lemma code_range a : 0 ≤ code a < 256.
Proof. unfold code. pose proof (N_ascii_bounded a). lia. Qed.

Lemma code_ascii_of_N z : 0 ≤ z < 256 → code (ascii_of_N (Z.to_N z)) = z.
Proof. intros. unfold code. rewrite N_ascii_embedding by lia. lia. Qed.

Lemma strip_prefix_Some p s t : strip_prefix p s = Some t ↔ s = p +:+ t.
Proof.
  revert s. induction p as [|a p IH]; intros s; cbn.
  - split; congruence.
  - destruct s as [|b s]; [split; congruence|].
    destruct (Ascii.eqb_spec a b) as [->|Hne].
    + rewrite IH. split; congruence.
    + split; congruence.
Qed.

Lemma strip_prefix_app p t : strip_prefix p (p +:+ t) = Some t.
Proof. by apply strip_prefix_Some. Qed.

Lemma starts_with_spec p s : starts_with p s = true ↔ ∃ t, s = p +:+ t.
Proof.
  unfold starts_with. destruct (strip_prefix p s) as [t|] eqn:E.
  - apply strip_prefix_Some in E. split; eauto.
  - split; [done|]. intros [t ->]. by rewrite strip_prefix_app in E.
Qed.

Lemma str_app_inj_l p s t : p +:+ s = p +:+ t → s = t.
Proof. induction p as [|a p IH]; cbn; [done|]. intros [= H]. auto. Qed.

Lemma str_app_assoc s t u : (s +:+ t) +:+ u = s +:+ (t +:+ u).
Proof. induction s as [|a s IH]; cbn; [done|]. by rewrite IH. Qed.

Lemma str_app_nil_r s : s +:+ "" = s.
Proof. induction s as [|a s IH]; cbn; [done|]. by rewrite IH. Qed.

Lemma str_len_app s t : str_len (s +:+ t) = str_len s + str_len t.
Proof. unfold str_len. induction s as [|a s IH]; cbn; lia. Qed.

Lemma str_rev_involutive s : str_rev (str_rev s) = s.
Proof.
  unfold str_rev. rewrite list_ascii_of_string_of_list_ascii, rev_involutive.
  apply string_of_list_ascii_of_string.
Qed.

Lemma str_rev_app s t : str_rev (s +:+ t) = str_rev t +:+ str_rev s.
Proof.
  unfold str_rev.
  assert (list_ascii_of_string (s +:+ t) = list_ascii_of_string s ++ list_ascii_of_string t) as ->
    by (induction s as [|a s IH]; cbn; congruence).
  rewrite rev_app_distr.
  induction (rev (list_ascii_of_string t)) as [|a l IH]; cbn; [done|]. by rewrite IH.
Qed.

Lemma str_rev_nonempty s : s ≠ "" → str_rev s ≠ "".
Proof.
  intros Hs E. apply Hs. rewrite <- (str_rev_involutive s), E. done.
Qed.

Lemma str_all_list p s :
  str_all p s = forallb p (list_ascii_of_string s).
Proof. induction s as [|a s IH]; cbn; [done|]. by rewrite IH. Qed.

Lemma str_all_rev p s : str_all p (str_rev s) = str_all p s.
Proof.
  rewrite !str_all_list. unfold str_rev.
  rewrite list_ascii_of_string_of_list_ascii.
  induction (list_ascii_of_string s) as [|a l IH]; cbn; [done|].
  rewrite forallb_app. cbn. rewrite IH.
  by rewrite andb_true_r, andb_comm.
Qed.

(** Printable ASCII without the space: the bytes [str::trim] never removes. *)
Definition graphic (a : ascii) : bool := in_range 33 126 a.

Lemma graphic_not_ws a b c :
  graphic a = true → ws1 a = false ∧ ws2 a b = false ∧ ws2 b a = false
    ∧ ws3 a b c = false ∧ ws3 c b a = false.
Proof.
  unfold graphic, ws1, ws2, ws3, in_range.
  rewrite andb_true_iff, !Z.leb_le. intros [??].
  repeat split; lia.
Qed.

Lemma trim_start_graphic a s : graphic a = true → trim_start (String a s) = String a s.
Proof.
  intros Ha. destruct (graphic_not_ws a a a Ha) as (H1 & _). cbn. rewrite H1.
  destruct s as [|b s]; [done|].
  destruct (graphic_not_ws a b a Ha) as (_ & H2 & _). rewrite H2.
  destruct s as [|c s]; [done|].
  destruct (graphic_not_ws a b c Ha) as (_ & _ & _ & H3 & _). by rewrite H3.
Qed.

Lemma trim_start_rev_graphic a s :
  graphic a = true → trim_start_rev (String a s) = String a s.
Proof.
  intros Ha. destruct (graphic_not_ws a a a Ha) as (H1 & _). cbn. rewrite H1.
  destruct s as [|b s]; [done|].
  destruct (graphic_not_ws a b a Ha) as (_ & _ & H2 & _). rewrite H2.
  destruct s as [|c s]; [done|].
  destruct (graphic_not_ws a b c Ha) as (_ & _ & _ & _ & H3). by rewrite H3.
Qed.

Lemma trim_start_all_graphic s t :
  s ≠ "" → str_all graphic s = true → trim_start (s +:+ t) = s +:+ t.
Proof.
  destruct s as [|a s]; [done|]. intros _ Hs. apply trim_start_graphic.
  cbn in Hs. by apply andb_true_iff in Hs as [??].
Qed.
Lemma trim_end_graphic s : str_all graphic s = true → trim_end s = s.
Proof.
  intros Hs. unfold trim_end. assert (trim_start_rev (str_rev s) = str_rev s) as ->;
    [|apply str_rev_involutive].
  rewrite <- str_all_rev in Hs. destruct (str_rev s) as [|a t]; [done|].
  apply trim_start_rev_graphic. cbn in Hs. by apply andb_true_iff in Hs as [??].
Qed.

Lemma str_trim_graphic s : str_all graphic s = true → str_trim s = s.
Proof.
  intros Hs. unfold str_trim. destruct s as [|a s]; [done|].
  rewrite <- (str_app_nil_r (String a s)), trim_start_all_graphic, str_app_nil_r by done.
  by apply trim_end_graphic.
Qed.

(** Trimming a line removes its terminator. *)
Lemma str_trim_line s : str_all graphic s = true → str_trim (s +:+ String "010" "") = s.
Proof.
  intros Hs. unfold str_trim. destruct s as [|a s]; [done|].
  rewrite trim_start_all_graphic by done. rewrite <- (trim_end_graphic (String a s)) at 2 by done.
  unfold trim_end. rewrite str_rev_app. done.
Qed.

Lemma ascii_alphanumeric_graphic a : is_ascii_alphanumeric a = true → graphic a = true.
Proof.
  unfold is_ascii_alphanumeric, is_ascii_digit, is_ascii_lowercase,
    is_ascii_uppercase, graphic, in_range. intros H. lia.
Qed.

(** ** Lemmas on decimal numbers *)

Lemma is_digit_pretty d : (d < 10)%N →
  is_ascii_digit (pretty_N_char d) = true ∧ code (pretty_N_char d) = 48 + Z.of_N d.
Proof.
  intros Hd. assert (d = 0 ∨ d = 1 ∨ d = 2 ∨ d = 3 ∨ d = 4 ∨ d = 5 ∨ d = 6 ∨ d = 7
    ∨ d = 8 ∨ d = 9)%N as Hc by lia.
  repeat destruct Hc as [->|Hc]; [by vm_compute..|subst d; by vm_compute].
Qed.

Lemma dec_value_go x s : (x ≠ 0)%N → dec_value 0 (pretty_N_go x s) = dec_value (Z.of_N x) s.
Proof.
  revert s. induction (N.lt_wf_0 x) as [x _ IH]. intros s Hx.
  rewrite pretty_N_go_step by lia.
  destruct (is_digit_pretty (x `mod` 10)) as [Hd Hc]; [by apply N.mod_lt|].
  assert (∀ acc, acc = Z.of_N (x `div` 10) →
    dec_value acc (String (pretty_N_char (x `mod` 10)) s) = dec_value (Z.of_N x) s) as Hstep.
  { intros acc ->. cbn. rewrite Hd, Hc. f_equal. pose proof (N.div_mod x 10). lia. }
  destruct (decide (x `div` 10 = 0)%N) as [E|E].
  - rewrite E, pretty_N_go_0. apply Hstep. by rewrite E.
  - rewrite IH; [by apply Hstep| |done]. apply N.div_lt; lia.
Qed.

Lemma dec_value_pretty (z : Z) : 0 ≤ z → dec_value 0 (pretty z) = Some z.
Proof.
  intros Hz. destruct z as [|p|]; [done| |lia].
  change (dec_value 0 (pretty_N_go (N.pos p) "") = Some (Z.pos p)).
  by rewrite dec_value_go.
Qed.

Lemma pretty_N_go_digits x s :
  str_all is_ascii_digit s = true → str_all is_ascii_digit (pretty_N_go x s) = true.
Proof.
  revert s. induction (N.lt_wf_0 x) as [x _ IH]. intros s Hs.
  destruct (decide (x = 0)%N) as [->|Hx]; [by rewrite pretty_N_go_0|].
  rewrite pretty_N_go_step by lia. apply IH; [apply N.div_lt; lia|].
  cbn. rewrite Hs. by destruct (is_digit_pretty (x `mod` 10)) as [-> _]; [apply N.mod_lt|].
Qed.

Lemma pretty_digits (z : Z) : 0 ≤ z → str_all is_ascii_digit (pretty z) = true.
Proof.
  intros Hz. destruct z as [|p|]; [done| |lia].
  change (str_all is_ascii_digit (pretty_N_go (N.pos p) "") = true). by apply pretty_N_go_digits.
Qed.

Lemma pretty_nonempty (z : Z) : pretty z ≠ "".
Proof.
  destruct z as [|p|p]; [done| |done]. intros E.
  pose proof (dec_value_pretty (Z.pos p)) as Hd. rewrite E in Hd. by specialize (Hd ltac:(lia)).
Qed.

(** [i64] values read back as they were printed. *)
Lemma parse_i64_pretty (z : Z) : i64_ok z → parse_i64 (pretty z) = Some z.
Proof.
  intros Hz. unfold i64_ok in Hz.
  assert (∀ v, 0 ≤ v → (if String.eqb (pretty v) "" then None else dec_value 0 (pretty v)) = Some v)
    as Hd.
  { intros v Hv. destruct (String.eqb_spec (pretty v) ""); [by destruct (pretty_nonempty v)|].
    by apply dec_value_pretty. }
  destruct (decide (0 ≤ z)) as [Hp|Hn].
  - specialize (Hd z Hp). pose proof (pretty_digits z Hp) as Ha. unfold parse_i64.
    destruct (pretty z) as [|a s] eqn:E; [done|]. cbn [str_all] in Ha.
    apply andb_true_iff in Ha as [Ha _].
    destruct (Ascii.eqb_spec a "-"); [by subst|]. destruct (Ascii.eqb_spec a "+"); [by subst|].
    rewrite Hd. cbn [mbind option_bind]. by rewrite bool_decide_eq_true_2 by lia.
  - destruct z as [|p|p]; [lia..|]. specialize (Hd (Z.pos p) ltac:(lia)).
    change (pretty (Z.neg p)) with (String "-" (pretty (Z.pos p))). unfold parse_i64.
    rewrite Ascii.eqb_refl, Hd. cbn [fmap option_fmap option_map mbind option_bind].
    by rewrite bool_decide_eq_true_2 by lia.
Qed.

(** ** Lemmas on lists *)

Lemma filter_ext_in {A} (P Q : A → Prop) `{∀ x, Decision (P x), ∀ x, Decision (Q x)} (l : list A) :
  (∀ x, x ∈ l → P x ↔ Q x) → filter P l = filter Q l.
Proof.
  induction l as [|x l IH]; intros HPQ; [done|]. rewrite !filter_cons.
  rewrite IH by (intros; apply HPQ; by right).
  pose proof (HPQ x ltac:(left)). repeat case_decide; tauto.
Qed.

Lemma list_filter_none {A} (P : A → Prop) `{∀ x, Decision (P x)} (l : list A) :
  Forall (λ x, ¬ P x) l → filter P l = [].
Proof. induction 1 as [|x l Hx _ IH]; [done|]. by rewrite filter_cons_False. Qed.

Lemma list_filter_all {A} (P : A → Prop) `{∀ x, Decision (P x)} (l : list A) :
  Forall P l → filter P l = l.
Proof. induction 1; [done|]. rewrite filter_cons_True by done. congruence. Qed.

(** ** Inversion of computations *)

Lemma io_bind_ok {S E A B} (f : A → io S E B) (m : io S E A) s s' b :
  (m ≫= f) s = (s', Ok b) → ∃ s1 a, m s = (s1, Ok a) ∧ f a s1 = (s', Ok b).
Proof.
  unfold mbind, io_bind. destruct (m s) as [s1 [a|e]]; [eauto|]. intros; simplify_eq.
Qed.

Lemma io_bind_step {S E A B} (f : A → io S E B) (m : io S E A) s s1 a :
  m s = (s1, Ok a) → (m ≫= f) s = f a s1.
Proof. unfold mbind, io_bind. by intros ->. Qed.

Lemma io_bind_stop {S E A B} (f : A → io S E B) (m : io S E A) s s1 e :
  m s = (s1, Err e) → (m ≫= f) s = (s1, Err e).
Proof. unfold mbind, io_bind. by intros ->. Qed.

Lemma io_map_err_ok {S E E' A} (f : E → E') (m : io S E A) s s' a :
  io_map_err f m s = (s', Ok a) ↔ m s = (s', Ok a).
Proof.
  unfold io_map_err. destruct (m s) as [s1 [x|e]]; cbn; split; intros; simplify_eq; done.
Qed.

Lemma io_map_err_err {S E E' A} (f : E → E') (m : io S E A) s s' e :
  io_map_err f m s = (s', Err e) → ∃ e', m s = (s', Err e').
Proof.
  unfold io_map_err. destruct (m s) as [s1 [x|e']]; cbn; intros; simplify_eq; eauto.
Qed.

Lemma io_lift_inv {S E A} (x : result E A) s s' a :
  (io_lift x : io S E A) s = (s', Ok a) → s' = s ∧ x = Ok a.
Proof. by intros [= <- <-]. Qed.
Lemma io_ret_inv {S E A} (a : A) (s s' : S) r :
  (mret a : io S E A) s = (s', r) → s' = s ∧ r = Ok a.
Proof. by intros [= <- <-]. Qed.

(** Peel a successful sequence of computations in a hypothesis. *)
Ltac inv_io H :=
  repeat match type of H with
  | (_ ≫= _) _ = (_, Ok _) =>
      let s1 := fresh "st" in let a := fresh "v" in let H1 := fresh "Hio" in
      apply io_bind_ok in H as (s1 & a & H1 & H);
      try (apply io_map_err_ok in H1); cbn beta in H
  | mret _ _ = (_, _) => apply io_ret_inv in H as [? ?]
  | io_map_err _ _ _ = (_, Ok _) => apply io_map_err_ok in H
  end.

(** Break every [match] of a hypothesis and close the impossible branches. *)
Ltac inv_match H := repeat (case_match; cbn in H; try discriminate H).

(** Keys with different literal prefixes: unfold the key functions listed in
    the [keys] database down to the characters and discriminate. *)
Create HintDb keys.
Ltac key_ne :=
  let H := fresh in
  intros H; autounfold with keys in H;
  cbv beta iota delta [String.append] in H; discriminate H.

(** Simplify lookups through updates at keys that are equal or have different
    prefixes. *)
Ltac map_keys :=
  repeat first
    [ rewrite lookup_insert_eq
    | rewrite lookup_delete_eq
    | rewrite lookup_insert_ne by (key_ne || congruence)
    | rewrite lookup_delete_ne by (key_ne || congruence) ].

(** What holds after a history was made by one of its events and kept by all later
    ones, when every step either keeps it or makes it. *)
Lemma foldl_last_made {S Ev X} (step : S → Ev → S) (I : S → Prop) (P : S → X → Prop)
    (keep : Ev → X → Prop) (make : S → Ev → X → Prop) s0 :
  I s0 → (∀ s e, I s → I (step s e)) → (∀ x, ¬ P s0 x) →
  (∀ s e x, I s → P (step s e) x ↔ (P s x ∧ keep e x) ∨ make s e x) →
  ∀ h x, P (foldl step s0 h) x ↔
    ∃ h1 e h2, h = h1 ++ e :: h2 ∧ make (foldl step s0 h1) e x ∧ Forall (λ e, keep e x) h2.
Proof.
  intros Hi Hstep Hno Hpost h x.
  assert (∀ h, I (foldl step s0 h)) as Hall.
  { intros h'. induction h' as [|e h' IH] using rev_ind; [done|]. rewrite foldl_app. by apply Hstep. }
  induction h as [|e h IH] using rev_ind.
  { split; [intros HP; by destruct (Hno x)|]. intros (h1 & e & h2 & E & _). by apply app_cons_not_nil in E. }
  rewrite foldl_app. cbn [foldl]. rewrite Hpost, IH by done. split.
  - intros [[(h1 & e' & h2 & -> & Hm & Hk) He]|Hm].
    + exists h1, e', (h2 ++ [e]). split; [by rewrite <- (assoc_L (++))|].
      rewrite Forall_app, Forall_singleton. done.
    + by exists h, e, [].
  - intros (h1 & e' & h2 & E & Hm & Hk). destruct h2 as [|e2 h2 _] using rev_ind.
    + apply app_inj_tail in E as [-> ->]. by right.
    + rewrite app_comm_cons, (assoc_L (++)) in E. apply app_inj_tail in E as [-> ->].
      rewrite Forall_app, Forall_singleton in Hk. destruct Hk. left. split; [|done]. by exists h1, e', h2.
Qed.

(** Close an equation between closed terms by evaluation; the kernel compares
    the values, nothing is read back. *)
Ltac eval_eq :=
  match goal with |- ?a = ?b => vm_cast_no_check (@eq_refl _ b) end.
