(* ===== verification/Redis.v ===== *)
(** * The Redis server

    Redis is a service the repository only calls.  It is a parameter of the
    development: a class of commands over an abstract server state [R]
    ([RedisServer]) and a class of laws ([RedisSpec]) that state the documented
    behaviour of the commands in terms of the keys that are live at a given
    time.  Every command may fail; a failed command leaves the data unchanged or
    performs its effect (the reply may be lost after execution).
    [MemRedis] is a concrete server that satisfies the laws. *)

From S2P Require Import Prelude.

(** A stored value: a string or a set of strings. *)
Inductive rvalue :=
  | RString (s : string)
  | RSet (members : gset string).

(** A value with its expiry instant, if any. *)
Record rentry := REntry { re_value : rvalue; re_expires : option Z }.

(** An entry is visible strictly before its expiry instant. *)
Definition entry_live (now : Z) (e : rentry) : bool :=
  match re_expires e with Some t => now <? t | None => true end.

(** The string a [GET] replies with: none for a missing key, an error
    ([WRONGTYPE]) for a set. *)
Definition get_reply (o : option rentry) : option (option string) :=
  match o with
  | None => Some None
  | Some (REntry (RString s) _) => Some (Some s)
  | Some (REntry (RSet _) _) => None
  end.

(** The members of the set stored under a key, empty when missing. *)
Definition set_reply (o : option rentry) : option (gset string) :=
  match o with
  | None => Some ∅
  | Some (REntry (RSet m) _) => Some m
  | Some (REntry (RString _) _) => None
  end.

(** A pattern without the special characters of [KEYS] patterns. *)
Definition glob_literal (p : string) : bool :=
  str_all (λ a, negb (Ascii.eqb a "*" || Ascii.eqb a "?" || Ascii.eqb a "["
                      || Ascii.eqb a "]" || Ascii.eqb a "\"))%char p.

Definition redis_error := string.

(** The commands; the integer argument is the server's clock. *)
Class RedisServer (R : Type) := {
  (** Keys live at a time. *)
  live : Z → R → gmap string rentry;
  (** [pool.get()]: obtain a connection. *)
  r_connect : io R redis_error ();
  r_get : Z → string → io R redis_error (option string);
  r_exists : Z → string → io R redis_error bool;
  r_keys : Z → string → io R redis_error (list string);
  r_set : Z → string → string → io R redis_error ();
  (** [SET key value EX ttl] / [SETEX]: time to live in seconds. *)
  r_set_ex : Z → string → string → Z → io R redis_error ();
  (** [SET key value NX EX ttl]: the reply is nil when the key exists. *)
  r_set_nx_ex : Z → string → string → Z → io R redis_error (option string);
  r_del : Z → string → io R redis_error ();
  r_expire : Z → string → Z → io R redis_error ();
  r_sadd : Z → string → string → io R redis_error ();
  r_srem : Z → string → string → io R redis_error ();
  r_smembers : Z → string → io R redis_error (list string);
}.

(** A command that only reads keeps the live data, whatever it replies. *)
Definition reads `{RedisServer R} (now : Z) {E A} (c : io R E A) : Prop :=
  ∀ r r' res, c r = (r', res) → live now r' = live now r.

(** A command that, when it succeeds, turns the live data [m] into [f m]. *)
Definition writes `{RedisServer R} (now : Z) {E A} (c : io R E A)
    (f : gmap string rentry → gmap string rentry) : Prop :=
  (∀ r r' a, c r = (r', Ok a) → live now r' = f (live now r)) ∧
  (∀ r r' e, c r = (r', Err e) → live now r' = live now r ∨ live now r' = f (live now r)).

Definition put_ex (now : Z) (k v : string) (ttl : Z) (m : gmap string rentry) :=
  <[k := REntry (RString v) (Some (now + secs ttl))]> m.

Definition expire_map (now : Z) (k : string) (ttl : Z) (m : gmap string rentry) :=
  match m !! k with
  | Some e => if decide (ttl ≤ 0) then delete k m
              else <[k := REntry (re_value e) (Some (now + secs ttl))]> m
  | None => m
  end.

Definition sadd_map (k v : string) (m : gmap string rentry) :=
  match m !! k with
  | Some (REntry (RSet s) t) => <[k := REntry (RSet ({[v]} ∪ s)) t]> m
  | Some (REntry (RString _) _) => m
  | None => <[k := REntry (RSet {[v]}) None]> m
  end.

Definition srem_map (k v : string) (m : gmap string rentry) :=
  match m !! k with
  | Some (REntry (RSet s) t) =>
      if decide (s ∖ {[v]} = ∅) then delete k m
      else <[k := REntry (RSet (s ∖ {[v]})) t]> m
  | _ => m
  end.

(** The documented behaviour. *)
Class RedisSpec (R : Type) `{RedisServer R} := {
  live_expiry : ∀ now now' r, now ≤ now' →
    live now' r = filter (λ kv, entry_live now' kv.2 = true) (live now r);
  live_unexpired : ∀ now r k e, live now r !! k = Some e → entry_live now e = true;
  connect_spec : ∀ now, reads now r_connect;
  get_reads : ∀ now k, reads now (r_get now k);
  get_ok : ∀ now k r r' v, r_get now k r = (r', Ok v) →
    get_reply (live now r !! k) = Some v;
  exists_reads : ∀ now k, reads now (r_exists now k);
  exists_ok : ∀ now k r r' b, r_exists now k r = (r', Ok b) →
    b = bool_decide (is_Some (live now r !! k));
  keys_reads : ∀ now p, reads now (r_keys now p);
  keys_ok : ∀ now p r r' ks, glob_literal p = true →
    r_keys now (p +:+ "*") r = (r', Ok ks) →
    NoDup ks ∧ ∀ k, k ∈ ks ↔ starts_with p k = true ∧ is_Some (live now r !! k);
  set_writes : ∀ now k v,
    writes now (r_set now k v) (insert k (REntry (RString v) None));
  set_ex_writes : ∀ now k v ttl, writes now (r_set_ex now k v ttl) (put_ex now k v ttl);
  set_ex_positive : ∀ now k v ttl r r',
    r_set_ex now k v ttl r = (r', Ok ()) → 0 < ttl < 2 ^ 63;
  set_nx_ex_writes : ∀ now k v ttl,
    writes now (r_set_nx_ex now k v ttl)
      (λ m, match m !! k with Some _ => m | None => put_ex now k v ttl m end);
  set_nx_ex_reply : ∀ now k v ttl r r' o, r_set_nx_ex now k v ttl r = (r', Ok o) →
    0 < ttl < 2 ^ 63 ∧ (is_Some o ↔ live now r !! k = None);
  del_writes : ∀ now k, writes now (r_del now k) (delete k);
  expire_writes : ∀ now k ttl, writes now (r_expire now k ttl) (expire_map now k ttl);
  sadd_writes : ∀ now k v, writes now (r_sadd now k v) (sadd_map k v);
  srem_writes : ∀ now k v, writes now (r_srem now k v) (srem_map k v);
  smembers_reads : ∀ now k, reads now (r_smembers now k);
  smembers_ok : ∀ now k r r' l, r_smembers now k r = (r', Ok l) →
    ∃ s, set_reply (live now r !! k) = Some s ∧ NoDup l ∧ ∀ x, x ∈ l ↔ x ∈ s;
}.

(** ** Reasoning about sequences of commands *)

(** The string stored under a key, as a successful [GET] reports it. *)
Definition str_at (m : gmap string rentry) (k : string) : option string :=
  match m !! k with Some (REntry (RString s) _) => Some s | _ => None end.

Lemma get_reply_str_at m k v : get_reply (m !! k) = Some v → v = str_at m k.
Proof. unfold str_at. destruct (m !! k) as [[[s|s] t]|]; cbn; intros; by simplify_eq. Qed.

Section reads.
Context `{RedisSpec R}.
Implicit Types (now : Z) (r : R).

Lemma reads_ret {E A} now (a : A) : reads now (mret a : io R E A).
Proof. by intros r r' res [= <- _]. Qed.

Lemma reads_fail {E A} now (e : E) : reads now (io_fail e : io R E A).
Proof. by intros r r' res [= <- _]. Qed.

Lemma reads_lift {E A} now (x : result E A) : reads now (io_lift x : io R E A).
Proof. by intros r r' res [= <- _]. Qed.

Lemma reads_bind {E A B} now (c : io R E A) (f : A → io R E B) :
  reads now c → (∀ a, reads now (f a)) → reads now (c ≫= f).
Proof.
  intros Hc Hf r r' res. unfold mbind, io_bind. destruct (c r) as [r1 [a|e]] eqn:E1.
  - intros E2. rewrite (Hf a _ _ _ E2). apply (Hc _ _ _ E1).
  - intros [= <- _]. apply (Hc _ _ _ E1).
Qed.

Lemma reads_map_err {E E' A} now (f : E → E') (c : io R E A) :
  reads now c → reads now (io_map_err f c).
Proof.
  intros Hc r r' res. unfold io_map_err. destruct (c r) as [r1 x] eqn:E1.
  intros [= <- _]. apply (Hc _ _ _ E1).
Qed.

Lemma reads_try {E E' A B} now (c : io R E A) (k : result E A → io R E' B) :
  reads now c → (∀ x, reads now (k x)) → reads now (io_try c k).
Proof.
  intros Hc Hk r r' res. unfold io_try. destruct (c r) as [r1 x] eqn:E1.
  intros E2. rewrite (Hk x _ _ _ E2). apply (Hc _ _ _ E1).
Qed.

Lemma get_ok_at now k r r' v :
  r_get now k r = (r', Ok v) → v = str_at (live now r) k ∧ live now r' = live now r.
Proof.
  intros E. split; [apply get_reply_str_at; by eapply get_ok|by eapply get_reads].
Qed.

(** An entry written with a time to live is seen until it expires, provided
    nothing else touches its key. *)
Lemma live_later now now' r k v t :
  now ≤ now' → live now r !! k = Some (REntry v t) →
  live now' r !! k =
    if entry_live now' (REntry v t) then Some (REntry v t) else None.
Proof.
  intros Hle Hk. rewrite (live_expiry now now' r Hle).
  destruct (entry_live now' (REntry v t)) eqn:E.
  - by apply map_lookup_filter_Some.
  - apply map_lookup_filter_None. right. intros e He. rewrite Hk in He.
    simplify_eq. cbn. congruence.
Qed.

(** A key two servers agree on, they agree on later. *)
Lemma live_same_later now now' r r' k :
  now ≤ now' → live now r' !! k = live now r !! k → live now' r' !! k = live now' r !! k.
Proof.
  intros Hle E. rewrite !(live_expiry now now' _ Hle), !map_lookup_filter. by rewrite E.
Qed.

Lemma str_at_later now now' r k s :
  now ≤ now' → str_at (live now' r) k = Some s → str_at (live now r) k = Some s.
Proof.
  intros Hle. unfold str_at. rewrite (live_expiry now now' r Hle).
  destruct (filter _ (live now r) !! k) as [e|] eqn:E; [|done].
  apply map_lookup_filter_Some in E as [-> _]. done.
Qed.
End reads.

Create HintDb redis.
#[export] Hint Resolve connect_spec get_reads exists_reads keys_reads smembers_reads
  reads_ret reads_fail reads_lift reads_bind reads_map_err reads_try : redis.

(** Times to live every server accepts: positive, and far from the range of
    its millisecond clock. *)
Definition ttl_ok (ttl : Z) : Prop := 0 < ttl < 2 ^ 50.

(** A server that answers: commands with legal arguments succeed. *)
Class RedisAvailable (R : Type) `{RedisServer R} := {
  up_connect : ∀ r, ∃ r', r_connect r = (r', Ok ());
  up_get : ∀ now k r, get_reply (live now r !! k) ≠ None →
    ∃ r' v, r_get now k r = (r', Ok v);
  up_exists : ∀ now k r, ∃ r' b, r_exists now k r = (r', Ok b);
  up_keys : ∀ now p r, ∃ r' ks, r_keys now p r = (r', Ok ks);
  up_set : ∀ now k v r, ∃ r', r_set now k v r = (r', Ok ());
  up_set_ex : ∀ now k v ttl r, ttl_ok ttl →
    ∃ r', r_set_ex now k v ttl r = (r', Ok ());
  up_set_nx_ex : ∀ now k v ttl r, ttl_ok ttl →
    ∃ r' o, r_set_nx_ex now k v ttl r = (r', Ok o);
  up_del : ∀ now k r, ∃ r', r_del now k r = (r', Ok ());
  up_expire : ∀ now k ttl r, ∃ r', r_expire now k ttl r = (r', Ok ());
}.

(** ** Runs on an available server

    [runs now c m a m']: from every server whose live data is [m], the
    computation [c] succeeds with [a] and leaves the live data [m']. *)
Definition runs `{RedisServer R} (now : Z) {E A} (c : io R E A)
    (m : gmap string rentry) (a : A) (m' : gmap string rentry) : Prop :=
  ∀ r, live now r = m → ∃ r', c r = (r', Ok a) ∧ live now r' = m'.

Section runs.
Context `{Hs : RedisServer R} {Hspec : RedisSpec R} {Hup : RedisAvailable R}.

Lemma runs_ret {E A} now (a : A) m : runs now (mret a : io R E A) m a m.
Proof. intros r Hr. by exists r. Qed.

Lemma runs_lift {E A} now (a : A) m : runs now (io_lift (Ok a) : io R E A) m a m.
Proof. intros r Hr. by exists r. Qed.

Lemma runs_bind {E A B} now (c : io R E A) (f : A → io R E B) m a m1 b m2 :
  runs now c m a m1 → runs now (f a) m1 b m2 → runs now (c ≫= f) m b m2.
Proof.
  intros Hc Hf r Hr. destruct (Hc r Hr) as (r1 & E1 & H1).
  destruct (Hf r1 H1) as (r2 & E2 & H2). exists r2.
  by rewrite (io_bind_step _ _ _ _ _ E1).
Qed.

Lemma runs_map_err {E E' A} now (g : E → E') (c : io R E A) m a m' :
  runs now c m a m' → runs now (io_map_err g c) m a m'.
Proof.
  intros Hc r Hr. destruct (Hc r Hr) as (r1 & E1 & H1). exists r1.
  by rewrite io_map_err_ok.
Qed.

Lemma runs_connect now m : runs now r_connect m () m.
Proof.
  intros r Hr. destruct (up_connect r) as [r' E]. exists r'. split; [done|].
  rewrite <- Hr. by eapply connect_spec.
Qed.

Lemma runs_get now k m v : get_reply (m !! k) = Some v → runs now (r_get now k) m v m.
Proof.
  intros Hv r Hr. destruct (up_get now k r) as (r' & w & E); [congruence|].
  exists r'. pose proof (get_ok _ _ _ _ _ E) as Hw. rewrite Hr, Hv in Hw. simplify_eq.
  split; [done|]. by eapply get_reads.
Qed.

Lemma runs_exists now k m :
  runs now (r_exists now k) m (bool_decide (is_Some (m !! k))) m.
Proof.
  intros r Hr. destruct (up_exists now k r) as (r' & b & E). exists r'.
  pose proof (exists_ok _ _ _ _ _ E) as ->. rewrite Hr in *.
  split; [done|]. rewrite <- Hr. by eapply exists_reads.
Qed.

Lemma runs_keys now p m r :
  glob_literal p = true → live now r = m →
  ∃ r' ks, r_keys now (p +:+ "*") r = (r', Ok ks) ∧ live now r' = m
    ∧ NoDup ks ∧ ∀ k, k ∈ ks ↔ starts_with p k = true ∧ is_Some (m !! k).
Proof.
  intros Hp Hr. destruct (up_keys now (p +:+ "*") r) as (r' & ks & E).
  exists r', ks. pose proof (keys_ok _ _ _ _ _ Hp E) as [??]. rewrite Hr in *.
  split_and!; auto. rewrite <- Hr. by eapply keys_reads.
Qed.

Lemma runs_set now k v m : runs now (r_set now k v) m () (<[k := REntry (RString v) None]> m).
Proof.
  intros r <-. destruct (up_set now k v r) as [r' E]. exists r'. split; [done|].
  by eapply set_writes.
Qed.

Lemma runs_set_ex now k v ttl m :
  ttl_ok ttl → runs now (r_set_ex now k v ttl) m () (put_ex now k v ttl m).
Proof.
  intros Ht r <-. destruct (up_set_ex now k v ttl r Ht) as [r' E]. exists r'. split; [done|].
  by eapply set_ex_writes.
Qed.

(** [SET NX] wins on a missing key. *)
Lemma runs_set_nx_ex now k v ttl m r :
  ttl_ok ttl → m !! k = None → live now r = m →
  ∃ r' x, r_set_nx_ex now k v ttl r = (r', Ok (Some x))
    ∧ live now r' = put_ex now k v ttl m.
Proof.
  intros Ht Hk Hr. destruct (up_set_nx_ex now k v ttl r Ht) as (r' & o & E).
  pose proof (set_nx_ex_reply _ _ _ _ _ _ _ E) as [_ Ho]. rewrite Hr in Ho.
  destruct o as [x|]; [|by destruct (proj2 Ho Hk)]. exists r', x. split; [done|].
  pose proof (proj1 (set_nx_ex_writes now k v ttl) _ _ _ E) as ->. by rewrite Hr, Hk.
Qed.

(** [SET NX] does nothing on a present key. *)
Lemma runs_set_nx_ex_held now k v ttl m :
  ttl_ok ttl → is_Some (m !! k) → runs now (r_set_nx_ex now k v ttl) m None m.
Proof.
  intros Ht [e Hk] r Hr. destruct (up_set_nx_ex now k v ttl r Ht) as (r' & o & E).
  pose proof (set_nx_ex_reply _ _ _ _ _ _ _ E) as [_ Ho]. rewrite Hr in Ho.
  destruct o as [x|]; [rewrite (proj1 Ho) in Hk by eauto; done|]. exists r'. split; [done|].
  pose proof (proj1 (set_nx_ex_writes now k v ttl) _ _ _ E) as ->. by rewrite Hr, Hk.
Qed.

Lemma runs_del now k m : runs now (r_del now k) m () (delete k m).
Proof.
  intros r <-. destruct (up_del now k r) as [r' E]. exists r'. split; [done|].
  by eapply del_writes.
Qed.

Lemma runs_expire now k ttl m : runs now (r_expire now k ttl) m () (expire_map now k ttl m).
Proof.
  intros r <-. destruct (up_expire now k ttl r) as [r' E]. exists r'. split; [done|].
  by eapply expire_writes.
Qed.
End runs.

Create HintDb runs.
#[export] Hint Resolve runs_ret runs_lift runs_map_err runs_connect runs_get runs_exists
  runs_set runs_set_ex runs_del runs_expire : runs.

(** ** A concrete server *)
Module MemRedis.

Definition mem := gmap string rentry.

Definition mlive (now : Z) (m : mem) : gmap string rentry :=
  filter (λ kv, entry_live now kv.2 = true) m.

(** Evict the expired keys, then apply [f]. *)
Definition upd (now : Z) (f : gmap string rentry → gmap string rentry) : io mem redis_error () :=
  λ m, (f (mlive now m), Ok ()).

Definition ttl_legal (ttl : Z) : bool := (0 <? ttl) && (ttl <? 2 ^ 63).

Definition mget now k : io mem redis_error (option string) :=
  λ m, (m, ok_or (get_reply (mlive now m !! k)) "WRONGTYPE").
Definition mexists now k : io mem redis_error bool :=
  λ m, (m, Ok (bool_decide (is_Some (mlive now m !! k)))).
(** Only patterns that end in one star are used. *)
Definition mkeys now (pattern : string) : io mem redis_error (list string) :=
  λ m, (m, Ok (filter (λ k, starts_with (trim_end_matches "*" pattern) k = true)
                 (elements (dom (mlive now m))))).
Definition mset_ex now k v ttl : io mem redis_error () :=
  λ m, if ttl_legal ttl then upd now (put_ex now k v ttl) m
       else (m, Err "ERR invalid expire time").
Definition mset_nx_ex now k v ttl : io mem redis_error (option string) :=
  λ m, if ttl_legal ttl then
         match mlive now m !! k with
         | Some _ => (mlive now m, Ok None)
         | None => (put_ex now k v ttl (mlive now m), Ok (Some "OK"))
         end
       else (m, Err "ERR invalid expire time").
Definition msmembers now k : io mem redis_error (list string) :=
  λ m, (m, ok_or (elements <$> set_reply (mlive now m !! k)) "WRONGTYPE").

#[export] Instance mem_server : RedisServer mem := {|
  live := mlive;
  r_connect := λ m, (m, Ok ());
  r_get := mget;
  r_exists := mexists;
  r_keys := mkeys;
  r_set := λ now k v, upd now (insert k (REntry (RString v) None));
  r_set_ex := mset_ex;
  r_set_nx_ex := mset_nx_ex;
  r_del := λ now k, upd now (delete k);
  r_expire := λ now k ttl, upd now (expire_map now k ttl);
  r_sadd := λ now k v, upd now (sadd_map k v);
  r_srem := λ now k v, upd now (srem_map k v);
  r_smembers := msmembers;
|}.

(** A map in which every entry is live. *)
Definition all_live (now : Z) (m : gmap string rentry) : Prop :=
  ∀ k e, m !! k = Some e → entry_live now e = true.

Lemma mlive_all now m : all_live now (mlive now m).
Proof. intros k e. unfold mlive. by intros [_ ?]%map_lookup_filter_Some. Qed.

Lemma mlive_id now m : all_live now m → mlive now m = m.
Proof.
  intros Hm. unfold mlive. apply map_filter_id. intros k e Hk. apply (Hm _ _ Hk).
Qed.

Lemma all_live_insert now k e m :
  entry_live now e = true → all_live now m → all_live now (<[k := e]> m).
Proof.
  intros He Hm k' e'. rewrite lookup_insert_Some. intros [[_ <-]|[_ ?]]; eauto.
Qed.

Lemma all_live_delete now k m : all_live now m → all_live now (delete k m).
Proof. intros Hm k' e'. rewrite lookup_delete_Some. intros [_ ?]; eauto. Qed.

Lemma entry_live_ttl now v ttl : 0 < ttl → entry_live now (REntry v (Some (now + secs ttl))) = true.
Proof. intros. cbn. unfold secs. lia. Qed.

#[local] Hint Resolve mlive_all all_live_insert all_live_delete entry_live_ttl : core.

Lemma all_live_expire now k ttl m : all_live now m → all_live now (expire_map now k ttl m).
Proof.
  intros. unfold expire_map. case_match; [|done]. case_decide; [auto|].
  apply all_live_insert; [|done]. apply entry_live_ttl. lia.
Qed.

Lemma all_live_sadd now k v m : all_live now m → all_live now (sadd_map k v m).
Proof.
  intros Hm. unfold sadd_map. destruct (m !! k) as [[[s|s] t]|] eqn:E; auto.
  apply all_live_insert; [|done]. apply (Hm _ _ E).
Qed.

Lemma all_live_srem now k v m : all_live now m → all_live now (srem_map k v m).
Proof.
  intros Hm. unfold srem_map. destruct (m !! k) as [[[s|s] t]|] eqn:E; auto.
  case_decide; [auto|]. apply all_live_insert; [|done]. apply (Hm _ _ E).
Qed.

Lemma upd_writes now f :
  (∀ m, all_live now m → all_live now (f m)) → writes now (upd now f) f.
Proof.
  intros Hf. split; intros r r' e; unfold upd; intros; simplify_eq.
  cbn. apply mlive_id. auto.
Qed.

Lemma trim_star p : glob_literal p = true → trim_end_matches "*" (p +:+ "*") = p.
Proof.
  unfold glob_literal. intros Hp. unfold trim_end_matches.
  assert (str_rev (p +:+ "*") = String "*" (str_rev p)) as ->.
  { unfold str_rev. induction p as [|a p IH]; [done|].
    cbn in Hp. apply andb_true_iff in Hp as [_ Hp]. specialize (IH Hp).
    change (String a p +:+ "*") with (String a (p +:+ "*")). cbn.
    assert (rev (list_ascii_of_string (p +:+ "*")) = "*"%char :: rev (list_ascii_of_string p)) as ->; [|done].
    apply (f_equal list_ascii_of_string) in IH. cbn in IH.
    by rewrite !list_ascii_of_string_of_list_ascii in IH. }
  cbn. rewrite <- str_all_rev in Hp.
  assert (drop_char "*" (str_rev p) = str_rev p) as ->; [|apply str_rev_involutive].
  destruct (str_rev p) as [|a q]; [done|]. cbn in *.
  apply andb_true_iff in Hp as [Ha _]. by destruct (Ascii.eqb a "*").
Qed.

Lemma reads_same {A} now (f : mem → result redis_error A) : reads now (λ m, (m, f m)).
Proof. by intros r r' res [= <- _]. Qed.

Lemma mset_ex_writes now k v ttl : writes now (mset_ex now k v ttl) (put_ex now k v ttl).
Proof.
  split; intros r r' a; unfold mset_ex, ttl_legal, upd; case_match; intros; simplify_eq; auto.
  apply mlive_id, all_live_insert; auto. apply entry_live_ttl. lia.
Qed.

Lemma mset_nx_ex_writes now k v ttl :
  writes now (mset_nx_ex now k v ttl)
    (λ m, match m !! k with Some _ => m | None => put_ex now k v ttl m end).
Proof.
  split; intros r r' a; unfold mset_nx_ex, ttl_legal; case_match; intros Hr; simplify_eq; auto.
  - destruct (mlive now r !! k) eqn:E; simplify_eq; cbn; rewrite E; apply mlive_id; auto.
    apply all_live_insert; auto. apply entry_live_ttl. lia.
  - destruct (mlive now r !! k); simplify_eq.
Qed.

#[export] Instance mem_spec : RedisSpec mem.
Proof.
  constructor.
  - intros now now' r Hle. apply map_eq; intros k. cbn. unfold mlive.
    apply option_eq; intros e. rewrite !map_lookup_filter_Some.
    unfold entry_live. destruct e as [v [t|]]; cbn; split; intros; destruct_and?; split_and?; auto; lia.
  - intros now r k e. apply mlive_all.
  - intros now. apply (reads_same now (λ _, Ok ())).
  - intros now k. apply reads_same.
  - intros now k r r' v [= <- Hr]. cbn. unfold ok_or in Hr. by case_match; simplify_eq.
  - intros now k. apply reads_same.
  - intros now k r r' b [= <- <-]. done.
  - intros now p. apply reads_same.
  - intros now p r r' ks Hp. cbn. unfold mkeys. rewrite trim_star by done.
    intros [= <- <-]. split; [apply NoDup_filter, NoDup_elements|].
    intros k. rewrite list_elem_of_filter, elem_of_elements, elem_of_dom. done.
  - intros. apply upd_writes. intros. apply all_live_insert; auto.
  - intros. apply mset_ex_writes.
  - intros now k v ttl r r'. cbn. unfold mset_ex, ttl_legal. case_match; intros; simplify_eq. lia.
  - intros. apply mset_nx_ex_writes.
  - intros now k v ttl r r' o. cbn. unfold mset_nx_ex, ttl_legal.
    case_match; [|intros; simplify_eq]. destruct (mlive now r !! k);
      intros; simplify_eq; (split; [lia|]); split; intros Ho; try done; by destruct Ho.
  - intros. apply upd_writes; auto.
  - intros. apply upd_writes, all_live_expire.
  - intros. apply upd_writes, all_live_sadd.
  - intros. apply upd_writes, all_live_srem.
  - intros now k. apply reads_same.
  - intros now k r r' l [= <- Hr]. cbn. unfold ok_or in Hr.
    destruct (set_reply _) as [s|]; cbn in Hr; simplify_eq.
    exists s. split; [done|]. split; [apply NoDup_elements|]. intros x. apply elem_of_elements.
Qed.

#[export] Instance mem_available : RedisAvailable mem.
Proof.
  constructor; intros; cbn; unfold mget, mset_ex, mset_nx_ex, ttl_legal, mkeys, mexists, upd, ttl_ok in *; eauto.
  - change (live now r) with (mlive now r) in *.
    destruct (get_reply _) eqn:E; [|done]. cbn. eauto.
  - destruct (_ && _) eqn:E; [eauto|lia].
  - destruct (_ && _) eqn:E; [|lia]. case_match; eauto.
Qed.

End MemRedis.
