(* ===== verification/Serde.v ===== *)
(** * Serialisation

    The external encodings the services share: UUIDs, timestamps and JSON text
    are parameters with their round trips ([Codec]); the mapping between Rust
    structs and JSON documents, which the sources determine through
    [#[derive(Serialize, Deserialize)]], is modelled here on document trees
    ([json], [fields_of]).  [BitCodec] is a concrete codec. *)

From S2P Require Import Prelude.

#[local] Set Warnings "-register-all".

(** A JSON document.  Object members keep their order and duplicates. *)
Inductive json :=
  | JNull
  | JBool (b : bool)
  | JNum (z : Z)
  | JStr (s : string)
  | JArr (l : list json)
  | JObj (m : list (string * json)).

(** Induction with the hypothesis on every element and member. *)
Section json_ind.
Context (P : json → Prop).
Context (Hnull : P JNull) (Hbool : ∀ b, P (JBool b)) (Hnum : ∀ z, P (JNum z)).
Context (Hstr : ∀ s, P (JStr s)) (Harr : ∀ l, Forall P l → P (JArr l)).
Context (Hobj : ∀ m, Forall (λ kv, P kv.2) m → P (JObj m)).

Fixpoint json_ind' (j : json) : P j :=
  match j with
  | JNull => Hnull | JBool b => Hbool b | JNum z => Hnum z | JStr s => Hstr s
  | JArr l => Harr l ((fix go l : Forall P l :=
      match l with
      | [] => Forall_nil_2 _
      | j :: l' => Forall_cons_2 _ _ _ (json_ind' j) (go l')
      end) l)
  | JObj m => Hobj m ((fix go m : Forall (λ kv, P kv.2) m :=
      match m with
      | [] => Forall_nil_2 _
      | kv :: m' => Forall_cons_2 _ _ _ (json_ind' kv.2) (go m')
      end) m)
  end.
End json_ind.

(** Numbers serde_json prints and reads back as integers. *)
Fixpoint json_wf (j : json) : bool :=
  match j with
  | JNum z => (- 2 ^ 63 <=? z) && (z <? 2 ^ 64)
  | JArr l => forallb json_wf l
  | JObj m => forallb (λ kv, json_wf kv.2) m
  | _ => true
  end.

(** The instants of the years 0 to 9999, for which RFC 3339 has a text. *)
Definition dt_ok (t : Z) : Prop := secs (-62167219200) ≤ t < secs 253402300800.

(** The characters of a printed UUID. *)
Definition uuid_char (a : ascii) : bool :=
  is_ascii_digit a || in_range 97 102 a || Ascii.eqb a "-".

Class Codec := {
  uuid : Type;
  #[global] uuid_eq_dec :: EqDecision uuid;
  (** [Uuid::to_string], [Uuid::parse_str]. *)
  uuid_to_string : uuid → string;
  uuid_parse : string → option uuid;
  uuid_roundtrip : ∀ u, uuid_parse (uuid_to_string u) = Some u;
  uuid_chars : ∀ u, str_all uuid_char (uuid_to_string u) = true;
  (** The text is the hyphenated one. *)
  uuid_hyphen : ∀ u, str_has "-" (uuid_to_string u) = true;
  (** [DateTime<Utc>] as serde writes it and as [FromStr] reads it. *)
  dt_to_string : Z → string;
  dt_parse : string → option Z;
  dt_roundtrip : ∀ t, dt_ok t → dt_parse (dt_to_string t) = Some t;
  (** [to_rfc3339], [parse_from_rfc3339]. *)
  to_rfc3339 : Z → string;
  parse_from_rfc3339 : string → option Z;
  rfc3339_roundtrip : ∀ t, dt_ok t → parse_from_rfc3339 (to_rfc3339 t) = Some t;
  rfc3339_fromstr : ∀ t, dt_ok t → dt_parse (to_rfc3339 t) = Some t;
  (** [serde_json::to_string], [serde_json::from_str]. *)
  json_to_string : json → string;
  json_from_str : string → option json;
  json_roundtrip : ∀ j, json_wf j = true → json_from_str (json_to_string j) = Some j;
}.

(** ** Derived [Deserialize] *)

(** The value of a field of an object: [None] for a duplicate field. *)
Definition obj_field (m : list (string * json)) (name : string)
    : option (option json) :=
  match filter (λ kv, kv.1 = name) m with
  | [] => Some None
  | [kv] => Some (Some kv.2)
  | _ => None
  end.

Fixpoint obj_fields (m : list (string * json)) (names : list string)
    : option (list (option json)) :=
  match names with
  | [] => Some []
  | n :: ns => v ← obj_field m n; vs ← obj_fields m ns; Some (v :: vs)
  end.

(** The fields of a derived struct, in declaration order: an object with
    unknown members ignored and duplicates refused, or an array read
    positionally. *)
Definition fields_of (names : list string) (j : json) : option (list (option json)) :=
  match j with
  | JObj m => obj_fields m names
  | JArr l => if bool_decide (length l ≤ length names)%nat
              then Some ((Some <$> l) ++ replicate (length names - length l) None)
              else None
  | _ => None
  end.

Definition de_string (o : option json) : option string :=
  match o with Some (JStr s) => Some s | _ => None end.
Definition de_bool (o : option json) : option bool :=
  match o with Some (JBool b) => Some b | _ => None end.
(** An unsigned integer of a width: out of range values are refused. *)
Definition de_uint (w : Z) (o : option json) : option Z :=
  match o with
  | Some (JNum z) => if (0 <=? z) && (z <? 2 ^ w) then Some z else None
  | _ => None
  end.
Definition de_strings (o : option json) : option (list string) :=
  match o with
  | Some (JArr l) => mapM (λ j, de_string (Some j)) l
  | _ => None
  end.
(** [Option<T>]: absent and [null] are [None]. *)
Definition de_option {A} (f : option json → option A) (o : option json) : option (option A) :=
  match o with
  | None | Some JNull => Some None
  | Some _ => Some <$> f o
  end.
(** [#[serde(default)]]. *)
Definition de_default {A} (d : A) (f : option json → option A) (o : option json) : option A :=
  match o with None => Some d | Some _ => f o end.

Section codec.
Context `{Codec}.

Definition de_uuid (o : option json) : option uuid := de_string o ≫= uuid_parse.
Definition de_datetime (o : option json) : option Z := de_string o ≫= dt_parse.

(** [serde_json::to_string] of a serialised value and
    [serde_json::from_str] at a type with decoder [de]. *)
Definition from_str {A} (de : json → option A) (s : string) : option A :=
  json_from_str s ≫= de.

Lemma from_str_to_string {A} (de : json → option A) j :
  json_wf j = true → from_str de (json_to_string j) = de j.
Proof. intros Hj. unfold from_str. by rewrite json_roundtrip. Qed.

(** Characters of a UUID: no [':'], no ['.'], graphic. *)
Lemma uuid_no_colon u : str_has ":" (uuid_to_string u) = false.
Proof. eapply str_has_all; [apply uuid_chars|done]. Qed.

Lemma uuid_to_string_inj u v : uuid_to_string u = uuid_to_string v → u = v.
Proof.
  intros E. apply (f_equal uuid_parse) in E. rewrite !uuid_roundtrip in E. by simplify_eq.
Qed.
End codec.

Lemma de_uint_ok w z : 0 ≤ z < 2 ^ w → de_uint w (Some (JNum z)) = Some z.
Proof. intros. cbn. destruct (_ && _) eqn:E; [done|lia]. Qed.

Lemma de_strings_ok l : de_strings (Some (JArr (JStr <$> l))) = Some l.
Proof.
  cbn. induction l as [|s l IH]; [done|]. by rewrite fmap_cons; cbn; rewrite IH.
Qed.

Lemma forallb_strings l : forallb json_wf (JStr <$> l) = true.
Proof. by induction l. Qed.

Lemma obj_field_cons_ne k v m n : k ≠ n → obj_field ((k, v) :: m) n = obj_field m n.
Proof. intros. unfold obj_field. by rewrite filter_cons_False. Qed.

Lemma obj_field_absent m n : n ∉ m.*1 → obj_field m n = Some None.
Proof.
  induction m as [|[k v] m IH]; [done|]. cbn. rewrite not_elem_of_cons. intros [??].
  rewrite obj_field_cons_ne; auto.
Qed.

Lemma obj_fields_cons_ne k v m ns : k ∉ ns → obj_fields ((k, v) :: m) ns = obj_fields m ns.
Proof.
  induction ns as [|n ns IH]; cbn; [done|]. rewrite not_elem_of_cons. intros [??].
  by rewrite obj_field_cons_ne, IH.
Qed.

(** Reading back the members of a serialised struct. *)
Lemma fields_of_zip names vs :
  NoDup names → length names = length vs →
  fields_of names (JObj (zip names vs)) = Some (Some <$> vs).
Proof.
  cbn. intros Hnd. revert vs. induction Hnd as [|n ns Hn _ IH]; intros [|v vs] [=]; [done|].
  cbn [zip zip_with obj_fields]. rewrite obj_fields_cons_ne by done.
  assert (obj_field ((n, v) :: zip ns vs) n = Some (Some v)) as ->.
  { unfold obj_field. rewrite filter_cons_True by done.
    destruct (filter _ (zip ns vs)) as [|kv l] eqn:E; [done|]. exfalso.
    assert (kv ∈ filter (λ kv : string * json, kv.1 = n) (zip ns vs)) as Hk
      by (rewrite E; left).
    apply list_elem_of_filter in Hk as [<- Hk]. destruct kv as [k w]. cbn in Hn.
    apply elem_of_zip_l in Hk. done. }
  rewrite IH by done. done.
Qed.

(** ** A concrete codec *)
Module BitCodec.

(** Bit strings for positive numbers, and through them for every countable
    type. *)
Fixpoint pos_str (p : positive) : string :=
  match p with
  | xH => ""
  | xO q => String "0" (pos_str q)
  | xI q => String "1" (pos_str q)
  end.

Fixpoint str_pos (s : string) : option positive :=
  match s with
  | "" => Some xH
  | String a s' =>
      if Ascii.eqb a "0" then xO <$> str_pos s'
      else if Ascii.eqb a "1" then xI <$> str_pos s' else None
  end.

Lemma str_pos_str p : str_pos (pos_str p) = Some p.
Proof. induction p as [p IH|p IH|]; cbn; try rewrite IH; done. Qed.

Lemma pos_str_chars p : str_all uuid_char (pos_str p) = true.
Proof. by induction p. Qed.

Definition print `{Countable A} (a : A) : string := pos_str (encode a).
Definition parse `{Countable A} (s : string) : option A := str_pos s ≫= decode.

Lemma parse_print `{Countable A} (a : A) : parse (print a) = Some a.
Proof. unfold parse, print. rewrite str_pos_str. cbn. apply decode_encode. Qed.

(** JSON documents as generic trees. *)
Fixpoint to_tree (j : json) : gen_tree (bool + Z + string) :=
  match j with
  | JNull => GenNode 0 []
  | JBool b => GenLeaf (inl (inl b))
  | JNum z => GenLeaf (inl (inr z))
  | JStr s => GenLeaf (inr s)
  | JArr l => GenNode 1 (to_tree <$> l)
  | JObj m => GenNode 2 ((λ kv, GenNode 3 [GenLeaf (inr kv.1); to_tree kv.2]) <$> m)
  end.

Definition of_member (f : gen_tree (bool + Z + string) → option json)
    (t : gen_tree (bool + Z + string)) : option (string * json) :=
  match t with GenNode 3 [GenLeaf (inr k); v] => pair k <$> f v | _ => None end.

Definition to_member (kv : string * json) : gen_tree (bool + Z + string) :=
  GenNode 3 [GenLeaf (inr kv.1); to_tree kv.2].

Fixpoint of_tree (t : gen_tree (bool + Z + string)) : option json :=
  match t with
  | GenNode 0 [] => Some JNull
  | GenLeaf (inl (inl b)) => Some (JBool b)
  | GenLeaf (inl (inr z)) => Some (JNum z)
  | GenLeaf (inr s) => Some (JStr s)
  | GenNode 1 l => JArr <$> mapM of_tree l
  | GenNode 2 l => JObj <$> mapM (of_member of_tree) l
  | _ => None
  end.

Lemma mapM_Forall {A B C} (f : A → B) (g : B → option C) (h : A → C) l :
  Forall (λ a, g (f a) = Some (h a)) l → mapM g (f <$> l) = Some (h <$> l).
Proof.
  induction 1 as [|a l Ha _ IH]; [done|].
  change (g (f a) ≫= (λ y, mapM g (f <$> l) ≫= λ k, mret (y :: k)) = Some (h <$> a :: l)).
  by rewrite Ha, IH.
Qed.

Lemma of_to_tree (j : json) : of_tree (to_tree j) = Some j.
Proof.
  induction j as [| | | |l IH|m IH] using json_ind'; [done..| |].
  - change (JArr <$> mapM of_tree (to_tree <$> l) = Some (JArr l)).
    by rewrite (mapM_Forall to_tree of_tree id), list_fmap_id.
  - change (JObj <$> mapM (of_member of_tree) (to_member <$> m) = Some (JObj m)).
    rewrite (mapM_Forall to_member (of_member of_tree) id); [by rewrite list_fmap_id|].
    eapply Forall_impl; [exact IH|]. intros [k j]; cbn. by intros ->.
Qed.

#[export] Instance json_eq_dec : EqDecision json.
Proof.
  intros x y. destruct (decide (to_tree x = to_tree y)) as [E|E]; [left|right; congruence].
  apply (f_equal of_tree) in E. rewrite !of_to_tree in E. by simplify_eq.
Defined.
#[export] Instance json_countable : Countable json :=
  inj_countable to_tree of_tree of_to_tree.

(** Identifiers, with the hyphen in front. *)
Definition print_id (n : N) : string := String "-" (print n).
Definition parse_id (s : string) : option N :=
  match s with String "-" s => parse s | _ => None end.
Lemma parse_print_id n : parse_id (print_id n) = Some n.
Proof. apply parse_print. Qed.

#[export, refine] Instance bit_codec : Codec := {|
  uuid := N;
  uuid_to_string := print_id;
  uuid_parse := parse_id;
  dt_to_string := print;
  dt_parse := parse;
  to_rfc3339 := print;
  parse_from_rfc3339 := parse;
  json_to_string := print;
  json_from_str := parse;
|}.
Proof.
  all: intros; try apply parse_print; try apply parse_print_id; try done.
  cbn. apply pos_str_chars.
Defined.

End BitCodec.
