(* ===== verification/Models.v ===== *)
(** * Shared records

    The records the services exchange through Redis and their JSON shapes:
    the control API's [Tunnel] (crates/backendapi/src/models.rs), the hub's and
    the edge's view of the same document, [TunnelInfo]
    (crates/common/src/redis/tunnel.rs), [TunnelData] and [UserTunnelLookup]
    (crates/common/src/tunnel.rs) and [SessionData]
    (crates/common/src/redis/auth.rs). *)

From S2P Require Import Prelude Serde.

(** ** Enumerations *)

Inductive TunnelStatus := Creating | Active | Destroying | Expired | Error.
#[export] Instance TunnelStatus_eq_dec : EqDecision TunnelStatus.
Proof. solve_decision. Defined.

Inductive TeardownPolicy := TtlOnly | ViewerIdle.
#[export] Instance TeardownPolicy_eq_dec : EqDecision TeardownPolicy.
Proof. solve_decision. Defined.

(** [#[serde(rename_all = "lowercase")]]. *)
Definition status_name (s : TunnelStatus) : string :=
  match s with
  | Creating => "creating" | Active => "active" | Destroying => "destroying"
  | Expired => "expired" | Error => "error"
  end.
(** [#[serde(rename_all = "snake_case")]]. *)
Definition policy_name (p : TeardownPolicy) : string :=
  match p with TtlOnly => "ttl_only" | ViewerIdle => "viewer_idle" end.

(** A unit variant is read from its name, or from an object whose only member
    is the name with [null]. *)
Definition variant_name (o : option json) : option string :=
  match o with
  | Some (JStr s) => Some s
  | Some (JObj [(s, JNull)]) => Some s
  | _ => None
  end.

Definition find_variant {A} (name : A → string) (l : list A) (s : string) : option A :=
  head (filter (λ a, name a = s) l).

Definition de_status (o : option json) : option TunnelStatus :=
  variant_name o ≫= find_variant status_name [Creating; Active; Destroying; Expired; Error].
Definition de_policy (o : option json) : option TeardownPolicy :=
  variant_name o ≫= find_variant policy_name [TtlOnly; ViewerIdle].

(** ** The hub's view *)

Record TunnelInfo := {
  i_id : string;
  i_github_user_id : string;
  i_github_username : string;
  i_subdomain : string;
  i_fqdn : string;
  i_local_port : Z;
  i_slot : Z;
  i_certificate_serial : string;
  i_created_at : string;
  i_expires_at : string;
  i_status : string;
  i_protected : bool;
  i_teardown_policy : TeardownPolicy;
}.

Definition tunnel_fields : list string :=
  ["id"; "github_user_id"; "github_username"; "subdomain"; "fqdn"; "local_port";
   "slot"; "certificate_serial"; "created_at"; "expires_at"; "status";
   "protected"; "teardown_policy"].

Definition ser_TunnelInfo (t : TunnelInfo) : json :=
  JObj (zip tunnel_fields
    [JStr (i_id t); JStr (i_github_user_id t); JStr (i_github_username t);
     JStr (i_subdomain t); JStr (i_fqdn t); JNum (i_local_port t); JNum (i_slot t);
     JStr (i_certificate_serial t); JStr (i_created_at t); JStr (i_expires_at t);
     JStr (i_status t); JBool (i_protected t); JStr (policy_name (i_teardown_policy t))]).

Definition de_TunnelInfo (j : json) : option TunnelInfo :=
  vs ← fields_of tunnel_fields j;
  match vs with
  | [id; uid; uname; sub; fqdn; lport; slot; cert; created; expires; status; prot; pol] =>
      id ← de_string id; uid ← de_string uid; uname ← de_string uname;
      sub ← de_string sub; fqdn ← de_string fqdn;
      lport ← de_uint 16 lport; slot ← de_uint 16 slot;
      cert ← de_string cert; created ← de_string created; expires ← de_string expires;
      status ← de_string status;
      prot ← de_default false de_bool prot;
      pol ← de_default TtlOnly de_policy pol;
      Some {| i_id := id; i_github_user_id := uid; i_github_username := uname;
              i_subdomain := sub; i_fqdn := fqdn; i_local_port := lport; i_slot := slot;
              i_certificate_serial := cert; i_created_at := created;
              i_expires_at := expires; i_status := status;
              i_protected := prot; i_teardown_policy := pol |}
  | _ => None
  end.

(** ** User lookups *)

Record UserTunnelLookup := {
  l_github_user_id : string;
  l_github_username : string;
  l_tunnels : list string;
}.

Definition lookup_fields : list string := ["github_user_id"; "github_username"; "tunnels"].

Definition ser_UserTunnelLookup (l : UserTunnelLookup) : json :=
  JObj (zip lookup_fields
    [JStr (l_github_user_id l); JStr (l_github_username l); JArr (JStr <$> l_tunnels l)]).

Definition de_UserTunnelLookup (j : json) : option UserTunnelLookup :=
  vs ← fields_of lookup_fields j;
  match vs with
  | [uid; uname; ts] =>
      uid ← de_string uid; uname ← de_string uname; ts ← de_strings ts;
      Some {| l_github_user_id := uid; l_github_username := uname; l_tunnels := ts |}
  | _ => None
  end.

Lemma lookup_json_wf l : json_wf (ser_UserTunnelLookup l) = true.
Proof. cbn. by rewrite forallb_strings. Qed.

Lemma de_ser_lookup l : de_UserTunnelLookup (ser_UserTunnelLookup l) = Some l.
Proof.
  destruct l as [uid uname ts]. unfold de_UserTunnelLookup, ser_UserTunnelLookup.
  rewrite fields_of_zip by (done || by apply (bool_decide_unpack _)).
  csimpl. pose proof (de_strings_ok ts) as Hts. csimpl in *. by rewrite Hts.
Qed.

Section codec.
Context `{Codec}.

(** ** The control API's tunnel record *)

Record Tunnel := {
  t_id : uuid;
  t_github_user_id : string;
  t_github_username : string;
  t_subdomain : string;
  t_fqdn : string;
  t_local_port : Z;
  t_slot : Z;
  t_certificate_serial : string;
  t_created_at : Z;
  t_expires_at : Z;
  t_status : TunnelStatus;
  t_protected : bool;
  t_teardown_policy : TeardownPolicy;
}.

Definition set_status (t : Tunnel) (s : TunnelStatus) : Tunnel :=
  {| t_id := t_id t; t_github_user_id := t_github_user_id t;
     t_github_username := t_github_username t; t_subdomain := t_subdomain t;
     t_fqdn := t_fqdn t; t_local_port := t_local_port t; t_slot := t_slot t;
     t_certificate_serial := t_certificate_serial t; t_created_at := t_created_at t;
     t_expires_at := t_expires_at t; t_status := s; t_protected := t_protected t;
     t_teardown_policy := t_teardown_policy t |}.

(** [Tunnel::new]; the clock and the random identifier are arguments. *)
Definition Tunnel_new (now : Z) (id : uuid)
    (github_user_id github_username subdomain base_domain : string)
    (local_port slot : Z) (certificate_serial : string) (ttl_seconds : Z) : Tunnel :=
  {| t_id := id;
     t_github_user_id := github_user_id;
     t_github_username := github_username;
     t_subdomain := subdomain;
     t_fqdn := subdomain +:+ "." +:+ base_domain;
     t_local_port := local_port;
     t_slot := slot;
     t_certificate_serial := certificate_serial;
     t_created_at := now;
     t_expires_at := now + secs (as_i64 ttl_seconds);
     t_status := Creating;
     t_protected := false;
     t_teardown_policy := TtlOnly |}.

Definition is_expired (now : Z) (t : Tunnel) : bool := t_expires_at t <? now.
Definition remaining_ttl (now : Z) (t : Tunnel) : Z := num_seconds (t_expires_at t - now).

Definition ser_Tunnel (t : Tunnel) : json :=
  JObj (zip tunnel_fields
    [JStr (uuid_to_string (t_id t)); JStr (t_github_user_id t); JStr (t_github_username t);
     JStr (t_subdomain t); JStr (t_fqdn t); JNum (t_local_port t); JNum (t_slot t);
     JStr (t_certificate_serial t); JStr (dt_to_string (t_created_at t));
     JStr (dt_to_string (t_expires_at t)); JStr (status_name (t_status t));
     JBool (t_protected t); JStr (policy_name (t_teardown_policy t))]).

Definition de_Tunnel (j : json) : option Tunnel :=
  vs ← fields_of tunnel_fields j;
  match vs with
  | [id; uid; uname; sub; fqdn; lport; slot; cert; created; expires; status; prot; pol] =>
      id ← de_uuid id; uid ← de_string uid; uname ← de_string uname;
      sub ← de_string sub; fqdn ← de_string fqdn;
      lport ← de_uint 16 lport; slot ← de_uint 16 slot;
      cert ← de_string cert; created ← de_datetime created; expires ← de_datetime expires;
      status ← de_status status;
      prot ← de_default false de_bool prot;
      pol ← de_default TtlOnly de_policy pol;
      Some {| t_id := id; t_github_user_id := uid; t_github_username := uname;
              t_subdomain := sub; t_fqdn := fqdn; t_local_port := lport; t_slot := slot;
              t_certificate_serial := cert; t_created_at := created;
              t_expires_at := expires; t_status := status;
              t_protected := prot; t_teardown_policy := pol |}
  | _ => None
  end.

(** The values the Rust types of the fields admit. *)
Definition tunnel_ok (t : Tunnel) : Prop :=
  u16_ok (t_local_port t) ∧ u16_ok (t_slot t)
  ∧ dt_ok (t_created_at t) ∧ dt_ok (t_expires_at t).

(** The record the hub and the edge see for an API tunnel. *)
Definition info_of (t : Tunnel) : TunnelInfo :=
  {| i_id := uuid_to_string (t_id t);
     i_github_user_id := t_github_user_id t;
     i_github_username := t_github_username t;
     i_subdomain := t_subdomain t;
     i_fqdn := t_fqdn t;
     i_local_port := t_local_port t;
     i_slot := t_slot t;
     i_certificate_serial := t_certificate_serial t;
     i_created_at := dt_to_string (t_created_at t);
     i_expires_at := dt_to_string (t_expires_at t);
     i_status := status_name (t_status t);
     i_protected := t_protected t;
     i_teardown_policy := t_teardown_policy t |}.

Lemma tunnel_json_wf t : tunnel_ok t → json_wf (ser_Tunnel t) = true.
Proof. intros ([??] & [??] & _). cbn. repeat (rewrite andb_true_iff; split); lia || done. Qed.

Lemma de_policy_name p : de_policy (Some (JStr (policy_name p))) = Some p.
Proof. by destruct p. Qed.

Lemma de_status_name s : de_status (Some (JStr (status_name s))) = Some s.
Proof. by destruct s. Qed.

Lemma de_ser_Tunnel t : tunnel_ok t → de_Tunnel (ser_Tunnel t) = Some t.
Proof.
  intros (Hl & Hs & Hc & He). destruct t as [id uid un sub fqdn lp sl cert cr ex st pr pol].
  unfold de_Tunnel, ser_Tunnel.
  rewrite fields_of_zip by (done || by apply (bool_decide_unpack _)).
  cbn -[de_uint de_status de_policy de_uuid de_datetime].
  unfold de_uuid, de_datetime; cbn -[de_uint de_status de_policy].
  rewrite uuid_roundtrip; cbn -[de_uint de_status de_policy].
  rewrite !de_uint_ok by done; cbn -[de_status de_policy].
  rewrite !dt_roundtrip by done; cbn -[de_status de_policy].
  by rewrite de_status_name; cbn -[de_policy]; rewrite de_policy_name.
Qed.

(** The hub decodes the API's document, field by field. *)
Lemma de_TunnelInfo_ser_Tunnel t :
  tunnel_ok t → de_TunnelInfo (ser_Tunnel t) = Some (info_of t).
Proof.
  intros (Hl & Hs & _ & _). destruct t as [id uid un sub fqdn lp sl cert cr ex st pr pol].
  unfold de_TunnelInfo, ser_Tunnel.
  rewrite fields_of_zip by (done || by apply (bool_decide_unpack _)). cbn -[de_uint de_policy].
  rewrite !de_uint_ok by done; cbn -[de_policy]. by rewrite de_policy_name.
Qed.

(** ** Tunnel data of the common crate *)

Record TunnelData := {
  d_id : string;
  d_github_user_id : string;
  d_github_username : string;
  d_subdomain : string;
  d_fqdn : string;
  d_local_port : Z;
  d_slot : Z;
  d_certificate_serial : string;
  d_created_at : string;
  d_expires_at : string;
  d_status : string;
}.

Definition TunnelData_new (now : Z) (id : uuid)
    (github_user_id github_username subdomain fqdn : string)
    (local_port slot : Z) (certificate_serial : string) (expires_at : Z) : TunnelData :=
  {| d_id := uuid_to_string id; d_github_user_id := github_user_id;
     d_github_username := github_username; d_subdomain := subdomain; d_fqdn := fqdn;
     d_local_port := local_port; d_slot := slot;
     d_certificate_serial := certificate_serial;
     d_created_at := to_rfc3339 now; d_expires_at := to_rfc3339 expires_at;
     d_status := "creating" |}.

Definition tunnel_id (d : TunnelData) : option uuid := uuid_parse (d_id d).

Definition data_is_expired (now : Z) (d : TunnelData) : bool :=
  match parse_from_rfc3339 (d_expires_at d) with
  | Some e => e <? now
  | None => true
  end.

Definition ttl_seconds (now : Z) (d : TunnelData) : Z :=
  match parse_from_rfc3339 (d_expires_at d) with
  | Some e => as_u64 (Z.max (num_seconds (e - now)) 0)
  | None => 0
  end.

(** ** SSH sessions *)

Record SessionData := {
  s_github_user_id : string;
  s_public_key : string;
  s_fingerprint : string;
  s_expires_at : Z;
  s_session_id : string;
}.

Definition session_fields : list string :=
  ["github_user_id"; "public_key"; "fingerprint"; "expires_at"; "session_id"].

Definition ser_SessionData (s : SessionData) : json :=
  JObj (zip session_fields
    [JStr (s_github_user_id s); JStr (s_public_key s); JStr (s_fingerprint s);
     JStr (dt_to_string (s_expires_at s)); JStr (s_session_id s)]).

Definition de_SessionData (j : json) : option SessionData :=
  vs ← fields_of session_fields j;
  match vs with
  | [uid; pk; fp; ex; sid] =>
      uid ← de_string uid; pk ← de_string pk; fp ← de_string fp;
      ex ← de_datetime ex; sid ← de_string sid;
      Some {| s_github_user_id := uid; s_public_key := pk; s_fingerprint := fp;
              s_expires_at := ex; s_session_id := sid |}
  | _ => None
  end.

Lemma session_json_wf s : json_wf (ser_SessionData s) = true.
Proof. done. Qed.

Lemma de_ser_SessionData s :
  dt_ok (s_expires_at s) → de_SessionData (ser_SessionData s) = Some s.
Proof.
  intros He. destruct s as [uid pk fp ex sid]. unfold de_SessionData, ser_SessionData.
  rewrite fields_of_zip by (done || by apply (bool_decide_unpack _)).
  cbn -[de_datetime]. unfold de_datetime; cbn. by rewrite dt_roundtrip.
Qed.

End codec.
