(* ===== verification/Errors.v ===== *)
(** * Error types

    [FE] is the workspace-wide [FleetingDnsError] (crates/common/src/error.rs),
    [AE] the control API's [ApiError] (crates/backendapi/src/error.rs): their
    variants, messages, categories, HTTP statuses, codes and retry hints, and the
    bodies of error responses.  Of [log_error] the level is modelled. *)

From S2P Require Import Prelude Serde.

(** The categories, the same in both crates. *)
Inductive ErrorCategory :=
  | Client | Authentication | Authorization | RateLimit | Resource | Service
  | Network | Validation.
#[export] Instance ErrorCategory_eq_dec : EqDecision ErrorCategory.
Proof. solve_decision. Defined.

(** [Map::insert] on a details object, for keys inserted once; the member order
    of the object is not observable. *)
Definition detail (k : string) (o : option string) : list (string * json) :=
  match o with Some v => [(k, JStr v)] | None => [] end.

Definition non_empty (m : list (string * json)) : option json :=
  match m with [] => None | _ => Some (JObj m) end.

Module FE.

Inductive t :=
  | AuthenticationFailed (msg : string)
  | AuthorizationFailed (msg : string)
  | Unauthorized (msg : string)
  | Forbidden (msg : string)
  | TokenExpired (msg : string)
  | InvalidToken (msg : string)
  | NotFound (msg : string)
  | AlreadyExists (msg : string)
  | Conflict (msg : string)
  | BadRequest (msg : string)
  | ValidationError (msg : string)
  | StorageError (msg : string)
  | DatabaseError (msg : string)
  | RedisError (msg : string)
  | ConnectionError (msg : string)
  | TimeoutError (msg : string)
  | ExternalService (msg : string)
  | GitHubApiError (msg : string)
  | CertificateError (msg : string)
  | DnsError (msg : string)
  | SshError (msg : string)
  | TlsError (msg : string)
  | RateLimitExceeded (msg : string)
  | QuotaExceeded (msg : string)
  | TooManyRequests (msg : string)
  | ResourceExhausted (msg : string)
  | ConfigurationError (msg : string)
  | InternalError (msg : string)
  | ServiceUnavailable (msg : string)
  | CircuitBreakerOpen (msg : string)
  | NetworkError (msg : string)
  | ConnectionRefused (msg : string)
  | RequestTimeout (msg : string)
  | PayloadTooLarge (msg : string)
  | UnsupportedMediaType (msg : string)
  | SerializationError (msg : string)
  | DeserializationError (msg : string)
  | EncodingError (msg : string)
  | DecodingError (msg : string)
  | Io (msg : string)
  | Json (msg : string)
  | Generic (msg : string).

(** The messages of [#[error(...)]]. *)
Definition to_string (e : t) : string :=
  match e with
  | AuthenticationFailed m => "Authentication failed: " +:+ m
  | AuthorizationFailed m => "Authorization failed: " +:+ m
  | Unauthorized m => "Unauthorized: " +:+ m
  | Forbidden m => "Forbidden: " +:+ m
  | TokenExpired m => "Token expired: " +:+ m
  | InvalidToken m => "Invalid token: " +:+ m
  | NotFound m => "Resource not found: " +:+ m
  | AlreadyExists m => "Resource already exists: " +:+ m
  | Conflict m => "Resource conflict: " +:+ m
  | BadRequest m => "Invalid request: " +:+ m
  | ValidationError m => "Validation error: " +:+ m
  | StorageError m => "Storage error: " +:+ m
  | DatabaseError m => "Database error: " +:+ m
  | RedisError m => "Redis error: " +:+ m
  | ConnectionError m => "Connection error: " +:+ m
  | TimeoutError m => "Timeout error: " +:+ m
  | ExternalService m => "External service error: " +:+ m
  | GitHubApiError m => "GitHub API error: " +:+ m
  | CertificateError m => "Certificate authority error: " +:+ m
  | DnsError m => "DNS error: " +:+ m
  | SshError m => "SSH error: " +:+ m
  | TlsError m => "TLS error: " +:+ m
  | RateLimitExceeded m => "Rate limit exceeded: " +:+ m
  | QuotaExceeded m => "Quota exceeded: " +:+ m
  | TooManyRequests m => "Too many requests: " +:+ m
  | ResourceExhausted m => "Resource exhausted: " +:+ m
  | ConfigurationError m => "Configuration error: " +:+ m
  | InternalError m => "Internal server error: " +:+ m
  | ServiceUnavailable m => "Service unavailable: " +:+ m
  | CircuitBreakerOpen m => "Circuit breaker open: " +:+ m
  | NetworkError m => "Network error: " +:+ m
  | ConnectionRefused m => "Connection refused: " +:+ m
  | RequestTimeout m => "Request timeout: " +:+ m
  | PayloadTooLarge m => "Payload too large: " +:+ m
  | UnsupportedMediaType m => "Unsupported media type: " +:+ m
  | SerializationError m => "Serialization error: " +:+ m
  | DeserializationError m => "Deserialization error: " +:+ m
  | EncodingError m => "Encoding error: " +:+ m
  | DecodingError m => "Decoding error: " +:+ m
  | Io m => "IO error: " +:+ m
  | Json m => "JSON error: " +:+ m
  | Generic m => "Generic error: " +:+ m
  end.

Definition category (e : t) : ErrorCategory :=
  match e with
  | AuthenticationFailed _ | TokenExpired _ | InvalidToken _ => Authentication
  | AuthorizationFailed _ | Unauthorized _ | Forbidden _ => Authorization
  | RateLimitExceeded _ | QuotaExceeded _ | TooManyRequests _ => RateLimit
  | ResourceExhausted _ | PayloadTooLarge _ => Resource
  | BadRequest _ | ValidationError _ | UnsupportedMediaType _ => Client
  | NetworkError _ | ConnectionRefused _ | RequestTimeout _ | ConnectionError _ => Network
  | InternalError _ | ServiceUnavailable _ | CircuitBreakerOpen _ | ExternalService _
    | GitHubApiError _ | CertificateError _ | DnsError _ | SshError _ | TlsError _
    | StorageError _ | DatabaseError _ | RedisError _ | TimeoutError _ | ConfigurationError _
    | SerializationError _ | DeserializationError _ | EncodingError _ | DecodingError _
    | Io _ | Json _ | Generic _ => Service
  | _ => Client
  end.

Definition status_code (e : t) : Z :=
  match e with
  | BadRequest _ => 400
  | Unauthorized _ => 401
  | AuthenticationFailed _ => 401
  | TokenExpired _ => 401
  | InvalidToken _ => 401
  | Forbidden _ => 403
  | AuthorizationFailed _ => 403
  | NotFound _ => 404
  | Conflict _ => 409
  | ValidationError _ => 422
  | PayloadTooLarge _ => 413
  | UnsupportedMediaType _ => 415
  | TooManyRequests _ => 429
  | RateLimitExceeded _ => 429
  | QuotaExceeded _ => 429
  | InternalError _ => 500
  | ServiceUnavailable _ => 503
  | CircuitBreakerOpen _ => 503
  | ExternalService _ => 502
  | GitHubApiError _ => 502
  | CertificateError _ => 500
  | DnsError _ => 500
  | SshError _ => 500
  | TlsError _ => 500
  | StorageError _ => 500
  | DatabaseError _ => 500
  | RedisError _ => 500
  | ConfigurationError _ => 500
  | SerializationError _ => 500
  | DeserializationError _ => 500
  | EncodingError _ => 500
  | DecodingError _ => 500
  | Io _ => 500
  | Json _ => 500
  | Generic _ => 500
  | NetworkError _ => 502
  | ConnectionRefused _ => 502
  | RequestTimeout _ => 504
  | ConnectionError _ => 502
  | TimeoutError _ => 504
  | ResourceExhausted _ => 503
  | AlreadyExists _ => 409
  end.

Definition retry_after (e : t) : option Z :=
  match e with
  | RateLimitExceeded _ => Some 60
  | TooManyRequests _ => Some 60
  | QuotaExceeded _ => Some 3600
  | ServiceUnavailable _ => Some 30
  | CircuitBreakerOpen _ => Some 300
  | RequestTimeout _ => Some 5
  | TimeoutError _ => Some 5
  | _ => None
  end.

Definition error_code (e : t) : string :=
  match e with
  | AuthenticationFailed _ => "AUTH_FAILED"
  | AuthorizationFailed _ => "AUTHZ_FAILED"
  | Unauthorized _ => "UNAUTHORIZED"
  | Forbidden _ => "FORBIDDEN"
  | TokenExpired _ => "TOKEN_EXPIRED"
  | InvalidToken _ => "INVALID_TOKEN"
  | NotFound _ => "NOT_FOUND"
  | AlreadyExists _ => "ALREADY_EXISTS"
  | Conflict _ => "CONFLICT"
  | BadRequest _ => "BAD_REQUEST"
  | ValidationError _ => "VALIDATION_ERROR"
  | StorageError _ => "STORAGE_ERROR"
  | DatabaseError _ => "DATABASE_ERROR"
  | RedisError _ => "REDIS_ERROR"
  | ConnectionError _ => "CONNECTION_ERROR"
  | TimeoutError _ => "TIMEOUT_ERROR"
  | ExternalService _ => "EXTERNAL_SERVICE_ERROR"
  | GitHubApiError _ => "GITHUB_API_ERROR"
  | CertificateError _ => "CERTIFICATE_ERROR"
  | DnsError _ => "DNS_ERROR"
  | SshError _ => "SSH_ERROR"
  | TlsError _ => "TLS_ERROR"
  | RateLimitExceeded _ => "RATE_LIMIT_EXCEEDED"
  | QuotaExceeded _ => "QUOTA_EXCEEDED"
  | TooManyRequests _ => "TOO_MANY_REQUESTS"
  | ResourceExhausted _ => "RESOURCE_EXHAUSTED"
  | ConfigurationError _ => "CONFIGURATION_ERROR"
  | InternalError _ => "INTERNAL_ERROR"
  | ServiceUnavailable _ => "SERVICE_UNAVAILABLE"
  | CircuitBreakerOpen _ => "CIRCUIT_BREAKER_OPEN"
  | NetworkError _ => "NETWORK_ERROR"
  | ConnectionRefused _ => "CONNECTION_REFUSED"
  | RequestTimeout _ => "REQUEST_TIMEOUT"
  | PayloadTooLarge _ => "PAYLOAD_TOO_LARGE"
  | UnsupportedMediaType _ => "UNSUPPORTED_MEDIA_TYPE"
  | SerializationError _ => "SERIALIZATION_ERROR"
  | DeserializationError _ => "DESERIALIZATION_ERROR"
  | EncodingError _ => "ENCODING_ERROR"
  | DecodingError _ => "DECODING_ERROR"
  | Io _ => "IO_ERROR"
  | Json _ => "JSON_ERROR"
  | Generic _ => "GENERIC_ERROR"
  end.

Record ErrorContext := {
  request_id : option string; user_id : option string; endpoint : option string;
  method : option string; client_ip : option string; user_agent : option string;
  service_name : option string; operation : option string;
}.

Definition error_details (e : t) (c : ErrorContext) : option json :=
  non_empty
    (detail "user_id" (user_id c) ++ detail "endpoint" (endpoint c)
     ++ detail "method" (method c) ++ detail "service" (service_name c)
     ++ detail "operation" (operation c)
     ++ match e with
        | ValidationError m => detail "validation_message" (Some m)
        | RateLimitExceeded m => detail "rate_limit_message" (Some m)
        | QuotaExceeded m => detail "quota_message" (Some m)
        | _ => []
        end).

Record ErrorResponse := {
  r_error : string; r_message : string; r_code : Z; r_error_id : string;
  r_timestamp : string; r_request_id : option string; r_details : option json;
  r_retry_after : option Z; r_category : ErrorCategory;
}.

(** The fresh error identifier and the clock are arguments. *)
Definition into_error_response `{Codec} (now : Z) (error_id : uuid) (e : t)
    (c : ErrorContext) : ErrorResponse :=
  {| r_error := error_code e; r_message := to_string e; r_code := status_code e;
     r_error_id := uuid_to_string error_id; r_timestamp := to_rfc3339 now;
     r_request_id := request_id c; r_details := error_details e c;
     r_retry_after := retry_after e; r_category := category e |}.

End FE.

Module AE.

Inductive t :=
  | AuthenticationFailed (msg : string)
  | AuthorizationFailed (msg : string)
  | Unauthorized (msg : string)
  | Forbidden (msg : string)
  | TunnelNotFound (msg : string)
  | CertificateError (msg : string)
  | StorageError (msg : string)
  | ConfigurationError (msg : string)
  | GitHubApiError (msg : string)
  | ExternalService (msg : string)
  | RateLimitExceeded
  | BadRequest (msg : string)
  | InternalError (msg : string)
  | ValidationError (msg : string)
  | NotFound (msg : string)
  | DatabaseError (msg : string)
  | ServiceUnavailable (msg : string)
  | Conflict (msg : string)
  | PreconditionFailed (msg : string)
  | RequestTimeout (msg : string)
  | PayloadTooLarge (msg : string)
  | UnsupportedMediaType (msg : string)
  | TooManyRequests (msg : string)
  | QuotaExceeded (msg : string)
  | ResourceExhausted (msg : string)
  | CircuitBreakerOpen (msg : string).

(** The messages of [#[error(...)]]. *)
Definition to_string (e : t) : string :=
  match e with
  | AuthenticationFailed m => "Authentication failed: " +:+ m
  | AuthorizationFailed m => "Authorization failed: " +:+ m
  | Unauthorized m => "Unauthorized: " +:+ m
  | Forbidden m => "Forbidden: " +:+ m
  | TunnelNotFound m => "Tunnel not found: " +:+ m
  | CertificateError m => "Certificate error: " +:+ m
  | StorageError m => "Storage error: " +:+ m
  | ConfigurationError m => "Configuration error: " +:+ m
  | GitHubApiError m => "GitHub API error: " +:+ m
  | ExternalService m => "External service error: " +:+ m
  | RateLimitExceeded => "Rate limit exceeded"
  | BadRequest m => "Invalid request: " +:+ m
  | InternalError m => "Internal server error: " +:+ m
  | ValidationError m => "Validation error: " +:+ m
  | NotFound m => "Not found: " +:+ m
  | DatabaseError m => "Database error: " +:+ m
  | ServiceUnavailable m => "Service unavailable: " +:+ m
  | Conflict m => "Conflict: " +:+ m
  | PreconditionFailed m => "Precondition failed: " +:+ m
  | RequestTimeout m => "Request timeout: " +:+ m
  | PayloadTooLarge m => "Payload too large: " +:+ m
  | UnsupportedMediaType m => "Unsupported media type: " +:+ m
  | TooManyRequests m => "Too many requests: " +:+ m
  | QuotaExceeded m => "Quota exceeded: " +:+ m
  | ResourceExhausted m => "Resource exhausted: " +:+ m
  | CircuitBreakerOpen m => "Circuit breaker open: " +:+ m
  end.

(** Status, code, message, category and retry hint. *)
Definition get_error_info (e : t) : Z * string * string * ErrorCategory * option Z :=
  match e with
  | AuthenticationFailed m => (401, "authentication_failed", m, Authentication, None)
  | AuthorizationFailed m => (403, "authorization_failed", m, Authorization, None)
  | Unauthorized m => (401, "unauthorized", m, Authentication, None)
  | Forbidden m => (403, "forbidden", m, Authorization, None)
  | TunnelNotFound m => (404, "tunnel_not_found", m, Client, None)
  | CertificateError m => (500, "certificate_error", m, Service, None)
  | StorageError m => (500, "storage_error", m, Service, None)
  | ConfigurationError m => (500, "configuration_error", m, Service, None)
  | GitHubApiError m => (502, "github_api_error", m, Service, Some 60)
  | ExternalService m => (502, "external_service_error", m, Service, Some 30)
  | RateLimitExceeded => (429, "rate_limit_exceeded", "Rate limit exceeded", RateLimit, Some 60)
  | BadRequest m => (400, "bad_request", m, Client, None)
  | InternalError m => (500, "internal_error", m, Service, None)
  | ValidationError m => (400, "validation_error", m, Validation, None)
  | NotFound m => (404, "not_found", m, Client, None)
  | DatabaseError m => (500, "database_error", m, Service, Some 5)
  | ServiceUnavailable m => (503, "service_unavailable", m, Service, Some 30)
  | Conflict m => (409, "conflict", m, Client, None)
  | PreconditionFailed m => (412, "precondition_failed", m, Client, None)
  | RequestTimeout m => (408, "request_timeout", m, Network, Some 10)
  | PayloadTooLarge m => (413, "payload_too_large", m, Client, None)
  | UnsupportedMediaType m => (415, "unsupported_media_type", m, Client, None)
  | TooManyRequests m => (429, "too_many_requests", m, RateLimit, Some 60)
  | QuotaExceeded m => (403, "quota_exceeded", m, Resource, None)
  | ResourceExhausted m => (503, "resource_exhausted", m, Resource, Some 300)
  | CircuitBreakerOpen m => (503, "circuit_breaker_open", m, Service, Some 60)
  end.

Record ErrorContext := {
  request_id : option string; user_id : option string; endpoint : option string;
  method : option string; client_ip : option string; user_agent : option string;
}.

(** [ErrorContext::default]. *)
Definition no_context : ErrorContext :=
  {| request_id := None; user_id := None; endpoint := None; method := None;
     client_ip := None; user_agent := None |}.

Definition get_error_details (e : t) (c : ErrorContext) : option json :=
  non_empty
    (detail "user_id" (user_id c) ++ detail "endpoint" (endpoint c)
     ++ detail "method" (method c) ++ detail "client_ip" (client_ip c)
     ++ match e with
        | RateLimitExceeded | TooManyRequests _ => [("retry_after_seconds", JNum 60)]
        | QuotaExceeded _ => detail "quota_type" (Some "user_quota")
        | ValidationError _ => detail "validation_type" (Some "request_validation")
        | _ => []
        end).

Record ErrorResponse := {
  r_error : string; r_message : string; r_code : Z; r_error_id : string;
  r_timestamp : Z; r_request_id : option string; r_details : option json;
  r_retry_after : option Z; r_category : ErrorCategory;
}.

(** The HTTP status and the body. *)
Definition into_response_with_context `{Codec} (now : Z) (error_id : uuid) (e : t)
    (c : ErrorContext) : Z * ErrorResponse :=
  let '(status, ty, msg, cat, retry) := get_error_info e in
  (status,
   {| r_error := ty; r_message := msg; r_code := status;
      r_error_id := uuid_to_string error_id; r_timestamp := now;
      r_request_id := request_id c; r_details := get_error_details e c;
      r_retry_after := retry; r_category := cat |}).

Definition into_response `{Codec} (now : Z) (error_id : uuid) (e : t) : Z * ErrorResponse :=
  into_response_with_context now error_id e no_context.

End AE.

(** ** What a client may rely on *)

(** The machine-readable code of a common error determines the status, the
    category and the retry hint; the status is a client or server error; the
    rate-limit category is exactly status 429; and a retry hint is only given
    with the retryable statuses 429, 503 and 504. *)
Lemma fe_response_contract (e e' : FE.t) :
  (FE.error_code e = FE.error_code e' →
     FE.status_code e = FE.status_code e' ∧ FE.category e = FE.category e'
     ∧ FE.retry_after e = FE.retry_after e')
  ∧ 400 ≤ FE.status_code e < 600
  ∧ (FE.category e = RateLimit ↔ FE.status_code e = 429)
  ∧ (is_Some (FE.retry_after e) → FE.status_code e ∈ [429; 503; 504]).
Proof.
  split; [|split; [|split]].
  - destruct e, e'; cbn; intros Hc; first [discriminate Hc | done].
  - by destruct e; cbn.
  - by destruct e; cbn.
  - destruct e; cbn; intros Hs; first [by destruct Hs | by apply (bool_decide_unpack _)].
Qed.

(** Every API error becomes a response whose body repeats the HTTP status,
    a 4xx or 5xx, and whose rate-limit details agree with the retry hint; no
    details are attached to an error without context unless the variant has
    details of its own. *)
Lemma ae_response_contract `{Codec} (now : Z) (id : uuid) (e : AE.t) :
  let '(status, body) := AE.into_response now id e in
  AE.r_code body = status ∧ 400 ≤ status < 600
  ∧ (AE.r_category body = RateLimit ↔ status = 429)
  ∧ (AE.r_category body = RateLimit →
       AE.r_retry_after body = Some 60
       ∧ AE.r_details body = Some (JObj [("retry_after_seconds", JNum 60)]))
  ∧ (AE.r_category body ∈ [Client; Authentication; Authorization] →
       AE.r_retry_after body = None ∧ AE.r_details body = None).
Proof.
  destruct e; cbn; split_and!; try done;
    intros Hc; by apply (bool_decide_pack _) in Hc.
Qed.

(** ** Logging and conversions *)

Inductive LogLevel := LogError | LogWarn | LogInfo.
#[export] Instance LogLevel_eq_dec : EqDecision LogLevel.
Proof. solve_decision. Defined.

(** [log_error] of crates/common/src/error.rs. *)
Definition log_level (e : FE.t) : LogLevel :=
  match FE.category e with
  | Client | Validation => LogWarn
  | Authentication | Authorization => LogInfo
  | RateLimit => LogInfo
  | Resource | Service | Network => LogError
  end.

(** [log_error] of crates/backendapi/src/error.rs. *)
Definition api_log_level (e : AE.t) : LogLevel :=
  match e with
  | AE.InternalError _ | AE.DatabaseError _ | AE.CertificateError _ => LogError
  | AE.RateLimitExceeded | AE.TooManyRequests _ => LogWarn
  | _ => LogInfo
  end.

(** The errors of libraries, by the library and the error's text. *)
Inductive LibraryError :=
  | FromIo (text : string)
  | FromJson (text : string)
  | FromRedis (text : string)
  | FromReqwest (text : string)
  | FromAnyhow (text : string).

(** The [From] implementations of crates/common/src/error.rs. *)
Definition fleeting_from (e : LibraryError) : FE.t :=
  match e with
  | FromIo text => FE.Io text
  | FromJson text => FE.Json text
  | FromRedis text => FE.RedisError text
  | FromReqwest text => FE.ExternalService text
  | FromAnyhow text => FE.Generic text
  end.

(** Those of crates/backendapi/src/error.rs, which has two more. *)
Definition api_from (e : LibraryError) : AE.t :=
  match e with
  | FromIo text => AE.InternalError text
  | FromJson text => AE.BadRequest ("JSON parsing error: " +:+ text)
  | FromRedis text => AE.StorageError text
  | FromReqwest text => AE.GitHubApiError text
  | FromAnyhow text => AE.InternalError text
  end.
Definition api_from_ca (e : FE.t) : AE.t := AE.CertificateError (FE.to_string e).
Definition api_from_db (text : string) : AE.t := AE.DatabaseError text.

Definition api_status (e : AE.t) : Z := let '(status, _, _, _, _) := AE.get_error_info e in status.

(** In the common type exactly the errors a client did not cause are logged as errors,
    and too large a payload. *)
Lemma common_errors_logged e :
  log_level e = LogError ↔ 500 ≤ FE.status_code e ∨ ∃ m, e = FE.PayloadTooLarge m.
Proof.
  destruct e; cbn; split; try done; try lia; eauto; by intros [?|[? ?]].
Qed.

(** In the API a failing store is an internal error for the client and information for
    the log. *)
Lemma outage_logged_as_info text :
  api_status (api_from (FromRedis text)) = 500 ∧ api_log_level (api_from (FromRedis text)) = LogInfo
  ∧ log_level (fleeting_from (FromRedis text)) = LogError.
Proof. done. Qed.
