(* ===== verification/Net.v ===== *)
(** * Network addresses

    [std::net] addresses as the sources use them: IPv4 addresses with their
    textual form ([Ipv4Addr::to_string], [str::parse::<Ipv4Addr>]), IP addresses
    and socket addresses as keys. *)

From S2P Require Import Prelude.

(** Four octets. *)
Record Ipv4Addr := Ipv4 { ip_a : Z; ip_b : Z; ip_c : Z; ip_d : Z }.
#[export] Instance Ipv4Addr_eq_dec : EqDecision Ipv4Addr.
Proof. solve_decision. Defined.
#[export] Instance Ipv4Addr_countable : Countable Ipv4Addr.
Proof.
  by apply (inj_countable' (λ i, (ip_a i, ip_b i, ip_c i, ip_d i))
              (λ '(a, b, c, d), Ipv4 a b c d)); intros [].
Defined.

Definition octet_ok (z : Z) : Prop := 0 ≤ z < 256.
Definition ipv4_ok (i : Ipv4Addr) : Prop :=
  octet_ok (ip_a i) ∧ octet_ok (ip_b i) ∧ octet_ok (ip_c i) ∧ octet_ok (ip_d i).

Definition ipv4_to_string (i : Ipv4Addr) : string :=
  pretty (ip_a i) +:+ "." +:+ pretty (ip_b i) +:+ "." +:+ pretty (ip_c i)
  +:+ "." +:+ pretty (ip_d i).

(** An octet: one to three digits, no leading zero, at most 255. *)
Definition parse_octet (s : string) : option Z :=
  if bool_decide (s = "") || (3 <? str_len s) then None
  else if starts_with "0" s && (1 <? str_len s) then None
  else v ← dec_value 0 s; if v <? 256 then Some v else None.

Definition parse_ipv4 (s : string) : option Ipv4Addr :=
  match str_split "." s with
  | [a; b; c; d] =>
      a ← parse_octet a; b ← parse_octet b; c ← parse_octet c; d ← parse_octet d;
      Some (Ipv4 a b c d)
  | _ => None
  end.

(** ** [str::parse::<Ipv6Addr>] *)

Definition hex_digit (a : ascii) : option Z :=
  if is_ascii_digit a then Some (code a - 48)
  else if in_range 97 102 a then Some (code a - 87)
  else if in_range 65 70 a then Some (code a - 55)
  else None.

Fixpoint hex_value (acc : Z) (s : string) : option Z :=
  match s with
  | "" => Some acc
  | String a s' => d ← hex_digit a; hex_value (16 * acc + d) s'
  end.

(** A group: one to four hexadecimal digits. *)
Definition parse_group (s : string) : option Z :=
  if bool_decide (s = "") || (4 <? str_len s) then None else hex_value 0 s.

(** Groups between colons; the last piece may be an IPv4 address, which counts
    as two groups, when [v4] allows it. *)
Fixpoint parse_groups (v4 : bool) (pieces : list string) : option (list Z) :=
  match pieces with
  | [] => Some []
  | [last] =>
      match parse_group last with
      | Some g => Some [g]
      | None =>
          if v4 then
            i ← parse_ipv4 last;
            Some [256 * ip_a i + ip_b i; 256 * ip_c i + ip_d i]
          else None
      end
  | p :: ps => g ← parse_group p; gs ← parse_groups v4 ps; Some (g :: gs)
  end.

Definition groups (v4 : bool) (s : string) : option (list Z) :=
  if String.eqb s "" then Some [] else parse_groups v4 (str_split ":" s).

(** The text before and after the first ["::"]. *)
Fixpoint split_double_colon (s : string) : option (string * string) :=
  match s with
  | "" => None
  | String a s' =>
      match s' with
      | String b s'' =>
          if Ascii.eqb a ":" && Ascii.eqb b ":" then Some ("", s'')
          else match split_double_colon s' with
               | Some (x, y) => Some (String a x, y)
               | None => None
               end
      | "" => None
      end
  end.

Definition ipv6_bits (gs : list Z) : N := Z.to_N (foldl (λ acc g, 65536 * acc + g) 0 gs).

(** Eight groups, or fewer around one ["::"] that stands for at least one. *)
Definition parse_ipv6 (s : string) : option N :=
  match split_double_colon s with
  | None =>
      gs ← groups true s;
      if bool_decide (length gs = 8%nat) then Some (ipv6_bits gs) else None
  | Some (h, t) =>
      hs ← groups false h; ts ← groups true t;
      if bool_decide (length hs + length ts ≤ 7)%nat
      then Some (ipv6_bits (hs ++ replicate (8 - (length hs + length ts)) 0 ++ ts)) else None
  end.

Example parse_ipv6_loopback : parse_ipv6 "::1" = Some 1%N.
Proof. reflexivity. Qed.
Example parse_ipv6_mapped : parse_ipv6 "::ffff:1.2.3.4" = Some 281470698652420%N.
Proof. reflexivity. Qed.
Example parse_ipv6_bad : parse_ipv6 "1::2::3" = None.
Proof. reflexivity. Qed.

(** [IpAddr]: an IPv6 address as its 128-bit value. *)
Inductive IpAddr := V4 (i : Ipv4Addr) | V6 (bits : N).
#[export] Instance IpAddr_eq_dec : EqDecision IpAddr.
Proof. solve_decision. Defined.
#[export] Instance IpAddr_countable : Countable IpAddr.
Proof.
  by apply (inj_countable' (λ x, match x with V4 i => inl i | V6 b => inr b end)
              (λ x, match x with inl i => V4 i | inr b => V6 b end)); intros [].
Defined.

(** [str::parse::<IpAddr>]. *)
Definition parse_ip (s : string) : option IpAddr :=
  match parse_ipv4 s with Some i => Some (V4 i) | None => V6 <$> parse_ipv6 s end.

(** [SocketAddr]: address and port. *)
Record SocketAddr := { sa_ip : IpAddr; sa_port : Z }.
#[export] Instance SocketAddr_eq_dec : EqDecision SocketAddr.
Proof. solve_decision. Defined.
#[export] Instance SocketAddr_countable : Countable SocketAddr.
Proof.
  by apply (inj_countable' (λ x, (sa_ip x, sa_port x))
              (λ '(i, p), {| sa_ip := i; sa_port := p |})); intros [].
Defined.

(** ** The textual form round trips *)

(** A decidable property of every octet, by evaluation. *)
Lemma octet_all (P : Z → bool) :
  forallb P (seqZ 0 256) = true → ∀ z, octet_ok z → P z = true.
Proof.
  intros HP z Hz. rewrite forallb_forall in HP. apply HP, list_elem_of_In, elem_of_seqZ.
  unfold octet_ok in Hz. lia.
Qed.

Lemma octet_roundtrip z : octet_ok z → parse_octet (pretty z) = Some z.
Proof.
  intros Hz. apply (bool_decide_unpack (parse_octet (pretty z) = Some z)), Is_true_true.
  revert z Hz. apply (octet_all (λ z, bool_decide (parse_octet (pretty z) = Some z))).
  by vm_compute.
Qed.

Lemma octet_no_dot z : octet_ok z → str_has "." (pretty z) = false.
Proof.
  intros Hz. apply negb_true_iff. revert z Hz.
  apply (octet_all (λ z, negb (str_has "." (pretty z)))). by vm_compute.
Qed.

Lemma ipv4_roundtrip i : ipv4_ok i → parse_ipv4 (ipv4_to_string i) = Some i.
Proof.
  destruct i as [a b c d]. intros (Ha & Hb & Hc & Hd). cbn in *.
  unfold parse_ipv4, ipv4_to_string. cbn [ip_a ip_b ip_c ip_d].
  assert (∀ t, "." +:+ t = String "." t) as E by done. rewrite !E.
  rewrite !str_split_app by auto using octet_no_dot.
  rewrite str_split_none by auto using octet_no_dot.
  by rewrite !octet_roundtrip.
Qed.
