(* ===== verification/Float.v ===== *)
(** * Floating point

    [f64] arithmetic (IEEE 754 binary64, round to nearest even) through the
    Standard Library's executable specification, for the few ratios the services
    compute. *)

From Stdlib Require Import SpecFloat.
From S2P Require Import Prelude.

Definition f64 := spec_float.
Definition prec : Z := 53.
Definition emax : Z := 1024.

(** [z as f64]. *)
Definition f64_of_Z (z : Z) : f64 := binary_normalize prec emax z 0 false.
Definition f64_div (x y : f64) : f64 := SFdiv prec emax x y.
Definition f64_mul (x y : f64) : f64 := SFmul prec emax x y.
Definition f64_add (x y : f64) : f64 := SFadd prec emax x y.
Definition f64_sub (x y : f64) : f64 := SFsub prec emax x y.
(** Comparisons; false when an operand is NaN. *)
Definition f64_ltb (x y : f64) : bool := SFltb x y.
Definition f64_leb (x y : f64) : bool := SFleb x y.
Definition f64_gtb (x y : f64) : bool := SFltb y x.
Definition f64_geb (x y : f64) : bool := SFleb y x.

(** The integer part, towards zero; [None] for NaN and the infinities. *)
Definition f64_trunc (x : f64) : option Z :=
  match x with
  | S754_zero _ => Some 0
  | S754_finite s m e =>
      let v := if 0 <=? e then Zpos m * 2 ^ e else Zpos m / 2 ^ (- e) in
      Some (if s then - v else v)
  | _ => None
  end.

(** [f64::round], to the nearest integer with ties away from zero, as an integer. *)
Definition f64_round (x : f64) : option Z :=
  match x with
  | S754_zero _ => Some 0
  | S754_finite s m e =>
      let v := if 0 <=? e then Zpos m * 2 ^ e
               else (2 * Zpos m + 2 ^ (- e)) / (2 * 2 ^ (- e)) in
      Some (if s then - v else v)
  | _ => None
  end.

(** [x as u64] and its kin: saturating, NaN to zero. *)
Definition f64_to_uint (w : Z) (x : f64) : Z :=
  match f64_trunc x with
  | Some z => Z.max 0 (Z.min z (2 ^ w - 1))
  | None => match x with S754_infinity false => 2 ^ w - 1 | _ => 0 end
  end.
Definition f64_to_u16 : f64 → Z := f64_to_uint 16.
Definition f64_to_u64 : f64 → Z := f64_to_uint 64.

Lemma f64_to_uint_range w x : 0 ≤ w → 0 ≤ f64_to_uint w x < 2 ^ w.
Proof.
  intros Hw. pose proof (Z.pow_pos_nonneg 2 w ltac:(lia) Hw). unfold f64_to_uint.
  destruct (f64_trunc x); [lia|]. destruct x as [| [] | |]; lia.
Qed.
