(* ===== verification/Shutdown.v ===== *)
(** * Graceful shutdown and the control socket

    crates/common/src/shutdown.rs: the shutdown coordinator of the daemons, the
    operating system's signals, the control protocol over the Unix socket and the
    wait for the last connections; and its client, cmd/fleetingdns-ctl.

    What is handed to the broadcast channel is recorded ([sent]); delivery to the
    subscribers is the channel's.  The number of open connections during a wait
    is a function of time.  The socket's file is in [ControlSocket]; printing and the
    texts of parser errors are left out. *)

From S2P Require Import Prelude Serde.

Inductive ShutdownSignal := Graceful | Immediate | Force.
Inductive ShutdownState := Running | Draining | Stopping | Stopped.
Inductive ControlCommand := Shutdown (signal : ShutdownSignal) | Status | Ping | Reload.

Record ControlResponse := {
  cr_status : string;
  cr_uptime : Z;
  cr_active_connections : Z;
  cr_shutdown_state : ShutdownState;
  cr_component : string;
}.

Record ShutdownConfig := {
  control_socket_path : string;
  graceful_timeout : Z;
  immediate_timeout : Z;
  force_timeout : Z;
  component_name : string;
}.

(** ** Paths *)

(** The environment variables and whether the process runs as root. *)
Record Env := { env_var : string → option string; is_root : bool }.

(** On Linux. *)
Definition get_default_socket_path (env : Env) (component : string) : string :=
  match env_var env "FLEETINGDNS_CONTROL_SOCKET" with
  | Some path => path
  | None =>
      if is_root env then "/run/fleetingdns/" +:+ component +:+ ".sock"
      else match env_var env "XDG_RUNTIME_DIR" with
           | Some dir => dir +:+ "/fleetingdns/" +:+ component +:+ ".sock"
           | None =>
               match env_var env "HOME" with
               | Some home => home +:+ "/.local/run/fleetingdns/" +:+ component +:+ ".sock"
               | None => "/tmp/fleetingdns-" +:+ component +:+ ".sock"
               end
           end
  end.

Definition default_shutdown_config (env : Env) : ShutdownConfig :=
  {| control_socket_path := get_default_socket_path env "unknown"; graceful_timeout := secs 30;
     immediate_timeout := secs 5; force_timeout := secs 1; component_name := "unknown" |}.

(** ** The coordinator *)

(** The signals with a handler; a handler serves one delivery and ends. *)
Inductive OsSignal := SIGTERM | SIGINT | SIGUSR1 | SIGUSR2.
#[export] Instance OsSignal_eq_dec : EqDecision OsSignal.
Proof. solve_decision. Defined.

Record GracefulShutdown := {
  config : ShutdownConfig;
  state : ShutdownState;
  sent : list ShutdownSignal;
  active_connections : Z;
  start_time : Z;
  handled : list OsSignal;
}.

Definition with_config (now : Z) (cfg : ShutdownConfig) : GracefulShutdown :=
  {| config := cfg; state := Running; sent := []; active_connections := 0; start_time := now;
     handled := [] |}.

Definition GracefulShutdown_new (now : Z) (env : Env) (component : string) : GracefulShutdown :=
  let d := default_shutdown_config env in
  with_config now
    {| control_socket_path := get_default_socket_path env component;
       graceful_timeout := graceful_timeout d; immediate_timeout := immediate_timeout d;
       force_timeout := force_timeout d; component_name := component |}.

Definition update (g : GracefulShutdown) (st : ShutdownState) (log : list ShutdownSignal)
    (n : Z) (h : list OsSignal) : GracefulShutdown :=
  {| config := config g; state := st; sent := log; active_connections := n;
     start_time := start_time g; handled := h |}.

(** [fetch_add] and [fetch_sub] wrap. *)
Definition connection_started (g : GracefulShutdown) : GracefulShutdown :=
  update g (state g) (sent g) (as_u64 (active_connections g + 1)) (handled g).
Definition connection_finished (g : GracefulShutdown) : GracefulShutdown :=
  update g (state g) (sent g) (as_u64 (active_connections g - 1)) (handled g).

Definition send (s : ShutdownSignal) (g : GracefulShutdown) : GracefulShutdown :=
  update g (state g) (sent g ++ [s]) (active_connections g) (handled g).

Definition shutdown (s : ShutdownSignal) (g : GracefulShutdown) : GracefulShutdown :=
  let st := match s with Force => Stopping | _ => Draining end in
  send s (update g st (sent g) (active_connections g) (handled g)).

(** The handlers of [start_signal_handlers]. *)
Definition signal_of (s : OsSignal) : ShutdownSignal :=
  match s with SIGTERM | SIGINT => Graceful | SIGUSR1 => Immediate | SIGUSR2 => Force end.
Definition os_signal (s : OsSignal) (g : GracefulShutdown) : GracefulShutdown :=
  if decide (s ∈ handled g) then g
  else send (signal_of s) (update g (state g) (sent g) (active_connections g) (handled g ++ [s])).

(** *** Waiting *)

Definition wait_timeout (g : GracefulShutdown) : Z :=
  match state g with
  | Draining => graceful_timeout (config g)
  | Stopping => immediate_timeout (config g)
  | _ => force_timeout (config g)
  end.

Definition POLL : Z := millis 100.

(** The polls of the connection count, at most [n] of them: the instant of the
    first that finds no connection. *)
Fixpoint drain (active : Z → Z) (n : nat) (t : Z) : option Z :=
  match n with
  | O => None
  | S n' => if active t =? 0 then Some t else drain active n' (t + POLL)
  end.

(** The polls of a timeout: one at its start and one after each sleep that ends
    within it. *)
Definition polls (timeout : Z) : nat := S (Z.to_nat (timeout / POLL)).

(** [active] is the connection count from now on.  The instant of the return,
    whether the connections drained, and the coordinator. *)
Definition wait_for_shutdown (active : Z → Z) (now : Z) (g : GracefulShutdown)
    : Z * bool * GracefulShutdown :=
  let timeout := wait_timeout g in
  match drain active (polls timeout) now with
  | Some t => (t, true, update g Stopped (sent g) (active t) (handled g))
  | None =>
      let t := now + timeout in (t, false, update g Stopped (sent g) (active t) (handled g))
  end.

(** ** The control protocol *)

Definition signal_name (s : ShutdownSignal) : string :=
  match s with Graceful => "Graceful" | Immediate => "Immediate" | Force => "Force" end.
Definition state_name (s : ShutdownState) : string :=
  match s with
  | Running => "Running" | Draining => "Draining" | Stopping => "Stopping" | Stopped => "Stopped"
  end.
Definition de_signal (o : option json) : option ShutdownSignal :=
  s ← de_string o;
  if s =?s "Graceful" then Some Graceful else if s =?s "Immediate" then Some Immediate
  else if s =?s "Force" then Some Force else None.
Definition de_state (o : option json) : option ShutdownState :=
  s ← de_string o;
  if s =?s "Running" then Some Running else if s =?s "Draining" then Some Draining
  else if s =?s "Stopping" then Some Stopping else if s =?s "Stopped" then Some Stopped else None.

(** Externally tagged: a string for a variant without fields, else one member. *)
Definition ser_ControlCommand (c : ControlCommand) : json :=
  match c with
  | Shutdown s => JObj [("Shutdown", JObj [("signal", JStr (signal_name s))])]
  | Status => JStr "Status"
  | Ping => JStr "Ping"
  | Reload => JStr "Reload"
  end.
(** A unit variant may also be written as a member with the value [null]. *)
Definition de_ControlCommand (j : json) : option ControlCommand :=
  match j with
  | JStr s | JObj [(s, JNull)] =>
      if s =?s "Status" then Some Status else if s =?s "Ping" then Some Ping
      else if s =?s "Reload" then Some Reload else None
  | JObj [(tag, v)] =>
      if tag =?s "Shutdown" then
        fs ← fields_of ["signal"] v;
        match fs with [s] => Shutdown <$> de_signal s | _ => None end
      else None
  | _ => None
  end.

(** [Duration]: whole seconds and nanoseconds. *)
Definition ser_duration (d : Z) : json :=
  JObj (zip ["secs"; "nanos"] [JNum (d / secs 1); JNum (d mod secs 1)]).
(** Other members are refused. *)
Definition duration_members (j : json) : bool :=
  match j with
  | JObj m => forallb (λ kv, (kv.1 =?s "secs") || (kv.1 =?s "nanos")) m
  | _ => true
  end.
Definition de_duration (o : option json) : option Z :=
  j ← o;
  fs ← if duration_members j then fields_of ["secs"; "nanos"] j else None;
  match fs with
  | [s; n] =>
      s ← de_uint 64 s; n ← de_uint 32 n;
      (** Nanoseconds beyond a second carry over, within 64-bit seconds. *)
      if s + n / secs 1 <? 2 ^ 64 then Some (secs s + n) else None
  | _ => None
  end.

Definition response_fields : list string :=
  ["status"; "uptime"; "active_connections"; "shutdown_state"; "component"].
Definition ser_ControlResponse (r : ControlResponse) : json :=
  JObj (zip response_fields
    [JStr (cr_status r); ser_duration (cr_uptime r); JNum (cr_active_connections r);
     JStr (state_name (cr_shutdown_state r)); JStr (cr_component r)]).
Definition de_ControlResponse (j : json) : option ControlResponse :=
  fs ← fields_of response_fields j;
  match fs with
  | [st; up; n; s; c] =>
      st ← de_string st; up ← de_duration up; n ← de_uint 64 n; s ← de_state s; c ← de_string c;
      Some {| cr_status := st; cr_uptime := up; cr_active_connections := n;
              cr_shutdown_state := s; cr_component := c |}
  | _ => None
  end.

Definition NEWLINE : string := String "010" "".

Section control.
Context `{Codec}.

Definition respond (now : Z) (g : GracefulShutdown) (status : string) : ControlResponse :=
  {| cr_status := status; cr_uptime := duration_since now (start_time g);
     cr_active_connections := active_connections g; cr_shutdown_state := state g;
     cr_component := component_name (config g) |}.

Definition handle_command (now : Z) (c : ControlCommand) (g : GracefulShutdown)
    : GracefulShutdown * ControlResponse :=
  match c with
  | Shutdown s =>
      let g := send s g in
      (g, respond now g ("Shutdown initiated with signal: " +:+ signal_name s))
  | Status => (g, respond now g "Service running")
  | Ping => (g, respond now g "Pong")
  | Reload => (g, respond now g "Reload not implemented yet")
  end.

(** A connection that has sent [line] (empty when it closed at once): what the
    daemon writes back, or an error that closes the connection. *)
Definition handle_control_connection (now : Z) (line : string) (g : GracefulShutdown)
    : GracefulShutdown * result string string :=
  if line =?s "" then (g, Ok "")
  else
    match from_str de_ControlCommand (str_trim line) with
    | None => (g, Err "Invalid command")
    | Some c =>
        let '(g, r) := handle_command now c g in
        (g, Ok (json_to_string (ser_ControlResponse r) +:+ NEWLINE))
    end.

(** *** The client *)

Inductive Commands := CmdShutdown (s : ShutdownSignal) | CmdStatus | CmdPing | CmdReload.

Definition control_command (c : Commands) : ControlCommand :=
  match c with
  | CmdShutdown s => Shutdown s | CmdStatus => Status | CmdPing => Ping | CmdReload => Reload
  end.

(** [daemon] is the other end of the socket: it consumes the line written and
    answers with text, of which the client reads the first line. *)
Definition execute_command (daemon : string → option string) (c : Commands)
    : result string ControlResponse :=
  match daemon (json_to_string (ser_ControlCommand (control_command c)) +:+ NEWLINE) with
  | None => Err "connection closed"
  | Some answer =>
      let line := match str_split_once "010" answer with
                  | Some (l, _) => l +:+ NEWLINE | None => answer end in
      ok_or (from_str de_ControlResponse (str_trim line)) "invalid response"
  end.

Definition format_duration (d : Z) : string :=
  let total := d / secs 1 in
  let hours := total / 3600 in
  let minutes := (total mod 3600) / 60 in
  let seconds := total mod 60 in
  if 0 <? hours then
    pretty hours +:+ "h " +:+ pretty minutes +:+ "m " +:+ pretty seconds +:+ "s"
  else if 0 <? minutes then pretty minutes +:+ "m " +:+ pretty seconds +:+ "s"
  else pretty seconds +:+ "s".

Definition print_response (r : ControlResponse) : string :=
  "Component: " +:+ cr_component r +:+ NEWLINE +:+
  "Status: " +:+ cr_status r +:+ NEWLINE +:+
  "Uptime: " +:+ format_duration (cr_uptime r) +:+ NEWLINE +:+
  "Active connections: " +:+ pretty (cr_active_connections r) +:+ NEWLINE +:+
  "Shutdown state: " +:+ state_name (cr_shutdown_state r) +:+ NEWLINE.

End control.

(** ** Round trips *)

(** [serde_json::to_string] writes one line without white space at its ends. *)
Class JsonLines `{Codec} := {
  json_one_line : ∀ j, str_has "010" (json_to_string j) = false;
  json_trimmed : ∀ j, str_trim (json_to_string j +:+ NEWLINE) = json_to_string j;
}.

Lemma de_ser_ControlCommand c : de_ControlCommand (ser_ControlCommand c) = Some c.
Proof. by destruct c as [[]| | |]. Qed.
Lemma command_json_wf c : json_wf (ser_ControlCommand c) = true.
Proof. by destruct c. Qed.

Lemma de_state_name s : de_state (Some (JStr (state_name s))) = Some s.
Proof. by destruct s. Qed.

Definition duration_ok (d : Z) : Prop := 0 ≤ d < secs (2 ^ 64).

Lemma duration_parts d : duration_ok d → u64_ok (d / secs 1) ∧ 0 ≤ d mod secs 1 < secs 1.
Proof.
  unfold duration_ok, u64_ok, secs. rewrite Z.mul_1_l. intros.
  split; [split|]; [apply Z.div_pos; lia|apply Z.div_lt_upper_bound; lia|apply Z.mod_pos_bound; lia].
Qed.

Lemma de_ser_duration d : duration_ok d → de_duration (Some (ser_duration d)) = Some d.
Proof.
  intros Hd. destruct (duration_parts d Hd) as [Hs Hn]. unfold u64_ok, secs in Hs, Hn.
  rewrite Z.mul_1_l in Hs, Hn. unfold de_duration, ser_duration.
  cbn [mbind option_bind].
  assert (∀ a b, duration_members (JObj (zip ["secs"; "nanos"] [a; b])) = true) as -> by done.
  rewrite fields_of_zip by (done || by apply (bool_decide_unpack _)).
  cbn [fmap list_fmap option_bind mbind]. unfold secs. rewrite Z.mul_1_l.
  rewrite !de_uint_ok by lia. cbn. rewrite (Z.div_small (d mod 1000000000)) by lia.
  destruct (Z.ltb_spec (d / 1000000000 + 0) (2 ^ 64)); [|lia].
  f_equal. pose proof (Z.div_mod d 1000000000). lia.
Qed.

Definition response_ok (r : ControlResponse) : Prop :=
  duration_ok (cr_uptime r) ∧ u64_ok (cr_active_connections r).

Lemma de_ser_ControlResponse r :
  response_ok r → de_ControlResponse (ser_ControlResponse r) = Some r.
Proof.
  destruct r as [st up n s c]. intros [Hd Hn]. cbn in Hd, Hn.
  unfold de_ControlResponse, ser_ControlResponse.
  rewrite fields_of_zip by (done || by apply (bool_decide_unpack _)).
  cbn -[de_duration ser_duration de_uint de_state].
  rewrite de_ser_duration, de_uint_ok, de_state_name by done. done.
Qed.

Lemma response_json_wf r : response_ok r → json_wf (ser_ControlResponse r) = true.
Proof.
  intros [Hd Hn]. destruct (duration_parts _ Hd) as [Hs Hm]. unfold u64_ok, secs in *.
  rewrite Z.mul_1_l in *. cbn. unfold secs. rewrite Z.mul_1_l.
  repeat (apply andb_true_iff; split); try done; apply Z.leb_le || apply Z.ltb_lt; lia.
Qed.

(** ** Waiting for connections *)

Lemma drain_spec active n t :
  match drain active n t with
  | Some t' => ∃ k : nat, (k < n)%nat ∧ t' = t + Z.of_nat k * POLL ∧ active t' = 0
      ∧ ∀ j : nat, (j < k)%nat → active (t + Z.of_nat j * POLL) ≠ 0
  | None => ∀ j : nat, (j < n)%nat → active (t + Z.of_nat j * POLL) ≠ 0
  end.
Proof.
  revert t. induction n as [|n IH]; intros t; cbn [drain]; [lia|].
  destruct (Z.eqb_spec (active t) 0) as [E|E].
  - exists 0%nat. split_and!; [lia|lia|done|lia].
  - specialize (IH (t + POLL)).
    assert (∀ j : nat, t + Z.of_nat (S j) * POLL = t + POLL + Z.of_nat j * POLL) as Hj by lia.
    destruct (drain active n (t + POLL)) as [t'|].
    + destruct IH as (k & Hk & -> & H0 & Hlt). exists (S k). rewrite Hj.
      split_and!; [lia|done|done|]. intros [|j] ?; [by rewrite Z.add_0_r|].
      rewrite Hj. apply Hlt. lia.
    + intros [|j] ?; [by rewrite Z.add_0_r|]. rewrite Hj. apply IH. lia.
Qed.

Lemma polls_within timeout k :
  0 ≤ timeout → (k < polls timeout)%nat → Z.of_nat k * POLL ≤ timeout.
Proof.
  intros Ht Hk. unfold polls in Hk. assert (0 < POLL) by done.
  pose proof (Z.mul_div_le timeout POLL). pose proof (Z.div_pos timeout POLL). nia.
Qed.

(** ** Histories of a daemon *)

Section daemon.
Context `{Codec}.

Inductive daemon_event :=
  | ConnectionStarted | ConnectionFinished
  | Os (s : OsSignal)
  | Control (line : string).

Definition daemon_step (g : GracefulShutdown) (e : Z * daemon_event) : GracefulShutdown :=
  match e with
  | (_, ConnectionStarted) => connection_started g
  | (_, ConnectionFinished) => connection_finished g
  | (_, Os s) => os_signal s g
  | (now, Control line) => (handle_control_connection now line g).1
  end.

Definition daemon_run (g : GracefulShutdown) (evs : list (Z * daemon_event)) : GracefulShutdown :=
  foldl daemon_step g evs.

(** Neither signals nor control commands touch the shutdown state. *)
Lemma daemon_run_state g evs :
  state (daemon_run g evs) = state g ∧ config (daemon_run g evs) = config g.
Proof.
  unfold daemon_run. induction evs as [|[now e] evs IH] using rev_ind; [done|].
  rewrite foldl_app. cbn. destruct IH as [<- <-]. set (g' := foldl daemon_step g evs).
  destruct e as [| |s|line]; [done..| |]; cbn.
  - unfold os_signal. by case_decide.
  - unfold handle_control_connection. destruct (line =?s ""); [done|].
    destruct (from_str _ _) as [[]|]; done.
Qed.

(** The other end of a control connection to a daemon. *)
Definition daemon_socket (now : Z) (g : GracefulShutdown) (line : string) : option string :=
  match (handle_control_connection now line g).2 with
  | Ok s => if s =?s "" then None else Some s
  | Err _ => None
  end.

End daemon.

(** ** Claims *)

(** The control protocol round trips.  Whatever command the client issues, the
    daemon decodes exactly that command and the client receives exactly the
    response the daemon built: status text, uptime, connection count, state and
    component. *)
Lemma control_roundtrip `{JsonLines} now (c : Commands) g
    (Hup : duration_ok (duration_since now (start_time g)))
    (Hn : u64_ok (active_connections g)) :
  let line := json_to_string (ser_ControlCommand (control_command c)) +:+ NEWLINE in
  let '(g', r) := handle_command now (control_command c) g in
  (handle_control_connection now line g).1 = g'
  ∧ execute_command (daemon_socket now g) c = Ok r.
Proof.
  cbn zeta. destruct (handle_command now (control_command c) g) as [g' r] eqn:Eh.
  assert (response_ok r) as Hr.
  { destruct c; cbn in Eh; injection Eh as <- <-; split; done. }
  assert (∀ t, (t +:+ NEWLINE =?s "") = false) as Hne.
  { intros [|]; done. }
  assert (handle_control_connection now
    (json_to_string (ser_ControlCommand (control_command c)) +:+ NEWLINE) g
    = (g', Ok (json_to_string (ser_ControlResponse r) +:+ NEWLINE))) as Hc.
  { unfold handle_control_connection. rewrite Hne, json_trimmed, from_str_to_string by apply command_json_wf.
    by rewrite de_ser_ControlCommand, Eh. }
  rewrite Hc. split; [done|]. unfold execute_command, daemon_socket. rewrite Hc. cbn [snd].
  rewrite Hne. change NEWLINE with (String "010" "").
  rewrite (str_split_once_app "010" _ "" (json_one_line _)).
  change (String "010" "") with NEWLINE.
  rewrite json_trimmed, from_str_to_string, de_ser_ControlResponse by auto using response_json_wf.
  done.
Qed.

(** The wait for the connections ends.  It returns, stopped, at the first poll
    that finds no connection, and otherwise when the timeout of the current state
    is over; never later than that, and having drained exactly when some poll
    found no connection. *)
Lemma wait_for_shutdown_terminates active now g (Ht : 0 ≤ wait_timeout g) :
  let '(t, drained, g') := wait_for_shutdown active now g in
  now ≤ t ≤ now + wait_timeout g
  ∧ state g' = Stopped ∧ sent g' = sent g
  ∧ (drained = true ↔ ∃ k, (k < polls (wait_timeout g))%nat ∧ active (now + Z.of_nat k * POLL) = 0)
  ∧ (∀ k : nat, now + Z.of_nat k * POLL < t → active (now + Z.of_nat k * POLL) ≠ 0)
  ∧ if drained then active t = 0 else t = now + wait_timeout g.
Proof.
  unfold wait_for_shutdown. pose proof (drain_spec active (polls (wait_timeout g)) now) as Hd.
  assert (0 < POLL) as HP by done.
  destruct (drain active _ now) as [t|].
  - destruct Hd as (k & Hk & -> & H0 & Hlt). pose proof (polls_within _ k Ht Hk).
    split_and!; try done; try nia.
    + split; [|done]. intros _. by exists k.
    + intros j Hj. apply Hlt. nia.
  - split_and!; try done; try lia.
    + split; [done|]. intros (k & Hk & H0). by destruct (Hd k Hk).
    + intros j Hj. apply Hd. unfold polls.
      assert (Z.of_nat j * POLL / POLL ≤ wait_timeout g / POLL) as Hj' by (apply Z.div_le_mono; lia).
      rewrite Z.div_mul in Hj' by lia. lia.
Qed.

(** A daemon that is asked to stop, by signals or over the control socket and
    however urgently, waits for its connections at most for the timeout meant for
    a forced shutdown: such requests are broadcast but leave the coordinator's
    state running, from which the wait takes its timeout. *)
Lemma external_shutdown_forced `{Codec} cfg now0 now evs active
    (Hf : 0 ≤ force_timeout cfg) :
  let g := daemon_run (with_config now0 cfg) evs in
  state g = Running
  ∧ let '(t, drained, _) := wait_for_shutdown active now g in
    now ≤ t ≤ now + force_timeout cfg.
Proof.
  cbn zeta. destruct (daemon_run_state (with_config now0 cfg) evs) as [Hs Hc]. split; [done|].
  set (g := daemon_run _ evs) in *.
  assert (wait_timeout g = force_timeout cfg) as Hw by (unfold wait_timeout; by rewrite Hs, Hc).
  unfold wait_for_shutdown. pose proof (drain_spec active (polls (wait_timeout g)) now) as Hd.
  rewrite Hw in *. assert (0 < POLL) by done. destruct (drain active _ now) as [t|]; [|lia].
  destruct Hd as (k & Hk & -> & _). pose proof (polls_within _ k Hf Hk). nia.
Qed.

(** ** Evaluation on a concrete daemon *)
Module ShutdownDemo.
Import BitCodec.

Lemma pos_str_graphic p : str_all graphic (pos_str p) = true.
Proof.
  eapply str_all_impl; [|apply pos_str_chars]. intros a.
  unfold uuid_char, graphic, is_ascii_digit, in_range.
  destruct (Ascii.eqb_spec a "-") as [->|]; [done|]. lia.
Qed.

#[export] Instance bit_lines : JsonLines.
Proof.
  split; intros j.
  - eapply str_has_all; [apply pos_str_graphic|done].
  - apply str_trim_line, pos_str_graphic.
Qed.

Definition env : Env := {| env_var v := if v =?s "HOME" then Some "/root" else None; is_root := false |}.
Definition g0 : GracefulShutdown := GracefulShutdown_new 0 env "dnsd".

Example socket_path : control_socket_path (config g0) = "/root/.local/run/fleetingdns/dnsd.sock".
Proof. done. Qed.

Lemma control_roundtrip_witness :
  execute_command (daemon_socket (secs 90) g0) CmdPing
  = Ok {| cr_status := "Pong"; cr_uptime := secs 90; cr_active_connections := 0;
          cr_shutdown_state := Running; cr_component := "dnsd" |}.
Proof. apply (control_roundtrip (secs 90) CmdPing g0); done. Defined.

(** A connection that ends after 250 milliseconds. *)
Definition active (t : Z) : Z := if t <? millis 250 then 1 else 0.

Lemma wait_for_shutdown_witness :
  let '(t, drained, g) := wait_for_shutdown active 0 g0 in
  0 ≤ t ≤ secs 1 ∧ t = millis 300 ∧ drained = true ∧ state g = Stopped.
Proof.
  pose proof (wait_for_shutdown_terminates active 0 g0 ltac:(done)) as H.
  destruct (wait_for_shutdown active 0 g0) as [[t drained] g] eqn:E. destruct H as (Ht & Hs & _).
  vm_compute in E. injection E as <- <- <-. done.
Defined.

(** A graceful request over the socket and a connection that stays: one second. *)
Lemma external_shutdown_forced_witness :
  let g := daemon_run g0 [(0, ConnectionStarted); (1, Os SIGTERM)] in
  sent g = [Graceful]
  ∧ let '(t, drained, _) := wait_for_shutdown (λ _, 1) (secs 5) g in t ≤ secs 6.
Proof.
  split; [done|].
  destruct (external_shutdown_forced (config g0) 0 (secs 5) [(0, ConnectionStarted); (1, Os SIGTERM)]
    (λ _, 1) ltac:(done)) as [_ H].
  change (with_config 0 (config g0)) with g0 in H.
  destruct (wait_for_shutdown _ _ _) as [[t d] g]. apply H.
Defined.

End ShutdownDemo.
