(* ===== verification/Ddos.v ===== *)
(** * Connection limits per address

    crates/common/src/ddos_protection.rs: the number of open connections of an
    address, the instants of its recent connections, and blocks.  The clock of
    [Instant] is monotone, so a history is a sequence of events with
    non-decreasing times.  The counters of the metrics registry are left out. *)

From S2P Require Import Prelude Net.
From stdpp Require Import sorting.
Open Scope Z_scope.

Record DdosConfig := {
  max_connections_per_ip : Z;
  connection_rate_per_minute : Z;
  max_request_size : Z;
  block_duration : Z;
  rate_window : Z;
}.

Definition default_ddos_config : DdosConfig :=
  {| max_connections_per_ip := 10; connection_rate_per_minute := 100;
     max_request_size := 1024 * 1024; block_duration := secs 300; rate_window := secs 60 |}.

Record IpConnectionInfo := {
  active_connections : Z;
  recent_connections : list Z;
  blocked_until : option Z;
}.

Record DdosProtection := {
  config : DdosConfig;
  ip_info : gmap IpAddr IpConnectionInfo;
}.

Definition DdosProtection_new (cfg : DdosConfig) : DdosProtection :=
  {| config := cfg; ip_info := ∅ |}.

Definition set_ip_info (d : DdosProtection) (m : gmap IpAddr IpConnectionInfo) : DdosProtection :=
  {| config := config d; ip_info := m |}.

(** [blocked_until.is_some_and(|u| now < u)]. *)
Definition blocked_at (now : Z) (u : option Z) : bool :=
  match u with Some u => now <? u | None => false end.

Definition is_blocked (now : Z) (ip : IpAddr) (d : DdosProtection) : bool :=
  match ip_info d !! ip with Some info => blocked_at now (blocked_until info) | None => false end.

Definition fresh_info : IpConnectionInfo :=
  {| active_connections := 0; recent_connections := []; blocked_until := None |}.

(** The timestamps [retain] keeps. *)
Definition in_window (window now : Z) (ts : list Z) : list Z :=
  filter (λ t, duration_since now t < window) ts.
Arguments in_window : simpl never.

Definition BLOCKED : string := "IP address is blocked".
Definition EXCEEDED : string := "Connection limit exceeded - IP blocked".

Definition check_connection_limit (now : Z) (ip : IpAddr) (d : DdosProtection)
    : DdosProtection * result string unit :=
  if is_blocked now ip d then (d, Err BLOCKED)
  else
    let info := default fresh_info (ip_info d !! ip) in
    let recent := in_window (rate_window (config d)) now (recent_connections info) in
    let over_rate := connection_rate_per_minute (config d) <=? Z.of_nat (length recent) in
    let over_limit := max_connections_per_ip (config d) <=? active_connections info in
    if over_rate || over_limit then
      (set_ip_info d (<[ip := {| active_connections := active_connections info;
                                 recent_connections := recent;
                                 blocked_until := Some (now + block_duration (config d)) |}]>
                        (ip_info d)), Err EXCEEDED)
    else
      (set_ip_info d (<[ip := {| active_connections := as_u32 (active_connections info + 1);
                                 recent_connections := recent ++ [now];
                                 blocked_until := blocked_until info |}]> (ip_info d)), Ok ()).

(** [saturating_sub(1)]. *)
Definition close_info (info : IpConnectionInfo) : IpConnectionInfo :=
  {| active_connections := Z.max 0 (active_connections info - 1);
     recent_connections := recent_connections info; blocked_until := blocked_until info |}.

Definition connection_closed (ip : IpAddr) (d : DdosProtection) : DdosProtection :=
  set_ip_info d (alter close_info ip (ip_info d)).

Definition check_request_size (size : Z) (d : DdosProtection) : result string unit :=
  if max_request_size (config d) <? size then
    Err ("Request size " +:+ pretty size +:+ " exceeds maximum allowed size "
         +:+ pretty (max_request_size (config d)))
  else Ok ().

Record DdosStats := {
  total_tracked_ips : Z;
  blocked_ips : Z;
  total_active_connections : Z;
}.

Definition count_entry (now : Z) (st : DdosStats) (info : IpConnectionInfo) : DdosStats :=
  {| total_tracked_ips := total_tracked_ips st;
     blocked_ips := blocked_ips st + if blocked_at now (blocked_until info) then 1 else 0;
     total_active_connections := as_u32 (total_active_connections st + active_connections info) |}.

(** The order of the entries is immaterial. *)
Definition get_stats (now : Z) (d : DdosProtection) : DdosStats :=
  foldl (count_entry now)
    {| total_tracked_ips := Z.of_nat (size (ip_info d)); blocked_ips := 0;
       total_active_connections := 0 |}
    (map_to_list (ip_info d)).*2.

(** What cleanup keeps. *)
Definition keep_entry (window now : Z) (info : IpConnectionInfo) : bool :=
  if active_connections info =? 0 then
    existsb (λ t, duration_since now t <? 2 * window) (recent_connections info)
    || blocked_at now (blocked_until info)
  else true.

Definition cleanup_old_entries (now : Z) (d : DdosProtection) : DdosProtection :=
  set_ip_info d (filter (λ '(_, info), keep_entry (rate_window (config d)) now info = true)
                   (ip_info d)).

(** ** Histories *)

Inductive event := Connect (ip : IpAddr) | Close (ip : IpAddr) | Cleanup.

(** What an event leaves in the log: the answer to a connection, a closure, or
    nothing for the cleanup. *)
Inductive entry := Answered (ip : IpAddr) (r : result string unit) | Closed (ip : IpAddr).

Definition step (d : DdosProtection) (e : Z * event) : DdosProtection * list (Z * entry) :=
  match e with
  | (now, Connect ip) =>
      let '(d', r) := check_connection_limit now ip d in (d', [(now, Answered ip r)])
  | (now, Close ip) => (connection_closed ip d, [(now, Closed ip)])
  | (now, Cleanup) => (cleanup_old_entries now d, [])
  end.

Definition run (cfg : DdosConfig) (evs : list (Z * event)) : DdosProtection * list (Z * entry) :=
  foldl (λ '(d, log) e, let '(d', out) := step d e in (d', log ++ out))
    (DdosProtection_new cfg, []) evs.

(** ** The abstract specification: decisions from the whole log *)

Definition admitted_of (ip : IpAddr) (e : Z * entry) : bool :=
  match e.2 with Answered ip' (Ok _) => bool_decide (ip = ip') | _ => false end.
Definition blocking_of (ip : IpAddr) (e : Z * entry) : bool :=
  match e.2 with
  | Answered ip' (Err m) => bool_decide (ip = ip') && (m =?s EXCEEDED)
  | _ => false
  end.
(** The instants at which the address was admitted. *)
Definition admissions (ip : IpAddr) (log : list (Z * entry)) : list Z :=
  (filter (λ e, admitted_of ip e = true) log).*1.
(** The open connections: admitted and not yet closed. *)
Definition open_connections (ip : IpAddr) (log : list (Z * entry)) : Z :=
  foldl (λ n e, if admitted_of ip e then n + 1
                else match e.2 with
                     | Closed ip' => if bool_decide (ip = ip') then Z.max 0 (n - 1) else n
                     | _ => n
                     end) 0 log.
(** The end of the last block. *)
Definition block_end (cfg : DdosConfig) (ip : IpAddr) (log : list (Z * entry)) : option Z :=
  foldl (λ u e, if blocking_of ip e then Some (e.1 + block_duration cfg) else u) None log.
Arguments admissions : simpl never.
Arguments open_connections : simpl never.
Arguments block_end : simpl never.

Definition spec_answer (cfg : DdosConfig) (now : Z) (ip : IpAddr) (log : list (Z * entry))
    : result string unit :=
  if blocked_at now (block_end cfg ip log) then Err BLOCKED
  else if (connection_rate_per_minute cfg
             <=? Z.of_nat (length (in_window (rate_window cfg) now (admissions ip log))))
          || (max_connections_per_ip cfg <=? open_connections ip log)
  then Err EXCEEDED else Ok ().

Definition spec_step (cfg : DdosConfig) (log : list (Z * entry)) (e : Z * event)
    : list (Z * entry) :=
  match e with
  | (now, Connect ip) => log ++ [(now, Answered ip (spec_answer cfg now ip log))]
  | (now, Close ip) => log ++ [(now, Closed ip)]
  | (_, Cleanup) => log
  end.

Definition spec_run (cfg : DdosConfig) (evs : list (Z * event)) : list (Z * entry) :=
  foldl (spec_step cfg) [] evs.

(** ** Simulation *)

Definition log_at (now : Z) (log : list (Z * entry)) : Prop := Forall (λ e, e.1 ≤ now) log.

(** An entry, or none, represents a log from [now] on: no later decision can
    tell them apart. *)
Record represents (cfg : DdosConfig) (now : Z) (ip : IpAddr) (info : IpConnectionInfo)
    (log : list (Z * entry)) : Prop := {
  rep_active : active_connections info = open_connections ip log;
  rep_recent : ∀ now', now ≤ now' →
    in_window (rate_window cfg) now' (recent_connections info)
    = in_window (rate_window cfg) now' (admissions ip log);
  rep_blocked : ∀ now', now ≤ now' →
    blocked_at now' (blocked_until info) = blocked_at now' (block_end cfg ip log);
}.

Definition simulates (now : Z) (d : DdosProtection) (log : list (Z * entry)) : Prop :=
  ∀ ip, represents (config d) now ip (default fresh_info (ip_info d !! ip)) log.

Lemma represents_later cfg now now' ip info log :
  now ≤ now' → represents cfg now ip info log → represents cfg now' ip info log.
Proof. intros ? [Ha Hr Hb]. split; [done|intros; apply Hr; lia|intros; apply Hb; lia]. Qed.

Lemma admissions_snoc ip log e :
  admissions ip (log ++ [e]) = admissions ip log ++ if admitted_of ip e then [e.1] else [].
Proof.
  unfold admissions. rewrite filter_app, fmap_app. f_equal.
  destruct (admitted_of ip e) eqn:E; [by rewrite filter_cons_True|by rewrite filter_cons_False by congruence].
Qed.
Lemma open_connections_snoc ip log e :
  open_connections ip (log ++ [e])
  = if admitted_of ip e then open_connections ip log + 1
    else match e.2 with
         | Closed ip' => if bool_decide (ip = ip') then Z.max 0 (open_connections ip log - 1)
                         else open_connections ip log
         | _ => open_connections ip log
         end.
Proof. unfold open_connections. by rewrite foldl_app. Qed.
Lemma block_end_snoc cfg ip log e :
  block_end cfg ip (log ++ [e])
  = if blocking_of ip e then Some (e.1 + block_duration cfg) else block_end cfg ip log.
Proof. unfold block_end. by rewrite foldl_app. Qed.

Lemma open_connections_nonneg ip log : 0 ≤ open_connections ip log.
Proof.
  induction log as [|e log IH] using rev_ind; [done|]. rewrite open_connections_snoc.
  destruct (admitted_of ip e); [lia|]. destruct (e.2); [lia|]. case_bool_decide; lia.
Qed.

Lemma in_window_app w now l k : in_window w now (l ++ k) = in_window w now l ++ in_window w now k.
Proof. apply filter_app. Qed.
(** Dropping old timestamps now does not change any later window. *)
Lemma in_window_later w now now' l :
  now ≤ now' → in_window w now' (in_window w now l) = in_window w now' l.
Proof.
  intros. unfold in_window. rewrite list_filter_filter_l; [done|].
  unfold duration_since. intros; lia.
Qed.
Lemma in_window_nil w now l : Forall (λ t, w ≤ duration_since now t) l → in_window w now l = [].
Proof.
  induction 1 as [|t l Ht _ IH]; [done|]. unfold in_window in *. rewrite filter_cons_False by lia. done.
Qed.

(** An entry of another address does not matter. *)
Lemma represents_other cfg now ip info log e :
  represents cfg now ip info log →
  match e.2 with Answered ip' _ | Closed ip' => ip ≠ ip' end →
  represents cfg now ip info (log ++ [e]).
Proof.
  intros [Ha Hr Hb] Hne. destruct e as [t [ip' r|ip']]; cbn in Hne.
  - assert (admitted_of ip (t, Answered ip' r) = false ∧ blocking_of ip (t, Answered ip' r) = false)
      as [E1 E2] by (unfold admitted_of, blocking_of; cbn; destruct r; by rewrite ?bool_decide_false).
    split; rewrite ?open_connections_snoc, ?admissions_snoc, ?block_end_snoc, ?E1, ?E2; cbn;
      rewrite ?app_nil_r; done.
  - split; rewrite ?open_connections_snoc, ?admissions_snoc, ?block_end_snoc; cbn;
      rewrite ?app_nil_r, ?bool_decide_false by done; done.
Qed.

Lemma simulates_insert now d log ip info e :
  simulates now d log →
  match e.2 with Answered ip' _ | Closed ip' => ip' = ip end →
  represents (config d) now ip info (log ++ [e]) →
  simulates now (set_ip_info d (<[ip := info]> (ip_info d))) (log ++ [e]).
Proof.
  intros Hs He Hi ip'. cbn. destruct (decide (ip' = ip)) as [->|Hne].
  - by rewrite lookup_insert_eq.
  - rewrite lookup_insert_ne by done. apply represents_other; [apply Hs|].
    by destruct (e.2); subst.
Qed.

Lemma connect_simulates now d log ip :
  u32_ok (max_connections_per_ip (config d)) → simulates now d log →
  let '(d', r) := check_connection_limit now ip d in
  config d' = config d ∧ r = spec_answer (config d) now ip log
  ∧ simulates now d' (log ++ [(now, Answered ip r)]).
Proof.
  intros Hmax Hs. destruct (Hs ip) as [Ha Hr Hb]. unfold check_connection_limit, spec_answer.
  assert (is_blocked now ip d = blocked_at now (block_end (config d) ip log)) as ->.
  { rewrite <- Hb by done. unfold is_blocked. by destruct (ip_info d !! ip). }
  destruct (blocked_at now (block_end (config d) ip log)) eqn:Eb.
  { split_and!; [done..|]. intros ip'. destruct (decide (ip' = ip)) as [->|].
    - destruct (Hs ip) as [Ha' Hr' Hb']. by split; rewrite ?open_connections_snoc, ?admissions_snoc,
        ?block_end_snoc; cbn; rewrite ?app_nil_r, ?andb_false_r.
    - by apply represents_other. }
  rewrite Hr, Ha by done. set (recent := in_window _ now (admissions ip log)).
  destruct (_ || _) eqn:Eo.
  - split_and!; [done..|]. apply simulates_insert; [done..|].
    split; rewrite ?open_connections_snoc, ?admissions_snoc, ?block_end_snoc; cbn;
      rewrite ?app_nil_r, ?bool_decide_true; cbn; try done.
    intros now' ?. by apply in_window_later.
  - apply orb_false_iff in Eo as [_ Eo%Z.leb_gt]. split_and!; [done..|].
    apply simulates_insert; [done..|].
    split; rewrite ?open_connections_snoc, ?admissions_snoc, ?block_end_snoc; cbn;
      rewrite ?bool_decide_true by done; cbn; [| |done].
    + apply Z.mod_small. pose proof (open_connections_nonneg ip log). unfold u32_ok in Hmax. lia.
    + intros now' ?. rewrite !in_window_app. f_equal. by apply in_window_later.
Qed.

Lemma close_simulates now d log ip :
  simulates now d log → simulates now (connection_closed ip d) (log ++ [(now, Closed ip)]).
Proof.
  intros Hs. destruct (Hs ip) as [Ha Hr Hb]. unfold connection_closed. intros ip'. cbn.
  destruct (decide (ip' = ip)) as [->|Hne].
  - rewrite lookup_alter_eq. split; rewrite ?open_connections_snoc, ?admissions_snoc, ?block_end_snoc;
      cbn; rewrite ?app_nil_r, ?bool_decide_true by done; destruct (ip_info d !! ip); cbn in *;
      rewrite <- ?Ha; done.
  - rewrite lookup_alter_ne by done. by apply represents_other.
Qed.

(** Cleanup forgets only what no later decision needs. *)
Lemma cleanup_simulates now d log :
  0 ≤ rate_window (config d) → simulates now d log →
  simulates now (cleanup_old_entries now d) log.
Proof.
  intros Hw Hs ip. destruct (Hs ip) as [Ha Hr Hb]. cbn in *.
  destruct (ip_info d !! ip) as [info|] eqn:E; cbn in *.
  2:{ rewrite map_lookup_filter_None_2 by naive_solver. by split. }
  destruct (keep_entry (rate_window (config d)) now info) eqn:Ek.
  { rewrite map_lookup_filter_Some_2 with (x := info) by done. by split. }
  rewrite map_lookup_filter_None_2 by (right; intros x Hx; rewrite E in Hx; congruence).
  unfold keep_entry in Ek.
  destruct (Z.eqb_spec (active_connections info) 0) as [E0|]; [|done].
  apply orb_false_iff in Ek as [Ex Eb]. split; cbn.
  - by rewrite <- Ha.
  - intros now' ?. rewrite <- Hr by done. symmetry. apply in_window_nil, Forall_forall.
    intros t Ht. destruct (Z.ltb_spec (duration_since now t) (2 * rate_window (config d))) as [Hlt|].
    + exfalso. apply not_true_iff_false in Ex. apply Ex, existsb_exists.
      exists t. split; [by apply list_elem_of_In|by apply Z.ltb_lt].
    + unfold duration_since in *. lia.
  - intros now' ?. rewrite <- Hb by done. destruct (blocked_until info); cbn in *; [|done].
    lia.
Qed.

(** The time of an event and of a history so far. *)
Definition monotone (evs : list (Z * event)) : Prop := StronglySorted Z.le evs.*1.
Definition cfg_ok (cfg : DdosConfig) : Prop :=
  u32_ok (max_connections_per_ip cfg) ∧ u32_ok (connection_rate_per_minute cfg)
  ∧ 0 ≤ rate_window cfg ∧ 0 ≤ block_duration cfg.

Lemma step_simulates cfg d log now ev :
  cfg_ok cfg → config d = cfg → simulates now d log →
  let '(d', out) := step d (now, ev) in
  config d' = cfg ∧ log ++ out = spec_step cfg log (now, ev) ∧ simulates now d' (log ++ out).
Proof.
  intros (Hmax & _ & Hw & _) <- Hs. destruct ev as [ip|ip|]; cbn.
  - pose proof (connect_simulates now d log ip Hmax Hs) as H.
    destruct (check_connection_limit now ip d) as [d' r]. destruct H as (? & <- & ?). done.
  - split_and!; [done..|by apply close_simulates].
  - rewrite app_nil_r. split_and!; [done..|by apply cleanup_simulates].
Qed.

Lemma monotone_snoc evs e :
  monotone (evs ++ [e]) → monotone evs ∧ Forall (λ e', e'.1 ≤ e.1) evs.
Proof.
  unfold monotone. rewrite fmap_app. cbn. rewrite StronglySorted_app. intros (H & ? & _).
  split; [done|]. apply Forall_forall. intros x Hx.
  apply H; [by apply list_elem_of_fmap_2|by left].
Qed.

Lemma run_snoc cfg evs e :
  run cfg (evs ++ [e])
  = let '(d, log) := run cfg evs in let '(d', out) := step d e in (d', log ++ out).
Proof. unfold run. rewrite foldl_app. by destruct (foldl _ _ evs). Qed.
Lemma spec_run_snoc cfg evs e : spec_run cfg (evs ++ [e]) = spec_step cfg (spec_run cfg evs) e.
Proof. unfold spec_run. by rewrite foldl_app. Qed.

Lemma run_simulates cfg evs now :
  cfg_ok cfg → monotone evs → Forall (λ e, e.1 ≤ now) evs →
  config (run cfg evs).1 = cfg ∧ (run cfg evs).2 = spec_run cfg evs
  ∧ simulates now (run cfg evs).1 (run cfg evs).2.
Proof.
  intros Hcfg. revert now. induction evs as [|[t ev] evs IH] using rev_ind; intros now Hm Hnow.
  { split; [done|]. split; [done|]. intros ip. cbn. rewrite lookup_empty. by split. }
  apply monotone_snoc in Hm as [Hm Hle]. apply Forall_app in Hnow as [_ [Ht _]%Forall_cons].
  specialize (IH t Hm Hle). rewrite run_snoc, spec_run_snoc. destruct (run cfg evs) as [d log].
  destruct IH as (Hc & El & Hs). cbn in Hc, El, Hs. subst log.
  pose proof (step_simulates cfg d _ t ev Hcfg Hc Hs) as Hstep.
  destruct (step d (t, ev)) as [d' out]. destruct Hstep as (Hc' & Ho & Hs'). cbn [fst snd].
  split; [done|]. split; [done|]. intros ip. rewrite Hc'. specialize (Hs' ip). rewrite Hc' in Hs'.
  exact (represents_later _ _ _ _ _ _ Ht Hs').
Qed.

Lemma run_log cfg evs : cfg_ok cfg → monotone evs → (run cfg evs).2 = spec_run cfg evs.
Proof.
  intros Hcfg Hm. destruct evs as [|e evs _] using rev_ind; [done|].
  destruct (monotone_snoc _ _ Hm) as [_ Hle].
  apply (run_simulates cfg _ e.1); [done..|]. apply Forall_app_2; [done|]. by constructor.
Qed.

Lemma spec_run_times cfg evs now :
  Forall (λ e, e.1 ≤ now) evs → log_at now (spec_run cfg evs).
Proof.
  unfold log_at. induction evs as [|[t ev] evs IH] using rev_ind; [constructor|].
  intros [Hf [Ht _]%Forall_cons]%Forall_app. specialize (IH Hf). rewrite spec_run_snoc.
  destruct ev; cbn; [apply Forall_app_2|apply Forall_app_2|]; [done|..|done]; repeat constructor; done.
Qed.

(** ** Limits of the specification *)

(** The admissions of the half-open window of length [w] that ends at [T]. *)
Definition admitted_within (w T : Z) (ts : list Z) : nat :=
  length (filter (λ t, T - w < t ∧ t ≤ T) ts).

Lemma admissions_times ip log now : log_at now log → Forall (λ t, t ≤ now) (admissions ip log).
Proof.
  unfold log_at, admissions. rewrite !Forall_forall. intros H t (e & -> & He)%list_elem_of_fmap.
  apply H. by apply list_elem_of_filter in He as [_ ?].
Qed.

Lemma admitted_within_le w T now ts :
  Forall (λ t, t ≤ now) ts → now ≤ T → (admitted_within w T ts ≤ length (in_window w now ts))%nat.
Proof.
  intros Hts HT. unfold admitted_within, in_window. apply submseteq_length.
  induction Hts as [|t ts Ht _ IH]; [done|]. destruct (decide (T - w < t ∧ t ≤ T)).
  - rewrite !filter_cons_True by (unfold duration_since; lia). by apply submseteq_skip.
  - rewrite (filter_cons_False (λ t, T - w < t ∧ t ≤ T)) by done.
    rewrite filter_cons. case_decide; [by apply submseteq_cons|done].
Qed.

Lemma spec_open_le cfg evs ip :
  cfg_ok cfg → open_connections ip (spec_run cfg evs) ≤ max_connections_per_ip cfg.
Proof.
  intros (Hmax & _). induction evs as [|[t ev] evs IH] using rev_ind.
  { unfold u32_ok in Hmax. change (0 ≤ max_connections_per_ip cfg). lia. }
  rewrite spec_run_snoc. destruct ev as [ip'|ip'|]; cbn; [| |done];
    rewrite open_connections_snoc; cbn.
  - unfold spec_answer. destruct (blocked_at _ _); [done|]. destruct (_ || _) eqn:E; [done|].
    apply orb_false_iff in E as [_ E%Z.leb_gt]. cbn. case_bool_decide; [subst; lia|done].
  - case_bool_decide; [|done]. unfold u32_ok in Hmax. lia.
Qed.

Lemma spec_rate_le cfg evs ip T :
  cfg_ok cfg → monotone evs →
  Z.of_nat (admitted_within (rate_window cfg) T (admissions ip (spec_run cfg evs)))
  ≤ connection_rate_per_minute cfg.
Proof.
  intros (_ & Hrate & _). unfold u32_ok in Hrate.
  induction evs as [|[t ev] evs IH] using rev_ind; [intros _; change (0 ≤ connection_rate_per_minute cfg); lia|].
  intros [Hm Hle]%monotone_snoc. specialize (IH Hm). apply (spec_run_times cfg) in Hle.
  rewrite spec_run_snoc. destruct ev as [ip'|ip'|]; cbn [spec_step]; [| |done];
    rewrite admissions_snoc; [|by cbn; rewrite app_nil_r].
  unfold spec_answer, admitted_of. cbn. destruct (blocked_at _ _); [by rewrite app_nil_r|].
  destruct (_ || _) eqn:E; [by rewrite app_nil_r|]. apply orb_false_iff in E as [E%Z.leb_gt _].
  cbn. case_bool_decide as Eip; [subst ip'|by rewrite app_nil_r].
  unfold admitted_within in *. rewrite filter_app, length_app, filter_cons.
  case_decide as HT; [|by cbn; rewrite Nat.add_0_r].
  pose proof (admitted_within_le (rate_window cfg) T t _ (admissions_times ip _ t Hle) (proj2 HT)).
  unfold admitted_within in *. cbn. lia.
Qed.

(** After a block no connection of the address is admitted before its end. *)
Lemma spec_block_end cfg evs ip t :
  monotone evs →
  (t, Answered ip (Err EXCEEDED)) ∈ spec_run cfg evs →
  ∃ u, block_end cfg ip (spec_run cfg evs) = Some u ∧ t + block_duration cfg ≤ u.
Proof.
  induction evs as [|[now ev] evs IH] using rev_ind; [intros _ []%not_elem_of_nil|].
  intros [Hm Hle]%monotone_snoc. specialize (IH Hm). apply (spec_run_times cfg) in Hle.
  unfold log_at in Hle. rewrite Forall_forall in Hle.
  rewrite spec_run_snoc. destruct ev as [ip'|ip'|]; cbn [spec_step]; [| |done];
    rewrite elem_of_app, list_elem_of_singleton; rewrite block_end_snoc.
  - intros [Hin|Heq].
    + destruct (blocking_of _ _); [|by apply IH]. cbn. eexists. split; [done|].
      specialize (Hle _ Hin). cbn in Hle. lia.
    + injection Heq as -> <- <-. unfold blocking_of. cbn. rewrite bool_decide_true by done.
      cbn. eexists. split; [done|]. lia.
  - intros [Hin|]; [by apply IH|done].
Qed.

Lemma spec_block_holds cfg evs ip t t' l1 l2 l3 :
  monotone evs →
  spec_run cfg evs = l1 ++ (t, Answered ip (Err EXCEEDED)) :: l2 ++ (t', Answered ip (Ok ())) :: l3 →
  t + block_duration cfg ≤ t'.
Proof.
  revert l3. induction evs as [|[now ev] evs IH] using rev_ind.
  { intros l3 _ H. by destruct l1. }
  intros l3 Hm0. destruct (monotone_snoc _ _ Hm0) as [Hm _]. rewrite spec_run_snoc.
  destruct l3 as [|x l3 _] using rev_ind.
  - rewrite app_comm_cons, app_assoc. destruct ev as [ip'|ip'|]; cbn [spec_step].
    + intros [E1 E2]%app_inj_tail. injection E2 as -> -> E2. unfold spec_answer in E2.
      destruct (blocked_at _ _) eqn:Eb; [done|].
      destruct (spec_block_end cfg evs ip t Hm) as (u & Eu & ?).
      { rewrite E1. set_solver. }
      rewrite Eu in Eb. cbn in Eb. lia.
    + by intros [_ ?]%app_inj_tail.
    + intros E. apply (IH [] Hm). by rewrite E, <- app_assoc.
  - intros E. destruct ev as [ip'|ip'|]; cbn [spec_step] in E; [| |by apply (IH _ Hm E)];
      rewrite !app_comm_cons, !app_assoc in E; apply app_inj_tail in E as [E _];
      apply (IH l3 Hm); by rewrite E, <- !app_assoc.
Qed.

(** ** Claims *)

(** C27: every answer of the connection limiter is a function of the complete
    history.  Against any sequence of connection attempts and closures from any
    addresses, with cleanups at any moments, the answers are exactly those of the
    specification that keeps the whole log and never cleans up: refused while the
    last block of the address lasts, blocked when the admissions of the sliding
    window or the open connections have reached their limit, admitted
    otherwise. *)
Theorem ddos_decisions_exact cfg evs (Hcfg : cfg_ok cfg) (Hm : monotone evs) :
  (run cfg evs).2 = spec_run cfg evs.
Proof. by apply run_log. Qed.

(** The limits the connection limiter guarantees.  In every history an address
    has at most the configured number of open connections, is admitted at most
    the configured number of times in any window of the configured length
    (wherever the window lies), and is never admitted between a block and the end
    of the block. *)
Lemma ddos_limits cfg evs ip (Hcfg : cfg_ok cfg) (Hm : monotone evs) :
  let log := (run cfg evs).2 in
  open_connections ip log ≤ max_connections_per_ip cfg
  ∧ (∀ T, Z.of_nat (admitted_within (rate_window cfg) T (admissions ip log))
          ≤ connection_rate_per_minute cfg)
  ∧ ∀ t t' l1 l2 l3,
      log = l1 ++ (t, Answered ip (Err EXCEEDED)) :: l2 ++ (t', Answered ip (Ok ())) :: l3 →
      t + block_duration cfg ≤ t'.
Proof.
  cbn zeta. assert ((run cfg evs).2 = spec_run cfg evs) as -> by by apply run_log.
  split_and!; eauto using spec_open_le, spec_rate_le, spec_block_holds.
Qed.

(** ** Evaluation on a concrete history *)
Module DdosDemo.

Definition a : IpAddr := V4 (Ipv4 10 0 0 1).
Definition b : IpAddr := V4 (Ipv4 10 0 0 2).
(** Two open connections, three per second, blocks of five seconds. *)
Definition cfg : DdosConfig :=
  {| max_connections_per_ip := 2; connection_rate_per_minute := 3; max_request_size := 512;
     block_duration := secs 5; rate_window := secs 1 |}.
Definition evs : list (Z * event) :=
  [(0, Connect a); (0, Connect a); (millis 1, Connect b); (millis 2, Connect a); (millis 3, Close a);
   (millis 4, Connect a); (secs 1, Cleanup); (secs 2, Close a); (secs 4, Cleanup);
   (secs 5, Connect a); (secs 6, Connect a)].

Lemma cfg_valid : cfg_ok cfg.
Proof. by split_and!. Qed.
Lemma evs_monotone : monotone evs.
Proof. unfold monotone. cbn. repeat constructor; done. Qed.

Lemma ddos_decisions_exact_witness :
  (run cfg evs).2 = spec_run cfg evs ∧ admissions a (run cfg evs).2 = [0; 0; secs 6].
Proof. split; [apply (ddos_decisions_exact cfg evs cfg_valid evs_monotone)|by vm_compute]. Defined.

Lemma ddos_limits_witness : open_connections a (run cfg evs).2 ≤ 2.
Proof. apply (ddos_limits cfg evs a cfg_valid evs_monotone). Defined.

End DdosDemo.
