(* ===== verification/Dnssec.v ===== *)
(** * DNSSEC keys, signatures and validation

    crates/dnsd/src/sign.rs: the key manager with rotation and the signature
    cache, the signer, the legacy signer, the validator with its statistics and
    the monitor.  HMAC, hexadecimal text and hickory's records are parameters;
    random bytes and key tags are arguments.  The locks of the source are never
    poisoned.  Key backup is a stub in the source and does nothing. *)

From S2P Require Import Prelude Serde Float.

Inductive DnssecError :=
  | KeyGeneration (m : string)
  | SigningFailed (m : string)
  | KeyRotation (m : string)
  | InvalidAlgorithm (m : string)
  | KeyNotFound (m : string)
  | Configuration (m : string).

(** The [Display] texts. *)
Definition error_text (e : DnssecError) : string :=
  match e with
  | KeyGeneration m => "Key generation failed: " +:+ m
  | SigningFailed m => "Signing failed: " +:+ m
  | KeyRotation m => "Key rotation failed: " +:+ m
  | InvalidAlgorithm m => "Invalid algorithm: " +:+ m
  | KeyNotFound m => "Key not found: " +:+ m
  | Configuration m => "Configuration error: " +:+ m
  end.

Inductive DnssecAlgorithm := HmacSha256 | RsaSha256 | EcdsaP256Sha256.
#[export] Instance DnssecAlgorithm_eq_dec : EqDecision DnssecAlgorithm.
Proof. solve_decision. Defined.
Definition ALGORITHMS : list DnssecAlgorithm := [HmacSha256; RsaSha256; EcdsaP256Sha256].
#[export] Instance DnssecAlgorithm_countable : Countable DnssecAlgorithm.
Proof.
  by apply (inj_countable' (λ a, match a with HmacSha256 => 0%nat | RsaSha256 => 1%nat | _ => 2%nat end)
    (λ n, match n with 0%nat => HmacSha256 | 1%nat => RsaSha256 | _ => EcdsaP256Sha256 end)); intros [].
Defined.

(** The derived [Debug] text. *)
Definition algorithm_name (a : DnssecAlgorithm) : string :=
  match a with
  | HmacSha256 => "HmacSha256" | RsaSha256 => "RsaSha256" | EcdsaP256Sha256 => "EcdsaP256Sha256"
  end.

Definition algorithm_number (a : DnssecAlgorithm) : Z :=
  match a with HmacSha256 => 253 | RsaSha256 => 8 | EcdsaP256Sha256 => 13 end.

(** Hickory's algorithms, as far as the source names them. *)
Inductive Algorithm := RSASHA256 | ECDSAP256SHA256 | Unknown (n : Z) | OtherAlgorithm (name : string).

Definition to_hickory_algorithm (a : DnssecAlgorithm) : Algorithm :=
  match a with
  | HmacSha256 => Unknown 253 | RsaSha256 => RSASHA256 | EcdsaP256Sha256 => ECDSAP256SHA256
  end.

(** [ring::hmac] and [hex]: bytes are strings. *)
Class Hmac := {
  hmac_key : Type;
  hmac_new : string → hmac_key;
  hmac_sign : hmac_key → string → string;
  hex_encode : string → string;
  hex_encode_inj : Inj (=) (=) hex_encode;
}.
#[export] Existing Instance hex_encode_inj.

Record KeyMetadata := {
  key_id : string;
  km_algorithm : DnssecAlgorithm;
  created_at : Z;
  expires_at : Z;
  is_active : bool;
  key_tag : Z;
}.

Record DnssecConfig := {
  default_algorithm : DnssecAlgorithm;
  rotation_interval : Z;
  grace_period : Z;
  max_keys : Z;
  enable_signature_cache : bool;
  signature_cache_ttl : Z;
  enable_key_backup : bool;
  backup_directory : option string;
}.

Definition default_dnssec_config : DnssecConfig :=
  {| default_algorithm := RsaSha256; rotation_interval := 86400 * 7; grace_period := 86400;
     max_keys := 10; enable_signature_cache := true; signature_cache_ttl := 300;
     enable_key_backup := true; backup_directory := None |}.

Record CacheEntry := { signature : string; ce_created_at : Z; ttl : Z }.

Section manager.
Context `{Hmac}.

Inductive KeyMaterial := MHmac (k : hmac_key) | MRsa (k : hmac_key) | MEcdsa (k : hmac_key).

Record DnssecKey := { metadata : KeyMetadata; key_material : KeyMaterial }.

Record DnssecKeyManager := {
  config : DnssecConfig;
  keys : gmap DnssecAlgorithm (list DnssecKey);
  signature_cache : gmap string CacheEntry;
  last_rotation : Z;
}.

Definition set_keys (m : DnssecKeyManager) (ks : gmap DnssecAlgorithm (list DnssecKey))
    : DnssecKeyManager :=
  {| config := config m; keys := ks; signature_cache := signature_cache m;
     last_rotation := last_rotation m |}.

(** [keys.entry(algorithm).or_default().push(key)]. *)
Definition push_key (a : DnssecAlgorithm) (k : DnssecKey) (m : DnssecKeyManager)
    : DnssecKeyManager :=
  set_keys m (<[a := default [] (keys m !! a) ++ [k]]> (keys m)).

Definition add_hmac_key_from_env (now : Z) (secret : string) (m : DnssecKeyManager)
    : DnssecKeyManager :=
  push_key HmacSha256
    {| metadata := {| key_id := "env-hmac"; km_algorithm := HmacSha256; created_at := now;
                      expires_at := now + secs (rotation_interval (config m));
                      is_active := true; key_tag := 0 |};
       key_material := MHmac (hmac_new secret) |} m.

(** What [rng.fill] and [rand::random] yield for one key: the bytes, or the error
    of the generator, and the tag. *)
Record Randomness := { rnd_bytes : result string string; rnd_tag : Z }.

Definition material (a : DnssecAlgorithm) (bytes : string) : KeyMaterial :=
  match a with
  | HmacSha256 => MHmac (hmac_new bytes)
  | RsaSha256 => MRsa (hmac_new bytes)
  | EcdsaP256Sha256 => MEcdsa (hmac_new bytes)
  end.

Definition generate_key (now : Z) (rnd : Randomness) (a : DnssecAlgorithm) (m : DnssecKeyManager)
    : DnssecKeyManager * result DnssecError string :=
  let id := algorithm_name a +:+ "-" +:+ pretty (timestamp now) in
  match rnd_bytes rnd with
  | Err e => (m, Err (KeyGeneration e))
  | Ok bytes =>
      (push_key a
         {| metadata := {| key_id := id; km_algorithm := a; created_at := now;
                           expires_at := now + secs (rotation_interval (config m));
                           is_active := true; key_tag := rnd_tag rnd |};
            key_material := material a bytes |} m, Ok id)
  end.

(** [env] is the value of [FDNS_HMAC_KEY]. *)
Definition initialize_keys (now : Z) (rnd : Randomness) (env : option string)
    (m : DnssecKeyManager) : DnssecKeyManager * result DnssecError unit :=
  match generate_key now rnd (default_algorithm (config m)) m with
  | (m, Err e) => (m, Err e)
  | (m, Ok _) =>
      (match env with Some secret => add_hmac_key_from_env now secret m | None => m end, Ok ())
  end.

Definition DnssecKeyManager_new (now : Z) (rnd : Randomness) (env : option string)
    (cfg : DnssecConfig) : result DnssecError DnssecKeyManager :=
  match initialize_keys now rnd env
          {| config := cfg; keys := ∅; signature_cache := ∅; last_rotation := 0 |} with
  | (m, Ok _) => Ok m
  | (_, Err e) => Err e
  end.

Definition usable (now : Z) (k : DnssecKey) : bool :=
  is_active (metadata k) && (now <? expires_at (metadata k)).

Definition get_active_key (now : Z) (a : DnssecAlgorithm) (m : DnssecKeyManager)
    : result DnssecError DnssecKey :=
  match keys m !! a with
  | None => Err (KeyNotFound ("No keys for algorithm " +:+ algorithm_name a))
  | Some ks =>
      match find (usable now) ks with
      | Some k => Ok k
      | None => Err (KeyNotFound ("No active key for algorithm " +:+ algorithm_name a))
      end
  end.

(** [duration_since(last).unwrap_or(ZERO)] is the non-negative difference. *)
Definition needs_rotation (now : Z) (m : DnssecKeyManager) : bool :=
  secs (rotation_interval (config m)) <? duration_since now (last_rotation m).

Definition deactivate (now : Z) (k : DnssecKey) : DnssecKey :=
  if expires_at (metadata k) <? now then
    {| metadata := {| key_id := key_id (metadata k); km_algorithm := km_algorithm (metadata k);
                      created_at := created_at (metadata k); expires_at := expires_at (metadata k);
                      is_active := false; key_tag := key_tag (metadata k) |};
       key_material := key_material k |}
  else k.

Definition retained (grace now : Z) (k : DnssecKey) : bool :=
  now <? expires_at (metadata k) + secs grace.

Definition deactivate_old_keys (now : Z) (m : DnssecKeyManager) : DnssecKeyManager :=
  set_keys m ((λ ks : list DnssecKey, filter (λ k, retained (grace_period (config m)) now k = true)
                       (deactivate now <$> ks)) <$> keys m).

Definition rotate_keys (now : Z) (rnd : DnssecAlgorithm → Randomness) (m : DnssecKeyManager)
    : DnssecKeyManager :=
  let m := foldl (λ m a, (generate_key now (rnd a) a m).1) m ALGORITHMS in
  let m := deactivate_old_keys now m in
  {| config := config m; keys := keys m; signature_cache := signature_cache m;
     last_rotation := now |}.

(** ** Signatures *)

Definition material_key (k : KeyMaterial) : hmac_key :=
  match k with MHmac k | MRsa k | MEcdsa k => k end.
Definition sign_with (k : DnssecKey) (data : string) : string :=
  hmac_sign (material_key (key_material k)) data.

Definition cache_key (a : DnssecAlgorithm) (data : string) : string :=
  algorithm_name a +:+ ":" +:+ hex_encode data.

(** [elapsed().unwrap_or(MAX) < ttl]: never for an entry of the future. *)
Definition entry_live (now : Z) (e : CacheEntry) : bool :=
  (ce_created_at e <=? now) && (now - ce_created_at e <? ttl e).

Definition get_cached_signature (now : Z) (key : string) (m : DnssecKeyManager) : option string :=
  match signature_cache m !! key with
  | Some e => if entry_live now e then Some (signature e) else None
  | None => None
  end.

Definition cache_signature (now : Z) (key sig : string) (m : DnssecKeyManager)
    : DnssecKeyManager :=
  {| config := config m; keys := keys m;
     signature_cache :=
       filter (λ '(_, e), entry_live now e = true)
         (<[key := {| signature := sig; ce_created_at := now;
                      ttl := secs (signature_cache_ttl (config m)) |}]> (signature_cache m));
     last_rotation := last_rotation m |}.

Definition sign (now : Z) (data : string) (a : DnssecAlgorithm) (m : DnssecKeyManager)
    : DnssecKeyManager * result DnssecError string :=
  let cached := enable_signature_cache (config m) in
  match (if cached then get_cached_signature now (cache_key a data) m else None) with
  | Some sig => (m, Ok sig)
  | None =>
      match get_active_key now a m with
      | Err e => (m, Err e)
      | Ok k =>
          let sig := sign_with k data in
          (if cached then cache_signature now (cache_key a data) sig m else m, Ok sig)
      end
  end.

(** The statistics document; the order of its members is immaterial. *)
Definition get_key_statistics (now : Z) (m : DnssecKeyManager) : gmap string json :=
  let per_algorithm := map_fold (λ a ks acc,
    <[algorithm_name a := JObj
        [("active_keys", JNum (Z.of_nat (length (filter (λ k, is_active (metadata k) = true) ks))));
         ("total_keys", JNum (Z.of_nat (length ks)));
         ("algorithm_number", JNum (algorithm_number a))]]> acc) ∅ (keys m) in
  <["last_rotation" := JObj [("timestamp", JNum (timestamp (last_rotation m)));
                             ("needs_rotation", JBool (needs_rotation now m))]]>
    (<["signature_cache" := JObj [("entries", JNum (Z.of_nat (size (signature_cache m))));
                                  ("enabled", JBool (enable_signature_cache (config m)))]]>
       per_algorithm).

End manager.
Arguments DnssecKeyManager {_}.
Arguments DnssecKey {_}.

(** ** Records and the signer *)

(** [hickory_proto]: names, record types and records, with what the source asks of
    them. *)
Class Records := {
  Name : Type;
  num_labels : Name → Z;
  RecordType : Type;
  RecordType_eq_dec :: EqDecision RecordType;
  RRSIG_TYPE : RecordType;
  RecordType_debug : RecordType → string;
  Algorithm_debug : Algorithm → string;
  PlainRecord : Type;
  plain_type : PlainRecord → RecordType;
}.

Record SigInput `{Records} := {
  type_covered : RecordType;
  si_algorithm : Algorithm;
  si_num_labels : Z;
  original_ttl : Z;
  sig_expiration : Z;
  sig_inception : Z;
  si_key_tag : Z;
  signer_name : Name;
}.

Record RRSIG `{Records} := { input : SigInput; sig : string }.

(** A record of a message: a signature with its owner and time to live, or any
    other. *)
Inductive DnsRecord `{Records} :=
  | SigRecord (name : Name) (record_ttl : Z) (r : RRSIG)
  | Plain (p : PlainRecord).

Section signer.
Context `{Hmac} `{Records}.
(** [Record::emit]: appends a record to an encoder's buffer; a failure comes with
    its text and what was written. *)
Context (emit : DnsRecord → string → string * option string).

Record ProductionDnssecSigner := { key_manager : DnssecKeyManager; signer_config : DnssecConfig }.

Definition ProductionDnssecSigner_new (now : Z) (rnd : Randomness) (env : option string)
    (cfg : DnssecConfig) : result DnssecError ProductionDnssecSigner :=
  m ← DnssecKeyManager_new now rnd env cfg;
  Ok {| key_manager := m; signer_config := cfg |}.

Definition with_manager (s : ProductionDnssecSigner) (m : DnssecKeyManager)
    : ProductionDnssecSigner := {| key_manager := m; signer_config := signer_config s |}.

(** The input of a signature made now; the sum of 32-bit seconds wraps. *)
Definition sig_input (now : Z) (name : Name) (typ : RecordType) (rttl : Z) (alg : Algorithm)
    (tag : Z) : SigInput :=
  let t := as_u32 (timestamp now) in
  {| type_covered := typ; si_algorithm := alg; si_num_labels := num_labels name;
     original_ttl := rttl; sig_expiration := as_u32 (t + rttl); sig_inception := t;
     si_key_tag := tag; signer_name := name |}.

Definition rrsig_record_with_algorithm (now : Z) (name : Name) (typ : RecordType) (rttl : Z)
    (rrset : string) (a : DnssecAlgorithm) (s : ProductionDnssecSigner)
    : ProductionDnssecSigner * result DnssecError DnsRecord :=
  match sign now rrset a (key_manager s) with
  | (m, Err e) => (with_manager s m, Err e)
  | (m, Ok sg) =>
      (with_manager s m,
       k ← get_active_key now a m;
       Ok (SigRecord name rttl
             {| input := sig_input now name typ rttl (to_hickory_algorithm a)
                           (key_tag (metadata k)); sig := sg |}))
  end.

Definition rrsig_record (now : Z) (name : Name) (typ : RecordType) (rttl : Z) (rrset : string)
    (s : ProductionDnssecSigner) : ProductionDnssecSigner * result DnssecError DnsRecord :=
  rrsig_record_with_algorithm now name typ rttl rrset (default_algorithm (signer_config s)) s.

Definition check_and_rotate_keys (now : Z) (rnd : DnssecAlgorithm → Randomness)
    (s : ProductionDnssecSigner) : ProductionDnssecSigner :=
  if needs_rotation now (key_manager s)
  then with_manager s (rotate_keys now rnd (key_manager s)) else s.

Definition force_key_rotation (now : Z) (rnd : DnssecAlgorithm → Randomness)
    (s : ProductionDnssecSigner) : ProductionDnssecSigner :=
  with_manager s (rotate_keys now rnd (key_manager s)).

Definition get_statistics (now : Z) (s : ProductionDnssecSigner) : gmap string json :=
  get_key_statistics now (key_manager s).

(** *** The legacy signer *)

Record HmacSigner := { legacy_key : hmac_key }.

Definition HmacSigner_from_env (env : option string) : option HmacSigner :=
  secret ← env; Some {| legacy_key := hmac_new secret |}.

Definition legacy_rrsig_record (now : Z) (name : Name) (typ : RecordType) (rttl : Z)
    (rrset : string) (s : HmacSigner) : DnsRecord :=
  SigRecord name rttl
    {| input := sig_input now name typ rttl (Unknown 253) 0; sig := hmac_sign (legacy_key s) rrset |}.

(** *** The global cells: empty, or initialised once and for all *)

Definition signer (env : option string) (cell : option (option HmacSigner))
    : option (option HmacSigner) * option HmacSigner :=
  match cell with
  | Some s => (cell, s)
  | None => let s := HmacSigner_from_env env in (Some s, s)
  end.

Definition production_signer (now : Z) (rnd : Randomness) (env : option string)
    (cell : option (option ProductionDnssecSigner))
    : option (option ProductionDnssecSigner) * option ProductionDnssecSigner :=
  match cell with
  | Some s => (cell, s)
  | None =>
      let s := res_ok (ProductionDnssecSigner_new now rnd env default_dnssec_config) in (Some s, s)
  end.

Definition init_production_signer (now : Z) (rnd : Randomness) (env : option string)
    (cfg : DnssecConfig) (cell : option (option ProductionDnssecSigner))
    : option (option ProductionDnssecSigner) * result DnssecError unit :=
  match ProductionDnssecSigner_new now rnd env cfg with
  | Err e => (cell, Err e)
  | Ok s =>
      match cell with
      | None => (Some (Some s), Ok ())
      | Some _ => (cell, Err (Configuration "Signer already initialized"))
      end
  end.

(** ** The validator *)

Record ValidationStats := {
  total_validations : Z;
  successful_validations : Z;
  failed_validations : Z;
  validations_by_algorithm : gmap string Z;
  average_validation_time_us : Z;
}.
Definition default_stats : ValidationStats :=
  {| total_validations := 0; successful_validations := 0; failed_validations := 0;
     validations_by_algorithm := ∅; average_validation_time_us := 0 |}.

Definition update_validation_stats (a : DnssecAlgorithm) (increment_total : bool)
    (st : ValidationStats) : ValidationStats :=
  {| total_validations := if increment_total then as_u64 (total_validations st + 1)
                          else total_validations st;
     successful_validations := successful_validations st;
     failed_validations := failed_validations st;
     validations_by_algorithm :=
       <[algorithm_name a :=
           as_u64 (default 0 (validations_by_algorithm st !! algorithm_name a) + 1)]>
         (validations_by_algorithm st);
     average_validation_time_us := average_validation_time_us st |}.

Definition update_timing_stats (elapsed : Z) (st : ValidationStats) : ValidationStats :=
  let us := as_u64 (as_micros elapsed) in
  {| total_validations := total_validations st;
     successful_validations := successful_validations st;
     failed_validations := failed_validations st;
     validations_by_algorithm := validations_by_algorithm st;
     average_validation_time_us :=
       if total_validations st =? 0 then us
       else as_u64 (as_u64 (average_validation_time_us st * (total_validations st - 1)) + us)
              / total_validations st |}.

Definition update_validation_result (is_valid : bool) (st : ValidationStats) : ValidationStats :=
  {| total_validations := total_validations st;
     successful_validations := if is_valid then as_u64 (successful_validations st + 1)
                               else successful_validations st;
     failed_validations := if is_valid then failed_validations st
                           else as_u64 (failed_validations st + 1);
     validations_by_algorithm := validations_by_algorithm st;
     average_validation_time_us := average_validation_time_us st |}.

(** [elapsed] is the measured time of the validation.  The three materials are
    compared alike. *)
Definition validate_rrsig (now elapsed : Z) (m : DnssecKeyManager) (r : RRSIG) (rrset : string)
    (a : DnssecAlgorithm) (st : ValidationStats)
    : ValidationStats * result DnssecError bool :=
  let st := update_validation_stats a true st in
  match get_active_key now a m with
  | Err e => (st, Err e)
  | Ok k =>
      let is_valid := sig r =?s sign_with k rrset in
      (update_validation_result is_valid (update_timing_stats elapsed st), Ok is_valid)
  end.

Inductive ValidationStatus := Unsigned | Valid | Invalid | Error.

Record ValidationResult := {
  status : ValidationStatus;
  valid_signatures : Z;
  invalid_signatures : Z;
  validation_errors : Z;
  errors : list string;
}.
Definition default_result : ValidationResult :=
  {| status := Unsigned; valid_signatures := 0; invalid_signatures := 0; validation_errors := 0;
     errors := [] |}.

Definition push_errors (es : list string) (r : ValidationResult) : ValidationResult :=
  {| status := status r; valid_signatures := valid_signatures r;
     invalid_signatures := invalid_signatures r; validation_errors := validation_errors r;
     errors := errors r ++ es |}.
Definition count_outcome (v i e : Z) (r : ValidationResult) : ValidationResult :=
  {| status := status r; valid_signatures := as_u32 (valid_signatures r + v);
     invalid_signatures := as_u32 (invalid_signatures r + i);
     validation_errors := as_u32 (validation_errors r + e); errors := errors r |}.

Definition record_type (r : DnsRecord) : RecordType :=
  match r with SigRecord _ _ _ => RRSIG_TYPE | Plain p => plain_type p end.

(** The encoding of a record set in one buffer, with the texts of the failures. *)
Fixpoint encode_rrset (rs : list DnsRecord) (buf : string) : string * list string :=
  match rs with
  | [] => (buf, [])
  | r :: rs' =>
      let '(buf, err) := emit r buf in
      let '(out, errs) := encode_rrset rs' buf in
      (out, match err with Some e => ("Failed to encode RRset: " +:+ e) :: errs | None => errs end)
  end.

Definition of_hickory_algorithm (a : Algorithm) : option DnssecAlgorithm :=
  match a with
  | Unknown n => if n =? 253 then Some HmacSha256 else None
  | RSASHA256 => Some RsaSha256
  | ECDSAP256SHA256 => Some EcdsaP256Sha256
  | OtherAlgorithm _ => None
  end.

(** One signature record of the answers. *)
Definition validate_one (now elapsed : Z) (m : DnssecKeyManager) (answers : list DnsRecord)
    (acc : ValidationStats * ValidationResult) (rec : DnsRecord)
    : ValidationStats * ValidationResult :=
  let '(st, res) := acc in
  match rec with
  | Plain _ => (st, res)
  | SigRecord _ _ r =>
      match filter (λ x, record_type x = type_covered (input r)) answers with
      | [] => (st, res)
      | covered =>
          let '(rrset, errs) := encode_rrset covered "" in
          let res := push_errors errs res in
          match of_hickory_algorithm (si_algorithm (input r)) with
          | None =>
              (st, push_errors ["Unsupported algorithm: "
                                +:+ Algorithm_debug (si_algorithm (input r))] res)
          | Some a =>
              match validate_rrsig now elapsed m r rrset a st with
              | (st, Ok true) => (st, count_outcome 1 0 0 res)
              | (st, Ok false) =>
                  (st, push_errors ["Invalid signature for "
                                    +:+ RecordType_debug (type_covered (input r)) +:+ " record"]
                         (count_outcome 0 1 0 res))
              | (st, Err e) =>
                  (st, push_errors ["Validation error: " +:+ error_text e]
                         (count_outcome 0 0 1 res))
              end
          end
      end
  end.

Definition overall_status (r : ValidationResult) : ValidationStatus :=
  if 0 <? validation_errors r then Error
  else if 0 <? invalid_signatures r then Invalid
  else if 0 <? valid_signatures r then Valid
  else Unsigned.

Definition set_status (s : ValidationStatus) (r : ValidationResult) : ValidationResult :=
  {| status := s; valid_signatures := valid_signatures r;
     invalid_signatures := invalid_signatures r; validation_errors := validation_errors r;
     errors := errors r |}.

Definition validate_dns_message (now elapsed : Z) (m : DnssecKeyManager)
    (answers : list DnsRecord) (st : ValidationStats) : ValidationStats * ValidationResult :=
  match filter (λ r, record_type r = RRSIG_TYPE) answers with
  | [] => (st, set_status Unsigned default_result)
  | rrsigs =>
      let '(st, res) := foldl (validate_one now elapsed m answers) (st, default_result) rrsigs in
      (st, set_status (overall_status res) res)
  end.

(** [validate_message] and [self_validate] use a fresh validator. *)
Definition validate_message (now elapsed : Z) (answers : list DnsRecord)
    (s : ProductionDnssecSigner) : ValidationResult :=
  (validate_dns_message now elapsed (key_manager s) answers default_stats).2.

Definition self_validate (now elapsed : Z) (name : Name) (typ : RecordType) (rttl : Z)
    (rrset : string) (s : ProductionDnssecSigner)
    : ProductionDnssecSigner * result DnssecError bool :=
  match rrsig_record now name typ rttl rrset s with
  | (s, Err e) => (s, Err e)
  | (s, Ok (SigRecord _ _ r)) =>
      (s, (validate_rrsig now elapsed (key_manager s) r rrset
             (default_algorithm (signer_config s)) default_stats).2)
  | (s, Ok (Plain _)) => (s, Err (SigningFailed "Failed to extract RRSIG"))
  end.

End signer.

(** ** The monitor *)

Record AlertConfig := {
  max_failure_rate : f64;
  min_validations_for_alert : Z;
  max_avg_validation_time_us : Z;
  alert_cooldown_seconds : Z;
}.
Definition default_alert_config : AlertConfig :=
  {| max_failure_rate := f64_of_Z 5; min_validations_for_alert := 100;
     max_avg_validation_time_us := 1000; alert_cooldown_seconds := 300 |}.

Inductive AlertType :=
  | HighFailureRate | SlowValidation | KeyRotationNeeded | KeyGenerationFailure
  | SignatureCacheIssues.
#[export] Instance AlertType_eq_dec : EqDecision AlertType.
Proof. solve_decision. Defined.
Inductive AlertSeverity := Info | Warning | Critical.

Record Alert := {
  alert_type : AlertType;
  alert_message : string;
  severity : AlertSeverity;
  alert_timestamp : Z;
  alert_stats : ValidationStats;
}.

Record DnssecMonitor := {
  validator_stats : ValidationStats;
  alert_config : AlertConfig;
  alert_history : list Alert;
}.

Definition DnssecMonitor_new (st : ValidationStats) (cfg : AlertConfig) : DnssecMonitor :=
  {| validator_stats := st; alert_config := cfg; alert_history := [] |}.

Section monitor.
(** The format [{:.2}] of a float. *)
Context (show2 : f64 → string).

Definition failure_rate (st : ValidationStats) : f64 :=
  f64_mul (f64_div (f64_of_Z (failed_validations st)) (f64_of_Z (total_validations st)))
    (f64_of_Z 100).

(** The alerts of the current statistics. *)
Definition current_alerts (now : Z) (m : DnssecMonitor) : list Alert :=
  let st := validator_stats m in
  let cfg := alert_config m in
  (if (min_validations_for_alert cfg <=? total_validations st)
      && f64_gtb (failure_rate st) (max_failure_rate cfg) then
     [{| alert_type := HighFailureRate;
         alert_message := "DNSSEC validation failure rate is " +:+ show2 (failure_rate st)
           +:+ "% (threshold: " +:+ show2 (max_failure_rate cfg) +:+ "%)";
         severity := Critical; alert_timestamp := now; alert_stats := st |}]
   else [])
  ++
  (if max_avg_validation_time_us cfg <? average_validation_time_us st then
     [{| alert_type := SlowValidation;
         alert_message := "DNSSEC validation is slow: " +:+ pretty (average_validation_time_us st)
           +:+ "μs (threshold: " +:+ pretty (max_avg_validation_time_us cfg) +:+ "μs)";
         severity := Warning; alert_timestamp := now; alert_stats := st |}]
   else []).

(** [push], then [remove(0)] when over a thousand. *)
Definition push_alert (h : list Alert) (a : Alert) : list Alert :=
  let h := h ++ [a] in if 1000 <? Z.of_nat (length h) then drop 1 h else h.

Definition set_history (m : DnssecMonitor) (h : list Alert) : DnssecMonitor :=
  {| validator_stats := validator_stats m; alert_config := alert_config m; alert_history := h |}.

Definition check_alerts (now : Z) (m : DnssecMonitor) : DnssecMonitor * list Alert :=
  let alerts := current_alerts now m in
  (set_history m (foldl push_alert (alert_history m) alerts), alerts).

Definition should_suppress_alert (now : Z) (t : AlertType) (m : DnssecMonitor) : bool :=
  existsb (λ a, bool_decide (alert_type a = t)
                && (now - secs (alert_cooldown_seconds (alert_config m)) <? alert_timestamp a))
    (alert_history m).

Definition get_recent_alerts (now duration : Z) (m : DnssecMonitor) : list Alert :=
  filter (λ a, now - duration < alert_timestamp a) (alert_history m).

Definition clear_alert_history (m : DnssecMonitor) : DnssecMonitor := set_history m [].

End monitor.

Definition check_key_rotation_alert `{Hmac} `{Records} (now : Z) (s : ProductionDnssecSigner)
    : option Alert :=
  if needs_rotation now (key_manager s) then
    Some {| alert_type := KeyRotationNeeded; alert_message := "DNSSEC key rotation is needed";
            severity := Warning; alert_timestamp := now; alert_stats := default_stats |}
  else None.

(** ** Keys over time *)

Section facts.
Context `{Hmac}.
Implicit Types (m : DnssecKeyManager) (k : DnssecKey).

Lemma find_app_some {A} (p : A → bool) l l' x : find p l = Some x → find p (l ++ l') = Some x.
Proof. induction l as [|y l IH]; [done|]. cbn. by destruct (p y). Qed.
Lemma find_app_none {A} (p : A → bool) l l' : find p l = None → find p (l ++ l') = find p l'.
Proof. induction l as [|y l IH]; [done|]. cbn. by destruct (p y). Qed.
Lemma find_ext_in {A} (p q : A → bool) l : (∀ x, x ∈ l → p x = q x) → find p l = find q l.
Proof.
  induction l as [|y l IH]; intros E; [done|]. cbn. rewrite (E y) by (left; done).
  rewrite IH by (intros; apply E; by right). done.
Qed.
Lemma find_filter {A} (p : A → bool) (P : A → Prop) `{∀ x, Decision (P x)} l :
  (∀ x, x ∈ l → p x = true → P x) → find p (filter P l) = find p l.
Proof.
  induction l as [|y l IH]; intros E; [done|]. rewrite filter_cons. case_decide as HP; cbn.
  - destruct (p y); [done|]. apply IH. intros. apply E; [by right|done].
  - destruct (p y) eqn:Ep; [exfalso; apply HP, E; [by left|done]|].
    apply IH. intros. apply E; [by right|done].
Qed.

(** The keys of an algorithm. *)
Definition keys_of m (a : DnssecAlgorithm) : list DnssecKey := default [] (keys m !! a).

Lemma keys_of_push a k m b :
  keys_of (push_key a k m) b = if decide (a = b) then keys_of m b ++ [k] else keys_of m b.
Proof.
  unfold keys_of, push_key. cbn. case_decide; subst.
  - by rewrite lookup_insert_eq.
  - by rewrite lookup_insert_ne.
Qed.

Lemma get_active_key_find now a m :
  get_active_key now a m = match find (usable now) (keys_of m a) with
                           | Some k => Ok k
                           | None => match keys m !! a with
                                     | Some _ => Err (KeyNotFound ("No active key for algorithm "
                                                                   +:+ algorithm_name a))
                                     | None => Err (KeyNotFound ("No keys for algorithm "
                                                                 +:+ algorithm_name a))
                                     end
                           end.
Proof. unfold get_active_key, keys_of. by destruct (keys m !! a). Qed.

Lemma deactivate_expires now k : expires_at (metadata (deactivate now k)) = expires_at (metadata k).
Proof. unfold deactivate. by case_match. Qed.
Lemma deactivate_material now k : key_material (deactivate now k) = key_material k.
Proof. unfold deactivate. by case_match. Qed.

End facts.

Section reach.
Context `{Hmac}.
Implicit Types (m : DnssecKeyManager) (k : DnssecKey).

(** The key manager after any sequence of its operations at any times. *)
Inductive manager_reach (cfg : DnssecConfig) : Z → DnssecKeyManager → Prop :=
  | mr_new now rnd env m :
      DnssecKeyManager_new now rnd env cfg = Ok m → manager_reach cfg now m
  | mr_generate now now' rnd a m :
      manager_reach cfg now m → now ≤ now' → manager_reach cfg now' (generate_key now' rnd a m).1
  | mr_sign now now' data a m :
      manager_reach cfg now m → now ≤ now' → manager_reach cfg now' (sign now' data a m).1
  | mr_rotate now now' rnd m :
      manager_reach cfg now m → now ≤ now' → manager_reach cfg now' (rotate_keys now' rnd m).

Definition config_ok (cfg : DnssecConfig) : Prop :=
  0 ≤ rotation_interval cfg ∧ 0 ≤ signature_cache_ttl cfg ≤ grace_period cfg.

Definition unexpired (t : Z) k : bool := t <? expires_at (metadata k).

(** Keys expire a rotation interval after their creation, an inactive key has
    expired, and the signature of a cache entry that is still live was made with
    the first key that had not expired when the entry was made; that key is still
    kept. *)
Record manager_inv (cfg : DnssecConfig) (now : Z) m : Prop := {
  mi_config : config m = cfg;
  mi_expiry : ∀ a k, k ∈ keys_of m a → expires_at (metadata k) ≤ now + secs (rotation_interval cfg);
  mi_inactive : ∀ a k, k ∈ keys_of m a → is_active (metadata k) = false →
    expires_at (metadata k) ≤ now;
  mi_created : ∀ key e, signature_cache m !! key = Some e →
    ce_created_at e ≤ now ∧ ttl e = secs (signature_cache_ttl cfg);
  mi_cache : ∀ a data e, signature_cache m !! cache_key a data = Some e → entry_live now e = true →
    ∃ k, find (unexpired (ce_created_at e)) (keys_of m a) = Some k ∧ signature e = sign_with k data;
}.

Lemma manager_inv_later cfg now now' m :
  now ≤ now' → manager_inv cfg now m → manager_inv cfg now' m.
Proof.
  intros Hle [H1 H2 H3 H4 H5]. split; [done| | | |].
  - intros a k Hk. specialize (H2 a k Hk). lia.
  - intros a k Hk Hi. specialize (H3 a k Hk Hi). lia.
  - intros key e He. destruct (H4 key e He). split; [lia|done].
  - intros a data e He Hlive. apply (H5 a data e He). destruct (H4 _ _ He) as [? _].
    unfold entry_live in *. lia.
Qed.

Lemma cache_key_inj a b data data' :
  cache_key a data = cache_key b data' → a = b ∧ data = data'.
Proof.
  unfold cache_key. intros E.
  assert (∀ c t, str_split_once ":" (algorithm_name c +:+ ":" +:+ t) = Some (algorithm_name c, t)) as Hs.
  { intros [] t; apply (str_split_once_app ":"); done. }
  pose proof (Hs a (hex_encode data)) as E1. rewrite E, Hs in E1. injection E1 as Ea Ed.
  apply hex_encode_inj in Ed. by destruct a, b.
Qed.

(** A usable key is one that has not expired. *)
Lemma usable_unexpired cfg now m a :
  manager_inv cfg now m → find (usable now) (keys_of m a) = find (unexpired now) (keys_of m a).
Proof.
  intros Hinv. apply find_ext_in. intros k Hk. unfold usable, unexpired.
  destruct (is_active (metadata k)) eqn:E; [done|]. pose proof (mi_inactive _ _ _ Hinv a k Hk E).
  cbn. lia.
Qed.

Lemma push_inv cfg now m a k :
  manager_inv cfg now m → expires_at (metadata k) = now + secs (rotation_interval cfg) →
  is_active (metadata k) = true → manager_inv cfg now (push_key a k m).
Proof.
  intros [H1 H2 H3 H4 H5] He Ha.
  assert (∀ b x, x ∈ keys_of (push_key a k m) b → x ∈ keys_of m b ∨ x = k) as Hin.
  { intros b x. rewrite keys_of_push. case_decide; [|by left].
    rewrite elem_of_app, list_elem_of_singleton. done. }
  split; [done| | |done|].
  - intros b x [Hx| ->]%Hin; [by apply (H2 b)|lia].
  - intros b x [Hx| ->]%Hin Hi; [by apply (H3 b)|congruence].
  - intros b data e Hc Hl. destruct (H5 b data e Hc Hl) as (k' & Hf & Hs). exists k'. split; [|done].
    rewrite keys_of_push. case_decide; [by apply find_app_some|done].
Qed.

Lemma generate_inv cfg now rnd a m :
  manager_inv cfg now m → manager_inv cfg now (generate_key now rnd a m).1.
Proof.
  intros Hinv. unfold generate_key. destruct (rnd_bytes rnd); [|done]. cbn.
  apply push_inv; [done| |done]. cbn. by rewrite (mi_config _ _ _ Hinv).
Qed.

Lemma sign_inv cfg now data a m : manager_inv cfg now m → manager_inv cfg now (sign now data a m).1.
Proof.
  intros Hinv. unfold sign. destruct (if enable_signature_cache _ then _ else _); [done|].
  rewrite get_active_key_find. destruct (find _ _) as [k|] eqn:Ef; [|by destruct (keys m !! a)].
  destruct (enable_signature_cache _); [|done]. cbn.
  rewrite (usable_unexpired cfg) in Ef by done. destruct Hinv as [H1 H2 H3 H4 H5].
  split; [done..| |].
  - intros key e [He _]%map_lookup_filter_Some. apply lookup_insert_Some in He as [[_ <-]|[_ He]].
    + cbn. rewrite H1. lia.
    + by apply (H4 key).
  - intros b data' e [He _]%map_lookup_filter_Some Hl.
    apply lookup_insert_Some in He as [[E <-]|[_ He]]; [|by apply H5].
    apply cache_key_inj in E as [-> ->]. by exists k.
Qed.

Lemma keys_of_deactivate now m a :
  keys_of (deactivate_old_keys now m) a
  = filter (λ k, retained (grace_period (config m)) now k = true) (deactivate now <$> keys_of m a).
Proof. unfold keys_of, deactivate_old_keys. cbn. rewrite lookup_fmap. by destruct (keys m !! a). Qed.

Lemma find_fmap {A B} (p : B → bool) (f : A → B) l : find p (f <$> l) = f <$> find (p ∘ f) l.
Proof. induction l as [|x l IH]; [done|]. cbn. by destruct (p (f x)). Qed.

(** Among the keys kept, the first that had not expired at a time within the grace
    period is the same as before. *)
Lemma find_deactivate now t m a :
  now - secs (grace_period (config m)) ≤ t →
  find (unexpired t) (keys_of (deactivate_old_keys now m) a)
  = deactivate now <$> find (unexpired t) (keys_of m a).
Proof.
  intros Ht. rewrite keys_of_deactivate, find_filter, find_fmap.
  - f_equal. apply find_ext_in. intros k _. unfold unexpired. cbn. by rewrite deactivate_expires.
  - intros k (k0 & -> & _)%list_elem_of_fmap. unfold unexpired, retained.
    rewrite deactivate_expires. lia.
Qed.

Lemma deactivate_inv cfg now m :
  config_ok cfg → manager_inv cfg now m → manager_inv cfg now (deactivate_old_keys now m).
Proof.
  intros (_ & Httl) [H1 H2 H3 H4 H5].
  assert (∀ b x, x ∈ keys_of (deactivate_old_keys now m) b →
            ∃ k, k ∈ keys_of m b ∧ x = deactivate now k) as Hin.
  { intros b x. rewrite keys_of_deactivate, list_elem_of_filter, list_elem_of_fmap. naive_solver. }
  split; [done| | |done|].
  - intros b x (k & Hk & ->)%Hin. rewrite deactivate_expires. by apply (H2 b).
  - intros b x (k & Hk & ->)%Hin Hi. rewrite deactivate_expires. unfold deactivate in Hi.
    destruct (Z.ltb_spec (expires_at (metadata k)) now); [lia|]. by apply (H3 b).
  - intros b data e Hc Hl. destruct (H5 b data e Hc Hl) as (k & Hf & Hs).
    exists (deactivate now k). rewrite find_deactivate, Hf.
    + split; [done|]. by unfold sign_with in *; rewrite deactivate_material.
    + destruct (H4 _ _ Hc) as [_ Ht]. unfold entry_live in Hl. rewrite Ht in Hl.
      rewrite H1. unfold secs in *. lia.
Qed.

Lemma rotate_inv cfg now rnd m :
  config_ok cfg → manager_inv cfg now m → manager_inv cfg now (rotate_keys now rnd m).
Proof.
  intros Hok Hinv. unfold rotate_keys. cbn [foldl ALGORITHMS].
  assert (manager_inv cfg now (deactivate_old_keys now (foldl (λ m a, (generate_key now (rnd a) a m).1)
    m ALGORITHMS))) as [H1 H2 H3 H4 H5] by (apply deactivate_inv; [done|]; cbn; by repeat apply generate_inv).
  by split.
Qed.

Lemma reach_inv cfg now m : config_ok cfg → manager_reach cfg now m → manager_inv cfg now m.
Proof.
  intros Hok. induction 1 as [now rnd env m Hn|now now' rnd a m _ IH Hle|now now' data a m _ IH Hle
                             |now now' rnd m _ IH Hle].
  - unfold DnssecKeyManager_new, initialize_keys in Hn.
    set (m0 := {| config := cfg; keys := ∅; signature_cache := ∅; last_rotation := 0 |}) in Hn.
    assert (manager_inv cfg now m0) as H0.
    { assert (∀ a, keys_of m0 a = []) as Hk by (intros a; unfold keys_of; cbn; by rewrite lookup_empty).
      split; [done|..]; intros a k; rewrite ?Hk; cbn;
        [by intros ?%not_elem_of_nil..|by rewrite lookup_empty|].
      intros e He. by rewrite lookup_empty in He. }
    apply (generate_inv _ _ rnd (default_algorithm (config m0))) in H0.
    destruct (generate_key _ _ _ _) as [m1 r]. cbn in H0. destruct r; [|done].
    injection Hn as <-. destruct env; [|done]. apply push_inv; [done| |done]. cbn.
    by rewrite (mi_config _ _ _ H0).
  - by apply generate_inv, (manager_inv_later _ now).
  - by apply sign_inv, (manager_inv_later _ now).
  - by apply rotate_inv, (manager_inv_later _ now).
Qed.

(** No key of the algorithm expired within the lifetime of a cached signature. *)
Definition quiet (now : Z) (a : DnssecAlgorithm) m : Prop :=
  ∀ k, k ∈ keys_of m a →
    expires_at (metadata k) ≤ now - secs (signature_cache_ttl (config m))
    ∨ now < expires_at (metadata k).

Lemma sign_keys now data a m : keys (sign now data a m).1 = keys m.
Proof.
  unfold sign. destruct (if enable_signature_cache _ then _ else _); [done|].
  destruct (get_active_key now a m); [|done]. by destruct (enable_signature_cache _).
Qed.

(** In a quiet state a signature, cached or not, is that of the active key. *)
Lemma sign_current cfg now data a m m' sg :
  manager_inv cfg now m → quiet now a m → sign now data a m = (m', Ok sg) →
  ∃ k, get_active_key now a m' = Ok k ∧ sg = sign_with k data.
Proof.
  intros Hinv Hq E.
  assert (get_active_key now a m' = get_active_key now a m) as ->.
  { pose proof (sign_keys now data a m) as Hk. rewrite E in Hk. cbn in Hk.
    unfold get_active_key. by rewrite Hk. }
  rewrite get_active_key_find, (usable_unexpired cfg) by done. unfold sign in E.
  destruct (if enable_signature_cache _ then _ else _) as [sg0|] eqn:Ec.
  - injection E as <- <-. destruct (enable_signature_cache _); [|done].
    unfold get_cached_signature in Ec. destruct (signature_cache m !! _) as [e|] eqn:Ee; [|done].
    destruct (entry_live now e) eqn:El; [|done]. injection Ec as <-.
    destruct (mi_cache _ _ _ Hinv _ _ _ Ee El) as (k & Hf & Hs).
    destruct (mi_created _ _ _ Hinv _ _ Ee) as [Hc Ht]. exists k. split; [|done].
    rewrite <- (find_ext_in (unexpired (ce_created_at e))), Hf; [done|].
    intros x Hx. unfold unexpired, entry_live in *. rewrite Ht in El.
    destruct (Hq x Hx) as [Hx'|]; [|lia]. rewrite (mi_config _ _ _ Hinv) in Hx'. lia.
  - rewrite get_active_key_find, (usable_unexpired cfg) in E by done.
    destruct (find _ _) as [k|]; [|by destruct (keys m !! a)].
    exists k. by destruct (enable_signature_cache _); injection E as _ <-.
Qed.

Lemma generate_config now rnd a m : config (generate_key now rnd a m).1 = config m.
Proof. unfold generate_key. by destruct (rnd_bytes rnd). Qed.
Lemma generate_active now rnd a b m k :
  find (usable now) (keys_of m a) = Some k →
  find (usable now) (keys_of (generate_key now rnd b m).1 a) = Some k.
Proof.
  intros Hf. unfold generate_key. destruct (rnd_bytes rnd); [|done]. cbn. rewrite keys_of_push.
  case_decide; [by apply find_app_some|done].
Qed.

(** A usable key survives a rotation as the first usable one. *)
Lemma rotate_active now rnd a m k :
  0 ≤ grace_period (config m) → get_active_key now a m = Ok k →
  get_active_key now a (rotate_keys now rnd m) = Ok k.
Proof.
  intros Hg Hk. rewrite get_active_key_find in *.
  destruct (find (usable now) (keys_of m a)) as [k'|] eqn:Hf; [|by destruct (keys m !! a)].
  injection Hk as ->. set (m1 := foldl (λ m a, (generate_key now (rnd a) a m).1) m ALGORITHMS).
  assert (find (usable now) (keys_of m1 a) = Some k ∧ config m1 = config m) as [Hf1 Hc].
  { unfold m1. clear m1. revert m Hf Hg. induction ALGORITHMS as [|b l IH]; intros m Hf Hg; [done|].
    cbn. rewrite <- (generate_config now (rnd b) b m).
    apply IH; [by apply generate_active|by rewrite generate_config]. }
  change (keys_of (rotate_keys now rnd m) a) with (keys_of (deactivate_old_keys now m1) a).
  rewrite keys_of_deactivate, find_filter, find_fmap.
  - rewrite (find_ext_in _ (usable now)), Hf1.
    + cbn. unfold deactivate. apply find_some in Hf as [_ Hu]. unfold usable in Hu.
      destruct (Z.ltb_spec (expires_at (metadata k)) now); [lia|done].
    + intros x _. unfold usable, deactivate. cbn.
      destruct (Z.ltb_spec (expires_at (metadata x)) now); [|done]. cbn. lia.
  - intros x (x0 & -> & _)%list_elem_of_fmap Hu. unfold usable, retained, secs in *.
    rewrite Hc. lia.
Qed.

(** A key generated by a rotation lives for a rotation interval. *)
Lemma rotate_generates cfg now now' rnd a m :
  config_ok cfg → manager_inv cfg now m → is_ok (rnd_bytes (rnd a)) = true →
  now ≤ now' < now + secs (rotation_interval cfg) →
  ∃ k, get_active_key now' a (rotate_keys now rnd m) = Ok k.
Proof.
  intros (_ & Httl) Hinv Hr Ht. rewrite get_active_key_find.
  destruct (find (usable now') _) as [k|] eqn:Hf; [by exists k|exfalso].
  set (m1 := foldl (λ m a, (generate_key now (rnd a) a m).1) m ALGORITHMS).
  assert (∃ k, k ∈ keys_of m1 a ∧ is_active (metadata k) = true
               ∧ expires_at (metadata k) = now + secs (rotation_interval cfg)
               ∧ config m1 = cfg) as (k & Hk & Hact & Hexp & Hc1).
  { unfold m1, ALGORITHMS. cbn. pose proof (mi_config _ _ _ Hinv) as Hc. clear Hf m1 Hinv.
    destruct (rnd_bytes (rnd a)) as [bytes|] eqn:Eb; [|done].
    set (k := {| metadata := {| key_id := algorithm_name a +:+ "-" +:+ pretty (timestamp now);
      km_algorithm := a; created_at := now; expires_at := now + secs (rotation_interval cfg);
      is_active := true; key_tag := rnd_tag (rnd a) |}; key_material := material a bytes |}).
    exists k. split_and!; [|done|done|].
    - unfold generate_key, k. destruct a; rewrite Eb;
        repeat match goal with |- context [rnd_bytes ?x] => destruct (rnd_bytes x) end;
        cbn; rewrite ?Hc, !keys_of_push; repeat case_decide; try done; set_solver.
    - unfold generate_key. repeat match goal with |- context [rnd_bytes ?x] => destruct (rnd_bytes x) end;
        done. }
  assert (deactivate now k ∈ keys_of (rotate_keys now rnd m) a) as Hin.
  { change (keys_of (rotate_keys now rnd m) a) with (keys_of (deactivate_old_keys now m1) a).
    rewrite keys_of_deactivate, list_elem_of_filter. split; [|by apply list_elem_of_fmap_2].
    unfold retained. rewrite deactivate_expires, Hexp, Hc1. unfold secs in *. lia. }
  apply list_elem_of_In, (find_none _ _ Hf) in Hin. unfold usable, deactivate in Hin.
  destruct (Z.ltb_spec (expires_at (metadata k)) now); [lia|]. rewrite Hact in Hin. cbn in Hin. lia.
Qed.

End reach.

(** ** Messages *)

Section messages.
Context `{Hmac} `{Records}.
Context (emit : DnsRecord → string → string * option string).

Lemma of_to_hickory a : of_hickory_algorithm (to_hickory_algorithm a) = Some a.
Proof. by destruct a. Qed.

(** What a signature record claims and which key made it. *)
Lemma rrsig_record_signed cfg now name typ rttl rrset a s s' rec :
  config_ok cfg → manager_reach cfg now (key_manager s) → quiet now a (key_manager s) →
  rrsig_record_with_algorithm now name typ rttl rrset a s = (s', Ok rec) →
  ∃ k, get_active_key now a (key_manager s') = Ok k
    ∧ rec = SigRecord name rttl
        {| input := sig_input now name typ rttl (to_hickory_algorithm a) (key_tag (metadata k));
           sig := sign_with k rrset |}.
Proof.
  intros Hok Hr Hq E. unfold rrsig_record_with_algorithm in E.
  destruct (sign now rrset a (key_manager s)) as [m [sg|e]] eqn:Es; [|done].
  injection E as <- E. cbn.
  destruct (sign_current cfg now rrset a _ _ _ (reach_inv _ _ _ Hok Hr) Hq Es) as (k & Hk & ->).
  exists k. rewrite Hk in E. cbn in E. by injection E as <-.
Qed.

(** One signature over records of its own type. *)
Lemma validate_single now elapsed m covered name rttl r a rrset k :
  covered ≠ [] → Forall (λ x, record_type x = type_covered (input r)) covered →
  type_covered (input r) ≠ RRSIG_TYPE → encode_rrset emit covered "" = (rrset, []) →
  of_hickory_algorithm (si_algorithm (input r)) = Some a → get_active_key now a m = Ok k →
  let res := (validate_dns_message emit now elapsed m (covered ++ [SigRecord name rttl r])
                default_stats).2 in
  status res = if sig r =?s sign_with k rrset then Valid else Invalid.
Proof.
  intros Hne Hty Hnsig Henc Halg Hk. unfold validate_dns_message.
  assert (filter (λ x, record_type x = RRSIG_TYPE) covered = []) as Hf1.
  { apply list_filter_none.
    eapply Forall_impl; [exact Hty|]. cbn. congruence. }
  assert (filter (λ x, record_type x = type_covered (input r)) (covered ++ [SigRecord name rttl r])
          = covered) as Hf2.
  { rewrite filter_app, list_filter_all, filter_cons_False; [by rewrite app_nil_r|..|done].
    cbn. congruence. }
  rewrite filter_app, Hf1, filter_cons_True by done. cbn [app filter list_filter foldl validate_one].
  rewrite Hf2. destruct covered as [|c cs]; [done|]. rewrite Henc. cbn [push_errors]. rewrite Halg.
  unfold validate_rrsig. rewrite Hk. by destruct (sig r =?s sign_with k rrset).
Qed.

End messages.

(** ** Alerts *)

Lemma push_alert_length h a :
  (length h ≤ 1000)%nat → (length (push_alert h a) ≤ 1000)%nat.
Proof.
  intros. unfold push_alert. destruct (Z.ltb_spec 1000 (Z.of_nat (length (h ++ [a])))) as [Hl|Hl];
    rewrite ?length_drop, ?length_app in *; cbn [length] in *; lia.
Qed.

(** The history never holds more than a thousand alerts, and a check whose
    statistics are over a threshold leaves its alert there as the cooldown's
    evidence. *)
Lemma check_alerts_history show2 now m :
  (length (alert_history m) ≤ 1000)%nat →
  (length (alert_history (check_alerts show2 now m).1) ≤ 1000)%nat.
Proof.
  intros Hm. cbn. generalize dependent (alert_history m).
  induction (current_alerts show2 now m) as [|a l IH]; intros h Hh; [done|].
  cbn. by apply IH, push_alert_length.
Qed.

(** ** Claims *)

(** C29: signing and validating agree.  In every reachable state of the key manager
    in which no key of the algorithm expired within the lifetime of a cached
    signature, a message that carries a signature the signer just issued (fresh
    or from the cache) over records of another type is judged by the record set
    alone: it is valid exactly when the active key signs the encoding of the
    message's records as it signs the signed record set, in particular for the
    records that were signed. *)
Theorem signed_message_verdict `{Hmac} `{Records} emit cfg now elapsed name typ rttl rrset a s s' rec
    (Hok : config_ok cfg) (Hr : manager_reach cfg now (key_manager s))
    (Hq : quiet now a (key_manager s)) (Hty : typ ≠ RRSIG_TYPE)
    (Hrec : rrsig_record_with_algorithm now name typ rttl rrset a s = (s', Ok rec)) :
  ∃ k, get_active_key now a (key_manager s') = Ok k
  ∧ ∀ covered rrset', covered ≠ [] → Forall (λ x, record_type x = typ) covered →
      encode_rrset emit covered "" = (rrset', []) →
      status (validate_message emit now elapsed (covered ++ [rec]) s')
      = if sign_with k rrset =?s sign_with k rrset' then Valid else Invalid.
Proof.
  destruct (rrsig_record_signed _ _ _ _ _ _ _ _ _ _ Hok Hr Hq Hrec) as (k & Hk & ->).
  exists k. split; [done|]. intros covered rrset' Hne Hcov Henc.
  eapply validate_single; [done..| |done]. apply of_to_hickory.
Qed.

(** A forced rotation does not replace the signing key.  Whatever keys the
    rotation generates, an algorithm that has an active key keeps exactly that
    key as its signing key, so that signatures before and after the rotation are
    the same until the old key expires. *)
Lemma forced_rotation_keeps_key `{Hmac} `{Records} now rnd a k s
    (Hg : 0 ≤ grace_period (config (key_manager s)))
    (Hk : get_active_key now a (key_manager s) = Ok k) :
  let s' := force_key_rotation now rnd s in
  get_active_key now a (key_manager s') = Ok k
  ∧ ∀ data, (sign now data a (key_manager s')).2 = (sign now data a (key_manager s)).2.
Proof.
  cbn zeta. pose proof (rotate_active now rnd a _ _ Hg Hk) as Hk'. split; [done|]. intros data.
  assert (config (rotate_keys now rnd (key_manager s)) = config (key_manager s)
    ∧ signature_cache (rotate_keys now rnd (key_manager s)) = signature_cache (key_manager s)) as [E1 E2].
  { unfold rotate_keys, generate_key. cbn. by repeat case_match. }
  unfold sign, get_cached_signature, force_key_rotation, with_manager in *. cbn [key_manager] in *.
  rewrite E1, E2, Hk, Hk'. by destruct (if enable_signature_cache _ then _ else _).
Qed.

(** C30: availability of keys around a rotation.  After a rotation whose random
    source works, every algorithm has an active key for a whole rotation
    interval; the check for the next rotation asks for it only after that
    interval, and at its end no algorithm has an active key, whatever was
    generated before: signing fails until the next check. *)
Theorem rotation_gap `{Hmac} cfg now rnd m
    (Hok : config_ok cfg) (Hr : manager_reach cfg now m)
    (Hrnd : ∀ a, is_ok (rnd_bytes (rnd a)) = true) :
  let m' := rotate_keys now rnd m in
  let next := now + secs (rotation_interval cfg) in
  (∀ a t, now ≤ t < next → ∃ k, get_active_key t a m' = Ok k)
  ∧ (∀ t, t ≤ next → needs_rotation t m' = false)
  ∧ ∀ a t, next ≤ t → ∃ e, get_active_key t a m' = Err (KeyNotFound e).
Proof.
  pose proof (reach_inv _ _ _ Hok Hr) as Hinv. cbn zeta. split_and!.
  - intros a t Ht. by apply (rotate_generates cfg).
  - intros t Ht. unfold needs_rotation. rewrite (mi_config _ _ _ (rotate_inv _ _ rnd _ Hok Hinv)).
    cbn. unfold duration_since. destruct Hok as [? _]. unfold secs in *. lia.
  - intros a t Ht. rewrite get_active_key_find.
    destruct (find _ _) as [k|] eqn:Hf; [|destruct (keys _ !! a); by eexists].
    apply find_some in Hf as [Hin%list_elem_of_In Hu].
    pose proof (mi_expiry _ _ _ (rotate_inv _ _ rnd _ Hok Hinv) a k Hin). unfold usable in Hu. lia.
Qed.

(** ** Evaluation with concrete parameters *)
Module DnssecDemo.

(** A stand-in for HMAC that keeps key and data. *)
#[export] Instance toy_hmac : Hmac := {|
  hmac_key := string; hmac_new s := s; hmac_sign k data := k +:+ "|" +:+ data;
  hex_encode s := s; hex_encode_inj := λ x y E, E |}.

#[export] Instance toy_records : Records := {|
  Name := string; num_labels n := Z.of_nat (length (str_split "." n));
  RecordType := Z; RRSIG_TYPE := 46; RecordType_debug t := pretty t;
  Algorithm_debug _ := "algorithm"; PlainRecord := Z * string; plain_type := fst |}.

Definition emit (r : DnsRecord) (buf : string) : string * option string :=
  match r with
  | Plain p => (buf +:+ p.2, None)
  | SigRecord _ _ _ => (buf, Some "unsupported")
  end.

(** Keys of ten seconds, signatures cached for five minutes. *)
Definition cfg : DnssecConfig :=
  {| default_algorithm := HmacSha256; rotation_interval := 10; grace_period := 400; max_keys := 10;
     enable_signature_cache := true; signature_cache_ttl := 300; enable_key_backup := true;
     backup_directory := None |}.
Lemma cfg_ok : config_ok cfg.
Proof. by split_and!. Qed.

Definition rnd (n : string) : Randomness := {| rnd_bytes := Ok n; rnd_tag := 7 |}.
Definition empty_manager : DnssecKeyManager :=
  {| config := cfg; keys := ∅; signature_cache := ∅; last_rotation := 0 |}.
Definition m0 : DnssecKeyManager := (initialize_keys 0 (rnd "a") None empty_manager).1.
Definition s0 : ProductionDnssecSigner := {| key_manager := m0; signer_config := cfg |}.
Lemma m0_new : DnssecKeyManager_new 0 (rnd "a") None cfg = Ok m0.
Proof. done. Qed.
Lemma m0_reach : manager_reach cfg 0 m0.
Proof. exact (mr_new _ _ _ _ _ m0_new). Qed.

Definition A : RecordType (Records := toy_records) := 1.
Definition address : DnsRecord := Plain ((1, "10.0.0.1") : PlainRecord (Records := toy_records)).
Definition signed : ProductionDnssecSigner * result DnssecError DnsRecord :=
  rrsig_record_with_algorithm 0 "a.example" A 300 "10.0.0.1" HmacSha256 s0.
Definition rrsig : DnsRecord := match signed.2 with Ok r => r | Err _ => address end.

Lemma m0_quiet : quiet 0 HmacSha256 m0.
Proof. intros k Hk. right. apply list_elem_of_singleton in Hk. by subst k. Qed.

Lemma signed_message_verdict_witness :
  status (validate_message emit 0 0 [address; rrsig] signed.1) = Valid.
Proof.
  destruct (signed_message_verdict emit cfg 0 0 "a.example" A 300 "10.0.0.1" HmacSha256
    s0 signed.1 rrsig cfg_ok m0_reach m0_quiet ltac:(done) ltac:(done)) as (k & Hk & Hv).
  pose proof (Hv [address] "10.0.0.1" ltac:(done) ltac:(by repeat constructor) ltac:(done)) as Hval.
  by rewrite String.eqb_refl in Hval.
Defined.

Lemma forced_rotation_keeps_key_witness :
  (sign 5 "data" HmacSha256 (key_manager (force_key_rotation 5 (λ _, rnd "b") s0))).2
  = Ok "a|data".
Proof.
  destruct (get_active_key 5 HmacSha256 m0) as [k|] eqn:E; [|done].
  exact (proj2 (forced_rotation_keeps_key 5 (λ _, rnd "b") HmacSha256 k s0 ltac:(done) E) "data").
Defined.

Lemma rotation_gap_witness :
  ∃ e, get_active_key (secs 10) HmacSha256 (rotate_keys 0 (λ _, rnd "b") m0) = Err (KeyNotFound e).
Proof.
  exact (proj2 (proj2 (rotation_gap cfg 0 (λ _, rnd "b") m0 cfg_ok m0_reach (λ _, eq_refl)))
    HmacSha256 (secs 10) (Z.le_refl _)).
Defined.

(** A key that expires while its signature is cached: eleven seconds on, after a
    rotation, the signer still hands out the old key's signature, under the new
    key's tag, and its own validator rejects it. *)
Example stale_signature_rejected :
  let s1 := (self_validate 0 0 "a.example" A 300 "10.0.0.1" s0).1 in
  let s2 := check_and_rotate_keys (secs 11) (λ _, rnd "b") s1 in
  (sign (secs 11) "10.0.0.1" HmacSha256 (key_manager s2)).2 = Ok "a|10.0.0.1"
  ∧ (self_validate (secs 11) 0 "a.example" A 300 "10.0.0.1" s2).2 = Ok false.
Proof. by vm_compute. Qed.

End DnssecDemo.
