(* ===== verification/RateLimit.v ===== *)
(** * API rate limiting

    crates/backendapi/src/rate_limiting.rs: the fixed-window limit and the blocks
    per client address, the limiters per token, and the middleware that applies
    both before a request reaches the API.  The governor crate is a parameter;
    [None] is a panic of the source ([unwrap] of a missing tier or of a zero
    rate). *)

From S2P Require Import Prelude Serde Errors Net Float Auth.

Record RateLimitPolicy := {
  requests_per_minute : Z;
  burst : option Z;
  window_seconds : option Z;
  max_request_size : option Z;
  rp_max_connections_per_ip : option Z;
  premium_multiplier : option f64;
}.

Record UserTier := {
  tier_name : string;
  api_requests_per_minute : Z;
  tunnel_requests_per_minute : Z;
  dns_requests_per_minute : Z;
  burst_multiplier : f64;
  tier_max_concurrent_tunnels : Z;
  bypass_rate_limits : bool;
}.

Record DdosProtection := {
  max_requests_per_ip_per_minute : Z;
  max_connections_per_ip : Z;
  ip_block_duration_seconds : Z;
  auto_block_abuse_patterns : bool;
}.

Record RateLimitConfig := {
  rl_default : RateLimitPolicy;
  per_endpoint : option (gmap string RateLimitPolicy);
  rl_user_tiers : gmap string UserTier;
  ddos_protection : DdosProtection;
  dynamic_adjustment : bool;
  load_threshold : f64;
}.

Definition policy (multiplier : f64) : RateLimitPolicy :=
  {| requests_per_minute := 60; burst := Some 10; window_seconds := Some 60;
     max_request_size := Some (1024 * 1024); rp_max_connections_per_ip := Some 10;
     premium_multiplier := Some multiplier |}.
Definition tier (name : string) (api tunnel dns multiplier concurrent : Z) (bypass : bool)
    : UserTier :=
  {| tier_name := name; api_requests_per_minute := api; tunnel_requests_per_minute := tunnel;
     dns_requests_per_minute := dns; burst_multiplier := f64_of_Z multiplier;
     tier_max_concurrent_tunnels := concurrent; bypass_rate_limits := bypass |}.

(** The literals 1.5 and 0.8 are the doubles nearest to 3/2 and 8/10. *)
Definition default_rate_limit_config : RateLimitConfig :=
  {| rl_default := policy (f64_div (f64_of_Z 3) (f64_of_Z 2));
     per_endpoint := Some {[ "/api/v1/tunnel" := policy (f64_of_Z 2) ]};
     rl_user_tiers :=
       <["Enterprise" := tier "Enterprise" 1000 200 2000 3 20 true]>
         (<["Pro" := tier "Pro" 300 50 500 2 5 false]>
            {[ "Free" := tier "Free" 60 10 100 1 1 false ]});
     ddos_protection :=
       {| max_requests_per_ip_per_minute := 1000; max_connections_per_ip := 50;
          ip_block_duration_seconds := 3600; auto_block_abuse_patterns := true |};
     dynamic_adjustment := true;
     load_threshold := f64_div (f64_of_Z 8) (f64_of_Z 10) |}.

Record IpRateLimit := {
  requests : Z;
  last_reset : Z;
  blocked_until : option Z;
}.

(** [governor]: a quota of cells per minute with a burst size, and a limiter with
    one state per key. *)
Record GovernorQuota := { gq_per_minute : Z; gq_burst : Z }.

Class Governor := {
  limiter : Type;
  keyed : GovernorQuota → limiter;
  (** The limiter after the check, and whether the cell conforms. *)
  check_key : Z → string → limiter → limiter * bool;
}.

(** [Quota::per_minute(NonZeroU32::new(n).unwrap())]; the burst size is the rate. *)
Definition quota_per_minute (n : Z) : option GovernorQuota :=
  if n =? 0 then None else Some {| gq_per_minute := n; gq_burst := n |}.
(** [.allow_burst(NonZeroU32::new(n).unwrap())]. *)
Definition allow_burst (n : Z) (q : GovernorQuota) : option GovernorQuota :=
  if n =? 0 then None else Some {| gq_per_minute := gq_per_minute q; gq_burst := n |}.

Definition f64_to_u32 : f64 → Z := f64_to_uint 32.

Section state.
Context `{Governor}.

Record RateLimitState := {
  config : RateLimitConfig;
  api_limiters : gmap string limiter;
  tunnel_limiters : gmap string limiter;
  dns_limiters : gmap string limiter;
  user_tiers : gmap string string;
  bypass_tokens : gmap string bool;
  ip_limiters : gmap IpAddr IpRateLimit;
  system_load : gmap string f64;
  abuse_patterns : gmap string Z;
}.

Definition RateLimitState_new (cfg : RateLimitConfig) : RateLimitState :=
  {| config := cfg; api_limiters := ∅; tunnel_limiters := ∅; dns_limiters := ∅; user_tiers := ∅;
     bypass_tokens := ∅; ip_limiters := ∅; system_load := ∅; abuse_patterns := ∅ |}.

Definition set_user_tier (token t : string) (s : RateLimitState) : RateLimitState :=
  {| config := config s; api_limiters := api_limiters s; tunnel_limiters := tunnel_limiters s;
     dns_limiters := dns_limiters s; user_tiers := <[token := t]> (user_tiers s);
     bypass_tokens := bypass_tokens s; ip_limiters := ip_limiters s;
     system_load := system_load s; abuse_patterns := abuse_patterns s |}.

Definition set_bypass_tokens (m : gmap string bool) (s : RateLimitState) : RateLimitState :=
  {| config := config s; api_limiters := api_limiters s; tunnel_limiters := tunnel_limiters s;
     dns_limiters := dns_limiters s; user_tiers := user_tiers s; bypass_tokens := m;
     ip_limiters := ip_limiters s; system_load := system_load s;
     abuse_patterns := abuse_patterns s |}.
Definition add_bypass_token (token : string) (s : RateLimitState) : RateLimitState :=
  set_bypass_tokens (<[token := true]> (bypass_tokens s)) s.
Definition remove_bypass_token (token : string) (s : RateLimitState) : RateLimitState :=
  set_bypass_tokens (delete token (bypass_tokens s)) s.
Definition is_bypass_token (token : string) (s : RateLimitState) : bool :=
  bool_decide (is_Some (bypass_tokens s !! token)).

Definition get_user_tier (token : string) (s : RateLimitState) : string :=
  default "Free" (user_tiers s !! token).

Definition update_system_load (load : f64) (s : RateLimitState) : RateLimitState :=
  {| config := config s; api_limiters := api_limiters s; tunnel_limiters := tunnel_limiters s;
     dns_limiters := dns_limiters s; user_tiers := user_tiers s;
     bypass_tokens := bypass_tokens s; ip_limiters := ip_limiters s;
     system_load := <["current" := load]> (system_load s);
     abuse_patterns := abuse_patterns s |}.
Definition get_system_load (s : RateLimitState) : f64 :=
  default (f64_of_Z 0) (system_load s !! "current").

Definition set_ip_limiters (m : gmap IpAddr IpRateLimit) (s : RateLimitState) : RateLimitState :=
  {| config := config s; api_limiters := api_limiters s; tunnel_limiters := tunnel_limiters s;
     dns_limiters := dns_limiters s; user_tiers := user_tiers s;
     bypass_tokens := bypass_tokens s; ip_limiters := m; system_load := system_load s;
     abuse_patterns := abuse_patterns s |}.

Definition IP_BLOCKED : string := "IP is temporarily blocked due to abuse".
Definition IP_EXCEEDED : string := "IP rate limit exceeded".

(** The entry after a request of its address, and the answer. *)
Definition ip_request (cfg : DdosProtection) (now : Z) (l : IpRateLimit)
    : IpRateLimit * result string unit :=
  if match blocked_until l with Some u => now <? u | None => false end
  then (l, Err IP_BLOCKED)
  else
    let expired := secs 60 <? duration_since now (last_reset l) in
    let n := if expired then 0 else requests l in
    let r := if expired then now else last_reset l in
    if max_requests_per_ip_per_minute cfg <=? n then
      ({| requests := n; last_reset := r;
          blocked_until := Some (now + secs (ip_block_duration_seconds cfg)) |}, Err IP_EXCEEDED)
    else ({| requests := as_u32 (n + 1); last_reset := r; blocked_until := None |}, Ok ()).

Definition check_ip_rate_limit (now : Z) (ip : IpAddr) (s : RateLimitState)
    : RateLimitState * result string unit :=
  let l := default {| requests := 0; last_reset := now; blocked_until := None |}
             (ip_limiters s !! ip) in
  let '(l', r) := ip_request (ddos_protection (config s)) now l in
  (set_ip_limiters (<[ip := l']> (ip_limiters s)) s, r).

(** The configuration of a tier, of [Free] for an unknown one. *)
Definition tier_config (s : RateLimitState) (t : string) : option UserTier :=
  match rl_user_tiers (config s) !! t with
  | Some c => Some c
  | None => rl_user_tiers (config s) !! "Free"
  end.

Definition create_api_limiter (s : RateLimitState) (t : string) : option limiter :=
  c ← tier_config s t;
  let load := get_system_load s in
  let threshold := load_threshold (config s) in
  let half := f64_div (f64_of_Z 1) (f64_of_Z 2) in
  let rpm :=
    if dynamic_adjustment (config s) && f64_gtb load threshold then
      f64_to_u32 (f64_mul (f64_of_Z (api_requests_per_minute c))
        (f64_sub (f64_of_Z 1) (f64_mul (f64_sub load threshold) half)))
    else api_requests_per_minute c in
  keyed <$> quota_per_minute rpm.

Definition create_tunnel_limiter (s : RateLimitState) (t : string) : option limiter :=
  c ← tier_config s t;
  let rpm := tunnel_requests_per_minute c in
  let burst_quota := f64_to_u32 (f64_mul (f64_of_Z rpm) (burst_multiplier c)) in
  q ← quota_per_minute rpm;
  keyed <$> allow_burst burst_quota q.

Definition create_dns_limiter (s : RateLimitState) (t : string) : option limiter :=
  c ← tier_config s t;
  keyed <$> quota_per_minute (dns_requests_per_minute c).

Inductive limiter_kind := ApiLimit | TunnelLimit | DnsLimit.

Definition limiters (k : limiter_kind) (s : RateLimitState) : gmap string limiter :=
  match k with
  | ApiLimit => api_limiters s | TunnelLimit => tunnel_limiters s | DnsLimit => dns_limiters s
  end.
Definition set_limiter (k : limiter_kind) (token : string) (l : limiter) (s : RateLimitState)
    : RateLimitState :=
  let put k' m := match k, k' with
    | ApiLimit, ApiLimit | TunnelLimit, TunnelLimit | DnsLimit, DnsLimit => <[token := l]> m
    | _, _ => m end in
  {| config := config s; api_limiters := put ApiLimit (api_limiters s);
     tunnel_limiters := put TunnelLimit (tunnel_limiters s);
     dns_limiters := put DnsLimit (dns_limiters s); user_tiers := user_tiers s;
     bypass_tokens := bypass_tokens s; ip_limiters := ip_limiters s;
     system_load := system_load s; abuse_patterns := abuse_patterns s |}.
Definition create_limiter (k : limiter_kind) : RateLimitState → string → option limiter :=
  match k with
  | ApiLimit => create_api_limiter
  | TunnelLimit => create_tunnel_limiter
  | DnsLimit => create_dns_limiter
  end.
Definition exceeded_message (k : limiter_kind) (t : string) : string :=
  match k with
  | ApiLimit => "API rate limit exceeded for tier: "
  | TunnelLimit => "Tunnel creation rate limit exceeded for tier: "
  | DnsLimit => "DNS operation rate limit exceeded for tier: "
  end +:+ t.

(** The three checks differ in the limiters, their construction and the message. *)
Definition check_rate_limit (k : limiter_kind) (now : Z) (token : string) (s : RateLimitState)
    : option (RateLimitState * result string unit) :=
  if is_bypass_token token s then Some (s, Ok ())
  else
    let t := get_user_tier token s in
    c ← tier_config s t;
    if bypass_rate_limits c then Some (s, Ok ())
    else
      l ← match limiters k s !! token with Some l => Some l | None => create_limiter k s t end;
      let '(l', conforms) := check_key now token l in
      Some (set_limiter k token l' s,
            if conforms then Ok () else Err (exceeded_message k t)).

Definition check_api_rate_limit := check_rate_limit ApiLimit.
Definition check_tunnel_rate_limit := check_rate_limit TunnelLimit.
Definition check_dns_rate_limit := check_rate_limit DnsLimit.

(** Too many limiters are dropped all at once. *)
Definition clear_large (m : gmap string limiter) : gmap string limiter :=
  if 10000 <? Z.of_nat (size m) then ∅ else m.

Definition cleanup_old_entries (now : Z) (s : RateLimitState) : RateLimitState :=
  {| config := config s; api_limiters := clear_large (api_limiters s);
     tunnel_limiters := clear_large (tunnel_limiters s);
     dns_limiters := clear_large (dns_limiters s); user_tiers := user_tiers s;
     bypass_tokens := bypass_tokens s;
     ip_limiters := filter (λ '(_, l), duration_since now (last_reset l) < secs 3600)
                      (ip_limiters s);
     system_load := system_load s;
     abuse_patterns := filter (λ '(_, count), 0 < count) (abuse_patterns s) |}.

(** [show] is the [Display] of [f64], whose texts no decision uses. *)
Definition get_rate_limit_info (show : f64 → string) (token : string) (s : RateLimitState)
    : option (gmap string string) :=
  let t := get_user_tier token s in
  c ← tier_config s t;
  Some (list_to_map
    [("tier", t);
     ("api_requests_per_minute", pretty (api_requests_per_minute c));
     ("tunnel_requests_per_minute", pretty (tunnel_requests_per_minute c));
     ("dns_requests_per_minute", pretty (dns_requests_per_minute c));
     ("max_concurrent_tunnels", pretty (tier_max_concurrent_tunnels c));
     ("burst_multiplier", show (burst_multiplier c));
     ("bypass_rate_limits", if bypass_rate_limits c then "true" else "false");
     ("system_load", show (get_system_load s))]).

End state.
Arguments RateLimitState {_}.

(** ** The middleware *)

Section middleware.
Context `{Governor} `{Codec}.
(** The API behind the middleware: a request on its state. *)
Context {W B : Type} (error_body : AE.ErrorResponse → B) (show : f64 → string).
(** [HeaderValue::from_str]. *)
Context (hv_from_str : string → option string).

Record Response := { status : Z; headers : gmap string string; body : B }.

(** Header names are stored in lower case. *)
Definition insert_headers (hs : list (string * string)) (r : Response) : Response :=
  {| status := status r; headers := foldl (λ m '(k, v), <[k := v]> m) (headers r) hs;
     body := body r |}.

Definition bearer_or_anonymous (h : HeaderMap) : string :=
  default "anonymous" (v ← h !! "authorization"; s ← hv_to_str v; strip_prefix "Bearer " s).

Definition LOCALHOST : IpAddr := V4 (Ipv4 127 0 0 1).

(** The first address of [X-Forwarded-For], else of [X-Real-IP], as the client
    sent it. *)
Definition client_ip (h : HeaderMap) : IpAddr :=
  default LOCALHOST
    (v ← match h !! "x-forwarded-for" with Some v => Some v | None => h !! "x-real-ip" end;
     s ← hv_to_str v;
     first ← head (str_split "," s);
     parse_ip (str_trim first)).

Definition kind_of_request (path method : string) : limiter_kind :=
  if str_contains "/tunnels" path && (method =?s "POST") then TunnelLimit
  else if str_contains "/dns" path || str_contains "/domains" path then DnsLimit
  else ApiLimit.

Definition rejection (now : Z) (error_id : uuid) (retry : string) : Response :=
  let '(code, e) := AE.into_response now error_id AE.RateLimitExceeded in
  insert_headers [("x-ratelimit-remaining", "0"); ("retry-after", retry);
                  ("x-ratelimit-reset", retry)]
    {| status := code; headers := {[ "content-type" := "application/json" ]}; body := error_body e |}.

Definition rate_limit_middleware (now : Z) (error_id : uuid) (path method : string) (h : HeaderMap)
    (next : W → W * Response) (s : RateLimitState) (w : W)
    : option (RateLimitState * W * Response) :=
  let token := bearer_or_anonymous h in
  let ip := client_ip h in
  let '(s, r) := check_ip_rate_limit now ip s in
  match r with
  | Err _ => Some (s, w, rejection now error_id "3600")
  | Ok _ =>
      '(s, r) ← check_rate_limit (kind_of_request path method) now token s;
      match r with
      | Ok _ =>
          info ← get_rate_limit_info show token s;
          let t := default "Free" (info !! "tier") in
          let limit := default "60" (info !! "api_requests_per_minute") in
          let '(w, resp) := next w in
          Some (s, w, insert_headers
            [("x-ratelimit-tier", default "Free" (hv_from_str t));
             ("x-ratelimit-limit", default "60" (hv_from_str limit));
             ("x-ratelimit-remaining", "99"); ("x-ratelimit-reset", "60")] resp)
      | Err _ => Some (s, w, rejection now error_id "60")
      end
  end.

End middleware.
Arguments Response B : clear implicits.

(** ** The limit per address *)

Definition minute : Z := secs 60.
(** Instants of a list not before [lo], and within the minute that ends at [T]. *)
Definition since (lo : Z) (ts : list Z) : nat := length (filter (λ t, lo ≤ t) ts).
Definition in_minute (T : Z) (ts : list Z) : nat := length (filter (λ t, T - minute ≤ t ∧ t ≤ T) ts).

Lemma since_app lo l k : since lo (l ++ k) = (since lo l + since lo k)%nat.
Proof. unfold since. by rewrite filter_app, length_app. Qed.
Lemma since_le lo l : (since lo l ≤ length l)%nat.
Proof. apply length_filter. Qed.
Lemma since_antitone lo lo' l : lo ≤ lo' → (since lo' l ≤ since lo l)%nat.
Proof.
  intros. unfold since. induction l as [|t l IH]; [done|]. rewrite !filter_cons.
  repeat case_decide; cbn; lia.
Qed.
Lemma since_none lo l : Forall (λ t, t < lo) l → since lo l = 0%nat.
Proof.
  unfold since. induction 1 as [|t l Ht _ IH]; [done|]. by rewrite filter_cons_False by lia.
Qed.
Lemma in_minute_since T l : (in_minute T l ≤ since (T - minute) l)%nat.
Proof.
  unfold in_minute, since. induction l as [|t l IH]; [done|]. rewrite !filter_cons.
  repeat case_decide; cbn; lia.
Qed.
Lemma in_minute_snoc_out T l t : ¬ (T - minute ≤ t ∧ t ≤ T) → in_minute T (l ++ [t]) = in_minute T l.
Proof.
  intros. unfold in_minute. rewrite filter_app, length_app, filter_cons_False by done. cbn. lia.
Qed.

(** What an entry knows of the served instants [ts] of its address: those of the
    current window are at most the counter, and the earlier ones, none of which
    is after the start of the window, are at most the limit within a minute of
    it. *)
Record window_inv (max now : Z) (l : IpRateLimit) (ts : list Z) : Prop := {
  wi_reset : last_reset l ≤ now;
  wi_count : 0 ≤ requests l ≤ max;
  wi_split : ∃ old cur, ts = old ++ cur ∧ Z.of_nat (length cur) ≤ requests l
    ∧ Forall (λ t, t ≤ last_reset l) old
    ∧ Z.of_nat (since (last_reset l - minute) old) ≤ max;
}.

Definition fresh_limit (now : Z) : IpRateLimit :=
  {| requests := 0; last_reset := now; blocked_until := None |}.

Lemma window_inv_later max now now' l ts :
  now ≤ now' → window_inv max now l ts → window_inv max now' l ts.
Proof. intros ? [? ? ?]. split; [lia|done..]. Qed.

(** More than a minute after its start a window can be forgotten. *)
Lemma window_inv_expired max now now' l ts u :
  window_inv max now l ts → Forall (λ t, t ≤ now') ts → minute < now' - last_reset l →
  window_inv max now' {| requests := 0; last_reset := now'; blocked_until := u |} ts.
Proof.
  intros [_ Hc (old & cur & -> & Hcur & Hold & _)] Hts Hexp. split; cbn; [lia..|].
  exists (old ++ cur), []. rewrite app_nil_r. split_and!; cbn; [done|lia|done|].
  rewrite since_app, since_none.
  - pose proof (since_le (now' - minute) cur). lia.
  - eapply Forall_impl; [exact Hold|]. cbn. intros. lia.
Qed.

Lemma window_inv_minute max now l ts T :
  window_inv max now l ts → now ≤ T → Z.of_nat (in_minute T ts) ≤ max + requests l.
Proof.
  intros [Hr _ (old & cur & -> & Hcur & _ & Hold)] HT.
  pose proof (in_minute_since T (old ++ cur)) as H1. rewrite since_app in H1.
  pose proof (since_le (T - minute) cur).
  pose proof (since_antitone (last_reset l - minute) (T - minute) old ltac:(lia)). lia.
Qed.

(** Serving one more request of the current window. *)
Lemma window_inv_serve max now l ts u :
  u32_ok max → window_inv max now l ts → requests l < max →
  let l' := {| requests := as_u32 (requests l + 1); last_reset := last_reset l;
               blocked_until := u |} in
  window_inv max now l' ts ∧ window_inv max now l' (ts ++ [now]).
Proof.
  unfold u32_ok. intros Hmax [Hr Hc (old & cur & -> & Hcur & Hold)] Hlt.
  assert (as_u32 (requests l + 1) = requests l + 1) as E by (apply Z.mod_small; lia).
  cbn. split; split; cbn; rewrite ?E; try lia.
  - exists old, cur. split_and!; [done|lia|apply Hold..].
  - exists old, (cur ++ [now]). rewrite app_assoc, length_app. cbn.
    split_and!; [done|lia|apply Hold..].
Qed.

(** A request of the address, admitted or not. *)
Lemma ip_request_inv cfg now l ts :
  let max := max_requests_per_ip_per_minute cfg in
  u32_ok max → window_inv max now l ts → Forall (λ t, t ≤ now) ts →
  let '(l', r) := ip_request cfg now l in
  window_inv max now l' ts
  ∧ (is_ok r = true →
       window_inv max now l' (ts ++ [now])
       ∧ ∀ T, now ≤ T → Z.of_nat (in_minute T (ts ++ [now])) ≤ 2 * max).
Proof.
  cbn zeta. set (max := max_requests_per_ip_per_minute cfg). intros Hmax Hinv Hts.
  unfold ip_request. destruct (match blocked_until l with Some u => _ | None => _ end); [done|].
  set (l0 := if secs 60 <? duration_since now (last_reset l) then fresh_limit now else l).
  assert (window_inv max now l0 ts) as Hinv0.
  { unfold l0. destruct (Z.ltb_spec (secs 60) (duration_since now (last_reset l))) as [Hlt|]; [|done].
    eapply window_inv_expired; [done..|]. unfold duration_since, secs, minute in *.
    destruct Hinv. unfold secs. lia. }
  assert ((if secs 60 <? duration_since now (last_reset l) then 0 else requests l) = requests l0) as ->
    by (unfold l0; by case_match).
  assert ((if secs 60 <? duration_since now (last_reset l) then now else last_reset l)
          = last_reset l0) as -> by (unfold l0; by case_match).
  clearbody l0. destruct (Z.leb_spec (max_requests_per_ip_per_minute cfg) (requests l0)) as [Hle|Hlt].
  - split; [|done]. by destruct Hinv0.
  - destruct (window_inv_serve max now l0 ts None Hmax Hinv0 Hlt) as [H1 H2]. split; [done|].
    intros _. split; [done|]. intros T HT. pose proof (window_inv_minute _ _ _ _ T H2 HT) as H3.
    destruct H2 as [_ Hc _]. lia.
Qed.

(** ** Histories of the middleware *)

Section history.
Context `{Governor} `{Codec}.
Context {B : Type} (error_body : AE.ErrorResponse → B) (show : f64 → string)
  (hv_from_str : string → option string).

Record request := {
  rq_error_id : uuid;
  rq_path : string;
  rq_method : string;
  rq_headers : HeaderMap;
  (** What the API answers when the request reaches it. *)
  rq_answer : Response B;
}.

(** A request, a cleanup, or an administrative change. *)
Inductive op :=
  | Serve (rq : request)
  | Cleanup
  | SetTier (token t : string)
  | AddBypass (token : string)
  | RemoveBypass (token : string)
  | SetLoad (load : f64).

(** The log holds the requests that reached the API: instant and client address. *)
Definition middleware_step (now : Z) (o : op) (s : RateLimitState) (log : list (Z * IpAddr))
    : option (RateLimitState * list (Z * IpAddr)) :=
  match o with
  | Serve rq =>
      '(s, log, _) ← rate_limit_middleware error_body show hv_from_str now (rq_error_id rq)
        (rq_path rq) (rq_method rq) (rq_headers rq)
        (λ w, (w ++ [(now, client_ip (rq_headers rq))], rq_answer rq)) s log;
      Some (s, log)
  | Cleanup => Some (cleanup_old_entries now s, log)
  | SetTier token t => Some (set_user_tier token t s, log)
  | AddBypass token => Some (add_bypass_token token s, log)
  | RemoveBypass token => Some (remove_bypass_token token s, log)
  | SetLoad load => Some (update_system_load load s, log)
  end.

(** The states and logs of all histories.  A request that panics, in the creation
    of its limiter, has been counted for its address. *)
Inductive reachable (cfg : RateLimitConfig) : Z → RateLimitState → list (Z * IpAddr) → Prop :=
  | reach_new now : reachable cfg now (RateLimitState_new cfg) []
  | reach_step now now' o s log s' log' :
      reachable cfg now s log → now ≤ now' → middleware_step now' o s log = Some (s', log') →
      reachable cfg now' s' log'
  | reach_panic now now' rq s log :
      reachable cfg now s log → now ≤ now' → middleware_step now' (Serve rq) s log = None →
      reachable cfg now' (check_ip_rate_limit now' (client_ip (rq_headers rq)) s).1 log.

Definition served (ip : IpAddr) (log : list (Z * IpAddr)) : list Z :=
  (filter (λ e, e.2 = ip) log).*1.

Lemma served_snoc_eq ip log t : served ip (log ++ [(t, ip)]) = served ip log ++ [t].
Proof. unfold served. by rewrite filter_app, fmap_app, filter_cons_True. Qed.
Lemma served_snoc_ne ip ip' log t : ip' ≠ ip → served ip (log ++ [(t, ip')]) = served ip log.
Proof.
  intros. unfold served. rewrite filter_app, fmap_app, filter_cons_False by done.
  cbn. by rewrite app_nil_r.
Qed.

(** What holds of one address. *)
Definition address_inv (max now : Z) (l : option IpRateLimit) (ts : list Z) : Prop :=
  Forall (λ t, t ≤ now) ts
  ∧ (∀ T, Z.of_nat (in_minute T ts) ≤ 2 * max)
  ∧ ∀ now', now ≤ now' → window_inv max now' (default (fresh_limit now') l) ts.

Lemma address_inv_later max now now' l ts :
  now ≤ now' → address_inv max now l ts → address_inv max now' l ts.
Proof.
  intros Hle (H1 & H2 & H3). split_and!; [|done|].
  - eapply Forall_impl; [exact H1|]. cbn. lia.
  - intros. apply H3. lia.
Qed.

Lemma address_inv_request cfg now l ts :
  let max := max_requests_per_ip_per_minute cfg in
  u32_ok max → address_inv max now l ts →
  let '(l', r) := ip_request cfg now (default (fresh_limit now) l) in
  address_inv max now (Some l') ts
  ∧ (is_ok r = true → address_inv max now (Some l') (ts ++ [now])).
Proof.
  cbn zeta. intros Hmax (H1 & H2 & H3).
  pose proof (ip_request_inv cfg now _ ts Hmax (H3 now ltac:(lia)) H1) as Hreq.
  destruct (ip_request _ _ _) as [l' r]. destruct Hreq as [Ha Hb]. split; [split_and!|].
  - done.
  - done.
  - intros now' ?. by apply (window_inv_later _ now).
  - intros Hok. destruct (Hb Hok) as [Hw HT]. split_and!.
    + apply Forall_app_2; [done|]. by repeat constructor.
    + intros T. destruct (decide (now ≤ T)); [by apply HT|].
      rewrite in_minute_snoc_out by lia. apply H2.
    + intros now' ?. by apply (window_inv_later _ now).
Qed.

Definition limits_inv (now : Z) (s : RateLimitState) (log : list (Z * IpAddr)) : Prop :=
  ∀ ip, address_inv (max_requests_per_ip_per_minute (ddos_protection (config s))) now
          (ip_limiters s !! ip) (served ip log).

Lemma check_ip_inv now ip s log :
  u32_ok (max_requests_per_ip_per_minute (ddos_protection (config s))) →
  limits_inv now s log →
  let '(s', r) := check_ip_rate_limit now ip s in
  config s' = config s ∧ limits_inv now s' log
  ∧ (is_ok r = true → limits_inv now s' (log ++ [(now, ip)])).
Proof.
  intros Hmax Hinv. unfold check_ip_rate_limit.
  pose proof (address_inv_request (ddos_protection (config s)) now _ _ Hmax (Hinv ip)) as Hreq.
  unfold fresh_limit in Hreq. destruct (ip_request _ _ _) as [l' r]. destruct Hreq as [Ha Hb].
  split_and!; [done|intros ip'|intros Hok ip']; cbn;
    (destruct (decide (ip = ip')) as [<-|Hne];
     [rewrite lookup_insert_eq|rewrite lookup_insert_ne by done]).
  - done.
  - apply Hinv.
  - rewrite served_snoc_eq. by apply Hb.
  - rewrite served_snoc_ne by done. apply Hinv.
Qed.

(** The token limiters leave the address limits alone. *)
Lemma check_rate_limit_frame k now token s s' r :
  check_rate_limit k now token s = Some (s', r) →
  config s' = config s ∧ ip_limiters s' = ip_limiters s.
Proof.
  unfold check_rate_limit. intros E. case_match; [by simplify_eq|].
  apply bind_Some in E as (c & _ & E). case_match; [by simplify_eq|].
  apply bind_Some in E as (l & _ & E). destruct (check_key now token l). by simplify_eq.
Qed.

Lemma cleanup_inv now s log : limits_inv now s log → limits_inv now (cleanup_old_entries now s) log.
Proof.
  intros Hinv ip. destruct (Hinv ip) as (H1 & H2 & H3). split_and!; [done..|].
  intros now' Hle. cbn. rewrite map_lookup_filter.
  destruct (ip_limiters s !! ip) as [l|] eqn:E; cbn in *; [|by apply H3].
  case_guard as Hg; cbn; [by apply H3|].
  eapply window_inv_expired; [by apply H3| |].
  - eapply Forall_impl; [exact H1|]. cbn. lia.
  - destruct (H3 now ltac:(lia)) as [Hr _ _]. unfold duration_since, secs, minute in *.
    unfold secs. lia.
Qed.

Lemma serve_inv now rq s log s' log' :
  u32_ok (max_requests_per_ip_per_minute (ddos_protection (config s))) →
  limits_inv now s log → middleware_step now (Serve rq) s log = Some (s', log') →
  config s' = config s ∧ limits_inv now s' log'.
Proof.
  intros Hmax Hinv E. cbn in E. unfold rate_limit_middleware in E.
  pose proof (check_ip_inv now (client_ip (rq_headers rq)) s log Hmax Hinv) as Hip.
  destruct (check_ip_rate_limit _ _ _) as [s1 r]. destruct Hip as (Hc & Hi & Hok).
  destruct r as [[]|]; cbn in E; [|by simplify_eq].
  destruct (check_rate_limit _ _ _ _) as [[s2 r2]|] eqn:E2; cbn in E; [|done].
  apply check_rate_limit_frame in E2 as [Hc2 Hip2].
  assert (∀ log0, limits_inv now s1 log0 → config s2 = config s ∧ limits_inv now s2 log0) as Hframe.
  { intros log0 Hl. split; [by rewrite Hc2|]. intros ip. rewrite Hc2, Hip2. apply Hl. }
  destruct r2 as [[]|]; cbn in E; [|by simplify_eq; apply Hframe].
  destruct (get_rate_limit_info _ _ _); cbn in E; [|done]. simplify_eq. by apply Hframe, Hok.
Qed.

Lemma reachable_inv cfg now s log :
  u32_ok (max_requests_per_ip_per_minute (ddos_protection cfg)) →
  reachable cfg now s log → config s = cfg ∧ limits_inv now s log.
Proof.
  intros Hmax. induction 1 as [now|now now' o s log s' log' _ [Hc IH] Hle Hstep
                              |now now' rq s log _ [Hc IH] Hle Hpanic].
  - split; [done|]. intros ip. cbn. rewrite lookup_empty. unfold u32_ok in Hmax.
    split_and!; [constructor|intros; cbn; lia|]. intros now' ?. split; cbn; [lia..|].
    exists [], []. split_and!; [done|cbn; lia|constructor|cbn; lia].
  - assert (limits_inv now' s log) as Hi by (intros ip; by apply (address_inv_later _ now)).
    destruct o; [subst cfg; by eapply serve_inv|..]; injection Hstep as <- <-; (split; [done|]);
      [by apply cleanup_inv|exact Hi..].
  - assert (limits_inv now' s log) as Hi by (intros ip; by apply (address_inv_later _ now)).
    subst cfg. pose proof (check_ip_inv now' (client_ip (rq_headers rq)) s log Hmax Hi) as Hip.
    destruct (check_ip_rate_limit _ _ _) as [s1 r]. by destruct Hip as (? & ? & _).
Qed.

End history.

(** ** Claims *)

Section claims.
Context `{Governor} `{Codec}.
Context {B : Type} (error_body : AE.ErrorResponse → B) (show : f64 → string)
  (hv_from_str : string → option string).

Lemma set_ip_limiters_id (s : RateLimitState) : set_ip_limiters (ip_limiters s) s = s.
Proof. by destruct s. Qed.

Lemma check_ip_blocked now ip s l u :
  ip_limiters s !! ip = Some l → blocked_until l = Some u → now < u →
  check_ip_rate_limit now ip s = (s, Err IP_BLOCKED).
Proof.
  intros Hl Hu Hlt. unfold check_ip_rate_limit. rewrite Hl. cbn. unfold ip_request. rewrite Hu.
  destruct (Z.ltb_spec now u); [|lia]. by rewrite insert_id, set_ip_limiters_id.
Qed.

(** A request of a blocked address stops at the middleware. *)
Lemma middleware_blocked {W} now id path method h (next : W → W * Response B) s w l u :
  ip_limiters s !! client_ip h = Some l → blocked_until l = Some u → now < u →
  rate_limit_middleware error_body show hv_from_str now id path method h next s w
  = Some (s, w, rejection error_body now id "3600").
Proof. intros. unfold rate_limit_middleware. by erewrite check_ip_blocked. Qed.

End claims.

(** C28: in every history of requests, cleanups and administrative changes, with
    any paths, tokens and tiers, at most twice the configured number of requests
    of one client address reach the API within any sixty seconds; one window of
    the counter contributes at most the configured number, and no minute meets
    more than two windows. *)
Theorem middleware_minute_limit `{Governor} `{Codec} {B} (error_body : AE.ErrorResponse → B)
    show hv_from_str cfg now s log ip T
    (Hmax : u32_ok (max_requests_per_ip_per_minute (ddos_protection cfg)))
    (Hr : reachable error_body show hv_from_str cfg now s log) :
  Z.of_nat (in_minute T (served ip log))
  ≤ 2 * max_requests_per_ip_per_minute (ddos_protection cfg).
Proof.
  destruct (reachable_inv _ _ _ _ _ _ _ Hmax Hr) as [<- Hinv]. by destruct (Hinv ip) as (_ & ? & _).
Qed.

(** A block and its end.  While the block of a client address lasts, every
    request of it, whatever path, method or token, is answered 429 before it
    reaches the API, and no state changes.  A cleanup within an hour of the start
    of the address's counting window keeps the block; a later one lifts it,
    although the block has not ended. *)
Lemma ip_block_exact `{Governor} `{Codec} {B W} (error_body : AE.ErrorResponse → B)
    show hv_from_str now id path method h (next : W → W * Response B) s w l u c
    (Hl : ip_limiters s !! client_ip h = Some l) (Hu : blocked_until l = Some u)
    (Hlt : now < u) (Hmax : 0 < max_requests_per_ip_per_minute (ddos_protection (config s))) :
  let middleware := rate_limit_middleware error_body show hv_from_str now id path method h next in
  let rejected := rejection error_body now id "3600" in
  middleware s w = Some (s, w, rejected) ∧ status rejected = 429
  ∧ let s' := cleanup_old_entries c s in
    if decide (duration_since c (last_reset l) < secs 3600)
    then middleware s' w = Some (s', w, rejected)
    else (check_ip_rate_limit now (client_ip h) s').2 = Ok ().
Proof.
  cbn zeta. split; [by eapply middleware_blocked|]. split; [done|]. case_decide as Hd.
  - eapply middleware_blocked; [|done..]. cbn. by rewrite map_lookup_filter_Some_2 with (x := l).
  - unfold check_ip_rate_limit. cbn [cleanup_old_entries ip_limiters config].
    rewrite map_lookup_filter_None_2.
    + unfold ip_request. cbn. unfold duration_since. rewrite Z.sub_diag.
      change (secs 60 <? Z.max 0 0) with false. cbn.
      destruct (Z.leb_spec (max_requests_per_ip_per_minute (ddos_protection (config s))) 0); [lia|done].
    + right. intros x Hx. rewrite Hl in Hx. by injection Hx as <-.
Qed.

(** ** Evaluation with a concrete limiter *)
Module RateDemo.
Import BitCodec.

(** The generic cell rate algorithm, with the next arrival time per key. *)
#[export] Instance gcra : Governor := {|
  limiter := GovernorQuota * gmap string Z;
  keyed q := (q, ∅);
  check_key now key '(q, m) :=
    let t := minute / gq_per_minute q in
    let tat := Z.max now (default now (m !! key)) in
    if tat + t - now <=? t * gq_burst q then ((q, <[key := tat + t]> m), true)
    else ((q, m), false) |}.

Definition cfg : RateLimitConfig :=
  {| rl_default := rl_default default_rate_limit_config; per_endpoint := None;
     rl_user_tiers := rl_user_tiers default_rate_limit_config;
     ddos_protection := {| max_requests_per_ip_per_minute := 2; max_connections_per_ip := 50;
       ip_block_duration_seconds := 3600; auto_block_abuse_patterns := true |};
     dynamic_adjustment := true; load_threshold := f64_of_Z 1 |}.

Definition h (forwarded : string) : HeaderMap :=
  <["authorization" := {| hv_to_str := Some "Bearer t" |}]>
    {[ "x-forwarded-for" := {| hv_to_str := Some forwarded |} ]}.
Definition client : IpAddr := V4 (Ipv4 10 0 0 1).
Definition no_body (_ : AE.ErrorResponse) : unit := ().
Definition show (_ : f64) : string := "".
Definition ok_response : Response unit := {| status := 200; headers := ∅; body := () |}.
Definition rq (path : string) : request :=
  {| rq_error_id := (1%N : uuid); rq_path := path; rq_method := "GET"; rq_headers := h "10.0.0.1, 10.9.9.9";
     rq_answer := ok_response |}.

Definition step now o := middleware_step no_body show Some now o.
Definition reach := reachable no_body show Some cfg.

(** A history as a function, for evaluation. *)
Definition run (ops : list (Z * op (B := unit))) : option (RateLimitState * list (Z * IpAddr)) :=
  foldr (λ '(t, o) acc, '(s, log) ← acc; step t o s log) (Some (RateLimitState_new cfg, [])) ops.

(** Two requests are served, the third starts the block; latest first. *)
Definition ops : list (Z * op (B := unit)) :=
  [(secs 3, Serve (rq "/api/v1/tunnels")); (secs 2, Serve (rq "/api/v1/dns"));
   (secs 1, Serve (rq "/api/v1/tunnels")); (0, SetTier "t" "Pro")].

Definition last_time (l : list (Z * op (B := unit))) : Z := match l with [] => 0 | (t, _) :: _ => t end.
Fixpoint ordered (l : list (Z * op (B := unit))) : bool :=
  match l with [] => true | (t, _) :: l' => (last_time l' <=? t) && ordered l' end.

Lemma run_reach l s log : run l = Some (s, log) → ordered l = true → reach (last_time l) s log.
Proof.
  revert s log. induction l as [|[t o] l IH]; intros s log E Ho.
  { injection E as <- <-. apply reach_new. }
  cbn in E, Ho. apply andb_true_iff in Ho as [Ht%Z.leb_le Ho].
  fold (run l) in E. destruct (run l) as [[s0 log0]|]; [|done].
  eapply reach_step; [by apply IH|exact Ht|exact E].
Qed.

Lemma middleware_minute_limit_witness : ∃ log,
  served client log = [secs 1; secs 2] ∧ Z.of_nat (in_minute (secs 40) (served client log)) ≤ 4.
Proof.
  assert ((served client ∘ snd) <$> run ops = Some [secs 1; secs 2]) as Hs by by vm_compute.
  destruct (run ops) as [[s log]|] eqn:E; [|done]. injection Hs as Hs.
  exists log. split; [done|].
  change 4 with (2 * max_requests_per_ip_per_minute (ddos_protection cfg)).
  assert (reach (last_time ops) s log) as Hr by (apply run_reach; [exact E|by vm_compute]).
  assert (u32_ok (max_requests_per_ip_per_minute (ddos_protection cfg))) as Hmax by (clear; done).
  exact (middleware_minute_limit no_body show Some cfg _ s log client (secs 40) Hmax Hr).
Defined.

(** A window that started at zero and a block from second 30 on; the cleanup runs
    twenty seconds before the end of the block. *)
Definition blocked_entry : IpRateLimit :=
  {| requests := 2; last_reset := 0; blocked_until := Some (secs 3630) |}.
Definition blocked_state : RateLimitState :=
  set_ip_limiters {[ client := blocked_entry ]} (RateLimitState_new cfg).

Lemma ip_block_exact_witness :
  (check_ip_rate_limit (secs 3620) client (cleanup_old_entries (secs 3610) blocked_state)).2 = Ok ().
Proof.
  exact (proj2 (proj2 (ip_block_exact no_body show Some (secs 3620) (1%N : uuid) "/" "GET" (h "10.0.0.1")
    (λ w : unit, (w, ok_response)) blocked_state () blocked_entry (secs 3630) (secs 3610)
    eq_refl eq_refl ltac:(done) ltac:(done)))).
Defined.

End RateDemo.
