(* ===== verification/Quota.v ===== *)
(** * Quota enforcement

    crates/backendapi/src/quota_enforcement.rs: usage counters per user in a
    cache, the limits of the (default) plan, the check of a request against its
    limit and the recording of an allowed one.  Every operation returns [Ok] in
    the source.  Requests are served one after the other here; requests that overlap
    are in [Interleaving]. *)

From S2P Require Import Prelude Float.

Inductive QuotaType :=
  | ApiCalls | TunnelCreation | DnsProvisioning | ConcurrentTunnels | DataTransfer
  | CertificateIssuance.
#[export] Instance QuotaType_eq_dec : EqDecision QuotaType.
Proof. solve_decision. Defined.

(** The derived [Debug] text. *)
Definition quota_name (q : QuotaType) : string :=
  match q with
  | ApiCalls => "ApiCalls" | TunnelCreation => "TunnelCreation"
  | DnsProvisioning => "DnsProvisioning" | ConcurrentTunnels => "ConcurrentTunnels"
  | DataTransfer => "DataTransfer" | CertificateIssuance => "CertificateIssuance"
  end.

Record UserUsage := {
  u_user_id : string;
  u_service_plan_id : string;
  api_calls_count : Z;
  tunnels_created_count : Z;
  dns_operations_count : Z;
  active_tunnels_count : Z;
  data_transferred_mb : Z;
  certificates_issued_count : Z;
  u_last_updated : Z;
  u_period_start : Z;
}.

Record QuotaLimits := {
  api_rate_limit : Z;
  tunnel_creation_limit : Z;
  dns_provisioning_limit : Z;
  max_concurrent_tunnels : Z;
  data_transfer_limit_mb : option Z;
  certificate_issuance_limit : option Z;
}.

Record QuotaEnforcementResult := {
  allowed : bool;
  remaining_quota : option Z;
  quota_exceeded : option QuotaType;
  q_message : string;
}.

(** The tracker's cache. *)
Abbreviation UsageCache := (gmap string UserUsage).

Definition fresh_usage (now : Z) (user_id : string) : UserUsage :=
  {| u_user_id := user_id; u_service_plan_id := "default"; api_calls_count := 0;
     tunnels_created_count := 0; dns_operations_count := 0; active_tunnels_count := 0;
     data_transferred_mb := 0; certificates_issued_count := 0;
     u_last_updated := now; u_period_start := now |}.

Definition get_user_usage (now : Z) (user_id : string) (c : UsageCache) : UsageCache * UserUsage :=
  match c !! user_id with
  | Some usage => (c, usage)
  | None => let usage := fresh_usage now user_id in (<[user_id := usage]> c, usage)
  end.

Definition get_quota_limits (user_id : string) : QuotaLimits :=
  {| api_rate_limit := 1000; tunnel_creation_limit := 100; dns_provisioning_limit := 100;
     max_concurrent_tunnels := 10; data_transfer_limit_mb := Some 1024;
     certificate_issuance_limit := Some 100 |}.

(** The counter and the limit of a quota type. *)
Definition usage_of (q : QuotaType) (u : UserUsage) : Z :=
  match q with
  | ApiCalls => api_calls_count u
  | TunnelCreation => tunnels_created_count u
  | DnsProvisioning => dns_operations_count u
  | ConcurrentTunnels => active_tunnels_count u
  | DataTransfer => data_transferred_mb u
  | CertificateIssuance => certificates_issued_count u
  end.
Definition limit_of (q : QuotaType) (l : QuotaLimits) : Z :=
  match q with
  | ApiCalls => api_rate_limit l
  | TunnelCreation => tunnel_creation_limit l
  | DnsProvisioning => dns_provisioning_limit l
  | ConcurrentTunnels => max_concurrent_tunnels l
  | DataTransfer => default 1024 (data_transfer_limit_mb l)
  | CertificateIssuance => default 100 (certificate_issuance_limit l)
  end.

(** [i64] sums wrap in release builds. *)
Definition check_quota (now : Z) (user_id : string) (q : QuotaType) (amount : Z) (c : UsageCache)
    : UsageCache * QuotaEnforcementResult :=
  let '(c, usage) := get_user_usage now user_id c in
  let limits := get_quota_limits user_id in
  let current := usage_of q usage in
  let limit := limit_of q limits in
  let new_usage := as_i64 (current + amount) in
  if new_usage <=? limit then
    let remaining := as_i64 (limit - new_usage) in
    (c, {| allowed := true; remaining_quota := Some remaining; quota_exceeded := None;
           q_message := "Operation allowed. Remaining quota: " +:+ pretty remaining |})
  else
    (c, {| allowed := false; remaining_quota := None; quota_exceeded := Some q;
           q_message := "Quota exceeded for " +:+ quota_name q +:+ ". Limit: " +:+ pretty limit
             +:+ ", Current: " +:+ pretty current +:+ ", Requested: " +:+ pretty amount |}).

(** The counters after adding an amount to one of them. *)
Definition add_usage (q : QuotaType) (amount now : Z) (u : UserUsage) : UserUsage :=
  let bump q' n := if decide (q = q') then as_i64 (n + amount) else n in
  {| u_user_id := u_user_id u; u_service_plan_id := u_service_plan_id u;
     api_calls_count := bump ApiCalls (api_calls_count u);
     tunnels_created_count := bump TunnelCreation (tunnels_created_count u);
     dns_operations_count := bump DnsProvisioning (dns_operations_count u);
     active_tunnels_count := bump ConcurrentTunnels (active_tunnels_count u);
     data_transferred_mb := bump DataTransfer (data_transferred_mb u);
     certificates_issued_count := bump CertificateIssuance (certificates_issued_count u);
     u_last_updated := now; u_period_start := u_period_start u |}.

Definition record_usage (now : Z) (user_id : string) (q : QuotaType) (amount : Z) (c : UsageCache)
    : UsageCache :=
  let '(c, usage) := get_user_usage now user_id c in
  <[user_id := add_usage q amount now usage]> c.

Definition reset_usage (now : Z) (user_id : string) (c : UsageCache) : UsageCache :=
  alter (λ u,
    {| u_user_id := u_user_id u; u_service_plan_id := u_service_plan_id u; api_calls_count := 0;
       tunnels_created_count := 0; dns_operations_count := 0; active_tunnels_count := 0;
       data_transferred_mb := 0; certificates_issued_count := 0;
       u_last_updated := now; u_period_start := now |}) user_id c.

(** ** The middleware *)

(** Check, and record when allowed. *)
Definition enforce (q : QuotaType) (amount now : Z) (user_id : string) (c : UsageCache)
    : UsageCache * QuotaEnforcementResult :=
  let '(c, result) := check_quota now user_id q amount c in
  (if allowed result then record_usage now user_id q amount c else c, result).

Definition enforce_api_quota := enforce ApiCalls 1.
Definition enforce_tunnel_creation_quota := enforce TunnelCreation 1.
Definition enforce_dns_quota := enforce DnsProvisioning 1.
Definition enforce_certificate_quota := enforce CertificateIssuance 1.
Definition enforce_data_transfer_quota (now : Z) (user_id : string) (bytes_transferred : Z)
    (c : UsageCache) : UsageCache * QuotaEnforcementResult :=
  enforce DataTransfer (Z.quot (Z.quot bytes_transferred 1024) 1024) now user_id c.
Definition enforce_concurrent_tunnels_quota (now : Z) (user_id : string) (current_count : Z)
    (c : UsageCache) : UsageCache * QuotaEnforcementResult :=
  check_quota now user_id ConcurrentTunnels current_count c.

Definition ask (f : Z → string → UsageCache → UsageCache * QuotaEnforcementResult)
    (now : Z) (user_id : string) (c : UsageCache) : UsageCache * bool :=
  let '(c, result) := f now user_id c in (c, allowed result).
Definition can_make_api_call := ask enforce_api_quota.
Definition can_create_tunnel := ask enforce_tunnel_creation_quota.
Definition can_perform_dns_operation := ask enforce_dns_quota.

(** ** Reports *)

Record QuotaInfo := { qi_usage : UserUsage; qi_limits : QuotaLimits }.

Definition get_quota_info (now : Z) (user_id : string) (c : UsageCache) : UsageCache * QuotaInfo :=
  let '(c, usage) := get_user_usage now user_id c in
  (c, {| qi_usage := usage; qi_limits := get_quota_limits user_id |}).

Definition get_usage_percentage (i : QuotaInfo) (q : QuotaType) : f64 :=
  let current := usage_of q (qi_usage i) in
  let limit := limit_of q (qi_limits i) in
  if limit =? 0 then f64_of_Z 0
  else f64_mul (f64_div (f64_of_Z current) (f64_of_Z limit)) (f64_of_Z 100).

Definition has_quota_warnings (i : QuotaInfo) : list QuotaType :=
  filter (λ q, f64_geb (get_usage_percentage i q) (f64_of_Z 80) = true)
    [ApiCalls; TunnelCreation; DnsProvisioning; ConcurrentTunnels; DataTransfer;
     CertificateIssuance].

(** ** The quota is exact *)

(** The quotas that are asked for in units, and the function that asks. *)
Inductive UnitQuota := UApi | UTunnel | UDns | UCertificate.
#[export] Instance UnitQuota_eq_dec : EqDecision UnitQuota.
Proof. solve_decision. Defined.
Definition unit_type (u : UnitQuota) : QuotaType :=
  match u with
  | UApi => ApiCalls | UTunnel => TunnelCreation | UDns => DnsProvisioning
  | UCertificate => CertificateIssuance
  end.
Definition enforce_unit (u : UnitQuota) : Z → string → UsageCache → UsageCache * QuotaEnforcementResult :=
  match u with
  | UApi => enforce_api_quota | UTunnel => enforce_tunnel_creation_quota | UDns => enforce_dns_quota
  | UCertificate => enforce_certificate_quota
  end.

(** What can be asked of the middleware, and the reset of a user's period. *)
Inductive QuotaOp :=
  | Request (u : UnitQuota)
  | Transfer (bytes_transferred : Z)
  | Concurrent (current_count : Z)
  | Reset.

Definition run_op (now : Z) (op : QuotaOp) (user_id : string) (c : UsageCache)
    : UsageCache * option bool :=
  let answer x := (x.1, Some (allowed x.2)) in
  match op with
  | Request u => answer (enforce_unit u now user_id c)
  | Transfer bytes => answer (enforce_data_transfer_quota now user_id bytes c)
  | Concurrent count => answer (enforce_concurrent_tunnels_quota now user_id count c)
  | Reset => (reset_usage now user_id c, None)
  end.

Fixpoint run_ops (ops : list (Z * QuotaOp * string)) (c : UsageCache)
    : UsageCache * list (option bool) :=
  match ops with
  | [] => (c, [])
  | (now, op, user_id) :: ops =>
      let '(c, r) := run_op now op user_id c in
      let '(c, rs) := run_ops ops c in (c, r :: rs)
  end.

(** The requests of a user for a unit of a quota since the user's last reset, the
    earliest operation last; granted or not. *)
Fixpoint asked (u : UnitQuota) (user : string) (past : list (Z * QuotaOp * string)) : Z :=
  match past with
  | [] => 0
  | (_, op, user') :: past =>
      if decide (user' = user) then
        match op with
        | Reset => 0
        | Request u' => asked u user past + (if decide (u' = u) then 1 else 0)
        | _ => asked u user past
        end
      else asked u user past
  end.

Definition megabytes (bytes : Z) : Z := Z.quot (Z.quot bytes 1024) 1024.

(** The megabytes granted to a user since the last reset: a transfer that would pass
    the limit is not granted. *)
Fixpoint granted (user : string) (past : list (Z * QuotaOp * string)) : Z :=
  match past with
  | [] => 0
  | (_, op, user') :: past =>
      if decide (user' = user) then
        match op with
        | Reset => 0
        | Transfer bytes =>
            let sum := granted user past + megabytes bytes in
            if sum <=? 1024 then sum else granted user past
        | _ => granted user past
        end
      else granted user past
  end.

(** Counts of the width of the source, sizes of transfers not negative. *)
Definition op_ok (op : QuotaOp) : Prop :=
  match op with
  | Transfer bytes => 0 ≤ bytes < 2 ^ 63
  | Concurrent count => i64_ok count
  | _ => True
  end.

Definition quota_limit (q : QuotaType) : Z := limit_of q (get_quota_limits "").

Definition used (q : QuotaType) (user : string) (c : UsageCache) : Z :=
  match c !! user with Some u => usage_of q u | None => 0 end.

(** The counters agree with the history: requests beyond the limit are not
    counted, and concurrent tunnels never are. *)
Definition recorded (q : QuotaType) (user : string) (past : list (Z * QuotaOp * string)) : Z :=
  let units u := Z.min (asked u user past) (quota_limit q) in
  match q with
  | ApiCalls => units UApi
  | TunnelCreation => units UTunnel
  | DnsProvisioning => units UDns
  | CertificateIssuance => units UCertificate
  | DataTransfer => granted user past
  | ConcurrentTunnels => 0
  end.
Definition tracks (past : list (Z * QuotaOp * string)) (c : UsageCache) : Prop :=
  ∀ q user, used q user c = recorded q user past.

Lemma quota_limit_range q : 0 < quota_limit q ≤ 1024.
Proof. by destruct q. Qed.

Lemma asked_nonneg u user past : 0 ≤ asked u user past.
Proof. induction past as [|[[] ] past]; cbn; repeat case_match; lia. Qed.

Lemma megabytes_range bytes : 0 ≤ bytes < 2 ^ 63 → 0 ≤ megabytes bytes < 2 ^ 62.
Proof.
  intros. unfold megabytes. Z.to_euclidean_division_equations. lia.
Qed.

Lemma granted_range user past :
  Forall (λ x, op_ok x.1.2) past → 0 ≤ granted user past ≤ 1024.
Proof.
  induction 1 as [|[[n op] u] past Hop _ IH]; cbn [granted]; [lia|].
  case_decide; [|done]. destruct op as [|bytes| |]; [done| |done|lia].
  cbn in Hop. apply megabytes_range in Hop. destruct (Z.leb_spec (granted user past + megabytes bytes) 1024); lia.
Qed.

Lemma recorded_range q user past :
  Forall (λ x, op_ok x.1.2) past → 0 ≤ recorded q user past ≤ quota_limit q.
Proof.
  intros Hp. pose proof (quota_limit_range q). apply (granted_range user) in Hp.
  pose proof (λ u, asked_nonneg u user past) as Ha.
  destruct q; cbn [recorded]; try (match goal with |- context [asked ?u _ _] => specialize (Ha u) end; lia); [lia|].
  exact Hp.
Qed.

Lemma get_user_usage_used now user c c' u :
  get_user_usage now user c = (c', u) →
  (∀ q, usage_of q u = used q user c) ∧ (∀ q user', used q user' c' = used q user' c)
  ∧ c' !! user = Some u.
Proof.
  unfold get_user_usage, used. destruct (c !! user) as [v|] eqn:E; intros [= <- <-].
  - done.
  - split; [by intros []|]. split; [|by rewrite lookup_insert_eq]. intros q user'.
    destruct (decide (user' = user)) as [->|Hne]; [|by rewrite lookup_insert_ne].
    rewrite lookup_insert_eq, E. by destruct q.
Qed.

Lemma usage_of_add q q' n now u :
  usage_of q' (add_usage q n now u) =
    if decide (q = q') then as_i64 (usage_of q u + n) else usage_of q' u.
Proof. by destruct q, q'. Qed.

Lemma record_usage_amount q n now user c :
  ∀ q' user', used q' user' (record_usage now user q n c) =
    if decide (user' = user ∧ q' = q) then as_i64 (used q user c + n) else used q' user' c.
Proof.
  intros q' user'. unfold record_usage. destruct (get_user_usage now user c) as [c' u] eqn:E.
  apply get_user_usage_used in E as (Hu & Hk & Hl). rewrite <- (Hk q' user').
  unfold used at 1. destruct (decide (user' = user)) as [->|Hne].
  - rewrite lookup_insert_eq, usage_of_add. unfold used. rewrite Hl, Hu.
    unfold used. repeat case_decide; naive_solver.
  - rewrite lookup_insert_ne by done. rewrite decide_False by naive_solver. done.
Qed.

Lemma record_usage_used q now user c :
  ∀ q' user', used q' user' (record_usage now user q 1 c) =
    if decide (user' = user ∧ q' = q) then as_i64 (used q user c + 1) else used q' user' c.
Proof. apply record_usage_amount. Qed.

Lemma check_quota_amount q n now user c c' r :
  i64_ok (used q user c + n) → check_quota now user q n c = (c', r) →
  (∀ q' user', used q' user' c' = used q' user' c)
  ∧ allowed r = bool_decide (used q user c + n ≤ quota_limit q).
Proof.
  intros Hr. unfold check_quota. destruct (get_user_usage now user c) as [c1 u] eqn:E.
  apply get_user_usage_used in E as (Hu & Hk & _).
  change (limit_of q (get_quota_limits user)) with (quota_limit q). rewrite Hu.
  rewrite as_i64_id by done.
  destruct (Z.leb_spec (used q user c + n) (quota_limit q)); intros [= <- <-];
    (split; [done|]); symmetry; cbn; [apply bool_decide_eq_true_2|apply bool_decide_eq_false_2]; lia.
Qed.

Lemma check_quota_spec q now user c c' r :
  0 ≤ used q user c ≤ quota_limit q → check_quota now user q 1 c = (c', r) →
  (∀ q' user', used q' user' c' = used q' user' c)
  ∧ allowed r = bool_decide (used q user c < quota_limit q).
Proof.
  intros Hr E. pose proof (quota_limit_range q).
  apply check_quota_amount in E as [Hk ->]; [|unfold i64_ok; lia]. split; [done|].
  apply bool_decide_ext. lia.
Qed.

(** Checking and recording an amount. *)
Lemma enforce_amount q n now user c :
  0 ≤ used q user c ≤ quota_limit q → 0 ≤ n < 2 ^ 62 →
  allowed (enforce q n now user c).2 = bool_decide (used q user c + n ≤ quota_limit q)
  ∧ ∀ q' user', used q' user' (enforce q n now user c).1 =
      if decide (user' = user ∧ q' = q ∧ used q user c + n ≤ quota_limit q)
      then used q user c + n else used q' user' c.
Proof.
  intros Hu Hn. pose proof (quota_limit_range q). unfold enforce.
  destruct (check_quota now user q n c) as [c1 r] eqn:E.
  apply check_quota_amount in E as [Hk Ha]; [|unfold i64_ok; lia]. cbn [fst snd]. split; [done|].
  intros q' user'. rewrite Ha. case_bool_decide as Hd.
  - rewrite record_usage_amount, !Hk, as_i64_id by (unfold i64_ok; lia). repeat case_decide; naive_solver.
  - rewrite Hk, decide_False by naive_solver. done.
Qed.

Lemma enforce_unit_enforce u : enforce_unit u = enforce (unit_type u) 1.
Proof. by destruct u. Qed.

Lemma reset_usage_used now user c q user' :
  used q user' (reset_usage now user c) = if decide (user' = user) then 0 else used q user' c.
Proof.
  unfold reset_usage, used. case_decide as Hd; [subst user'|by rewrite lookup_alter_ne].
  rewrite lookup_alter_eq. destruct (c !! user); [|done]. by destruct q.
Qed.

(** What an operation answers after a history. *)
Definition verdict (op : QuotaOp) (user : string) (past : list (Z * QuotaOp * string)) : option bool :=
  match op with
  | Request u => Some (bool_decide (asked u user past < quota_limit (unit_type u)))
  | Transfer bytes => Some (bool_decide (granted user past + megabytes bytes ≤ 1024))
  | Concurrent count => Some (bool_decide (count ≤ 10))
  | Reset => None
  end.

Lemma recorded_unit u user past :
  recorded (unit_type u) user past = Z.min (asked u user past) (quota_limit (unit_type u)).
Proof. by destruct u. Qed.

Lemma recorded_other q op user now past user' :
  user' ≠ user → recorded q user' ((now, op, user) :: past) = recorded q user' past.
Proof. intros. unfold recorded. cbn [asked granted]. by rewrite !decide_False by congruence. Qed.

Lemma recorded_request u user now past q' user' :
  recorded q' user' ((now, Request u, user) :: past) =
    if decide (user' = user ∧ q' = unit_type u ∧ asked u user past < quota_limit (unit_type u))
    then asked u user past + 1 else recorded q' user' past.
Proof.
  destruct (decide (user' = user)) as [->|Hu]; [|by rewrite recorded_other, decide_False by naive_solver].
  destruct (decide (q' = unit_type u)) as [->|Hq].
  - rewrite !recorded_unit. cbn [asked]. rewrite !decide_True by done.
    destruct (Z.lt_ge_cases (asked u user past) (quota_limit (unit_type u)));
      [rewrite decide_True by done|rewrite decide_False by naive_solver lia]; lia.
  - rewrite decide_False by naive_solver. unfold recorded. cbn [asked granted].
    destruct u, q'; try done; repeat case_decide; (done || lia).
Qed.

Lemma recorded_transfer bytes user now past q' user' :
  recorded q' user' ((now, Transfer bytes, user) :: past) =
    if decide (user' = user ∧ q' = DataTransfer ∧ granted user past + megabytes bytes ≤ 1024)
    then granted user past + megabytes bytes else recorded q' user' past.
Proof.
  destruct (decide (user' = user)) as [->|Hu]; [|by rewrite recorded_other, decide_False by naive_solver].
  unfold recorded. cbn [asked granted]. rewrite !(decide_True (P := user = user)) by done.
  destruct (Z.leb_spec (granted user past + megabytes bytes) 1024); destruct q';
    first [by rewrite decide_True | by rewrite decide_False by naive_solver lia
          | by rewrite !(decide_True (P := user = user)), decide_False by naive_solver lia].
Qed.

Lemma run_op_tracks now op user past c c' r :
  Forall (λ x, op_ok x.1.2) past → op_ok op → tracks past c → run_op now op user c = (c', r) →
  tracks ((now, op, user) :: past) c' ∧ r = verdict op user past.
Proof.
  intros Hp Hop Ht Hr. destruct op as [u|bytes|count|]; cbn [run_op verdict] in *; simplify_eq.
  - rewrite enforce_unit_enforce. pose proof (recorded_range (unit_type u) user past Hp) as Hq.
    destruct (enforce_amount (unit_type u) 1 now user c) as [Ha Hk]; [by rewrite Ht|lia|].
    rewrite Ha, Ht, recorded_unit. split; [|f_equal; apply bool_decide_ext; lia].
    intros q' user'. rewrite Hk, recorded_request, !Ht, recorded_unit.
    repeat case_decide; solve [lia | naive_solver lia].
  - apply megabytes_range in Hop. pose proof (recorded_range DataTransfer user past Hp) as Hq.
    destruct (enforce_amount DataTransfer (megabytes bytes) now user c) as [Ha Hk]; [by rewrite Ht|done|].
    split; [|unfold enforce_data_transfer_quota; fold (megabytes bytes); by rewrite Ha, Ht].
    intros q' user'. unfold enforce_data_transfer_quota. fold (megabytes bytes).
    rewrite Hk, recorded_transfer, !Ht. done.
  - unfold enforce_concurrent_tunnels_quota.
    destruct (check_quota now user ConcurrentTunnels count c) as [c1 r] eqn:E.
    apply check_quota_amount in E as [Hk Ha]; rewrite Ht in *; [|exact Hop]. cbn [fst snd recorded] in *.
    split; [|by rewrite Ha]. intros q' user'. rewrite Hk, Ht. unfold recorded. cbn [asked granted].
    destruct q'; by repeat case_decide.
  - split; [|done]. intros q' user'. rewrite reset_usage_used, Ht. pose proof (quota_limit_range q').
    unfold recorded. cbn [asked granted]. destruct q';
      repeat case_decide; solve [lia | naive_solver lia].
Qed.

Lemma run_ops_lookup ops past c i now op user :
  Forall (λ x, op_ok x.1.2) past → Forall (λ x, op_ok x.1.2) ops →
  tracks past c → ops !! i = Some (now, op, user) →
  (run_ops ops c).2 !! i = Some (verdict op user (rev (take i ops) ++ past)).
Proof.
  revert past c i. induction ops as [|[[n op'] u] ops IH]; intros past c i Hp Hops Ht Hi; [done|].
  apply Forall_cons in Hops as [Hop Hops].
  cbn [run_ops]. destruct (run_op n op' u c) as [c1 r] eqn:E.
  apply run_op_tracks with (past := past) in E as [Ht' Hr]; [|done..].
  destruct (run_ops ops c1) as [c2 rs] eqn:E2.
  destruct i as [|i].
  - injection Hi as -> -> ->. by rewrite Hr.
  - specialize (IH ((n, op', u) :: past) c1 i (Forall_cons_2 (λ x, op_ok x.1.2) _ _ Hop Hp) Hops Ht' Hi).
    rewrite E2 in IH. cbn [take rev]. rewrite <- app_assoc. exact IH.
Qed.

(** C34: the quota of requests served one after the other.  In any such sequence of
    requests and period resets of any users, a request for an API call, a tunnel, a
    DNS operation or a certificate is allowed exactly when fewer requests than the
    limit came before it from the same user for the same quota since the user's last
    reset; a transfer exactly when its megabytes fit beside those granted since then;
    and a check of concurrent tunnels, which is never recorded, exactly when the
    count it is given is at most ten.  Other users and other quotas do not matter.
    Requests that overlap can get past the limit ([quota_overrun]). *)
Theorem quota_exact ops i now op user (Hops : Forall (λ x, op_ok x.1.2) ops)
    (Hi : ops !! i = Some (now, op, user)) :
  (run_ops ops ∅).2 !! i
    = Some (match op with
            | Request u => Some (bool_decide (asked u user (rev (take i ops)) < quota_limit (unit_type u)))
            | Transfer bytes =>
                Some (bool_decide (granted user (rev (take i ops)) + megabytes bytes ≤ 1024))
            | Concurrent count => Some (bool_decide (count ≤ 10))
            | Reset => None
            end).
Proof.
  rewrite (run_ops_lookup ops [] ∅ i now op user); [by rewrite app_nil_r|done|done| |done].
  intros q' user'. unfold used. rewrite lookup_empty. pose proof (quota_limit_range q').
  unfold recorded. cbn [asked granted]. destruct q'; lia.
Qed.

Module QuotaDemo.
(** 101 requests to create a tunnel, two transfers and a check. *)
Definition burst : list (Z * QuotaOp * string) :=
  replicate 101 (0, Request UTunnel, "ann")
  ++ [(0, Transfer 1000000000, "ann"); (0, Transfer 1000000000, "ann"); (0, Concurrent 11, "ann")].

Lemma burst_ok : Forall (λ x, op_ok x.1.2) burst.
Proof.
  apply Forall_app. split; [by apply Forall_replicate|].
  repeat constructor; cbn; unfold i64_ok; lia.
Qed.

Lemma quota_exact_witness :
  (run_ops burst ∅).2 !! 99%nat = Some (Some true)
  ∧ (run_ops burst ∅).2 !! 100%nat = Some (Some false)
  ∧ (run_ops burst ∅).2 !! 101%nat = Some (Some true)
  ∧ (run_ops burst ∅).2 !! 102%nat = Some (Some false)
  ∧ (run_ops burst ∅).2 !! 103%nat = Some (Some false).
Proof.
  split_and!.
  - apply (quota_exact burst 99 0 (Request UTunnel) "ann"); [apply burst_ok|reflexivity].
  - apply (quota_exact burst 100 0 (Request UTunnel) "ann"); [apply burst_ok|reflexivity].
  - apply (quota_exact burst 101 0 (Transfer 1000000000) "ann"); [apply burst_ok|reflexivity].
  - apply (quota_exact burst 102 0 (Transfer 1000000000) "ann"); [apply burst_ok|reflexivity].
  - apply (quota_exact burst 103 0 (Concurrent 11) "ann"); [apply burst_ok|reflexivity].
Defined.
End QuotaDemo.
