(* ===== verification/RedisCache.v ===== *)
(** * Redis access of the hub, the edge and the DNS server

    The operations of crates/common/src/redis/cache.rs, tunnel.rs and auth.rs:
    slot mappings, liveness markers, session grants, tunnel records with their
    per-user lookup, the scans by subdomain and by slot, and the SSH sessions
    ([RedisAuthHandler]). *)

From S2P Require Import Prelude Redis Serde Models Errors Net.

(** Public keys of the russh library: only their SHA-256 fingerprint is used. *)
Class SshKeys := {
  PublicKey : Type;
  fingerprint : PublicKey → string;
}.

(** ** Keys *)

Definition tunnel_key (id : string) : string := "tunnel:" +:+ id.
Definition tunnel_lookup_key (user : string) : string := "tunnel_lookup:" +:+ user.
Definition tunnel_live_key (tunnel_id : string) : string := "tunnel:live:" +:+ tunnel_id.
Definition session_grant_key (subdomain token : string) : string :=
  "session_grant:" +:+ subdomain +:+ ":" +:+ token.
Definition SESSION_COOKIE_NAME : string := "fdns_session".
Definition user_sessions_key (user : string) : string := "user:" +:+ user +:+ ":sessions".

#[export] Hint Unfold tunnel_key tunnel_lookup_key tunnel_live_key session_grant_key
  user_sessions_key : keys.

Section ops.
Context `{Hredis : RedisServer R} `{Hcodec : Codec}.
#[local] Abbreviation cache A := (io R FE.t A).
Implicit Types (now : Z).

(** [pool.get()] and the conversions of its errors. *)
Definition pool_get : cache () := io_map_err FE.ConnectionError r_connect.
(** A command whose error goes through [From<RedisError>] or an explicit
    [map_err] to the same variant. *)
Definition query {A} (c : io R redis_error A) : cache A := io_map_err FE.RedisError c.

(** ** cache.rs *)

Definition get_slot now (slot : string) : cache Ipv4Addr :=
  _ ← pool_get;
  val ← query (r_get now slot);
  match val with
  | Some v => io_lift (ok_or (parse_ipv4 v) (FE.ValidationError "Invalid IP address format"))
  | None => io_fail (FE.NotFound ("DNS record not found for slot: " +:+ slot))
  end.

Definition set_slot now (slot : string) (ip : Ipv4Addr) (ttl : Z) : cache () :=
  _ ← pool_get; query (r_set_ex now slot (ipv4_to_string ip) ttl).

Definition del_slot now (slot : string) : cache () :=
  _ ← pool_get; query (r_del now slot).

Definition set_string_ex now (key value : string) (ttl : Z) : cache () :=
  _ ← pool_get; query (r_set_ex now key value ttl).

Definition get_string now (key : string) : cache (option string) :=
  _ ← pool_get; query (r_get now key).

Definition del_key now (key : string) : cache () :=
  _ ← pool_get; query (r_del now key).

(** ** tunnel.rs *)

Definition mark_tunnel_live now (tunnel_id : string) (ttl : Z) : cache () :=
  set_string_ex now (tunnel_live_key tunnel_id) "1" ttl.

Definition clear_tunnel_live now (tunnel_id : string) : cache () :=
  del_key now (tunnel_live_key tunnel_id).

Definition is_tunnel_live now (tunnel_id : string) : cache bool :=
  v ← get_string now (tunnel_live_key tunnel_id);
  mret (bool_decide (is_Some v)).

Definition check_session_grant now (subdomain token : string) : cache bool :=
  _ ← pool_get; query (r_exists now (session_grant_key subdomain token)).

(** The time to live of a record: the rest of its life, one hour when the
    expiry does not parse. *)
Definition info_ttl now (t : TunnelInfo) : Z :=
  match dt_parse (i_expires_at t) with
  | Some expires => as_u64 (num_seconds (expires - now))
  | None => 3600
  end.

Definition store_tunnel_data now (t : TunnelInfo) : cache () :=
  _ ← pool_get;
  query (r_set_ex now (tunnel_key (i_id t)) (json_to_string (ser_TunnelInfo t))
           (info_ttl now t)).

(** The lookup record of a user, fresh when missing or unreadable. *)
Definition lookup_or_new (user username : string) (data : option string) : UserTunnelLookup :=
  default {| l_github_user_id := user; l_github_username := username; l_tunnels := [] |}
    (data ≫= from_str de_UserTunnelLookup).

(** [if !tunnels.contains(id) { tunnels.push(id) }]. *)
Definition add_tunnel (l : UserTunnelLookup) (id : string) : UserTunnelLookup :=
  {| l_github_user_id := l_github_user_id l; l_github_username := l_github_username l;
     l_tunnels := if decide (id ∈ l_tunnels l) then l_tunnels l else l_tunnels l ++ [id] |}.

Definition store_user_tunnel_lookup now (user username tunnel_id : string) : cache () :=
  _ ← pool_get;
  existing ← query (r_get now (tunnel_lookup_key user));
  let lookup := add_tunnel (lookup_or_new user username existing) tunnel_id in
  query (r_set now (tunnel_lookup_key user) (json_to_string (ser_UserTunnelLookup lookup))).

(** The body of both scans: the tunnels of one lookup, then the next lookup,
    until a record satisfies [p]. *)
Fixpoint scan_ids now (p : TunnelInfo → bool) (ids : list string)
    : cache (option TunnelInfo) :=
  match ids with
  | [] => mret None
  | id :: ids =>
      data ← query (r_get now (tunnel_key id));
      match data ≫= from_str de_TunnelInfo with
      | Some t => if p t then mret (Some t) else scan_ids now p ids
      | None => scan_ids now p ids
      end
  end.

Fixpoint scan_users now (p : TunnelInfo → bool) (keys : list string)
    : cache (option TunnelInfo) :=
  match keys with
  | [] => mret None
  | key :: keys =>
      data ← query (r_get now key);
      match data ≫= from_str de_UserTunnelLookup with
      | Some l =>
          found ← scan_ids now p (l_tunnels l);
          match found with
          | Some t => mret (Some t)
          | None => scan_users now p keys
          end
      | None => scan_users now p keys
      end
  end.

Definition get_tunnel_by_subdomain now (subdomain : string) : cache (option TunnelInfo) :=
  _ ← pool_get;
  keys ← query (r_keys now "tunnel_lookup:*");
  scan_users now (λ t, String.eqb (i_subdomain t) subdomain) keys.

Definition get_tunnel_by_slot now (slot : Z) : cache (option TunnelInfo) :=
  _ ← pool_get;
  keys ← query (r_keys now "tunnel_lookup:*");
  scan_users now (λ t, i_slot t =? slot) keys.

(** ** auth.rs: [RedisAuthHandler] with its key prefix *)

Section auth.
Context `{Hkeys : SshKeys} (key_prefix : string).
#[local] Abbreviation anyhow A := (io R string A).

(** [.context(msg)]. *)
Definition context {A} (msg : string) (c : io R redis_error A) : anyhow A :=
  io_map_err (λ _, msg) c.

Definition auth_conn : anyhow () := context "Failed to get Redis connection" r_connect.
Definition session_key (session_id : string) : string := key_prefix +:+ ":" +:+ session_id.
Definition parse_session (data : string) : result string SessionData :=
  ok_or (from_str de_SessionData data) "Failed to deserialize session data".

Definition validate_public_key now (user : string) (public_key : PublicKey)
    (session_id : string) : anyhow bool :=
  _ ← auth_conn;
  data ← context "Failed to get session data from Redis" (r_get now (session_key session_id));
  match data with
  | Some data =>
      session ← io_lift (parse_session data);
      if s_expires_at session <? now then mret false
      else mret (String.eqb (fingerprint public_key) (s_fingerprint session))
  | None => mret false
  end.

Definition get_user_sessions now (user : string) : anyhow (list string) :=
  _ ← auth_conn;
  context "Failed to get user sessions from Redis" (r_smembers now (user_sessions_key user)).

Definition is_session_valid now (session_id : string) : anyhow bool :=
  _ ← auth_conn;
  data ← context "Failed to get session data from Redis" (r_get now (session_key session_id));
  match data with
  | Some data =>
      session ← io_lift (parse_session data);
      mret (now <=? s_expires_at session)
  | None => mret false
  end.

Fixpoint cleanup_sessions now (keys : list string) (cleaned : Z) : anyhow Z :=
  match keys with
  | [] => mret cleaned
  | key :: keys =>
      data ← context "Failed to get session data from Redis" (r_get now key);
      match data ≫= from_str de_SessionData with
      | Some session =>
          if s_expires_at session <? now then
            _ ← context "Failed to delete expired session" (r_del now key);
            _ ← context "Failed to remove session from user list"
                  (r_srem now (user_sessions_key (s_github_user_id session))
                     (s_session_id session));
            cleanup_sessions now keys (cleaned + 1)
          else cleanup_sessions now keys cleaned
      | None => cleanup_sessions now keys cleaned
      end
  end.

Definition cleanup_expired_sessions now : anyhow Z :=
  _ ← auth_conn;
  keys ← context "Failed to get session keys from Redis" (r_keys now (key_prefix +:+ ":*"));
  cleanup_sessions now keys 0.

Definition add_authorized_key now (s : SessionData) : anyhow () :=
  _ ← auth_conn;
  let ttl := as_u64 (num_seconds (s_expires_at s - now)) in
  _ ← context "Failed to store session data in Redis"
        (r_set_ex now (session_key (s_session_id s)) (json_to_string (ser_SessionData s)) ttl);
  _ ← context "Failed to add session to user list"
        (r_sadd now (user_sessions_key (s_github_user_id s)) (s_session_id s));
  context "Failed to set TTL on user session list"
    (r_expire now (user_sessions_key (s_github_user_id s)) (as_i64 (ttl + 300))).

Definition remove_authorized_key now (session_id : string) : anyhow bool :=
  _ ← auth_conn;
  data ← context "Failed to get session data from Redis" (r_get now (session_key session_id));
  match data ≫= from_str de_SessionData with
  | Some session =>
      _ ← context "Failed to delete session data from Redis"
            (r_del now (session_key session_id));
      _ ← context "Failed to remove session from user list"
            (r_srem now (user_sessions_key (s_github_user_id session)) session_id);
      mret true
  | None => mret false
  end.

End auth.
End ops.

#[export] Hint Unfold session_key : keys.

(** ** The scans *)

Section scans.
Context `{Hspec : RedisSpec R} `{Hcodec : Codec}.
Implicit Types (m : gmap string rentry) (p : TunnelInfo → bool).

(** The lookup and the tunnel record stored under a key. *)
Definition lookup_at m (key : string) : option UserTunnelLookup :=
  str_at m key ≫= from_str de_UserTunnelLookup.
Definition info_at m (id : string) : option TunnelInfo :=
  str_at m (tunnel_key id) ≫= from_str de_TunnelInfo.

(** An identifier some user's lookup lists, and a tunnel with a listed
    identifier whose record is readable. *)
Definition listed m (id : string) : Prop :=
  ∃ user l, lookup_at m (tunnel_lookup_key user) = Some l ∧ id ∈ l_tunnels l.
Definition registered m (t : TunnelInfo) : Prop :=
  ∃ id, listed m id ∧ info_at m id = Some t.

(** The reference search: the first match in the order of the keys and of the
    identifiers of each lookup. *)
Definition matches m p (id : string) : option TunnelInfo :=
  t ← info_at m id; if p t then Some t else None.
Definition candidates m (keys : list string) : list string :=
  keys ≫= λ k, from_option l_tunnels [] (lookup_at m k).
Definition search m p (ids : list string) : option TunnelInfo :=
  head (omap (matches m p) ids).

Lemma search_cons m p id ids :
  search m p (id :: ids) =
    match matches m p id with Some t => Some t | None => search m p ids end.
Proof. unfold search. cbn. by destruct (matches m p id). Qed.

Lemma search_app m p ids ids' :
  search m p (ids ++ ids') =
    match search m p ids with Some t => Some t | None => search m p ids' end.
Proof.
  induction ids as [|id ids IH]; [done|]. cbn [app]. rewrite !search_cons.
  by destruct (matches m p id).
Qed.

Lemma scan_ids_search now p ids r r' o :
  scan_ids now p ids r = (r', Ok o) →
  o = search (live now r) p ids ∧ live now r' = live now r.
Proof.
  revert r. induction ids as [|id ids IH]; intros r Hr; cbn in Hr.
  { apply io_ret_inv in Hr as [-> [= ->]]. done. }
  inv_io Hr. apply get_ok_at in Hio as [-> Hl].
  rewrite search_cons. unfold matches. fold (info_at (live now r) id) in Hr.
  destruct (info_at (live now r) id) as [t|]; cbn.
  - destruct (p t); [by apply io_ret_inv in Hr as [-> [= ->]]|].
    apply IH in Hr as [-> ->]. by rewrite Hl.
  - apply IH in Hr as [-> ->]. by rewrite Hl.
Qed.

Lemma scan_users_search now p keys r r' o :
  scan_users now p keys r = (r', Ok o) →
  o = search (live now r) p (candidates (live now r) keys) ∧ live now r' = live now r.
Proof.
  revert r. induction keys as [|k keys IH]; intros r Hr; cbn in Hr.
  { apply io_ret_inv in Hr as [-> [= ->]]. done. }
  inv_io Hr. apply get_ok_at in Hio as [-> Hl].
  unfold candidates. cbn. fold (candidates (live now r) keys). rewrite search_app.
  fold (lookup_at (live now r) k) in Hr.
  destruct (lookup_at (live now r) k) as [l|]; cbn.
  - inv_io Hr. apply scan_ids_search in Hio as [-> Hl'].
    rewrite Hl in *. destruct (search _ p (l_tunnels l)).
    + apply io_ret_inv in Hr as [-> [= ->]]. by rewrite Hl'.
    + apply IH in Hr as [-> ->]. by rewrite Hl'.
  - apply IH in Hr as [-> ->]. by rewrite Hl.
Qed.

Lemma search_Some m p ids t :
  search m p ids = Some t → p t = true ∧ ∃ id, id ∈ ids ∧ info_at m id = Some t.
Proof.
  induction ids as [|id ids IH]; [done|]. rewrite search_cons. unfold matches.
  destruct (info_at m id) as [u|] eqn:E; cbn.
  - destruct (p u) eqn:Hp; [intros [= <-]; split; [done|]; exists id; split; [left|done]|].
    intros (? & id' & ? & ?)%IH. split; [done|]. exists id'. split; [by right|done].
  - intros (? & id' & ? & ?)%IH. split; [done|]. exists id'. split; [by right|done].
Qed.

Lemma search_None m p ids id t :
  search m p ids = None → id ∈ ids → info_at m id = Some t → p t = false.
Proof.
  induction ids as [|id' ids IH]; [by intros _ ?%not_elem_of_nil|].
  rewrite search_cons. unfold matches. intros Hn [->|Hin]%elem_of_cons Hi.
  - rewrite Hi in Hn. cbn in Hn. by destruct (p t).
  - apply IH; [|done|done]. by destruct (info_at m id'); cbn in Hn; repeat case_match.
Qed.

Lemma registered_candidates m keys t :
  (∀ k, k ∈ keys ↔ starts_with "tunnel_lookup:" k = true ∧ is_Some (m !! k)) →
  registered m t ↔ ∃ id, id ∈ candidates m keys ∧ info_at m id = Some t.
Proof.
  intros Hkeys. unfold registered, listed, candidates. split.
  - intros (id & (user & l & Hl & Hid) & Ht). exists id. split; [|done].
    apply list_elem_of_bind. exists (tunnel_lookup_key user). rewrite Hl. split; [done|].
    apply Hkeys. split; [apply starts_with_spec; by eexists|].
    unfold lookup_at, str_at in Hl. destruct (m !! _) as [?|]; [by eexists|done].
  - intros (id & (k & Hid & Hk)%list_elem_of_bind & Ht).
    apply Hkeys in Hk as [[user ->]%starts_with_spec _].
    destruct (lookup_at m _) as [l|] eqn:E; [|by apply not_elem_of_nil in Hid].
    exists id. split; [|done]. by exists user, l.
Qed.

(** The scans only read, also when they fail half-way. *)
Lemma scan_ids_reads now p ids : reads (R := R) now (scan_ids now p ids).
Proof.
  induction ids as [|id ids IH]; cbn [scan_ids]; [apply reads_ret|].
  apply reads_bind; [apply reads_map_err, get_reads|]. intros data. by repeat case_match; try apply reads_ret.
Qed.

Lemma scan_users_reads now p keys : reads (R := R) now (scan_users now p keys).
Proof.
  induction keys as [|k keys IH]; cbn [scan_users]; [apply reads_ret|].
  apply reads_bind; [apply reads_map_err, get_reads|]. intros data. case_match; [|done].
  apply reads_bind; [apply scan_ids_reads|]. intros [t|]; [apply reads_ret|done].
Qed.

Lemma scan_reads now p :
  reads (R := R) now (_ ← pool_get; keys ← query (r_keys now "tunnel_lookup:*"); scan_users now p keys).
Proof.
  apply reads_bind; [apply reads_map_err, connect_spec|]. intros _.
  apply reads_bind; [apply reads_map_err, keys_reads|]. intros keys. apply scan_users_reads.
Qed.

(** Both scans: a hit is a registered tunnel that satisfies the predicate, a
    miss means there is none, and the data is only read. *)
Lemma scan_correct now p r r' o :
  (_ ← pool_get; keys ← query (r_keys now "tunnel_lookup:*"); scan_users now p keys) r
    = (r', Ok o) →
  live now r' = live now r ∧
  match o with
  | Some t => registered (live now r) t ∧ p t = true
  | None => ∀ t, registered (live now r) t → p t = false
  end.
Proof.
  intros Hr. inv_io Hr. apply connect_spec with (now := now) in Hio as Hl1.
  apply (keys_ok now "tunnel_lookup:") in Hio0 as Hk; [|done].
  apply keys_reads in Hio0 as Hl2. apply scan_users_search in Hr as [-> Hl3].
  destruct Hk as [_ Hk]. rewrite Hl1 in *. rewrite Hl2 in *.
  split; [done|]. destruct (search _ _ _) as [t|] eqn:E.
  - apply search_Some in E as [Hp Hid]. split; [|done].
    by eapply registered_candidates.
  - intros t (id & Hid & Ht)%(registered_candidates _ _ _ Hk). by eapply search_None.
Qed.
End scans.

(** ** The scans of an available server *)

(** No key of the tunnel registry holds a value of another type. *)
Definition registry_typed (m : gmap string rentry) : Prop :=
  ∀ k, starts_with "tunnel" k = true → get_reply (m !! k) ≠ None.

Lemma registry_typed_strings (m : gmap string rentry) :
  forallb (λ kx, match re_value kx.2 with RString _ => true | RSet _ => false end) (map_to_list m) = true →
  registry_typed m.
Proof.
  intros Hf k _ E. rewrite forallb_forall in Hf. destruct (m !! k) as [x|] eqn:Hk; [|done].
  apply elem_of_map_to_list, list_elem_of_In in Hk. apply Hf in Hk. destruct x as [[] ?]; cbn in *; done.
Qed.

Section answered.
Context `{Hspec : RedisSpec R} `{Hup : !RedisAvailable R} `{Hcodec : Codec}.

Lemma scan_ids_runs now p ids m :
  registry_typed m → ∃ o, runs now (scan_ids now p ids) m o m.
Proof.
  intros Hm. induction ids as [|id ids [o IH]]; [exists None; apply runs_ret|].
  cbn [scan_ids]. destruct (get_reply (m !! tunnel_key id)) as [v|] eqn:Hg; [|by destruct (Hm (tunnel_key id))].
  destruct (v ≫= from_str de_TunnelInfo) as [t|] eqn:Hv.
  - destruct (p t) eqn:Hp; [exists (Some t)|exists o];
      (eapply runs_bind; [apply runs_map_err; by apply runs_get|]); cbn beta; rewrite Hv, Hp;
      [apply runs_ret|done].
  - exists o. eapply runs_bind; [apply runs_map_err; by apply runs_get|]. cbn beta. by rewrite Hv.
Qed.

Lemma scan_users_runs now p keys m :
  registry_typed m → Forall (λ k, starts_with "tunnel" k = true) keys →
  ∃ o, runs now (scan_users now p keys) m o m.
Proof.
  intros Hm Hk. induction Hk as [|key keys Hkey _ [o IH]]; [exists None; apply runs_ret|].
  cbn [scan_users]. destruct (get_reply (m !! key)) as [v|] eqn:Hg; [|by destruct (Hm key)].
  destruct (v ≫= from_str de_UserTunnelLookup) as [l|] eqn:Hv.
  - destruct (scan_ids_runs now p (l_tunnels l) m Hm) as [[t|] Hi]; [exists (Some t)|exists o];
      (eapply runs_bind; [apply runs_map_err; by apply runs_get|]); cbn beta; rewrite Hv;
      (eapply runs_bind; [exact Hi|]); [apply runs_ret|done].
  - exists o. eapply runs_bind; [apply runs_map_err; by apply runs_get|]. cbn beta. by rewrite Hv.
Qed.

Lemma scan_ends now p (r : R) :
  registry_typed (live now r) →
  ∃ r' o, (_ ← pool_get; keys ← query (r_keys now "tunnel_lookup:*"); scan_users now p keys) r = (r', Ok o).
Proof.
  intros Hm.
  destruct (runs_map_err now FE.ConnectionError _ _ _ _ (runs_connect now (live now r)) r eq_refl)
    as (r1 & E1 & L1).
  destruct (runs_keys now "tunnel_lookup:" (live now r) r1 eq_refl L1) as (r2 & ks & E2 & L2 & _ & Hks).
  assert (Forall (λ k, starts_with "tunnel" k = true) ks) as Hall.
  { apply Forall_forall. intros k [Hk _]%Hks. apply starts_with_spec in Hk as [u ->].
    by apply starts_with_spec; exists ("_lookup:" +:+ u). }
  destruct (scan_users_runs now p ks _ Hm Hall) as [o Ho].
  destruct (Ho r2 L2) as (r3 & E3 & _). exists r3, o.
  rewrite (io_bind_step _ _ r r1 ()) by exact E1.
  rewrite (io_bind_step _ _ r1 r2 ks); [done|]. unfold query, io_map_err. change "tunnel_lookup:*" with ("tunnel_lookup:" +:+ "*").
  by rewrite E2.
Qed.

Lemma get_tunnel_by_slot_ends now slot (r : R) :
  registry_typed (live now r) → ∃ r' o, get_tunnel_by_slot now slot r = (r', Ok o).
Proof. apply scan_ends. Qed.
End answered.

(** The edge's lookup by subdomain.  A hit is the record of a tunnel that
    some user's lookup lists, with exactly the requested subdomain; a miss means
    that no such tunnel is registered; and the lookup changes nothing. *)
Lemma get_tunnel_by_subdomain_correct `{RedisSpec R} `{Codec} now s (r r' : R) o
    (Hr : get_tunnel_by_subdomain now s r = (r', Ok o)) :
  live now r' = live now r ∧
  match o with
  | Some t => registered (live now r) t ∧ i_subdomain t = s
  | None => ∀ t, registered (live now r) t → i_subdomain t ≠ s
  end.
Proof.
  apply scan_correct in Hr as [? Ho]. split; [done|]. destruct o as [t|].
  - destruct Ho as [? Ht]. split; [done|]. by apply String.eqb_eq.
  - intros t Ht. apply String.eqb_neq. auto.
Qed.

(** The hub's lookup by slot, with the same contract. *)
Lemma get_tunnel_by_slot_correct `{RedisSpec R} `{Codec} now slot (r r' : R) o
    (Hr : get_tunnel_by_slot now slot r = (r', Ok o)) :
  live now r' = live now r ∧
  match o with
  | Some t => registered (live now r) t ∧ i_slot t = slot
  | None => ∀ t, registered (live now r) t → i_slot t ≠ slot
  end.
Proof.
  apply scan_correct in Hr as [? Ho]. split; [done|]. destruct o as [t|].
  - destruct Ho as [? Ht]. split; [done|]. lia.
  - intros t Ht. specialize (Ho t Ht). lia.
Qed.

(** ** Slots *)

(** A slot mapping is read back as written until its time to live has
    passed, and is reported as not found from then on. *)
Lemma slot_roundtrip `{RedisSpec R, !RedisAvailable R} `{Codec} now now' slot ip ttl (r r1 : R)
    (Hip : ipv4_ok ip) (Hset : set_slot now slot ip ttl r = (r1, Ok ())) (Hle : now ≤ now') :
  ∃ r2, get_slot now' slot r1 =
    (r2, if now' <? now + secs ttl then Ok ip
         else Err (FE.NotFound ("DNS record not found for slot: " +:+ slot))).
Proof.
  unfold set_slot, query in Hset. inv_io Hset.
  assert (live now r1 !! slot = Some (REntry (RString (ipv4_to_string ip)) (Some (now + secs ttl))))
    as Hslot.
  { rewrite (proj1 (set_ex_writes now slot _ ttl) _ _ _ Hset). apply lookup_insert_eq. }
  apply (live_later now now') in Hslot; [|done]. cbn in Hslot.
  destruct (runs_connect now' (live now' r1) r1 eq_refl) as (r2 & E2 & H2).
  unfold get_slot, pool_get, query.
  erewrite io_bind_step; [|by apply io_map_err_ok].
  destruct (_ <? _).
  - edestruct (runs_get now' slot (live now' r1) (Some (ipv4_to_string ip))) as (r3 & E3 & H3);
      [by rewrite Hslot|exact H2|].
    exists r3. erewrite io_bind_step; [|by apply io_map_err_ok]. cbn.
    by rewrite ipv4_roundtrip.
  - edestruct (runs_get now' slot (live now' r1) None) as (r3 & E3 & H3);
      [by rewrite Hslot|exact H2|].
    exists r3. by erewrite io_bind_step; [|by apply io_map_err_ok].
Qed.

(** ** SSH sessions *)

Section sessions.
Context `{Hspec : RedisSpec R} `{Hcodec : Codec} `{Hkeys : SshKeys} (prefix : string).

(** The session stored under a key. *)
Definition session_at (m : gmap string rentry) (key : string) : option SessionData :=
  str_at m key ≫= from_str de_SessionData.

Lemma validate_public_key_spec now user key sid r r' b :
  validate_public_key prefix now user key sid r = (r', Ok b) →
  live now r' = live now r ∧
  (b = true ↔ ∃ s, session_at (live now r) (session_key prefix sid) = Some s
     ∧ now ≤ s_expires_at s ∧ s_fingerprint s = fingerprint key).
Proof.
  intros Hr. unfold validate_public_key, auth_conn, context in Hr. inv_io Hr.
  apply connect_spec with (now := now) in Hio as Hl1. apply get_ok_at in Hio0 as [Hv Hl2].
  rewrite Hl1 in *. unfold session_at. destruct v0 as [data|]; rewrite <- Hv; cbn.
  - inv_io Hr. unfold io_lift, parse_session in Hio0.
    destruct (from_str de_SessionData data) as [s|]; cbn in Hio0; simplify_eq.
    destruct (s_expires_at v0 <? now) eqn:E; apply io_ret_inv in Hr as [-> [= ->]];
      (split; [done|]); split; intros Hb; try done.
    + destruct Hb as (s & [= <-] & ? & _). lia.
    + exists v0. split_and!; [done|lia|]. by apply String.eqb_eq in Hb.
    + destruct Hb as (s & [= <-] & _ & ?). by apply String.eqb_eq.
  - apply io_ret_inv in Hr as [-> [= ->]]. split; [done|].
    split; [done|]. by intros (s & ? & _).
Qed.

Definition expired_at now (m : gmap string rentry) (key : string) : bool :=
  match session_at m key with Some s => s_expires_at s <? now | None => false end.

Lemma srem_map_ne k k' v m : k ≠ k' → srem_map k' v m !! k = m !! k.
Proof.
  intros. unfold srem_map. destruct (m !! k') as [[[|s] t]|]; try done.
  case_decide; [by rewrite lookup_delete_ne|by rewrite lookup_insert_ne].
Qed.

Lemma expired_at_ext now (m m' : gmap string rentry) k :
  m !! k = m' !! k → expired_at now m k = expired_at now m' k.
Proof. intros E. unfold expired_at, session_at, str_at. by rewrite E. Qed.

Lemma cleanup_step now key keys n r r' n' :
  cleanup_sessions now (key :: keys) n r = (r', Ok n') →
  ∃ r1, cleanup_sessions now keys (n + Z.b2z (expired_at now (live now r) key)) r1 = (r', Ok n')
    ∧ ∀ k, (∀ u, k ≠ user_sessions_key u) →
        live now r1 !! k =
          if bool_decide (k = key) && expired_at now (live now r) key then None
          else live now r !! k.
Proof.
  cbn. intros Hr. inv_io Hr. apply get_ok_at in Hio as [-> Hl].
  fold (session_at (live now r) key) in Hr. unfold expired_at.
  destruct (session_at (live now r) key) as [s|].
  - destruct (s_expires_at s <? now).
    + inv_io Hr. exists st1. split; [done|]. intros k Hk.
      apply (proj1 (del_writes now key)) in Hio as H1.
      apply (proj1 (srem_writes now _ _)) in Hio0 as H2.
      rewrite H2, H1, Hl, srem_map_ne by auto. destruct (decide (k = key)) as [->|].
      * rewrite bool_decide_eq_true_2 by done. apply lookup_delete_eq.
      * rewrite bool_decide_eq_false_2 by done. by apply lookup_delete_ne.
    + exists st. rewrite Z.add_0_r. split; [done|]. intros k _. by rewrite andb_false_r, Hl.
  - exists st. rewrite Z.add_0_r. split; [done|]. intros k _. by rewrite andb_false_r, Hl.
Qed.

Lemma cleanup_sessions_spec now keys n r r' n' :
  NoDup keys → (∀ key u, key ∈ keys → key ≠ user_sessions_key u) →
  cleanup_sessions now keys n r = (r', Ok n') →
  n' = n + Z.of_nat (length (filter (λ k, expired_at now (live now r) k = true) keys)) ∧
  ∀ k, (∀ u, k ≠ user_sessions_key u) →
    live now r' !! k =
      if bool_decide (k ∈ keys) && expired_at now (live now r) k then None
      else live now r !! k.
Proof.
  intros Hnd. revert n r. induction Hnd as [|key keys Hnin Hnd IH]; intros n r Huser Hr.
  { apply io_ret_inv in Hr as [-> [= ->]]. split; [cbn; lia|done]. }
  apply cleanup_step in Hr as (r1 & Hr & Hst).
  destruct (IH _ _ (λ k u Hk, Huser k u (list_elem_of_further _ _ _ Hk)) Hr) as [-> IHk].
  assert (∀ k, k ∈ keys → expired_at now (live now r1) k = expired_at now (live now r) k) as Hsame.
  { intros k Hk. apply expired_at_ext. rewrite Hst by (intros u; apply Huser; by right).
    rewrite bool_decide_eq_false_2; [done|]. by intros ->. }
  split.
  - assert (filter (λ k, expired_at now (live now r1) k = true) keys
            = filter (λ k, expired_at now (live now r) k = true) keys) as ->.
    { apply filter_ext_in. intros k Hk. by rewrite Hsame. }
    rewrite (filter_cons _ key keys). case_decide as Hx.
    + rewrite Hx. cbn. lia.
    + destruct (expired_at now (live now r) key); [done|]. cbn. lia.
  - intros k Hk. rewrite (IHk k Hk), (Hst k Hk).
    rewrite (bool_decide_ext (k ∈ key :: keys) (k = key ∨ k ∈ keys)) by apply elem_of_cons.
    rewrite bool_decide_or. destruct (decide (k = key)) as [->|Hne].
    + rewrite !(bool_decide_eq_true_2 (key = key)) by done.
      rewrite (bool_decide_eq_false_2 (key ∈ keys)) by done. done.
    + rewrite !(bool_decide_eq_false_2 (k = key)) by done. cbn.
      destruct (bool_decide_reflect (k ∈ keys)) as [Hin|]; [|done]. cbn. by rewrite Hsame.
Qed.
End sessions.

(** The expired session records among the live data. *)
Definition expired_sessions `{Codec} (now : Z) (m : gmap string rentry) : gset string :=
  filter (λ k, starts_with "session:" k && expired_at now m k = true) (dom m).

(** Cleaning up the hub's sessions removes exactly the readable session
    records whose expiry has passed, keeps every other session record as it
    was, and reports how many were removed. *)
Lemma cleanup_expired_sessions_correct `{RedisSpec R} `{Codec} now (r r' : R) n
    (Hr : cleanup_expired_sessions "session" now r = (r', Ok n)) :
  n = Z.of_nat (size (expired_sessions now (live now r))) ∧
  ∀ sid, live now r' !! session_key "session" sid =
    if expired_at now (live now r) (session_key "session" sid) then None
    else live now r !! session_key "session" sid.
Proof.
  unfold cleanup_expired_sessions, auth_conn, context in Hr. inv_io Hr.
  apply connect_spec with (now := now) in Hio as Hl1.
  apply keys_reads in Hio0 as Hl2.
  apply (keys_ok now "session:") in Hio0 as [Hnd Hk]; [|done]. rewrite Hl1 in *.
  apply cleanup_sessions_spec in Hr as [-> Hr]; [|done|].
  2: { intros k u [[t ->]%starts_with_spec _]%Hk. key_ne. }
  rewrite Hl2 in *. split.
  - rewrite Z.add_0_l. f_equal.
    rewrite <- (size_list_to_set (C := gset string)) by by apply NoDup_filter.
    f_equal. apply set_eq. intros k. unfold expired_sessions.
    rewrite elem_of_list_to_set, list_elem_of_filter, elem_of_filter, Hk, elem_of_dom.
    rewrite andb_true_iff. tauto.
  - intros sid. rewrite Hr by (intros u; key_ne).
    destruct (expired_at _ _ _) eqn:E; [|by rewrite andb_false_r].
    rewrite bool_decide_eq_true_2; [done|]. apply Hk. split; [apply starts_with_spec; by eexists|].
    unfold expired_at, session_at, str_at in E. destruct (live now r !! _); [by eexists|done].
Qed.

(** ** Examples on the concrete server *)
Module CacheDemo.
Import MemRedis BitCodec.

Definition tunnel : Tunnel :=
  {| t_id := 5%N; t_github_user_id := "7"; t_github_username := "ann";
     t_subdomain := "app"; t_fqdn := "app.fdns.run"; t_local_port := 3000; t_slot := 20000;
     t_certificate_serial := "s"; t_created_at := 0; t_expires_at := secs 60;
     t_status := Active; t_protected := true; t_teardown_policy := ViewerIdle |}.

Definition store : mem :=
  {[ tunnel_key (uuid_to_string 5%N) :=
       REntry (RString (json_to_string (ser_Tunnel tunnel))) (Some (secs 60));
     tunnel_lookup_key "7" :=
       REntry (RString (json_to_string (ser_UserTunnelLookup
         {| l_github_user_id := "7"; l_github_username := "ann";
            l_tunnels := [uuid_to_string 5%N] |}))) None ]}.

Definition session (expires : Z) : SessionData :=
  {| s_github_user_id := "7"; s_public_key := "k"; s_fingerprint := "SHA256:k";
     s_expires_at := expires; s_session_id := "a" |}.

Definition session_store : mem :=
  {[ "session:a" := REntry (RString (json_to_string (ser_SessionData (session 0)))) None;
     "session:b" := REntry (RString (json_to_string (ser_SessionData (session (secs 9))))) None ]}.

Lemma get_tunnel_by_subdomain_witness :
  live 0 store = live 0 store ∧ registered (live 0 store) (info_of tunnel)
  ∧ i_subdomain (info_of tunnel) = "app".
Proof.
  apply (get_tunnel_by_subdomain_correct 0 "app" store store (Some (info_of tunnel))).
  eval_eq.
Defined.

Lemma get_tunnel_by_slot_witness :
  live 0 store = live 0 store ∧ registered (live 0 store) (info_of tunnel)
  ∧ i_slot (info_of tunnel) = 20000.
Proof.
  apply (get_tunnel_by_slot_correct 0 20000 store store (Some (info_of tunnel))).
  eval_eq.
Defined.

Lemma slot_roundtrip_witness :
  ∃ r2, get_slot (secs 5) "slot:app" (put_ex 0 "slot:app" "10.0.0.1" 30 ∅ : mem)
        = (r2, Ok (Ipv4 10 0 0 1)).
Proof.
  apply (slot_roundtrip 0 (secs 5) "slot:app" (Ipv4 10 0 0 1) 30 (∅ : mem)
           (put_ex 0 "slot:app" "10.0.0.1" 30 ∅)).
  - unfold ipv4_ok, octet_ok; cbn; lia.
  - eval_eq.
  - unfold secs. lia.
Defined.

Lemma cleanup_expired_sessions_witness :
  1 = Z.of_nat (size (expired_sessions (secs 1) (live (secs 1) session_store))) ∧
  ∀ sid, live (secs 1) (delete "session:a" session_store) !! session_key "session" sid =
    if expired_at (secs 1) (live (secs 1) session_store) (session_key "session" sid) then None
    else live (secs 1) session_store !! session_key "session" sid.
Proof.
  apply (cleanup_expired_sessions_correct (secs 1) session_store (delete "session:a" session_store) 1).
  eval_eq.
Defined.

End CacheDemo.
