(* ===== verification/RedisPerf.v ===== *)
(** * The Redis performance client

    crates/common/src/redis/client.rs: the slot operations of [RedisCache] behind
    an operation timeout, with bulk forms and statistics.  When a call times out,
    and what the server had done by then, is decided by the environment
    ([Progress]).  The text of a library error built from its parts is a
    parameter ([RedisErrorText]). *)

From S2P Require Import Prelude Redis Serde Models Errors Net Float RedisCache.

(** ** Configuration *)

Record PoolConfig := {
  pc_max_size : Z;
  pc_min_idle : option Z;
  pc_connection_timeout : Z;
  pc_idle_timeout : option Z;
  pc_max_retries : Z;
  pc_retry_delay : Z;
}.
Definition default_pool_config : PoolConfig :=
  {| pc_max_size := 20; pc_min_idle := Some 5; pc_connection_timeout := secs 10;
     pc_idle_timeout := Some (secs 300); pc_max_retries := 3; pc_retry_delay := 100000000 |}.

Record PipelineConfig := {
  batch_size : Z;
  auto_flush : bool;
  execution_timeout : Z;
  flush_interval : Z;
}.
Definition default_pipeline_config : PipelineConfig :=
  {| batch_size := 100; auto_flush := true; execution_timeout := secs 30;
     flush_interval := 10000000 |}.

Record MonitoringConfig := {
  enable_metrics : bool;
  metrics_interval : Z;
  monitor_pool : bool;
  track_latency : bool;
}.
Definition default_monitoring_config : MonitoringConfig :=
  {| enable_metrics := true; metrics_interval := secs 60; monitor_pool := true;
     track_latency := true |}.

Record PerformanceConfig := {
  redis_url : string;
  pool_config : PoolConfig;
  pipeline_config : PipelineConfig;
  monitoring_config : MonitoringConfig;
  max_connections : Z;
  min_idle : Z;
  connection_timeout : Z;
  operation_timeout : Z;
  retry_attempts : Z;
  retry_delay_ms : Z;
}.
Definition default_performance_config : PerformanceConfig :=
  {| redis_url := "redis://127.0.0.1:6379"; pool_config := default_pool_config;
     pipeline_config := default_pipeline_config; monitoring_config := default_monitoring_config;
     max_connections := 20; min_idle := 5; connection_timeout := 10; operation_timeout := 30;
     retry_attempts := 3; retry_delay_ms := 100 |}.

(** ** Statistics *)

Record PoolStats := {
  active_connections : Z;
  idle_connections : Z;
  total_connections_created : Z;
  connection_failures : Z;
  avg_acquisition_time_ms : f64;
}.
Definition default_pool_stats : PoolStats :=
  {| active_connections := 0; idle_connections := 0; total_connections_created := 0;
     connection_failures := 0; avg_acquisition_time_ms := f64_of_Z 0 |}.

Record PipelineStats := {
  total_pipelines : Z;
  avg_pipeline_size : f64;
  pipeline_failures : Z;
  avg_execution_time_ms : f64;
}.
Definition default_pipeline_stats : PipelineStats :=
  {| total_pipelines := 0; avg_pipeline_size := f64_of_Z 0; pipeline_failures := 0;
     avg_execution_time_ms := f64_of_Z 0 |}.

Record PerformanceStats := {
  total_operations : Z;
  successful_operations : Z;
  failed_operations : Z;
  avg_latency_ms : f64;
  p95_latency_ms : f64;
  p99_latency_ms : f64;
  connections_in_use : Z;
  pool_size : Z;
  ops_per_second : f64;
  pool_stats : PoolStats;
  pipeline_stats : PipelineStats;
}.
Definition default_performance_stats : PerformanceStats :=
  {| total_operations := 0; successful_operations := 0; failed_operations := 0;
     avg_latency_ms := f64_of_Z 0; p95_latency_ms := f64_of_Z 0; p99_latency_ms := f64_of_Z 0;
     connections_in_use := 0; pool_size := 0; ops_per_second := f64_of_Z 0;
     pool_stats := default_pool_stats; pipeline_stats := default_pipeline_stats |}.

Record RedisPerformanceClient := {
  pf_config : PerformanceConfig;
  pf_stats : PerformanceStats;
}.

Definition RedisPerformanceClient_new (c : PerformanceConfig) : RedisPerformanceClient :=
  {| pf_config := c; pf_stats := default_performance_stats |}.

Definition get_stats (c : RedisPerformanceClient) : PerformanceStats := pf_stats c.
Definition reset_stats (c : RedisPerformanceClient) : RedisPerformanceClient :=
  RedisPerformanceClient_new (pf_config c).

(** [f64::midpoint], on operands far below the largest number. *)
Definition f64_midpoint (x y : f64) : f64 := f64_div (f64_add x y) (f64_of_Z 2).

Definition update_performance_metrics (operations latency : Z) (c : RedisPerformanceClient)
    : RedisPerformanceClient :=
  let s := pf_stats c in
  let size := pc_max_size (pool_config (pf_config c)) in
  {| pf_config := pf_config c;
     pf_stats :=
       {| total_operations := as_u64 (total_operations s + operations);
          successful_operations := as_u64 (successful_operations s + operations);
          failed_operations := failed_operations s;
          avg_latency_ms := f64_midpoint (avg_latency_ms s) (f64_of_Z (latency / 1000000));
          p95_latency_ms := p95_latency_ms s; p99_latency_ms := p99_latency_ms s;
          connections_in_use := size; pool_size := size; ops_per_second := ops_per_second s;
          pool_stats := pool_stats s; pipeline_stats := pipeline_stats s |} |}.

(** ** Operations *)

(** How a call fares against the operation timeout: it finishes after a latency,
    or is dropped while it waits for a connection, or while it waits for the
    answer to its command, which the server may have executed. *)
Inductive Progress :=
  | Finished (latency : Z)
  | LateConnection
  | LateReply (executed : bool).

(** [for x in xs { results.push(f(x).await?) }]. *)
Fixpoint for_each {S E X A} (f : X → io S E A) (xs : list X) : io S E (list A) :=
  match xs with
  | [] => mret []
  | x :: xs => result ← f x; results ← for_each f xs; mret (result :: results)
  end.

(** The text of [RedisError::from((kind, description, detail))]. *)
Class RedisErrorText := {
  io_error_text : string → string → redis_error;
  type_error_text : string → string → redis_error;
}.

Section ops.
Context `{Hredis : RedisServer R} `{Htext : RedisErrorText}.
Implicit Types (now : Z) (c : RedisPerformanceClient) (p : Progress).
#[local] Abbreviation perf A := (io (RedisPerformanceClient * R) FE.t A).

(** The connection and the command of one call, on the server. *)
Definition connect_and {A} (cmd : io R redis_error A) : io R redis_error A :=
  _ ← io_map_err (io_error_text "Failed to get connection") r_connect; cmd.

(** [timeout(..., async { ... }).await.map_err(...)??]. *)
Definition with_timeout {A} p (cmd : io R redis_error A) : perf A := λ '(c, r),
  let late r := ((c, r), Err (FE.TimeoutError "Operation timed out")) in
  match p with
  | Finished _ => let '(r, res) := connect_and cmd r in ((c, r), map_err FE.RedisError res)
  | LateConnection => late (r_connect r).1
  | LateReply executed =>
      late (if executed then (connect_and cmd r).1 else (r_connect r).1)
  end.

Definition latency_of p : Z := match p with Finished l => l | _ => 0 end.

Definition record_metrics (operations latency : Z) : perf () := λ '(c, r),
  ((update_performance_metrics operations latency c, r), Ok ()).

(** The command of a lookup with the decoding of its reply. *)
Definition lookup_slot now (slot : string) : io R redis_error (option Ipv4Addr) :=
  value ← r_get now slot;
  match value with
  | Some ip_str =>
      match parse_ipv4 ip_str with
      | Some ip => mret (Some ip)
      | None => io_fail (type_error_text "Invalid IP address format" "invalid IPv4 address syntax")
      end
  | None => mret None
  end.

Definition get_slot_optimized now p (slot : string) : perf (option Ipv4Addr) :=
  result ← with_timeout p (lookup_slot now slot);
  _ ← record_metrics 1 (latency_of p);
  mret result.

Definition set_slot_optimized now p (slot : string) (ip : Ipv4Addr) (ttl : Z) : perf () :=
  _ ← with_timeout p (r_set_ex now slot (ipv4_to_string ip) ttl);
  _ ← record_metrics 1 (latency_of p);
  mret ().

(** The bulk operations; every element comes with the time and the progress of
    its call. *)
Definition bulk_get_slots (latency : Z) (slots : list (Z * Progress * string))
    : perf (list (option Ipv4Addr)) :=
  results ← for_each (λ '(now, p, slot), get_slot_optimized now p slot) slots;
  _ ← record_metrics (Z.of_nat (length slots)) latency;
  mret results.

Definition bulk_set_slots (latency : Z) (operations : list (Z * Progress * (string * Ipv4Addr * Z)))
    : perf (list ()) :=
  results ← for_each (λ '(now, p, (slot, ip, ttl)), set_slot_optimized now p slot ip ttl) operations;
  _ ← record_metrics (Z.of_nat (length operations)) latency;
  mret results.

End ops.

(** ** Equivalence with the plain operations *)

Section equiv.
Context `{Hredis : RedisServer R} `{Hcodec : Codec} `{Htext : RedisErrorText}.
Implicit Types (now : Z) (r : R) (c : RedisPerformanceClient).

(** How the client reports an error of the plain operations. *)
Definition perf_error (e : FE.t) : FE.t :=
  match e with
  | FE.ConnectionError e => FE.RedisError (io_error_text "Failed to get connection" e)
  | FE.ValidationError e => FE.RedisError (type_error_text e "invalid IPv4 address syntax")
  | e => e
  end.

(** The plain lookup, with an absent slot as a value. *)
Definition find_slot now (slot : string) : io R FE.t (option Ipv4Addr) := λ r,
  match get_slot now slot r with
  | (r, Ok ip) => (r, Ok (Some ip))
  | (r, Err (FE.NotFound _)) => (r, Ok None)
  | (r, Err e) => (r, Err (perf_error e))
  end.

Definition store_slot now (slot : string) (ip : Ipv4Addr) (ttl : Z) : io R FE.t () :=
  io_map_err perf_error (set_slot now slot ip ttl).

Definition finished (p : Progress) : Prop := ∃ l, p = Finished l.

(** A call's server and result, and the number of operations it counted. *)
Definition outcome {A} (x : RedisPerformanceClient * R * result FE.t A) : R * result FE.t A :=
  (x.1.2, x.2).
Definition counted (c : RedisPerformanceClient) : Z := total_operations (pf_stats c).

Lemma get_slot_optimized_equiv now p slot c r :
  finished p →
  outcome (get_slot_optimized now p slot (c, r)) = find_slot now slot r
  ∧ (is_ok (find_slot now slot r).2 = true →
     counted (get_slot_optimized now p slot (c, r)).1.1 = as_u64 (counted c + 1)).
Proof.
  intros [l ->].
  unfold get_slot_optimized, with_timeout, connect_and, lookup_slot, find_slot, get_slot, pool_get, query,
    mbind, io_bind, io_map_err, outcome.
  destruct (r_connect r) as [r1 [[]|e]]; cbn [map_err]; [|done].
  destruct (r_get now slot r1) as [r2 [[v|]|e]]; cbn; [|done|done].
  by destruct (parse_ipv4 v).
Qed.

Lemma set_slot_optimized_equiv now p slot ip ttl c r :
  finished p →
  outcome (set_slot_optimized now p slot ip ttl (c, r)) =
    store_slot now slot ip ttl r
  ∧ (is_ok (store_slot now slot ip ttl r).2 = true →
     counted (set_slot_optimized now p slot ip ttl (c, r)).1.1 = as_u64 (counted c + 1)).
Proof.
  intros [l ->].
  unfold set_slot_optimized, with_timeout, connect_and, store_slot, set_slot, pool_get, query,
    mbind, io_bind, io_map_err, outcome.
  destruct (r_connect r) as [r1 [[]|e]]; cbn [map_err]; [|done].
  by destruct (r_set_ex now slot _ ttl r1) as [r2 [[]|e]].
Qed.

(** A loop of calls that agree with plain operations agrees with the loop of the
    plain operations, and counts one operation a call. *)
Lemma for_each_equiv {X A} (f : X → io (RedisPerformanceClient * R) FE.t A) (g : X → io R FE.t A) xs :
  Forall (λ x, ∀ c r, outcome (f x (c, r)) = g x r
            ∧ (is_ok (g x r).2 = true → counted (f x (c, r)).1.1 = as_u64 (counted c + 1))) xs →
  ∀ c r, outcome (for_each f xs (c, r)) = for_each g xs r
    ∧ (is_ok (for_each g xs r).2 = true →
       as_u64 (counted (for_each f xs (c, r)).1.1) = as_u64 (counted c + Z.of_nat (length xs))).
Proof.
  induction 1 as [|x xs Hx _ IH]; intros c r; [cbn; by rewrite Z.add_0_r|].
  destruct (Hx c r) as [Ho Hn]. cbn [for_each]. unfold mbind, io_bind. rewrite <- Ho in Hn |- *.
  destruct (f x (c, r)) as [[c1 r1] [v|e]]; cbn in Hn |- *; [|done].
  specialize (Hn eq_refl). destruct (IH c1 r1) as [IHo IHn]. rewrite <- IHo in IHn |- *.
  destruct (for_each f xs (c1, r1)) as [[c2 r2] [vs|e]]; cbn in IHn |- *; [|done].
  split; [done|]. intros _. rewrite (IHn eq_refl), Hn, as_u64_add_l. f_equal. lia.
Qed.

(** A bulk operation is its loop and a second count of the same calls. *)
Lemma bulk_equiv {X A} (f : X → io (RedisPerformanceClient * R) FE.t A) (g : X → io R FE.t A) xs l :
  Forall (λ x, ∀ c r, outcome (f x (c, r)) = g x r
            ∧ (is_ok (g x r).2 = true → counted (f x (c, r)).1.1 = as_u64 (counted c + 1))) xs →
  ∀ c r, let x := (results ← for_each f xs; _ ← record_metrics (Z.of_nat (length xs)) l; mret results)
                    (c, r) in
    outcome x = for_each g xs r
    ∧ (is_ok (for_each g xs r).2 = true →
       counted x.1.1 = as_u64 (counted c + 2 * Z.of_nat (length xs))).
Proof.
  intros Hxs c r. destruct (for_each_equiv f g xs Hxs c r) as [Ho Hn]. unfold mbind, io_bind.
  rewrite <- Ho in Hn |- *. destruct (for_each f xs (c, r)) as [[c1 r1] [v|e]]; cbn in Hn |- *; [|done].
  split; [done|]. intros _.
  change (as_u64 (counted c1 + Z.of_nat (length xs)) = as_u64 (counted c + 2 * Z.of_nat (length xs))).
  rewrite <- as_u64_add_l, (Hn eq_refl), as_u64_add_l.
  f_equal. lia.
Qed.

End equiv.

(** C26: the optimised slot operations are the plain ones.  As long as no call
    runs into the operation timeout, a bulk lookup leaves the server and returns
    the values of plain lookups in the same order (an absent slot is [None]), a
    bulk update those of plain updates, up to the first error, which it reports as
    [perf_error]; a bulk call that succeeds counts each of its operations twice. *)
Theorem bulk_slots_equiv `{RedisServer R} `{Codec} `{RedisErrorText} (c : RedisPerformanceClient) (r : R)
    latency (slots : list (Z * Progress * string))
    (operations : list (Z * Progress * (string * Ipv4Addr * Z)))
    (Hslots : Forall (λ s, finished s.1.2) slots) (Hops : Forall (λ o, finished o.1.2) operations) :
  let found := for_each (λ '(now, _, slot), find_slot now slot) slots r in
  let got := bulk_get_slots latency slots (c, r) in
  let stored := for_each (λ '(now, _, (slot, ip, ttl)), store_slot now slot ip ttl) operations r in
  let set := bulk_set_slots latency operations (c, r) in
  (outcome got = found
   ∧ (is_ok found.2 = true → counted got.1.1 = as_u64 (counted c + 2 * Z.of_nat (length slots))))
  ∧ outcome set = stored
  ∧ (is_ok stored.2 = true →
     counted set.1.1 = as_u64 (counted c + 2 * Z.of_nat (length operations))).
Proof.
  split.
  - apply (bulk_equiv _ (λ '(now, _, slot), find_slot now slot)).
    eapply Forall_impl; [exact Hslots|]. intros [[now p] slot] Hp c' r'.
    by apply get_slot_optimized_equiv.
  - apply (bulk_equiv _ (λ '(now, _, (slot, ip, ttl)), store_slot now slot ip ttl)).
    eapply Forall_impl; [exact Hops|]. intros [[now p] [[slot ip] ttl]] Hp c' r'.
    by apply set_slot_optimized_equiv.
Qed.

(** A call that timed out is not recorded in the statistics, and an update that
    timed out changed the slot or nothing. *)
Lemma timed_out_set `{RedisSpec R} `{RedisErrorText} now p slot ip ttl c (r : R) :
  ¬ finished p →
  ∃ r', set_slot_optimized now p slot ip ttl (c, r) =
      ((c, r'), Err (FE.TimeoutError "Operation timed out"))
    ∧ (live now r' = live now r ∨ live now r' = put_ex now slot (ipv4_to_string ip) ttl (live now r)).
Proof.
  intros Hp. unfold set_slot_optimized, with_timeout, mbind, io_bind.
  assert (live now (r_connect r).1 = live now r) as Hc.
  { destruct (r_connect r) as [r1 o] eqn:E. by apply connect_spec with (now := now) in E. }
  destruct p as [l| |executed]; [by destruct Hp; exists l|eauto|].
  eexists; split; [done|]. destruct executed; [|auto].
  unfold connect_and, mbind, io_bind, io_map_err.
  destruct (r_connect r) as [r1 [[]|e]]; cbn [map_err fst] in Hc |- *; [|auto].
  destruct (r_set_ex now slot (ipv4_to_string ip) ttl r1) as [r2 [[]|e]] eqn:E; cbn; rewrite <- Hc.
  - right. apply (proj1 (set_ex_writes now slot _ ttl) _ _ _ E).
  - destruct (proj2 (set_ex_writes now slot _ ttl) _ _ _ E) as [-> | ->]; auto.
Qed.

(** ** Examples on the concrete server *)
Module RedisPerfDemo.
Import MemRedis BitCodec.

#[export] Instance demo_text : RedisErrorText := {|
  io_error_text := λ d e, d +:+ ": " +:+ e;
  type_error_text := λ d e, d +:+ ": " +:+ e;
|}.

Definition client := RedisPerformanceClient_new default_performance_config.
Definition quick (x : string) : Z * Progress * string := (secs 1, Finished 1000000, x).
Definition addr : Ipv4Addr := Ipv4 10 0 0 1.
Definition server : mem := put_ex 0 "app.example" "10.0.0.1" 30 ∅.

Lemma bulk_slots_equiv_witness :
  outcome (bulk_get_slots 5 [quick "app.example"; quick "gone.example"] (client, server))
    = (server, Ok [Some addr; None])
  ∧ counted (bulk_get_slots 5 [quick "app.example"; quick "gone.example"] (client, server)).1.1 = 4.
Proof.
  destruct (bulk_slots_equiv client server 5 [quick "app.example"; quick "gone.example"] [])
    as [[Hg Hn] _].
  - repeat constructor; by eexists.
  - constructor.
  - split; [|by vm_compute]. rewrite Hg. by vm_compute.
Defined.

End RedisPerfDemo.
