(* ===== verification/CA.v ===== *)
(** * The certificate authority

    crates/edf-ca: certificate requests and metadata (certificate.rs), the
    registry of issued certificates with its Redis backing store (lib.rs), the
    issuance rate limiter and the authority (ca.rs).  X.509 encoding, key
    generation and hashing are library code ([Rcgen]); random bytes and serial
    numbers are arguments.  Metrics are left out, and so are the files of the CA's own
    certificate. *)

From S2P Require Import Prelude Redis Serde Models Errors Net RedisCache.

(** ** Data *)

Record CertificateMetadata := {
  cm_serial_number : string;
  cm_subject : string;
  cm_issuer : string;
  cm_issued_at : Z;
  cm_expires_at : Z;
  cm_fingerprint : string;
}.

Inductive KeyUsage := DigitalSignature | KeyEncipherment | KeyAgreement | CertSign | CrlSign.
Inductive ExtendedKeyUsage := ServerAuth | ClientAuth | CodeSigning | EmailProtection | TimeStamping.

Record CertificateRequest := {
  cr_common_name : string;
  cr_subject_alt_names : list string;
  cr_key_usage : list KeyUsage;
  cr_extended_key_usage : list ExtendedKeyUsage;
  cr_validity_duration : Z;
  cr_attributes : gmap string string;
}.

Definition for_tunnel_client (client_id : string) (validity : Z) : CertificateRequest :=
  {| cr_common_name := "tunnel-client-" +:+ client_id; cr_subject_alt_names := [];
     cr_key_usage := [DigitalSignature; KeyEncipherment];
     cr_extended_key_usage := [ClientAuth]; cr_validity_duration := validity;
     cr_attributes := {[ "client_id" := client_id; "purpose" := "ssh-tunnel" ]} |}.

Definition for_server (fqdn : string) (validity : Z) : CertificateRequest :=
  {| cr_common_name := fqdn; cr_subject_alt_names := [fqdn];
     cr_key_usage := [DigitalSignature; KeyEncipherment];
     cr_extended_key_usage := [ServerAuth]; cr_validity_duration := validity;
     cr_attributes := {[ "fqdn" := fqdn; "purpose" := "tls-server" ]} |}.

Definition with_san (r : CertificateRequest) (san : string) : CertificateRequest :=
  {| cr_common_name := cr_common_name r;
     cr_subject_alt_names := cr_subject_alt_names r ++ [san];
     cr_key_usage := cr_key_usage r; cr_extended_key_usage := cr_extended_key_usage r;
     cr_validity_duration := cr_validity_duration r; cr_attributes := cr_attributes r |}.

Record EphemeralCertificate := {
  ec_certificate_pem : string;
  ec_private_key_pem : string;
  ec_metadata : CertificateMetadata;
  ec_ca_chain_pem : string;
}.

(** Durations in nanoseconds. *)
Definition minutes (n : Z) : Z := secs (60 * n).
Definition num_minutes (d : Z) : Z := Z.quot d (minutes 1).
Definition DEFAULT_CERT_TTL : Z := minutes 30.
Definition MAX_CERT_TTL : Z := minutes 120.

Record CaConfig := {
  ca_name : string;
  organization : string;
  organizational_unit : string;
  default_ttl : Z;
  max_ttl : Z;
  ca_key_path : option string;
  ca_cert_path : option string;
  certs_per_hour_per_client : Z;
}.

Definition default_ca_config : CaConfig :=
  {| ca_name := "FleetingDNS-CA"; organization := "FleetingDNS";
     organizational_unit := "Tunnel Services"; default_ttl := DEFAULT_CERT_TTL;
     max_ttl := MAX_CERT_TTL; ca_key_path := None; ca_cert_path := None;
     certs_per_hour_per_client := 10 |}.

Record IssuanceRequest := {
  ir_request_id : string;
  ir_common_name : string;
  ir_subject_alt_names : list string;
  ir_ttl : option Z;
  ir_client_id : string;
  ir_metadata : gmap string string;
}.

(** [IssuanceRequest::new]; the fresh request id is an argument. *)
Definition IssuanceRequest_new (request_id common_name client_id : string) : IssuanceRequest :=
  {| ir_request_id := request_id; ir_common_name := common_name; ir_subject_alt_names := [];
     ir_ttl := None; ir_client_id := client_id; ir_metadata := ∅ |}.

Record ActiveCertificate := {
  ac_metadata : CertificateMetadata;
  ac_certificate_pem : string;
  ac_client_id : string;
  ac_issued_at : Z;
}.

Record IssuanceResponse := {
  is_request_id : string;
  is_certificate_pem : string;
  is_metadata : CertificateMetadata;
  is_ca_chain_pem : string;
}.

(** ** The stored form of a certificate *)

Section codec.
Context `{Codec}.

Definition metadata_fields : list string :=
  ["serial_number"; "subject"; "issuer"; "issued_at"; "expires_at"; "fingerprint"].
Definition active_fields : list string :=
  ["metadata"; "certificate_pem"; "client_id"; "issued_at"].

Definition ser_CertificateMetadata (c : CertificateMetadata) : json :=
  JObj (zip metadata_fields
    [JStr (cm_serial_number c); JStr (cm_subject c); JStr (cm_issuer c);
     JStr (dt_to_string (cm_issued_at c)); JStr (dt_to_string (cm_expires_at c));
     JStr (cm_fingerprint c)]).

Definition de_CertificateMetadata (j : json) : option CertificateMetadata :=
  vs ← fields_of metadata_fields j;
  match vs with
  | [sn; subj; iss; issued; expires; fp] =>
      sn ← de_string sn; subj ← de_string subj; iss ← de_string iss;
      issued ← de_datetime issued; expires ← de_datetime expires; fp ← de_string fp;
      Some {| cm_serial_number := sn; cm_subject := subj; cm_issuer := iss;
              cm_issued_at := issued; cm_expires_at := expires; cm_fingerprint := fp |}
  | _ => None
  end.

Definition ser_ActiveCertificate (c : ActiveCertificate) : json :=
  JObj (zip active_fields
    [ser_CertificateMetadata (ac_metadata c); JStr (ac_certificate_pem c); JStr (ac_client_id c);
     JStr (dt_to_string (ac_issued_at c))]).

Definition de_ActiveCertificate (j : json) : option ActiveCertificate :=
  vs ← fields_of active_fields j;
  match vs with
  | [md; pem; client; issued] =>
      md ← md ≫= de_CertificateMetadata; pem ← de_string pem; client ← de_string client;
      issued ← de_datetime issued;
      Some {| ac_metadata := md; ac_certificate_pem := pem; ac_client_id := client;
              ac_issued_at := issued |}
  | _ => None
  end.

Lemma active_json_wf c : json_wf (ser_ActiveCertificate c) = true.
Proof. done. Qed.

Lemma de_ser_CertificateMetadata c :
  dt_ok (cm_issued_at c) → dt_ok (cm_expires_at c) →
  de_CertificateMetadata (ser_CertificateMetadata c) = Some c.
Proof.
  intros Hi He. destruct c. unfold de_CertificateMetadata, ser_CertificateMetadata.
  rewrite fields_of_zip by (done || by apply (bool_decide_unpack _)).
  cbn -[de_datetime]. unfold de_datetime; cbn in *. by rewrite !dt_roundtrip by done.
Qed.

Lemma de_ser_ActiveCertificate c :
  dt_ok (cm_issued_at (ac_metadata c)) → dt_ok (cm_expires_at (ac_metadata c)) →
  dt_ok (ac_issued_at c) →
  de_ActiveCertificate (ser_ActiveCertificate c) = Some c.
Proof.
  intros Hi He Ha. destruct c as [md pem client issued].
  unfold de_ActiveCertificate, ser_ActiveCertificate.
  rewrite fields_of_zip by (done || by apply (bool_decide_unpack _)).
  cbn -[de_datetime de_CertificateMetadata ser_CertificateMetadata].
  rewrite de_ser_CertificateMetadata by done. cbn -[de_datetime]. unfold de_datetime; cbn in *.
  by rewrite dt_roundtrip by done.
Qed.
End codec.

(** ** X.509 and hashing *)

(** What [CertificateBuilder] sets on the parameters of a certificate. *)
Inductive DnType := CommonName | OrganizationName | OrganizationalUnitName.
Record CertificateParams (KeyPair : Type) := {
  distinguished_name : list (DnType * string);
  ed25519 : bool;
  key_pair : option KeyPair;
  p_subject_alt_names : list string;
  not_before : Z;
  not_after : Z;
  key_usages : list KeyUsage;
  extended_key_usages : list ExtendedKeyUsage;
}.
Arguments distinguished_name {KeyPair} _.
Arguments ed25519 {KeyPair} _.
Arguments key_pair {KeyPair} _.
Arguments p_subject_alt_names {KeyPair} _.
Arguments not_before {KeyPair} _.
Arguments not_after {KeyPair} _.
Arguments key_usages {KeyPair} _.
Arguments extended_key_usages {KeyPair} _.

(** The rcgen, rustls-pemfile and ring libraries. *)
Class Rcgen := {
  KeyPair : Type;
  Certificate : Type;
  (** [KeyPair::generate] from random bytes. *)
  key_generate : string → result string KeyPair;
  from_params : CertificateParams KeyPair → result string Certificate;
  serialize_pem : Certificate → result string string;
  serialize_pem_with_signer : Certificate → Certificate → result string string;
  key_pair_pem : Certificate → string;
  (** The DER certificates of a PEM text. *)
  pem_certs : string → result string (list string);
  sha256 : string → string;
}.

(** Upper-case hexadecimal bytes. *)
Definition hex_char (n : Z) : ascii := ascii_of_N (Z.to_N (if n <? 10 then 48 + n else 55 + n)).
Definition hex_byte (a : ascii) : string :=
  String (hex_char (code a / 16)) (String (hex_char (code a mod 16)) "").

Section ca.
Context `{Hredis : RedisServer R} `{Hcodec : Codec} `{Hrcgen : Rcgen}.
Implicit Types (now : Z) (r : R).

Definition gen_failed {A} (x : result string A) : result FE.t A :=
  map_err (λ e, FE.CertificateError ("Certificate generation failed: " +:+ e)) x.

Definition calculate_fingerprint (cert_pem : string) : result FE.t string :=
  certs ← map_err (λ e, FE.DeserializationError ("PEM parsing error: " +:+ e)) (pem_certs cert_pem);
  der ← ok_or (head certs) (FE.DeserializationError "No certificate found in PEM");
  Ok (str_join ":" (hex_byte <$> list_ascii_of_string (sha256 der))).

(** The parameters [CertificateBuilder] collects. *)
Definition builder_params now (q : CertificateRequest) (kp : KeyPair) : CertificateParams KeyPair :=
  {| distinguished_name := [(OrganizationName, "FleetingDNS");
                            (OrganizationalUnitName, "Tunnel Services");
                            (CommonName, cr_common_name q)];
     ed25519 := true; key_pair := Some kp; p_subject_alt_names := cr_subject_alt_names q;
     not_before := now; not_after := now + secs (num_seconds (cr_validity_duration q));
     key_usages := cr_key_usage q; extended_key_usages := cr_extended_key_usage q |}.

(** ** Rate limiter *)

Record RateLimiter := {
  rl_limit : Z;
  client_counts : gmap string (Z * Z);
  rl_total_issued : Z;
}.

Definition RateLimiter_new (limit : Z) : RateLimiter :=
  {| rl_limit := limit; client_counts := ∅; rl_total_issued := 0 |}.

Definition HOUR : Z := secs 3600.

Definition is_rate_limited now (l : RateLimiter) (client_id : string) : bool :=
  match client_counts l !! client_id with
  | Some (count, last_reset) =>
      if now - last_reset <? HOUR then rl_limit l <=? count else false
  | None => false
  end.

Definition record_issuance now (l : RateLimiter) (client_id : string) : RateLimiter :=
  let '(count, start) := default (0, now) (client_counts l !! client_id) in
  let '(count, start) := if HOUR <=? now - start then (0, now) else (count, start) in
  {| rl_limit := rl_limit l;
     client_counts := <[client_id := (as_u32 (count + 1), start)]> (client_counts l);
     rl_total_issued := as_u64 (rl_total_issued l + 1) |}.

(** ** The registry *)

(** The authority: configuration, own certificate, the registry's map with the
    flag that a Redis store is attached, and the rate limiter. *)
Record CertificateAuthority := {
  config : CaConfig;
  ca_certificate : Certificate;
  active_certs : gmap string ActiveCertificate;
  store : bool;
  rate_limiter : RateLimiter;
}.

(** [CertificateAuthority::new] / [with_store], given the CA's certificate. *)
Definition CertificateAuthority_new (c : CaConfig) (cert : Certificate) (store : bool)
    : CertificateAuthority :=
  {| config := c; ca_certificate := cert; active_certs := ∅; store := store;
     rate_limiter := RateLimiter_new (certs_per_hour_per_client c) |}.

Definition set_certs (ca : CertificateAuthority) (certs : gmap string ActiveCertificate) :=
  {| config := config ca; ca_certificate := ca_certificate ca; active_certs := certs;
     store := store ca; rate_limiter := rate_limiter ca |}.
Definition set_limiter (ca : CertificateAuthority) (l : RateLimiter) :=
  {| config := config ca; ca_certificate := ca_certificate ca; active_certs := active_certs ca;
     store := store ca; rate_limiter := l |}.

Definition cert_key (serial_number : string) : string := "edf-ca:cert:" +:+ serial_number.

(** The whole seconds left, and the write of the record with them. *)
Definition store_ttl now (cert : ActiveCertificate) : Z :=
  num_seconds (cm_expires_at (ac_metadata cert) - now).
Definition persist_certificate now (cert : ActiveCertificate) : io R FE.t () :=
  set_string_ex now (cert_key (cm_serial_number (ac_metadata cert)))
    (json_to_string (ser_ActiveCertificate cert)) (as_u64 (store_ttl now cert)).

(** A failure of the store is logged only. *)
Definition register_certificate now (cert : ActiveCertificate) ca r : CertificateAuthority * R :=
  let serial := cm_serial_number (ac_metadata cert) in
  let r' := if store ca && (0 <? store_ttl now cert) then (persist_certificate now cert r).1 else r in
  (set_certs ca (<[serial := cert]> (active_certs ca)), r').

Definition get_certificate now (serial_number : string) ca r
    : CertificateAuthority * R * option ActiveCertificate :=
  match active_certs ca !! serial_number with
  | Some cert => (ca, r, Some cert)
  | None =>
      if store ca then
        match get_string now (cert_key serial_number) r with
        | (r', Ok (Some text)) =>
            match from_str de_ActiveCertificate text with
            | Some cert =>
                (set_certs ca (<[serial_number := cert]> (active_certs ca)), r', Some cert)
            | None => (ca, r', None)
            end
        | (r', _) => (ca, r', None)
        end
      else (ca, r, None)
  end.

Definition is_certificate_valid now (serial_number : string) ca r
    : CertificateAuthority * R * bool :=
  let '(ca, r, cert) := get_certificate now serial_number ca r in
  (ca, r, match cert with Some c => now <? cm_expires_at (ac_metadata c) | None => false end).

Definition remove_certificate now (serial_number : string) ca r : CertificateAuthority * R * bool :=
  let r' := if store ca then (del_key now (cert_key serial_number) r).1 else r in
  (set_certs ca (delete serial_number (active_certs ca)), r',
   bool_decide (is_Some (active_certs ca !! serial_number))).

Definition cleanup_expired now ca : CertificateAuthority * Z :=
  let kept := filter (λ kv, now < cm_expires_at (ac_metadata kv.2)) (active_certs ca) in
  (set_certs ca kept, Z.of_nat (size (active_certs ca)) - Z.of_nat (size kept)).

Definition active_count ca : Z := Z.of_nat (size (active_certs ca)).

Definition get_client_certificates (client_id : string) ca : list ActiveCertificate :=
  filter (λ c, ac_client_id c = client_id) (map_to_list (active_certs ca)).*2.

(** ** The authority *)

Definition get_ca_certificate_pem ca : result FE.t string :=
  gen_failed (serialize_pem (ca_certificate ca)).

(** [entropy] and [serial] are the random bytes and the fresh serial number. *)
Definition generate_certificate now (entropy : string) (serial : uuid) (q : CertificateRequest) ca
    : result FE.t EphemeralCertificate :=
  kp ← gen_failed (key_generate entropy);
  cert ← gen_failed (from_params (builder_params now q kp));
  cert_pem ← gen_failed (serialize_pem_with_signer cert (ca_certificate ca));
  fingerprint ← calculate_fingerprint cert_pem;
  ca_chain ← get_ca_certificate_pem ca;
  Ok {| ec_certificate_pem := cert_pem; ec_private_key_pem := key_pair_pem cert;
        ec_metadata :=
          {| cm_serial_number := uuid_to_string serial; cm_subject := "CN=" +:+ cr_common_name q;
             cm_issuer := "CN=" +:+ ca_name (config ca); cm_issued_at := now;
             cm_expires_at := now + cr_validity_duration q; cm_fingerprint := fingerprint |};
        ec_ca_chain_pem := ca_chain |}.

Definition validate_request (q : IssuanceRequest) : result FE.t () :=
  if ir_common_name q =?s "" then Err (FE.BadRequest "Common name cannot be empty")
  else if ir_client_id q =?s "" then Err (FE.BadRequest "Client ID cannot be empty")
  else Ok ().

Definition check_rate_limits now (client_id : string) ca : result FE.t () :=
  if is_rate_limited now (rate_limiter ca) client_id then
    Err (FE.RateLimitExceeded ("Rate limit exceeded for client " +:+ client_id +:+ ": "
           +:+ pretty (rl_limit (rate_limiter ca)) +:+ " certificates per hour"))
  else Ok ().

Definition check_ttl (ttl : Z) ca : result FE.t () :=
  if max_ttl (config ca) <? ttl then
    Err (FE.ValidationError ("TTL validation error: requested " +:+ pretty (num_minutes ttl)
           +:+ " minutes, max allowed " +:+ pretty (num_minutes (max_ttl (config ca))) +:+ " minutes"))
  else Ok ().

Definition active_certificate now (client_id : string) (cert : EphemeralCertificate) : ActiveCertificate :=
  {| ac_metadata := ec_metadata cert; ac_certificate_pem := ec_certificate_pem cert;
     ac_client_id := client_id; ac_issued_at := now |}.
(** Register the certificate and account for it. *)
Definition register_issued now (client_id : string) (cert : EphemeralCertificate) ca r
    : CertificateAuthority * R :=
  let '(ca, r) := register_certificate now (active_certificate now client_id cert) ca r in
  (set_limiter ca (record_issuance now (rate_limiter ca) client_id), r).

(** The certificate is made at [now] and registered at [reg], when the source reads
    the clock again. *)
Definition issue_client_certificate_at now (reg : Z) (entropy : string) (serial : uuid)
    (q : IssuanceRequest) ca r : CertificateAuthority * R * result FE.t EphemeralCertificate :=
  let ttl := default (default_ttl (config ca)) (ir_ttl q) in
  match (_ ← validate_request q; _ ← check_rate_limits now (ir_client_id q) ca;
         _ ← check_ttl ttl ca;
         generate_certificate now entropy serial
           (with_san (for_tunnel_client (ir_client_id q) ttl) (ir_common_name q)) ca) with
  | Ok cert => let '(ca, r) := register_issued reg (ir_client_id q) cert ca r in (ca, r, Ok cert)
  | Err e => (ca, r, Err e)
  end.
(** Both at one instant. *)
Definition issue_client_certificate now := issue_client_certificate_at now now.

Definition issue_certificate now (entropy : string) (serial : uuid) (q : IssuanceRequest) ca r
    : CertificateAuthority * R * result FE.t IssuanceResponse :=
  let '(ca, r, res) := issue_client_certificate now entropy serial q ca r in
  (ca, r,
   cert ← res;
   Ok {| is_request_id := ir_request_id q; is_certificate_pem := ec_certificate_pem cert;
         is_metadata := ec_metadata cert; is_ca_chain_pem := ec_ca_chain_pem cert |}).

Definition issue_server_certificate now (entropy : string) (serial : uuid) (fqdn : string)
    (extra_sans : list string) (ttl : option Z) ca r
    : CertificateAuthority * R * result FE.t EphemeralCertificate :=
  let ttl := default (default_ttl (config ca)) ttl in
  match (_ ← (if fqdn =?s "" then Err (FE.BadRequest "FQDN cannot be empty") else Ok ());
         _ ← check_rate_limits now fqdn ca; _ ← check_ttl ttl ca;
         generate_certificate now entropy serial
           (foldl with_san (for_server fqdn ttl) extra_sans) ca) with
  | Ok cert => let '(ca, r) := register_issued now fqdn cert ca r in (ca, r, Ok cert)
  | Err e => (ca, r, Err e)
  end.

(** Never an error. *)
Definition validate_certificate now (serial_number : string) ca r
    : CertificateAuthority * R * bool :=
  is_certificate_valid now serial_number ca r.

Definition cert_not_found (serial_number : string) : FE.t :=
  FE.NotFound ("Certificate not found: serial " +:+ serial_number).

Definition get_certificate_info now (serial_number : string) ca r
    : CertificateAuthority * R * result FE.t ActiveCertificate :=
  let '(ca, r, cert) := get_certificate now serial_number ca r in
  (ca, r, ok_or cert (cert_not_found serial_number)).

Definition revoke_certificate now (serial_number : string) ca r
    : CertificateAuthority * R * result FE.t () :=
  let '(ca, r, cert) := get_certificate now serial_number ca r in
  let '(ca, r, removed) := remove_certificate now serial_number ca r in
  (ca, r, if bool_decide (is_Some cert) || removed then Ok () else Err (cert_not_found serial_number)).

End ca.

#[export] Hint Unfold cert_key : keys.

(** ** Validity survives a restart, revocation is final *)

Section registry.
Context `{Hspec : RedisSpec R} `{Hcodec : Codec} `{Hrcgen : Rcgen}.
Implicit Types (now : Z) (r : R) (ca : CertificateAuthority).

(** A command behind a connection writes what the command writes. *)
Lemma query_writes now {A} (c : io R redis_error A) f :
  writes now c f → writes now (_ ← pool_get; query c) f.
Proof.
  intros [Hok Herr]. split; intros r r' x; unfold mbind, io_bind, pool_get, query, io_map_err;
    destruct (r_connect r) as [r1 [[]|e]] eqn:E1; apply connect_spec with (now := now) in E1;
    cbn [map_err]; try (intros [= <- _]; left; exact E1); try done;
    destruct (c r1) as [r2 [a|e']] eqn:E2; cbn [map_err]; intros [= <- _]; rewrite <- E1; eauto.
Qed.

Lemma get_string_ok now k r r' v :
  get_string now k r = (r', Ok v) → get_reply (live now r !! k) = Some v.
Proof.
  unfold get_string, pool_get, query. intros E. inv_io E. apply connect_spec with (now := now) in Hio.
  rewrite <- Hio. by eapply get_ok.
Qed.

(** What the store says of a serial number; an unanswered lookup is a no. *)
Definition stored_verdict now (sn : string) r : bool :=
  match (get_string now (cert_key sn) r).2 with
  | Ok (Some text) =>
      match from_str de_ActiveCertificate text with
      | Some c => now <? cm_expires_at (ac_metadata c)
      | None => false
      end
  | _ => false
  end.

(** Validation from the memory of the authority, and from the store. *)
Lemma validate_cached now sn ca r cert :
  active_certs ca !! sn = Some cert →
  (validate_certificate now sn ca r).2 = (now <? cm_expires_at (ac_metadata cert)).
Proof.
  intros Hc. unfold validate_certificate, is_certificate_valid, get_certificate. by rewrite Hc.
Qed.

Lemma validate_uncached now sn ca r :
  active_certs ca !! sn = None →
  (validate_certificate now sn ca r).2 = if store ca then stored_verdict now sn r else false.
Proof.
  intros Hc. unfold validate_certificate, is_certificate_valid, get_certificate, stored_verdict.
  rewrite Hc. destruct (store ca); [|done].
  destruct (get_string now (cert_key sn) r) as [r' [[text|]|e]]; cbn [snd]; [|done..].
  by destruct (from_str de_ActiveCertificate text).
Qed.

Lemma stored_verdict_absent now sn r : live now r !! cert_key sn = None → stored_verdict now sn r = false.
Proof.
  intros Hk. unfold stored_verdict. destruct (get_string now (cert_key sn) r) as [r' [v|e]] eqn:E; [|done].
  apply get_string_ok in E. rewrite Hk in E. by injection E as <-.
Qed.

(** The dates of the record can be printed. *)
Definition cert_dates_ok (c : ActiveCertificate) : Prop :=
  dt_ok (cm_issued_at (ac_metadata c)) ∧ dt_ok (cm_expires_at (ac_metadata c)) ∧ dt_ok (ac_issued_at c).

Lemma stored_verdict_present now sn r c t :
  cert_dates_ok c →
  live now r !! cert_key sn = Some (REntry (RString (json_to_string (ser_ActiveCertificate c))) t) →
  stored_verdict now sn r
    = is_ok (get_string now (cert_key sn) r).2 && (now <? cm_expires_at (ac_metadata c)).
Proof.
  intros (Hi & He & Ha) Hk. unfold stored_verdict.
  destruct (get_string now (cert_key sn) r) as [r' [v|e]] eqn:E; [|done]. cbn [snd is_ok andb].
  apply get_string_ok in E. rewrite Hk in E. injection E as <-.
  rewrite from_str_to_string by apply active_json_wf. by rewrite de_ser_ActiveCertificate.
Qed.

(** A record answers until it ends. *)
Lemma stored_verdict_until now now' sn r c t :
  cert_dates_ok c → now ≤ now' → t ≤ cm_expires_at (ac_metadata c) →
  live now r !! cert_key sn = Some (REntry (RString (json_to_string (ser_ActiveCertificate c))) (Some t)) →
  stored_verdict now' sn r = (now' <? t) && is_ok (get_string now' (cert_key sn) r).2.
Proof.
  intros Hc Hle Ht Hk. apply (live_later now now') in Hk; [|done]. cbn [entry_live re_expires] in Hk.
  destruct (Z.ltb_spec now' t); [|by apply stored_verdict_absent].
  rewrite (stored_verdict_present _ _ _ c (Some t)) by done.
  rewrite andb_comm, (proj2 (Z.ltb_lt _ _)) by lia. done.
Qed.

(** The record a registration leaves in a store that had none. *)
Lemma register_certificate_store now cert ca r :
  live now r !! cert_key (cm_serial_number (ac_metadata cert)) = None →
  0 < store_ttl now cert < 2 ^ 63 →
  let entry := REntry (RString (json_to_string (ser_ActiveCertificate cert)))
                 (Some (now + secs (store_ttl now cert))) in
  let found := live now (register_certificate now cert ca r).2 !!
                 cert_key (cm_serial_number (ac_metadata cert)) in
  (found = None ∨ store ca = true ∧ found = Some entry)
  ∧ (store ca = true → is_ok (persist_certificate now cert r).2 = true → found = Some entry).
Proof.
  intros Hnone Ht. unfold register_certificate. cbn [snd].
  destruct (store ca); cbn [andb]; [|split; [by left|done]].
  rewrite (proj2 (Z.ltb_lt _ _)) by lia.
  destruct (persist_certificate now cert r) as [r1 x] eqn:E. cbn [fst snd].
  unfold persist_certificate in E. rewrite as_u64_id in E by (unfold u64_ok; lia).
  destruct (query_writes now _ _ (set_ex_writes now (cert_key (cm_serial_number (ac_metadata cert)))
    (json_to_string (ser_ActiveCertificate cert)) (store_ttl now cert))) as [Hok Herr].
  destruct x as [[]|e].
  - rewrite (Hok _ _ _ E). unfold put_ex. rewrite lookup_insert_eq. split; [by right|done].
  - split; [|done]. destruct (Herr _ _ _ E) as [-> | ->]; [by left|].
    right. unfold put_ex. by rewrite lookup_insert_eq.
Qed.

Lemma generate_certificate_ok now entropy serial q ca cert :
  generate_certificate now entropy serial q ca = Ok cert →
  cm_issued_at (ec_metadata cert) = now
  ∧ cm_expires_at (ec_metadata cert) = now + cr_validity_duration q.
Proof.
  unfold generate_certificate. intros Eg.
  destruct (gen_failed (key_generate entropy)) as [kp|]; [cbn in Eg|done].
  destruct (gen_failed (from_params _)) as [x|]; [cbn in Eg|done].
  destruct (gen_failed (serialize_pem_with_signer x _)) as [pem|]; [cbn in Eg|done].
  destruct (calculate_fingerprint pem); [cbn in Eg|done].
  destruct (get_ca_certificate_pem ca); [cbn in Eg|done]. by injection Eg as <-.
Qed.

(** What a successful issuance did. *)
Lemma issue_client_certificate_ok now reg entropy serial q ca r ca1 r1 cert :
  issue_client_certificate_at now reg entropy serial q ca r = (ca1, r1, Ok cert) →
  cm_issued_at (ec_metadata cert) = now
  ∧ cm_expires_at (ec_metadata cert) = now + default (default_ttl (config ca)) (ir_ttl q)
  ∧ default (default_ttl (config ca)) (ir_ttl q) ≤ max_ttl (config ca)
  ∧ (ca1, r1) = register_issued reg (ir_client_id q) cert ca r.
Proof.
  unfold issue_client_certificate_at. set (ttl := default _ (ir_ttl q)). unfold check_ttl.
  destruct (validate_request q); [cbn [mbind result_bind]|done].
  destruct (check_rate_limits now (ir_client_id q) ca); [cbn [mbind result_bind]|done].
  destruct (Z.ltb_spec (max_ttl (config ca)) ttl) as [|Hle]; [done|]. cbn [mbind result_bind].
  destruct (generate_certificate now entropy serial _ ca) as [c|] eqn:Eg; [|done].
  apply generate_certificate_ok in Eg as [Hi He].
  destruct (register_issued reg (ir_client_id q) c ca r) as [ca' r'] eqn:Er.
  intros [= <- <- <-]. done.
Qed.

End registry.

(** An issuance writes nothing but records of certificates, whatever Redis does. *)
Section frame.
Context `{Hspec : RedisSpec R} `{Hcodec : Codec} `{Hrcgen : Rcgen}.
Implicit Types (now : Z) (r : R) (ca : CertificateAuthority).

Lemma set_string_ex_frame now k v ttl r k' :
  k' ≠ k → live now (set_string_ex now k v ttl r).1 !! k' = live now r !! k'.
Proof.
  intros Hne. unfold set_string_ex, mbind, io_bind, pool_get, query, io_map_err.
  destruct (r_connect r) as [r1 [[]|e]] eqn:E1; apply connect_spec with (now := now) in E1;
    cbn [map_err fst]; [|by rewrite E1].
  destruct (r_set_ex now k v ttl r1) as [r2 [a|e]] eqn:E2; cbn [fst]; rewrite <- E1.
  - rewrite (proj1 (set_ex_writes now k v ttl) _ _ _ E2). by apply lookup_insert_ne.
  - destruct (proj2 (set_ex_writes now k v ttl) _ _ _ E2) as [-> | ->]; [done|].
    by apply lookup_insert_ne.
Qed.

Lemma issue_frame now entropy serial q ca r ca1 r1 res k :
  issue_client_certificate now entropy serial q ca r = (ca1, r1, res) →
  (∀ sn, k ≠ cert_key sn) → live now r1 !! k = live now r !! k.
Proof.
  unfold issue_client_certificate, issue_client_certificate_at. intros Hi Hk.
  destruct (_ ≫= _) as [cert|e] in Hi; [|by simplify_eq].
  unfold register_issued, register_certificate in Hi. simplify_eq.
  case_match; [|done]. apply set_string_ex_frame, Hk.
Qed.
End frame.

(** C31: certificates outlive the process, as far as the store does.  A certificate
    made at one instant and registered at a later one validates at the issuing
    authority exactly until it expires, whatever Redis does.  At a restarted
    authority that reads the Redis store it validates only if the issuing one had a
    store, and only until the stored record ends, which is less than a second before
    the certificate expires or at the same time; and if the write of the record
    succeeded and the lookup is answered, exactly until then.  So a failed write, a
    failed lookup or the missing store make a restarted authority refuse it, and
    never accept it too long.  The serial number is new to the store, the dates can
    be printed, and nothing but time passes after the registration. *)
Theorem ca_restart_transparent `{RedisSpec R} `{Codec} `{Rcgen}
    now reg now' entropy serial q ca (r r1 : R) ca1 cert cfg' cert'
    (Hissue : issue_client_certificate_at now reg entropy serial q ca r = (ca1, r1, Ok cert))
    (Hle : now ≤ reg ≤ now')
    (Hdt : dt_ok now ∧ dt_ok reg ∧ dt_ok (now + default (default_ttl (config ca)) (ir_ttl q)))
    (Hfresh : live reg r !! cert_key (cm_serial_number (ec_metadata cert)) = None) :
  let sn := cm_serial_number (ec_metadata cert) in
  let expires := now + default (default_ttl (config ca)) (ir_ttl q) in
  let stored_until := reg + secs (num_seconds (expires - reg)) in
  let restarted := CertificateAuthority_new cfg' cert' true in
  (validate_certificate now' sn ca1 r1).2 = (now' <? expires)
  ∧ (reg ≤ expires → stored_until ≤ expires < stored_until + secs 1)
  ∧ ((validate_certificate now' sn restarted r1).2 = true → store ca = true ∧ now' < stored_until)
  ∧ (store ca = true →
     is_ok (persist_certificate reg (active_certificate reg (ir_client_id q) cert) r).2 = true →
     is_ok (get_string now' (cert_key sn) r1).2 = true →
     (validate_certificate now' sn restarted r1).2 = (now' <? stored_until)).
Proof.
  apply issue_client_certificate_ok in Hissue as (Hi & He & _ & Hreg).
  set (expires := now + _) in *. intros sn expires' stored_until restarted. subst expires'.
  set (a := active_certificate reg (ir_client_id q) cert) in *.
  assert (store_ttl reg a = num_seconds (expires - reg)) as Httl by (unfold store_ttl; cbn; by rewrite He).
  rewrite (validate_uncached now' sn restarted) by apply lookup_empty. cbn [store restarted CertificateAuthority_new].
  unfold register_issued in Hreg. fold a in Hreg.
  destruct (register_certificate reg a ca r) as [ca2 r2] eqn:Er. injection Hreg as -> ->.
  split; [|split; [intros; unfold stored_until; by apply num_seconds_gap|]].
  { unfold register_certificate in Er. injection Er as <- _.
    rewrite (validate_cached _ _ _ _ a) by apply lookup_insert_eq. cbn. by rewrite He. }
  destruct (Z.ltb_spec 0 (store_ttl reg a)) as [Hpos|Hneg].
  - assert (store_ttl reg a < 2 ^ 63) as Hlt.
    { rewrite Httl in *. apply num_seconds_pos in Hpos as Hd. pose proof (num_seconds_le (expires - reg)).
      unfold dt_ok, secs in *. lia. }
    pose proof (register_certificate_store reg a ca r Hfresh (conj Hpos Hlt)) as [Hfound Hex].
    rewrite Er in Hfound, Hex. cbn [snd] in Hfound, Hex. rewrite Httl in Hfound, Hex.
    assert (stored_until ≤ cm_expires_at (ac_metadata a)) as Hu.
    { cbn. rewrite He. apply num_seconds_gap. pose proof (num_seconds_pos (expires - reg)). lia. }
    assert (cert_dates_ok a) as Ha by (split_and!; cbn; rewrite ?Hi, ?He; tauto).
    split.
    + destruct Hfound as [Hnone|[Hs Hk]].
      * rewrite stored_verdict_absent; [done|]. rewrite (live_expiry reg now') by lia.
        apply map_lookup_filter_None. by left.
      * rewrite (stored_verdict_until reg now' sn r2 a _) by (done || lia). intros [?%Z.ltb_lt _]%andb_true_iff. done.
    + intros Hs Hp Hg. rewrite (stored_verdict_until reg now' sn r2 a stored_until), Hg by (auto || lia).
      apply andb_true_r.
  - assert (live now' r2 !! cert_key sn = None) as Hnone.
    { unfold register_certificate in Er. rewrite (proj2 (Z.ltb_ge _ _)), andb_false_r in Er by done.
      injection Er as _ <-. rewrite (live_expiry reg now') by lia. apply map_lookup_filter_None. by left. }
    rewrite stored_verdict_absent by done. split; [done|]. intros _ _ _. symmetry.
    apply Z.ltb_ge. unfold stored_until, secs. lia.
Qed.

(** C32: when revocation is final.  From the state a successful revocation leaves, the
    serial number does not validate again at an authority without a store.  With a store, if the
    deletion of the record succeeded, it does not validate again, neither at this
    authority nor at a restarted one, whatever later lookups do.  If the deletion
    failed, which the revocation does not report, both answer what the store still
    says. *)
Theorem ca_revoke_final `{RedisSpec R} `{Codec} `{Rcgen}
    now now' sn ca (r r1 : R) ca1 cfg' cert' (Hle : now ≤ now')
    (Hrevoke : revoke_certificate now sn ca r = (ca1, r1, Ok ())) :
  let restarted := CertificateAuthority_new cfg' cert' true in
  if store ca then
    if is_ok (del_key now (cert_key sn) (get_certificate now sn ca r).1.2).2
    then (validate_certificate now' sn ca1 r1).2 = false
         ∧ (validate_certificate now' sn restarted r1).2 = false
    else (validate_certificate now' sn ca1 r1).2 = stored_verdict now' sn r1
         ∧ (validate_certificate now' sn restarted r1).2 = stored_verdict now' sn r1
  else (validate_certificate now' sn ca1 r1).2 = false.
Proof.
  unfold revoke_certificate in Hrevoke.
  destruct (get_certificate now sn ca r) as [[ca2 r2] c] eqn:Eg.
  assert (store ca2 = store ca) as Hs2.
  { unfold get_certificate in Eg. repeat case_match; by simplify_eq. }
  unfold remove_certificate in Hrevoke. rewrite Hs2 in Hrevoke. injection Hrevoke as <- <- _.
  intros restarted. rewrite !validate_uncached by (apply lookup_delete_eq || apply lookup_empty).
  cbn [store set_certs restarted CertificateAuthority_new fst snd]. rewrite Hs2.
  destruct (store ca); [|done].
  destruct (del_key now (cert_key sn) r2) as [r3 [[]|e]] eqn:Ed; cbn [is_ok fst snd]; [|done].
  apply (query_writes now _ _ (del_writes now (cert_key sn))) in Ed.
  rewrite stored_verdict_absent; [done|].
  rewrite (live_expiry now now') by done. rewrite Ed. apply map_lookup_filter_None. left. apply lookup_delete_eq.
Qed.

(** A revocation whose deletion fails is reported as done and undone by the next
    lookup, also without a restart: the record is read back and validates. *)
Lemma failed_revocation_undone `{RedisSpec R} `{Codec} `{Rcgen} now now' sn ca (r r1 : R) ca1 c t
    (Hle : now ≤ now') (Hstore : store ca = true)
    (Hrevoke : revoke_certificate now sn ca r = (ca1, r1, Ok ()))
    (Hdt : cert_dates_ok c)
    (Hk : live now' r1 !! cert_key sn = Some (REntry (RString (json_to_string (ser_ActiveCertificate c))) t))
    (Hget : is_ok (get_string now' (cert_key sn) r1).2 = true) :
  (validate_certificate now' sn ca1 r1).2 = (now' <? cm_expires_at (ac_metadata c)).
Proof.
  unfold revoke_certificate in Hrevoke.
  destruct (get_certificate now sn ca r) as [[ca2 r2] o] eqn:Eg.
  assert (store ca2 = true) as Hs2.
  { unfold get_certificate in Eg. repeat case_match; by simplify_eq. }
  unfold remove_certificate in Hrevoke. rewrite Hs2 in Hrevoke. injection Hrevoke as <- <- _.
  rewrite validate_uncached by apply lookup_delete_eq. cbn [store set_certs]. rewrite Hs2.
  by rewrite (stored_verdict_present _ _ _ c t), Hget by done.
Qed.

(** ** Examples on the concrete server *)
Module CADemo.
Import MemRedis BitCodec.

(** A stand-in for the X.509 libraries. *)
#[export] Instance toy_rcgen : Rcgen := {|
  KeyPair := string;
  Certificate := CertificateParams string;
  key_generate := Ok;
  from_params := Ok;
  serialize_pem := λ p, Ok "CA";
  serialize_pem_with_signer := λ p _, Ok (str_join "," (distinguished_name p).*2);
  key_pair_pem := λ p, default "" (key_pair p);
  pem_certs := λ s, Ok [s];
  sha256 := id;
|}.

Definition own : Certificate :=
  builder_params 0 (for_server "ca" 0) "ca-key".
Definition authority : CertificateAuthority := CertificateAuthority_new default_ca_config own true.
Definition request : IssuanceRequest := IssuanceRequest_new "req" "tunnel-client-42" "42".
Definition issued := issue_client_certificate 0 "key" (7%N : @uuid bit_codec) request authority (∅ : mem).
Definition issued_cert : EphemeralCertificate :=
  match issued.2 with Ok c => c | Err _ => {| ec_certificate_pem := ""; ec_private_key_pem := "";
    ec_metadata := {| cm_serial_number := ""; cm_subject := ""; cm_issuer := ""; cm_issued_at := 0;
                      cm_expires_at := 0; cm_fingerprint := "" |}; ec_ca_chain_pem := "" |} end.
Definition serial : string := cm_serial_number (ec_metadata issued_cert).

(** Registered half a second after it was made, the record ends half a second
    before the certificate. *)
Definition late := issue_client_certificate_at 0 (millis 500) "key" (7%N : @uuid bit_codec) request authority (∅ : mem).

Lemma ca_restart_transparent_witness :
  (validate_certificate (secs 1799) serial late.1.1 late.1.2).2 = true
  ∧ (validate_certificate (secs 1799) serial authority late.1.2).2 = true.
Proof.
  destruct (ca_restart_transparent 0 (millis 500) (secs 1799) "key" (7%N : @uuid bit_codec) request authority
              (∅ : mem) late.1.2 late.1.1 issued_cert default_ca_config own) as (Hissuing & _ & _ & Hrestarted).
  - eval_eq.
  - by vm_compute.
  - by vm_compute.
  - eval_eq.
  - split; [etransitivity; [exact Hissuing|by vm_compute]|].
    etransitivity; [apply Hrestarted; by vm_compute|by vm_compute].
Defined.

Definition revoked := revoke_certificate (secs 5) serial issued.1.1 issued.1.2.

Lemma ca_revoke_final_witness :
  (validate_certificate (secs 6) serial issued.1.1 issued.1.2).2 = true
  ∧ (validate_certificate (secs 6) serial revoked.1.1 revoked.1.2).2 = false
  ∧ (validate_certificate (secs 6) serial authority revoked.1.2).2 = false.
Proof.
  split; [by vm_compute|].
  assert (is_ok (del_key (secs 5) (cert_key serial)
                   (get_certificate (secs 5) serial issued.1.1 issued.1.2).1.2).2 = true) as Hdel
    by by vm_compute.
  pose proof (ca_revoke_final (secs 5) (secs 6) serial issued.1.1 issued.1.2 revoked.1.2 revoked.1.1
                default_ca_config own ltac:(by vm_compute) ltac:(eval_eq)) as Hfinal.
  rewrite Hdel in Hfinal. exact Hfinal.
Defined.
End CADemo.
