(* ===== verification/CaServices.v ===== *)
(** * Certificate services of the edge

    crates/edgehub/src/certificate_manager.rs: the manager of the router's single
    wildcard certificate, over the certificate authority of [CA].  The PEM key
    reader and the TLS configuration builder are library code ([Rustls]); the
    random bytes and the serial number an issuance draws are arguments. *)

From Stdlib Require Import Sorted.
From S2P Require Import Prelude Redis Serde Models Errors Net RedisCache CA.

(** ** Data *)

Record CertificateInfo := {
  ci_subject_alt_names : list string;
  ci_certificate : string;
  ci_private_key : string;
  ci_expires_at : Z;
  ci_serial_number : string;
}.

Record CertificateConfig := {
  root_domain : string;
  validity_duration : Z;
  renew_before : Z;
  include_localhost : bool;
}.

Definition default_certificate_config : CertificateConfig :=
  {| root_domain := "fleetingdns.run"; validity_duration := minutes 60;
     renew_before := minutes 10; include_localhost := true |}.

(** rustls-pemfile's key reader and the rustls server configuration. *)
Class Rustls := {
  PrivateKeyDer : Type;
  ServerConfig : Type;
  pem_private_key : string → result string (option PrivateKeyDer);
  with_single_cert : list string → PrivateKeyDer → result string ServerConfig;
  set_alpn_protocols : list string → ServerConfig → ServerConfig;
}.

Section manager.
Context `{Hredis : RedisServer R} `{Hcodec : Codec} `{Hrcgen : Rcgen}.
Implicit Types (now : Z) (r : R).

Record CertificateManager := {
  cmgr_config : CertificateConfig;
  cmgr_ca : CertificateAuthority;
  cached : option CertificateInfo;
}.

Definition with_ca (c : CertificateConfig) (ca : CertificateAuthority) : CertificateManager :=
  {| cmgr_config := c; cmgr_ca := ca; cached := None |}.

(** The configuration of the authority that [new] creates. *)
Definition manager_ca_config (c : CertificateConfig) : CaConfig :=
  {| ca_name := ca_name default_ca_config; organization := organization default_ca_config;
     organizational_unit := organizational_unit default_ca_config;
     default_ttl := validity_duration c;
     max_ttl := Z.max (validity_duration c) (max_ttl default_ca_config);
     ca_key_path := ca_key_path default_ca_config; ca_cert_path := ca_cert_path default_ca_config;
     certs_per_hour_per_client := certs_per_hour_per_client default_ca_config |}.

(** [own] is the outcome of creating the authority's own certificate. *)
Definition manager_new (c : CertificateConfig) (own : result FE.t Certificate)
    : result string CertificateManager :=
  cert ← map_err (λ e, "failed to initialise certificate authority: " +:+ FE.to_string e) own;
  Ok (with_ca c (CertificateAuthority_new (manager_ca_config c) cert false)).

Definition subject_alt_names (m : CertificateManager) : list string :=
  let c := cmgr_config m in
  ["*." +:+ root_domain c; root_domain c] ++ (if include_localhost c then ["localhost"] else []).

Definition needs_renewal now (cert : CertificateInfo) (m : CertificateManager) : bool :=
  ci_expires_at cert - now <=? renew_before (cmgr_config m).

Definition set_ca (m : CertificateManager) (ca : CertificateAuthority) : CertificateManager :=
  {| cmgr_config := cmgr_config m; cmgr_ca := ca; cached := cached m |}.
Definition set_cached (m : CertificateManager) (c : CertificateInfo) : CertificateManager :=
  {| cmgr_config := cmgr_config m; cmgr_ca := cmgr_ca m; cached := Some c |}.

Definition issue now (entropy : string) (serial : uuid) (m : CertificateManager) r
    : CertificateManager * R * result string CertificateInfo :=
  let sans := subject_alt_names m in
  let primary := default "" (head sans) in
  let '(ca, r, res) :=
    issue_server_certificate now entropy serial primary (tail sans)
      (Some (validity_duration (cmgr_config m))) (cmgr_ca m) r in
  (set_ca m ca, r,
   ephemeral ← map_err (λ e, "CA failed to issue wildcard certificate for " +:+ primary
                               +:+ ": " +:+ FE.to_string e) res;
   Ok {| ci_subject_alt_names := sans;
         ci_certificate := ec_certificate_pem ephemeral;
         ci_private_key := ec_private_key_pem ephemeral;
         ci_expires_at := cm_expires_at (ec_metadata ephemeral);
         ci_serial_number := cm_serial_number (ec_metadata ephemeral) |}).

Definition certificate now (entropy : string) (serial : uuid) (m : CertificateManager) r
    : CertificateManager * R * result string CertificateInfo :=
  let renew :=
    let '(m, r, res) := issue now entropy serial m r in
    match res with
    | Ok fresh => (set_cached m fresh, r, Ok fresh)
    | Err e => (m, r, Err e)
    end in
  match cached m with
  | Some current => if negb (needs_renewal now current m) then (m, r, Ok current) else renew
  | None => renew
  end.

Definition manager_ca_certificate_pem (m : CertificateManager) : result string string :=
  map_err (λ e, "failed to read CA certificate: " +:+ FE.to_string e)
    (get_ca_certificate_pem (cmgr_ca m)).

Section rustls.
Context `{Hrustls : Rustls}.

Definition to_rustls_certificate (info : CertificateInfo)
    : result string (list string * PrivateKeyDer) :=
  certs ← map_err (λ e, "certificate PEM parse error: " +:+ e) (pem_certs (ci_certificate info));
  match certs with
  | [] => Err "no certificate found in issued PEM"
  | _ =>
      key ← map_err (λ e, "private key PEM parse error: " +:+ e)
              (pem_private_key (ci_private_key info));
      key ← ok_or key "no private key found in issued PEM";
      Ok (certs, key)
  end.

Definition server_config now (entropy : string) (serial : uuid) (alpn : list string)
    (m : CertificateManager) r : CertificateManager * R * result string ServerConfig :=
  let '(m, r, res) := certificate now entropy serial m r in
  (m, r,
   info ← res;
   '(chain, key) ← to_rustls_certificate info;
   cfg ← map_err (λ e, "failed to build rustls server config: " +:+ e) (with_single_cert chain key);
   Ok (set_alpn_protocols alpn cfg)).
End rustls.

(** ** Histories of calls *)

(** A call of [certificate]: its time and the randomness an issuance would draw. *)
Definition Call : Type := Z * string * uuid.
Definition times (calls : list Call) : list Z := (λ c : Call, c.1.1) <$> calls.
(** The time of the last call; [t] when there is none. *)
Definition end_time (t : Z) (calls : list Call) : Z := foldl (λ _ (c : Call), c.1.1) t calls.

Fixpoint serve (m : CertificateManager) r (calls : list Call)
    : CertificateManager * R * list (result string CertificateInfo) :=
  match calls with
  | [] => (m, r, [])
  | (now, entropy, serial) :: calls =>
      let '(m, r, res) := certificate now entropy serial m r in
      let '(m, r, out) := serve m r calls in
      (m, r, res :: out)
  end.

(** A failure of the X.509 libraries is the only one left: key generation, the
    builder, the signature and the fingerprint succeed. *)
Definition rcgen_works (own : Certificate) : Prop :=
  (∀ e, ∃ kp, key_generate e = Ok kp)
  ∧ (∀ p, ∃ c, from_params p = Ok c)
  ∧ (∀ c, ∃ pem, serialize_pem_with_signer c own = Ok pem
                 ∧ ∃ der rest, pem_certs pem = Ok (der :: rest))
  ∧ (∃ pem, serialize_pem own = Ok pem).

Lemma generate_certificate_works now entropy serial q ca :
  rcgen_works (ca_certificate ca) →
  ∃ cert, generate_certificate now entropy serial q ca = Ok cert
          ∧ cm_expires_at (ec_metadata cert) = now + cr_validity_duration q.
Proof.
  intros (Hk & Hf & Hs & [chain Hc]). unfold generate_certificate, get_ca_certificate_pem.
  destruct (Hk entropy) as [kp ->]. cbn. destruct (Hf (builder_params now q kp)) as [c ->]. cbn.
  destruct (Hs c) as (pem & -> & der & rest & Hp). cbn. unfold calculate_fingerprint.
  rewrite Hp, Hc. cbn. eauto.
Qed.

Lemma foldl_with_san_validity sans q :
  cr_validity_duration (foldl with_san q sans) = cr_validity_duration q.
Proof. revert q. induction sans as [|s sans IH]; intros q; [done|]. cbn. by rewrite IH. Qed.
Lemma foldl_with_san_names sans q :
  cr_subject_alt_names (foldl with_san q sans) = cr_subject_alt_names q ++ sans.
Proof.
  revert q. induction sans as [|s sans IH]; intros q; [by rewrite app_nil_r|].
  cbn [foldl]. rewrite IH. cbn. by rewrite <- app_assoc.
Qed.

(** An issuance that the limiter admits succeeds and is accounted for. *)
Lemma issue_works now entropy serial m r :
  rcgen_works (ca_certificate (cmgr_ca m)) →
  validity_duration (cmgr_config m) ≤ max_ttl (config (cmgr_ca m)) →
  let name := "*." +:+ root_domain (cmgr_config m) in
  is_rate_limited now (rate_limiter (cmgr_ca m)) name = false →
  ∃ m' r' info, issue now entropy serial m r = (m', r', Ok info)
    ∧ ci_expires_at info = now + validity_duration (cmgr_config m)
    ∧ ci_subject_alt_names info = subject_alt_names m
    ∧ cmgr_config m' = cmgr_config m ∧ config (cmgr_ca m') = config (cmgr_ca m)
    ∧ ca_certificate (cmgr_ca m') = ca_certificate (cmgr_ca m)
    ∧ rate_limiter (cmgr_ca m') = record_issuance now (rate_limiter (cmgr_ca m)) name.
Proof.
  intros Hw Hv name Hl. unfold issue, issue_server_certificate.
  change (default "" (head (subject_alt_names m))) with name.
  change (name =?s "") with false. unfold check_rate_limits. rewrite Hl.
  change (default (default_ttl (config (cmgr_ca m))) (Some (validity_duration (cmgr_config m))))
    with (validity_duration (cmgr_config m)).
  unfold check_ttl. rewrite (proj2 (Z.ltb_ge _ _)) by done. cbn [mbind result_bind].
  destruct (generate_certificate_works now entropy serial
              (foldl with_san (for_server name (validity_duration (cmgr_config m)))
                 (tail (subject_alt_names m))) (cmgr_ca m) Hw) as (cert & -> & He).
  rewrite foldl_with_san_validity in He.
  unfold register_issued, register_certificate. cbn. eauto 12.
Qed.

(** ** The manager never runs dry *)

(** The time between two issuances is at least this. *)
Definition spacing (c : CertificateConfig) : Z := validity_duration c - renew_before c.

(** The limiter after an issuance for [name] at [t], in a history that started
    at [t0]: its window holds no more issuances than the spacing allows. *)
Definition window_ok (cfg : CertificateConfig) (t0 t : Z) (l : RateLimiter) : Prop :=
  ∃ count start,
    client_counts l !! ("*." +:+ root_domain cfg) = Some (count, start)
    ∧ 1 ≤ count ≤ 10 ∧ start ≤ t ∧ (count - 1) * spacing cfg ≤ t - start
    ∧ 0 ≤ rl_total_issued l ∧ (rl_total_issued l - 1) * spacing cfg ≤ t - t0.

(** The part of the state that no call changes. *)
Definition manager_static (own : Certificate) (cfg : CertificateConfig) (m : CertificateManager) : Prop :=
  cmgr_config m = cfg ∧ ca_certificate (cmgr_ca m) = own
  ∧ config (cmgr_ca m) = manager_ca_config cfg ∧ rl_limit (rate_limiter (cmgr_ca m)) = 10.

(** What holds between two calls. *)
Definition manager_inv (own : Certificate) (cfg : CertificateConfig) (t0 now : Z)
    (m : CertificateManager) : Prop :=
  manager_static own cfg m
  ∧ match cached m with
    | None => client_counts (rate_limiter (cmgr_ca m)) = ∅
              ∧ rl_total_issued (rate_limiter (cmgr_ca m)) = 0
    | Some c => ∃ t,
        t ≤ now ∧ ci_expires_at c = t + validity_duration cfg
        ∧ ci_subject_alt_names c = subject_alt_names m
        ∧ window_ok cfg t0 t (rate_limiter (cmgr_ca m))
    end.

(** A certificate the manager hands out. *)
Definition served_well (cfg : CertificateConfig) (now : Z) (res : result string CertificateInfo) : Prop :=
  ∃ c, res = Ok c ∧ renew_before cfg < ci_expires_at c - now
       ∧ ci_subject_alt_names c =
           ["*." +:+ root_domain cfg; root_domain cfg]
           ++ (if include_localhost cfg then ["localhost"] else []).

Lemma as_u32_small z : 0 ≤ z ≤ 10 → as_u32 z = z.
Proof. intros. unfold as_u32, wrap. apply Z.mod_small. lia. Qed.

Section history.
Context (own : Certificate) (cfg : CertificateConfig).
Context (Hworks : rcgen_works own) (Hspacing : HOUR ≤ 10 * spacing cfg).
Let name := "*." +:+ root_domain cfg.

Lemma spacing_pos : 0 < spacing cfg.
Proof. unfold HOUR, secs in Hspacing. lia. Qed.

(** A limiter whose last issuance is far enough back admits the next one. *)
Lemma limiter_step t0 now l t :
  rl_limit l = 10 → window_ok cfg t0 t l → t + spacing cfg ≤ now →
  is_rate_limited now l name = false ∧ window_ok cfg t0 now (record_issuance now l name).
Proof.
  pose proof spacing_pos as Hs. intros Hl (count & start & Hc & Hcount & Hst & Hw & Htot & Htb) Hnow.
  assert (count < 10 ∨ HOUR ≤ now - start) as Hroom by nia.
  split.
  - unfold is_rate_limited, name. rewrite Hc, Hl.
    destruct (Z.ltb_spec (now - start) HOUR); [|done]. apply Z.leb_gt. lia.
  - unfold window_ok, record_issuance, name. rewrite Hc. cbn [default from_option id].
    pose proof (as_u64_le (rl_total_issued l + 1) ltac:(lia)).
    destruct (Z.leb_spec HOUR (now - start)); cbn [client_counts rl_total_issued];
      (eexists _, _; split; [apply lookup_insert_eq|]); rewrite as_u32_small by lia;
      repeat split; nia.
Qed.

Lemma limiter_first t0 now l :
  client_counts l = ∅ → rl_total_issued l = 0 → t0 ≤ now →
  is_rate_limited now l name = false ∧ window_ok cfg t0 now (record_issuance now l name).
Proof.
  intros Hc Ht Hle. unfold window_ok, is_rate_limited, record_issuance, name.
  rewrite Hc, lookup_empty, Ht. cbn [default from_option id].
  rewrite (proj2 (Z.leb_gt _ _)) by (unfold HOUR, secs; lia).
  split; [done|]. exists 1, now. split; [apply lookup_insert_eq|].
  cbn [rl_total_issued]. change (as_u64 (0 + 1)) with 1. lia.
Qed.

Lemma record_issuance_limit now l n : rl_limit (record_issuance now l n) = rl_limit l.
Proof. unfold record_issuance. by destruct (default _ _), (_ <=? _). Qed.

(** An admitted issuance gives a good certificate and the invariant. *)
Lemma renew_step t0 now entropy serial m r :
  manager_static own cfg m →
  is_rate_limited now (rate_limiter (cmgr_ca m)) name = false →
  window_ok cfg t0 now (record_issuance now (rate_limiter (cmgr_ca m)) name) →
  ∃ m' r' info, issue now entropy serial m r = (m', r', Ok info)
    ∧ served_well cfg now (Ok info) ∧ manager_inv own cfg t0 now (set_cached m' info).
Proof.
  intros (Hcfg & Hown & Hca & Hlim) Hfree Hwin. pose proof spacing_pos as Hs.
  destruct (issue_works now entropy serial m r) as
    (m' & r' & info & -> & He & Hsan & Hcfg' & Hca' & Hown' & Hrl);
    [by rewrite Hown|rewrite Hcfg, Hca; cbn; lia|by rewrite Hcfg|].
  rewrite Hcfg in He, Hrl. exists m', r', info. split; [done|]. split.
  - exists info. split; [done|]. split; [unfold spacing in Hs; lia|]. by rewrite Hsan, <- Hcfg.
  - unfold manager_inv, manager_static. cbn [cmgr_config cmgr_ca cached set_cached].
    rewrite Hcfg', Hown', Hca', Hrl, record_issuance_limit. split; [done|].
    exists now. split_and!; [lia|done| |done]. rewrite Hsan. unfold subject_alt_names. cbn.
    by rewrite Hcfg'.
Qed.

Lemma certificate_step t0 t now entropy serial m r :
  manager_inv own cfg t0 t m → t ≤ now → t0 ≤ now →
  ∃ m' r' res, certificate now entropy serial m r = (m', r', res)
    ∧ served_well cfg now res ∧ manager_inv own cfg t0 now m'.
Proof.
  intros [Hst Hcache] Hle Ht0. pose proof Hst as (Hcfg & _ & _ & Hlim).
  assert (is_rate_limited now (rate_limiter (cmgr_ca m)) name = false →
          window_ok cfg t0 now (record_issuance now (rate_limiter (cmgr_ca m)) name) →
          ∃ m' r' res, (let '(m, r, res) := issue now entropy serial m r in
             match res with
             | Ok fresh => (set_cached m fresh, r, Ok fresh) | Err e => (m, r, Err e) end)
             = (m', r', res) ∧ served_well cfg now res ∧ manager_inv own cfg t0 now m') as Hrenew.
  { intros Hfree Hwin.
    destruct (renew_step t0 now entropy serial m r Hst Hfree Hwin) as (m' & r' & info & -> & ?). eauto. }
  unfold certificate. destruct (cached m) as [c|] eqn:Ec.
  - destruct Hcache as (ti & Hti & Hexp & Hsan & Hwin). unfold needs_renewal. rewrite Hcfg.
    destruct (Z.leb_spec (ci_expires_at c - now) (renew_before cfg)) as [Hdue|Hok]; cbn [negb].
    + apply Hrenew; (apply (limiter_step t0 now _ ti); [done|done|unfold spacing; lia]).
    + eexists m, r, (Ok c). split; [done|]. split.
      * exists c. rewrite Hsan. unfold subject_alt_names. by rewrite Hcfg.
      * split; [done|]. rewrite Ec. exists ti. split_and!; [lia|done..].
  - destruct Hcache as [Hcc Ht]. by apply Hrenew; apply (limiter_first t0).
Qed.

Lemma serve_step t0 calls t m r :
  manager_inv own cfg t0 t m → t0 ≤ t → Sorted Z.le (t :: times calls) →
  ∃ m' r' out, serve m r calls = (m', r', out)
    ∧ Forall2 (λ c res, served_well cfg c.1.1 res) calls out
    ∧ manager_inv own cfg t0 (end_time t calls) m'.
Proof.
  revert t m r. induction calls as [|[[now entropy] serial] calls IH]; intros t m r Hinv Ht0 Hs.
  { exists m, r, []. split_and!; [done|constructor|done]. }
  apply Sorted_inv in Hs as [Hs Hd]. inversion Hd as [|? ? Hle]; subst. change (Sorted Z.le (now :: times calls)) in Hs. cbn in Hle.
  destruct (certificate_step t0 t now entropy serial m r Hinv Hle) as (m1 & r1 & res & E & Hok & Hinv1);
    [lia|].
  destruct (IH now m1 r1 Hinv1) as (m' & r' & out & E' & Hout & Hinv'); [lia|done|].
  exists m', r', (res :: out). cbn [serve]. rewrite E, E'. split_and!; [done|by constructor|exact Hinv'].
Qed.

End history.
End manager.

Lemma end_time_le `{Codec} t calls : Sorted Z.le (t :: times calls) → t ≤ end_time t calls.
Proof.
  revert t. induction calls as [|[[now entropy] serial] calls IH]; intros t Hs; [cbn; lia|].
  apply Sorted_inv in Hs as [Hs Hd]. inversion Hd as [|? ? Hle]; subst. cbn in Hle.
  specialize (IH now Hs). change (t ≤ end_time now calls). lia.
Qed.

(** C25: the router always has a certificate.  When ten renewal periods cover an
    hour, as with the default configuration, a manager created by [manager_new]
    answers every call of every history with a certificate for the wildcard and
    the apex that has more than [renew_before] left; the authority's hourly limit
    never refuses it; and the number of issuances is bounded by the length of the
    history over the renewal period.  The X.509 library succeeds on every
    certificate. *)
Theorem wildcard_always_served `{RedisServer R} `{Codec} `{Rcgen}
    own cfg m (r : R) t0 calls
    (Hnew : manager_new cfg (Ok own) = Ok m) (Hworks : rcgen_works own)
    (Hspacing : HOUR ≤ 10 * spacing cfg)
    (Hsorted : Sorted Z.le (t0 :: times calls)) :
  ∃ m' r' out, serve m r calls = (m', r', out)
    ∧ Forall2 (λ c res, served_well cfg c.1.1 res) calls out
    ∧ (rl_total_issued (rate_limiter (cmgr_ca m')) - 1) * spacing cfg
        ≤ end_time t0 calls - t0.
Proof.
  injection Hnew as <-.
  destruct (serve_step own cfg Hworks Hspacing t0 calls t0
              (with_ca cfg (CertificateAuthority_new (manager_ca_config cfg) own false)) r)
    as (m' & r' & out & E & Hout & Hinv); [done|lia|done|].
  exists m', r', out. split_and!; [done|done|].
  destruct Hinv as [_ Hinv]. destruct (cached m').
  - destruct Hinv as (t & Ht & _ & _ & count & start & Hw). lia.
  - destruct Hinv as [_ ->]. pose proof (spacing_pos cfg Hspacing).
    pose proof (end_time_le t0 calls Hsorted). lia.
Qed.

(** ** Examples on the concrete authority *)
Module CaServicesDemo.
Import MemRedis BitCodec CADemo.

Definition call (t : Z) : Call (Hcodec := bit_codec) := (minutes t, "key", 7%N : @uuid bit_codec).
Definition fresh_manager (c : CertificateConfig) : CertificateManager :=
  with_ca c (CertificateAuthority_new (manager_ca_config c) own false).

(** Four calls, of which the third renews. *)
Definition day : list (Call (Hcodec := bit_codec)) := [call 0; call 49; call 50; call 99].

Lemma wildcard_always_served_witness :
  (∃ m' r' out,
    serve (fresh_manager default_certificate_config) (∅ : mem) day = (m', r', out)
    ∧ Forall2 (λ c res, served_well default_certificate_config c.1.1 res) day out
    ∧ (rl_total_issued (rate_limiter (cmgr_ca m')) - 1) * minutes 50 ≤ minutes 99 - 0)
  ∧ rl_total_issued (rate_limiter (cmgr_ca
      (serve (fresh_manager default_certificate_config) (∅ : mem) day).1.1)) = 2.
Proof.
  split; [|by vm_compute].
  apply (wildcard_always_served own default_certificate_config _ (∅ : mem) 0 day).
  - reflexivity.
  - split_and!; [intros e; by exists e|intros p; by exists p| |by eexists].
    intros c. eexists. split; [done|]. eauto.
  - by vm_compute.
  - repeat constructor; by vm_compute.
Defined.

(** A renewal period shorter than the authority's limit allows runs into the
    limit: every call issues, and the eleventh within the hour is refused. *)
Definition eager_config : CertificateConfig :=
  {| root_domain := "fleetingdns.run"; validity_duration := minutes 30;
     renew_before := minutes 120; include_localhost := true |}.

Example eager_renewal_refused :
  (λ res : result string CertificateInfo, match res with Ok _ => true | Err _ => false end)
    <$> (serve (fresh_manager eager_config) (∅ : mem) (call <$> [0; 1; 2; 3; 4; 5; 6; 7; 8; 9; 10])).2
  = repeat true 10 ++ [false].
Proof. by vm_compute. Qed.

End CaServicesDemo.
