(* ===== verification/Storage.v ===== *)
(** * Tunnel storage of the control API

    [TunnelStorage] of crates/backendapi/src/storage.rs: tunnel records with
    their user lookup, the subdomain claim, the DNS slot mapping, session grants,
    SSH sessions and the port allocator.  An operation happens at one instant
    [now]; the environment variable [EDGE_PUBLIC_IP] and the random numbers are
    arguments. *)

From S2P Require Import Prelude Redis Serde Models Errors Net RedisCache Float.

Definition subdomain_key (s : string) : string := "subdomain:" +:+ s.
Definition dns_slot_key (fqdn : string) : string := "slot:" +:+ fqdn.
Definition port_key (port : Z) : string := "port:" +:+ pretty port.

#[export] Hint Unfold subdomain_key dns_slot_key port_key : keys.

Definition PORT_RANGE_START : Z := 10000.
Definition PORT_RANGE_END : Z := 65535.
Definition MAX_ATTEMPTS : Z := 1000.
Definition SAMPLE_SIZE : Z := 1000.

Module TunnelStorage.
Section ops.
Context `{Hredis : RedisServer R} `{Hcodec : Codec}.
#[local] Abbreviation api A := (io R AE.t A).
Implicit Types (now : Z).

(** [.map_err(|e| ApiError::StorageError(format!("{msg}: {e}")))]. *)
Definition storage {A} (msg : string) (c : io R redis_error A) : api A :=
  io_map_err (λ e, AE.StorageError (msg +:+ ": " +:+ e)) c.

Definition get_connection : api () := storage "Failed to get Redis connection" r_connect.

(** The seconds left until the expiry, [as u64]. *)
Definition tunnel_ttl now (t : Tunnel) : Z := as_u64 (num_seconds (t_expires_at t - now)).

Definition edge_ip (edge_public_ip : option string) : string :=
  default "127.0.0.1" edge_public_ip.

Definition conflict (subdomain : string) : AE.t :=
  AE.BadRequest ("Subdomain '" +:+ subdomain +:+ "' is already in use by an active tunnel").

(** The claim of the subdomain: [SET NX EX], or the refresh of one's own claim. *)
Definition claim_subdomain now (t : Tunnel) (ttl : Z) : api () :=
  let key := subdomain_key (t_subdomain t) in
  let id := uuid_to_string (t_id t) in
  claimed ← storage "Failed to claim subdomain" (r_set_nx_ex now key id ttl);
  match claimed with
  | Some _ => mret ()
  | None =>
      holder ← storage "Failed to read subdomain holder" (r_get now key);
      if decide (holder = Some id)
      then storage "Failed to refresh subdomain TTL" (r_expire now key (as_i64 ttl))
      else io_fail (conflict (t_subdomain t))
  end.

Definition store_tunnel now (edge_public_ip : option string) (t : Tunnel) : api () :=
  _ ← get_connection;
  let id := uuid_to_string (t_id t) in
  let ttl := tunnel_ttl now t in
  _ ← storage "Failed to store tunnel data in Redis"
        (r_set_ex now (tunnel_key id) (json_to_string (ser_Tunnel t)) ttl);
  let user_key := tunnel_lookup_key (t_github_user_id t) in
  existing ← storage "Failed to get existing user tunnel lookup" (r_get now user_key);
  let lookup :=
    add_tunnel (lookup_or_new (t_github_user_id t) (t_github_username t) existing) id in
  _ ← storage "Failed to store user tunnel lookup in Redis"
        (r_set now user_key (json_to_string (ser_UserTunnelLookup lookup)));
  _ ← claim_subdomain now t ttl;
  storage "Failed to create DNS slot mapping"
    (r_set_ex now (dns_slot_key (t_fqdn t)) (edge_ip edge_public_ip) ttl).

Definition grant_doc now (github_user_id : string) : json :=
  JObj [("github_user_id", JStr github_user_id); ("granted_at", JStr (to_rfc3339 now))].

Definition store_session_grant now (subdomain token github_user_id : string)
    (ttl_seconds : Z) : api () :=
  _ ← get_connection;
  storage "Failed to store session grant"
    (r_set_ex now (session_grant_key subdomain token)
       (json_to_string (grant_doc now github_user_id)) ttl_seconds).

Definition ssh_session (session_id github_user_id public_key fingerprint : string)
    (expires_at : Z) : SessionData :=
  {| s_github_user_id := github_user_id; s_public_key := public_key;
     s_fingerprint := fingerprint; s_expires_at := expires_at; s_session_id := session_id |}.

(** At least one second, plus a minute of grace. *)
Definition session_ttl now (expires_at : Z) : Z :=
  as_u64 (Z.max (num_seconds (expires_at - now)) 1) + 60.

Definition store_ssh_session now (session_id github_user_id public_key fingerprint : string)
    (expires_at : Z) : api () :=
  _ ← get_connection;
  storage "Failed to store SSH session"
    (r_set_ex now ("session:" +:+ session_id)
       (json_to_string (ser_SessionData
          (ssh_session session_id github_user_id public_key fingerprint expires_at)))
       (session_ttl now expires_at)).

Definition is_tunnel_live now (tunnel_id : string) : api bool :=
  _ ← get_connection;
  v ← storage "Failed to read tunnel liveness" (r_get now (tunnel_live_key tunnel_id));
  mret (bool_decide (is_Some v)).

(** The text of a parser's error is not modelled. *)
Definition get_tunnel now (tunnel_id : uuid) : api (option Tunnel) :=
  _ ← get_connection;
  data ← storage "Failed to get tunnel" (r_get now (tunnel_key (uuid_to_string tunnel_id)));
  match data with
  | Some data =>
      io_lift (match from_str de_Tunnel data with
               | Some t => Ok (Some t)
               | None => Err (AE.StorageError "Failed to deserialize tunnel")
               end)
  | None => mret None
  end.

Definition get_tunnel_by_subdomain now (subdomain : string) : api (option Tunnel) :=
  _ ← get_connection;
  id ← storage "Failed to get subdomain mapping" (r_get now (subdomain_key subdomain));
  match id with
  | Some id =>
      match uuid_parse id with
      | Some u => get_tunnel now u
      | None => io_fail (AE.StorageError "Failed to parse tunnel ID")
      end
  | None => mret None
  end.

(** The tunnels of a list of identifiers; unreadable ones are skipped. *)
Fixpoint collect_tunnels now (ids : list string) : api (list Tunnel) :=
  match ids with
  | [] => mret []
  | id :: ids =>
      match uuid_parse id with
      | Some u =>
          io_try (get_tunnel now u) (λ res,
            ts ← collect_tunnels now ids;
            mret (match res with Ok (Some t) => t :: ts | _ => ts end))
      | None => collect_tunnels now ids
      end
  end.

Definition list_user_tunnels now (github_user_id : string) : api (list Tunnel) :=
  _ ← get_connection;
  data ← storage "Failed to get user tunnel lookup" (r_get now (tunnel_lookup_key github_user_id));
  match data with
  | Some data =>
      match from_str de_UserTunnelLookup data with
      | Some l => collect_tunnels now (l_tunnels l)
      | None => io_fail (AE.StorageError "Failed to deserialize user tunnel lookup")
      end
  | None => mret []
  end.

Definition update_tunnel_status now (edge_public_ip : option string) (tunnel_id : uuid)
    (status : TunnelStatus) : api () :=
  t ← get_tunnel now tunnel_id;
  match t with
  | Some t => store_tunnel now edge_public_ip (set_status t status)
  | None => mret ()
  end.

(** [lookup.tunnels.retain(|t| t != id)]. *)
Definition drop_tunnel (l : UserTunnelLookup) (id : string) : UserTunnelLookup :=
  {| l_github_user_id := l_github_user_id l; l_github_username := l_github_username l;
     l_tunnels := filter (λ t, t ≠ id) (l_tunnels l) |}.

Definition delete_tunnel now (tunnel_id : uuid) : api bool :=
  t ← get_tunnel now tunnel_id;
  match t with
  | None => mret false
  | Some t =>
      _ ← get_connection;
      let id := uuid_to_string tunnel_id in
      let user_key := tunnel_lookup_key (t_github_user_id t) in
      _ ← storage "Failed to delete tunnel" (r_del now (tunnel_key id));
      _ ← storage "Failed to delete subdomain mapping"
            (r_del now (subdomain_key (t_subdomain t)));
      _ ← storage "Failed to delete DNS slot mapping" (r_del now (dns_slot_key (t_fqdn t)));
      existing ← storage "Failed to read user tunnel lookup" (r_get now user_key);
      match existing ≫= from_str de_UserTunnelLookup with
      | Some l =>
          _ ← storage "Failed to remove from user tunnels"
                (r_set now user_key (json_to_string (ser_UserTunnelLookup (drop_tunnel l id))));
          mret true
      | None => mret true
      end
  end.

(** The loop of [cleanup_expired_tunnels]: errors on single keys are skipped. *)
Fixpoint cleanup_tunnels now (keys : list string) (cleaned : Z) : api Z :=
  match keys with
  | [] => mret cleaned
  | key :: keys =>
      io_try (r_get now key) (λ res,
        match res with
        | Ok (Some data) =>
            match from_str de_Tunnel data with
            | Some t =>
                if is_expired now t then
                  io_try (r_del now key) (λ res,
                    cleanup_tunnels now keys (if is_ok res then cleaned + 1 else cleaned))
                else cleanup_tunnels now keys cleaned
            | None => cleanup_tunnels now keys cleaned
            end
        | _ => cleanup_tunnels now keys cleaned
        end)
  end.

Definition cleanup_expired_tunnels now : api Z :=
  _ ← get_connection;
  keys ← storage "Failed to get tunnel keys" (r_keys now "tunnel:*");
  cleanup_tunnels now keys 0.

Definition get_active_tunnel_count now : api Z :=
  _ ← get_connection;
  keys ← storage "Failed to get tunnel keys" (r_keys now "tunnel:*");
  mret (Z.of_nat (length keys)).

Definition is_subdomain_available now (subdomain : string) : api bool :=
  t ← get_tunnel_by_subdomain now subdomain;
  mret (bool_decide (t = None)).

(** ** Ports *)

Definition next_port (port : Z) : Z :=
  if port =? PORT_RANGE_END then PORT_RANGE_START else port + 1.

(** The loop, with the attempts left. *)
Fixpoint try_ports now (tunnel_id : string) (ttl : Z) (attempts : nat) (port : Z) : api Z :=
  match attempts with
  | O => io_fail (AE.StorageError "No available ports found after 1000 attempts")
  | S attempts =>
      claimed ← storage "Failed to reserve port" (r_set_nx_ex now (port_key port) tunnel_id ttl);
      match claimed with
      | Some _ => mret port
      | None => try_ports now tunnel_id ttl attempts (next_port port)
      end
  end.

(** [start_port] is the random start, in the half-open allocation range. *)
Definition allocate_port now (start_port : Z) (tunnel_id : string) (certificate_ttl : Z)
    : api Z :=
  _ ← get_connection;
  try_ports now tunnel_id certificate_ttl (Z.to_nat MAX_ATTEMPTS) start_port.

Definition release_port now (port : Z) : api () :=
  _ ← get_connection; storage "Failed to release port" (r_del now (port_key port)).

Fixpoint sample_ports now (ports : list Z) (allocated : Z) : api Z :=
  match ports with
  | [] => mret allocated
  | port :: ports =>
      v ← storage "Failed to check port" (r_get now (port_key port));
      sample_ports now ports (if decide (is_Some v) then allocated + 1 else allocated)
  end.

Definition total_ports : Z := PORT_RANGE_END - PORT_RANGE_START + 1.

(** [(allocated as f64 / (SAMPLE_SIZE as f64 / total_ports as f64)) as u16]. *)
Definition estimated_allocated (allocated : Z) : Z :=
  f64_to_u16 (f64_div (f64_of_Z allocated)
                (f64_div (f64_of_Z SAMPLE_SIZE) (f64_of_Z total_ports))).

(** [samples] are the random ports, [SAMPLE_SIZE] of them. *)
Definition get_port_stats now (samples : list Z) : api (Z * Z * Z) :=
  _ ← get_connection;
  allocated ← sample_ports now samples 0;
  let est := estimated_allocated allocated in
  mret (est, total_ports - est, total_ports).

End ops.
End TunnelStorage.

(** ** Storing a tunnel *)

Section store.
Context `{Hspec : RedisSpec R} `{Hcodec : Codec}.
Import TunnelStorage.
Implicit Types (m : gmap string rentry) (t : Tunnel).

(** The lookup record a store writes. *)
Definition updated_lookup m t : UserTunnelLookup :=
  add_tunnel (lookup_or_new (t_github_user_id t) (t_github_username t)
                (str_at m (tunnel_lookup_key (t_github_user_id t))))
    (uuid_to_string (t_id t)).

(** The record and the lookup, written before the claim. *)
Definition put_record now t m : gmap string rentry :=
  <[tunnel_lookup_key (t_github_user_id t) :=
      REntry (RString (json_to_string (ser_UserTunnelLookup (updated_lookup m t)))) None]>
    (put_ex now (tunnel_key (uuid_to_string (t_id t))) (json_to_string (ser_Tunnel t))
       (tunnel_ttl now t) m).

(** The claim: a fresh key, or a refreshed one. *)
Definition put_claim now t m : gmap string rentry :=
  let key := subdomain_key (t_subdomain t) in
  match m !! key with
  | None => put_ex now key (uuid_to_string (t_id t)) (tunnel_ttl now t) m
  | Some _ => expire_map now key (as_i64 (tunnel_ttl now t)) m
  end.

Definition put_slot now ip t m : gmap string rentry :=
  put_ex now (dns_slot_key (t_fqdn t)) (edge_ip ip) (tunnel_ttl now t) m.

Definition put_tunnel now ip t m : gmap string rentry :=
  put_slot now ip t (put_claim now t (put_record now t m)).

(** The identifier that holds a subdomain. *)
Definition holder m (s : string) : option string := str_at m (subdomain_key s).

Lemma put_record_holder now t m k :
  k = subdomain_key (t_subdomain t) ∨ k = dns_slot_key (t_fqdn t) →
  put_record now t m !! k = m !! k.
Proof. unfold put_record, put_ex. intros [->| ->]; by map_keys. Qed.

Lemma str_at_ext m m' k : m !! k = m' !! k → str_at m k = str_at m' k.
Proof. intros E. unfold str_at. by rewrite E. Qed.

(** The writes before the claim. *)
Lemma store_tunnel_record now ip t r r' :
  store_tunnel now ip t r = (r', Ok ()) →
  ∃ r1, live now r1 = put_record now t (live now r) ∧
    (_ ← claim_subdomain now t (tunnel_ttl now t);
     storage "Failed to create DNS slot mapping"
       (r_set_ex now (dns_slot_key (t_fqdn t)) (edge_ip ip) (tunnel_ttl now t))) r1
    = (r', Ok ()).
Proof.
  unfold store_tunnel, get_connection, storage. intros Hr.
  apply io_bind_ok in Hr as (r0 & [] & H0%io_map_err_ok & Hr).
  apply io_bind_ok in Hr as (r1 & [] & H1%io_map_err_ok & Hr).
  apply io_bind_ok in Hr as (r2 & ex & H2%io_map_err_ok & Hr).
  apply io_bind_ok in Hr as (r3 & [] & H3%io_map_err_ok & Hr).
  apply connect_spec with (now := now) in H0.
  apply (proj1 (set_ex_writes now _ _ _)) in H1.
  apply get_ok_at in H2 as [-> H2].
  apply (proj1 (set_writes now _ _)) in H3.
  exists r3. split; [|done]. unfold put_record. rewrite H3, H2, H1, H0.
  do 2 f_equal. unfold updated_lookup. do 5 f_equal.
  apply str_at_ext. unfold put_ex. by map_keys.
Qed.

Lemma claim_subdomain_spec now t ttl r r' :
  claim_subdomain now t ttl r = (r', Ok ()) →
  (live now r !! subdomain_key (t_subdomain t) = None ∧
   live now r' = put_ex now (subdomain_key (t_subdomain t)) (uuid_to_string (t_id t)) ttl
                   (live now r))
  ∨ (holder (live now r) (t_subdomain t) = Some (uuid_to_string (t_id t)) ∧
     live now r' = expire_map now (subdomain_key (t_subdomain t)) (as_i64 ttl) (live now r)).
Proof.
  unfold claim_subdomain, storage. intros Hr.
  apply io_bind_ok in Hr as (r1 & o & H1%io_map_err_ok & Hr).
  pose proof (set_nx_ex_reply _ _ _ _ _ _ _ H1) as [_ Ho].
  apply (proj1 (set_nx_ex_writes now _ _ _)) in H1. destruct o as [x|].
  - left. apply io_ret_inv in Hr as [-> _]. rewrite (proj1 Ho) in H1 by eauto.
    split; [by apply Ho|done].
  - right. destruct (live now r !! _) eqn:E; [|by destruct (proj2 Ho eq_refl)].
    apply io_bind_ok in Hr as (r2 & h & [-> H2]%io_map_err_ok%get_ok_at & Hr).
    case_decide as Hh; [|by unfold io_fail in Hr].
    apply io_map_err_ok, (proj1 (expire_writes now _ _)) in Hr.
    unfold holder. rewrite Hr, H2, H1 in *. done.
Qed.

(** A successful store owned or took the claim, and performed exactly the
    writes of [put_tunnel]. *)
Lemma store_tunnel_effect now ip t r r' :
  store_tunnel now ip t r = (r', Ok ()) →
  live now r' = put_tunnel now ip t (live now r) ∧
  0 < tunnel_ttl now t < 2 ^ 63 ∧
  (live now r !! subdomain_key (t_subdomain t) = None
   ∨ holder (live now r) (t_subdomain t) = Some (uuid_to_string (t_id t))).
Proof.
  intros (r1 & Hl1 & Hr)%store_tunnel_record.
  apply io_bind_ok in Hr as (r2 & [] & Hc & Hr%io_map_err_ok).
  pose proof (set_ex_positive _ _ _ _ _ _ Hr) as Hpos.
  apply (proj1 (set_ex_writes now _ _ _)) in Hr.
  assert (live now r1 !! subdomain_key (t_subdomain t)
          = live now r !! subdomain_key (t_subdomain t)) as Hsub
    by (rewrite Hl1; apply put_record_holder; auto).
  apply claim_subdomain_spec in Hc as [[Hn Hl2]|[Hh Hl2]].
  - split; [|split; [done|left; congruence]]. unfold put_tunnel, put_slot, put_claim.
    rewrite <- Hl1, Hn. congruence.
  - unfold holder in Hh. rewrite (str_at_ext _ _ _ Hsub) in Hh. split; [|split; [done|by right]].
    unfold put_tunnel, put_slot, put_claim. rewrite <- Hl1, Hsub.
    unfold str_at in Hh. destruct (live now r !! _) eqn:E; [|done]. congruence.
Qed.

(** The writes of a store, seen key by key. *)
Lemma put_tunnel_record now ip t m :
  put_tunnel now ip t m !! tunnel_key (uuid_to_string (t_id t)) =
    Some (REntry (RString (json_to_string (ser_Tunnel t)))
            (Some (now + secs (tunnel_ttl now t)))).
Proof.
  unfold put_tunnel, put_slot, put_claim, put_record, put_ex, expire_map. map_keys.
  repeat case_match; try case_decide; by map_keys.
Qed.

Lemma put_tunnel_lookup now ip t m :
  put_tunnel now ip t m !! tunnel_lookup_key (t_github_user_id t) =
    Some (REntry (RString (json_to_string (ser_UserTunnelLookup (updated_lookup m t)))) None).
Proof.
  unfold put_tunnel, put_slot, put_claim, put_record, put_ex, expire_map. map_keys.
  repeat case_match; try case_decide; by map_keys.
Qed.

Lemma put_tunnel_slot now ip t m :
  put_tunnel now ip t m !! dns_slot_key (t_fqdn t) =
    Some (REntry (RString (edge_ip ip)) (Some (now + secs (tunnel_ttl now t)))).
Proof. unfold put_tunnel, put_slot, put_ex. by map_keys. Qed.

Lemma put_tunnel_claim now ip t m :
  0 < tunnel_ttl now t < 2 ^ 63 →
  m !! subdomain_key (t_subdomain t) = None
    ∨ holder m (t_subdomain t) = Some (uuid_to_string (t_id t)) →
  put_tunnel now ip t m !! subdomain_key (t_subdomain t) =
    Some (REntry (RString (uuid_to_string (t_id t))) (Some (now + secs (tunnel_ttl now t)))).
Proof.
  intros Hpos Hh. unfold put_tunnel, put_slot, put_ex at 1. map_keys. unfold put_claim.
  rewrite put_record_holder by auto. unfold holder, str_at in Hh.
  destruct (m !! subdomain_key (t_subdomain t)) as [[[s|s] e]|] eqn:E;
    [..|unfold put_ex; by map_keys]; destruct Hh as [Hh|Hh]; simplify_eq.
  unfold expire_map. rewrite put_record_holder, E by auto.
  rewrite as_i64_id by (unfold i64_ok; lia). case_decide; [lia|]. by map_keys.
Qed.

(** Every other key is left alone. *)
Lemma put_tunnel_other now ip t m k :
  k ≠ tunnel_key (uuid_to_string (t_id t)) → k ≠ tunnel_lookup_key (t_github_user_id t) →
  k ≠ subdomain_key (t_subdomain t) → k ≠ dns_slot_key (t_fqdn t) →
  put_tunnel now ip t m !! k = m !! k.
Proof.
  intros. unfold put_tunnel, put_slot, put_claim, put_record, put_ex, expire_map.
  repeat case_match; try case_decide; by map_keys.
Qed.
End store.

(** ** Exclusive subdomains, round trip, routing *)

(** C1: cross-tunnel isolation.  While the claim of a stored tunnel is live, a
    store of a tunnel with the same subdomain succeeds only for the same tunnel
    (a re-store); two different tunnels never both own a subdomain. *)
Theorem store_tunnel_exclusive `{RedisSpec R} `{Codec} now now' ip ip' t t' (r r1 r2 : R)
    (Hs1 : TunnelStorage.store_tunnel now ip t r = (r1, Ok ()))
    (Hs2 : TunnelStorage.store_tunnel now' ip' t' r1 = (r2, Ok ()))
    (Hsub : t_subdomain t' = t_subdomain t)
    (Hwindow : now ≤ now' < now + secs (TunnelStorage.tunnel_ttl now t)) :
  t_id t' = t_id t ∧ holder (live now' r2) (t_subdomain t) = Some (uuid_to_string (t_id t)).
Proof.
  apply store_tunnel_effect in Hs1 as (E1 & Hpos & Hh1).
  apply store_tunnel_effect in Hs2 as (E2 & Hpos' & Hh2).
  pose proof (put_tunnel_claim now ip t _ Hpos Hh1) as Hc. rewrite <- E1 in Hc.
  apply (live_later now now') in Hc; [|lia]. cbn in Hc.
  destruct (Z.ltb_spec now' (now + secs (TunnelStorage.tunnel_ttl now t))) as [_|?]; [|lia].
  assert (holder (live now' r1) (t_subdomain t) = Some (uuid_to_string (t_id t))) as Hold
    by (unfold holder, str_at; by rewrite Hc).
  rewrite Hsub in Hh2.
  assert (t_id t' = t_id t) as Hid.
  { destruct Hh2 as [Hn|Hn]; [congruence|]. rewrite Hold in Hn.
    apply uuid_to_string_inj. congruence. }
  split; [done|]. rewrite <- Hsub, <- Hid in *.
  unfold holder, str_at. by rewrite E2, put_tunnel_claim by done.
Qed.

(** A stored tunnel is read back unchanged by the API until the second its
    time to live ends, and is gone from then on. *)
Lemma store_get_tunnel `{RedisSpec R, !RedisAvailable R} `{Codec} now now' ip t (r r1 : R)
    (Hok : tunnel_ok t) (Hs1 : TunnelStorage.store_tunnel now ip t r = (r1, Ok ()))
    (Hle : now ≤ now') :
  ∃ r2, TunnelStorage.get_tunnel now' (t_id t) r1 =
    (r2, Ok (if now' <? now + secs (TunnelStorage.tunnel_ttl now t) then Some t else None)).
Proof.
  apply store_tunnel_effect in Hs1 as (E1 & _).
  pose proof (put_tunnel_record now ip t (live now r)) as Hk. rewrite <- E1 in Hk.
  apply (live_later now now') in Hk; [|done]. cbn in Hk.
  enough (runs now' (TunnelStorage.get_tunnel now' (t_id t)) (live now' r1)
    (if now' <? now + secs (TunnelStorage.tunnel_ttl now t) then Some t else None) (live now' r1))
    as Hruns by (destruct (Hruns r1 eq_refl) as (r2 & E2 & _); eauto).
  unfold TunnelStorage.get_tunnel, TunnelStorage.get_connection, TunnelStorage.storage.
  eapply runs_bind; [apply runs_map_err, runs_connect|].
  destruct (_ <? _); (eapply runs_bind; [apply runs_map_err, runs_get; by rewrite Hk|]).
  - cbn beta iota. rewrite from_str_to_string, de_ser_Tunnel by auto using tunnel_json_wf.
    apply runs_lift.
  - apply runs_ret.
Qed.

Section route.
Context `{Hspec : RedisSpec R} `{Hcodec : Codec}.

Lemma info_at_own now ip t m :
  tunnel_ok t → info_at (put_tunnel now ip t m) (uuid_to_string (t_id t)) = Some (info_of t).
Proof.
  intros Hok. unfold info_at, str_at. rewrite put_tunnel_record. cbn.
  by rewrite from_str_to_string, de_TunnelInfo_ser_Tunnel by auto using tunnel_json_wf.
Qed.

Lemma info_at_other now ip t m id :
  id ≠ uuid_to_string (t_id t) → info_at (put_tunnel now ip t m) id = info_at m id.
Proof.
  intros Hid. unfold info_at, str_at. rewrite put_tunnel_other; [done| |key_ne..].
  intros E. by apply str_app_inj_l in E.
Qed.

Lemma add_tunnel_in l id id' : id' ∈ l_tunnels (add_tunnel l id) ↔ id' = id ∨ id' ∈ l_tunnels l.
Proof.
  cbn. case_decide as Hin; [split; [tauto|intros [->|?]; done]|].
  rewrite elem_of_app, list_elem_of_singleton. tauto.
Qed.

(** A store lists its own identifier and no other new one. *)
Lemma listed_put now ip t m id :
  listed (put_tunnel now ip t m) id → id = uuid_to_string (t_id t) ∨ listed m id.
Proof.
  intros (user & l & Hl & Hid). unfold lookup_at, str_at in Hl.
  destruct (decide (tunnel_lookup_key user = tunnel_lookup_key (t_github_user_id t))) as [E|Hne].
  - rewrite E, put_tunnel_lookup in Hl. cbn in Hl.
    rewrite from_str_to_string, de_ser_lookup in Hl by apply lookup_json_wf. simplify_eq.
    unfold updated_lookup in Hid. apply add_tunnel_in in Hid as [->|Hid]; [by left|right].
    unfold lookup_or_new in Hid. fold (lookup_at m (tunnel_lookup_key (t_github_user_id t))) in Hid.
    destruct (lookup_at m _) as [l|] eqn:El; cbn in Hid; [|by apply not_elem_of_nil in Hid].
    by exists (t_github_user_id t), l.
  - right. exists user, l. split; [|done]. unfold lookup_at, str_at.
    rewrite put_tunnel_other in Hl; [done|key_ne|done|key_ne..].
Qed.

Lemma listed_later now now' (r : R) id : now ≤ now' → listed (live now' r) id → listed (live now r) id.
Proof.
  intros Hle (user & l & Hl & Hid). exists user, l. split; [|done]. unfold lookup_at in *.
  destruct (str_at (live now' r) _) eqn:E; [|done]. by rewrite (str_at_later now now' _ _ _ Hle E).
Qed.

Lemma info_at_later now now' (r : R) id i :
  now ≤ now' → info_at (live now' r) id = Some i → info_at (live now r) id = Some i.
Proof.
  intros Hle. unfold info_at. destruct (str_at (live now' r) _) eqn:E; [|done].
  by rewrite (str_at_later now now' _ _ _ Hle E).
Qed.

(** Agreement on the records and lookups of tunnels. *)
Definition agree_tunnels (m m' : gmap string rentry) : Prop :=
  (∀ id, m !! tunnel_key id = m' !! tunnel_key id)
  ∧ (∀ user, m !! tunnel_lookup_key user = m' !! tunnel_lookup_key user).

#[export] Instance agree_tunnels_equiv : Equivalence agree_tunnels.
Proof.
  split; [by split| |].
  - intros m m' [Hk Hl]. by split.
  - intros m m' m'' [Hk Hl] [Hk' Hl']. split; intros; [by rewrite Hk|by rewrite Hl].
Qed.
#[export] Instance listed_proper : Proper (agree_tunnels ==> (=) ==> iff) listed.
Proof.
  intros m m' [_ Hl] id ? <-. unfold listed, lookup_at, str_at. by setoid_rewrite Hl.
Qed.
#[export] Instance info_at_proper : Proper (agree_tunnels ==> (=) ==> (=)) info_at.
Proof. intros m m' [Hk _] id ? <-. unfold info_at, str_at. by rewrite Hk. Qed.

Lemma stored_registered now now' ip t m (r1 : R) :
  tunnel_ok t → agree_tunnels (live now r1) (put_tunnel now ip t m) →
  now ≤ now' < now + secs (TunnelStorage.tunnel_ttl now t) →
  registered (live now' r1) (info_of t).
Proof.
  intros Hok [E1 E2] Hw. exists (uuid_to_string (t_id t)). split.
  - pose proof (put_tunnel_lookup now ip t m) as Hk. rewrite <- E2 in Hk.
    apply (live_later now now') in Hk; [|lia]. cbn in Hk.
    eexists _, _. split.
    + unfold lookup_at, str_at. rewrite Hk. cbn.
      by rewrite from_str_to_string, de_ser_lookup by apply lookup_json_wf.
    + by apply add_tunnel_in; left.
  - pose proof (put_tunnel_record now ip t m) as Hk. rewrite <- E1 in Hk.
    apply (live_later now now') in Hk; [|lia]. cbn in Hk.
    destruct (Z.ltb_spec now' (now + secs (TunnelStorage.tunnel_ttl now t))) as [_|?]; [|lia].
    unfold info_at, str_at. rewrite Hk. cbn.
    by rewrite from_str_to_string, de_TunnelInfo_ser_Tunnel by auto using tunnel_json_wf.
Qed.

(** When no other listed record carried a property of the stored tunnel, the
    stored tunnel is the only one that has it. *)
Lemma stored_unique now now' ip t m (r1 : R) (P : TunnelInfo → Prop) i :
  tunnel_ok t → agree_tunnels (live now r1) (put_tunnel now ip t m) → now ≤ now' →
  (∀ id i, listed m id → info_at m id = Some i → P i → id = uuid_to_string (t_id t)) →
  registered (live now' r1) i → P i → i = info_of t.
Proof.
  intros Hok E1 Hle Huniq (id & Hl & Hi) HP.
  apply (listed_later now now') in Hl; [|done]. apply (info_at_later now now') in Hi; [|done].
  rewrite E1 in Hl, Hi. destruct (decide (id = uuid_to_string (t_id t))) as [->|Hne].
  - rewrite info_at_own in Hi by done. by simplify_eq.
  - rewrite info_at_other in Hi by done. apply listed_put in Hl as [?|Hl]; [done|].
    by destruct (Hne (Huniq id i Hl Hi HP)).
Qed.
End route.

(** The edge routes to the stored tunnel.  After a store, and while the
    record lives, the edge's lookup of the subdomain answers with the hub's view
    of exactly that tunnel (same slot, protection and policy), provided no other
    listed record already carried the subdomain. *)
Lemma edge_routes_stored_tunnel `{RedisSpec R} `{Codec} now now' ip t (r r1 r2 : R) o
    (Hok : tunnel_ok t) (Hs1 : TunnelStorage.store_tunnel now ip t r = (r1, Ok ()))
    (Hw : now ≤ now' < now + secs (TunnelStorage.tunnel_ttl now t))
    (Huniq : ∀ id i, listed (live now r) id → info_at (live now r) id = Some i →
       i_subdomain i = t_subdomain t → id = uuid_to_string (t_id t))
    (Hget : get_tunnel_by_subdomain now' (t_subdomain t) r1 = (r2, Ok o)) :
  o = Some (info_of t).
Proof.
  apply store_tunnel_effect in Hs1 as (E1 & _ & _).
  assert (agree_tunnels (live now r1) (put_tunnel now ip t (live now r))) as Ha by by rewrite E1.
  pose proof (stored_registered now now' ip t _ r1 Hok Ha Hw) as Hreg.
  apply scan_correct in Hget as [_ Ho]. destruct o as [i|].
  - destruct Ho as [Hi Hs%String.eqb_eq]. f_equal.
    by eapply (stored_unique now now' ip t _ r1 (λ i, i_subdomain i = t_subdomain t)); [..|lia| | |].
  - specialize (Ho _ Hreg). cbn in Ho. by rewrite String.eqb_refl in Ho.
Qed.

Section conflict.
Context `{Hredis : RedisServer R} {Hspec : RedisSpec R} {Hup : RedisAvailable R} `{Hcodec : Codec}.
Import TunnelStorage.

(** The lookup key of the user holds a string or nothing. *)
Definition lookup_readable (m : gmap string rentry) (t : Tunnel) : Prop :=
  get_reply (m !! tunnel_lookup_key (t_github_user_id t)) ≠ None.

Lemma store_tunnel_prefix now ip t (r : R) :
  ttl_ok (tunnel_ttl now t) → lookup_readable (live now r) t →
  ∃ r1, live now r1 = put_record now t (live now r) ∧
    store_tunnel now ip t r =
      (_ ← claim_subdomain now t (tunnel_ttl now t);
       storage "Failed to create DNS slot mapping"
         (r_set_ex now (dns_slot_key (t_fqdn t)) (edge_ip ip) (tunnel_ttl now t))) r1.
Proof.
  intros Ht Hlk. unfold store_tunnel, get_connection, storage.
  destruct (runs_connect now _ r eq_refl) as (r0 & E0 & L0).
  destruct (runs_set_ex now (tunnel_key (uuid_to_string (t_id t)))
              (json_to_string (ser_Tunnel t)) (tunnel_ttl now t) _ Ht r0 L0) as (r1 & E1 & L1).
  destruct (get_reply (live now r !! tunnel_lookup_key (t_github_user_id t))) as [v|] eqn:Ev;
    [|done].
  pose proof (get_reply_str_at _ _ _ Ev) as ->.
  edestruct (runs_get now (tunnel_lookup_key (t_github_user_id t))) as (r2 & E2 & L2);
    [|exact L1|]; [unfold put_ex; map_keys; exact Ev|].
  destruct (runs_set now (tunnel_lookup_key (t_github_user_id t))
              (json_to_string (ser_UserTunnelLookup (updated_lookup (live now r) t)))
              _ r2 L2) as (r3 & E3 & L3).
  exists r3. split; [done|].
  do 4 (erewrite io_bind_step; [|by apply io_map_err_ok]). done.
Qed.

Lemma store_tunnel_held now ip t (r : R) :
  ttl_ok (tunnel_ttl now t) → lookup_readable (live now r) t →
  (∃ id, holder (live now r) (t_subdomain t) = Some id ∧ id ≠ uuid_to_string (t_id t)) →
  ∃ r', store_tunnel now ip t r = (r', Err (conflict (t_subdomain t)))
    ∧ live now r' = put_record now t (live now r).
Proof.
  intros Ht Hlk (id & Hh & Hne).
  destruct (store_tunnel_prefix now ip t r Ht Hlk) as (r1 & L1 & ->).
  assert (live now r1 !! subdomain_key (t_subdomain t)
          = live now r !! subdomain_key (t_subdomain t)) as Hsub
    by (rewrite L1; apply put_record_holder; auto).
  unfold holder, str_at in Hh.
  destruct (live now r !! subdomain_key (t_subdomain t)) as [[[s|s] e]|] eqn:E; simplify_eq.
  destruct (runs_set_nx_ex_held now (subdomain_key (t_subdomain t)) (uuid_to_string (t_id t))
              (tunnel_ttl now t) (live now r1) Ht ltac:(rewrite Hsub; eauto) r1 eq_refl)
    as (r2 & E2 & L2).
  edestruct (runs_get now (subdomain_key (t_subdomain t)) (live now r1)) as (r3 & E3 & L3);
    [|exact L2|]; [by rewrite Hsub|].
  exists r3. split; [|congruence]. apply io_bind_stop.
  unfold claim_subdomain, storage.
  do 2 (erewrite io_bind_step; [|by apply io_map_err_ok]; cbn beta iota).
  rewrite decide_False by congruence. done.
Qed.
End conflict.

(** The losing store.  A store against a subdomain another tunnel holds is
    refused with the conflict error, and neither the claim nor the DNS mapping
    changes; but the refused tunnel's record and lookup stay behind, so the edge
    still finds it registered under the contested subdomain. *)
Lemma store_tunnel_conflict `{RedisSpec R, !RedisAvailable R} `{Codec} now ip t (r : R) id
    (Hok : tunnel_ok t) (Ht : ttl_ok (TunnelStorage.tunnel_ttl now t))
    (Hlk : lookup_readable (live now r) t)
    (Hh : holder (live now r) (t_subdomain t) = Some id) (Hne : id ≠ uuid_to_string (t_id t)) :
  ∃ r', TunnelStorage.store_tunnel now ip t r =
          (r', Err (TunnelStorage.conflict (t_subdomain t)))
    ∧ holder (live now r') (t_subdomain t) = Some id
    ∧ live now r' !! dns_slot_key (t_fqdn t) = live now r !! dns_slot_key (t_fqdn t)
    ∧ registered (live now r') (info_of t).
Proof.
  destruct (store_tunnel_held now ip t r Ht Hlk) as (r' & E & L); [by eauto|].
  exists r'. split; [done|]. unfold holder. rewrite L.
  split; [by rewrite (str_at_ext _ (live now r)) by (apply put_record_holder; auto)|].
  split; [apply put_record_holder; auto|].
  exists (uuid_to_string (t_id t)). split.
  - exists (t_github_user_id t), (updated_lookup (live now r) t). split.
    + unfold lookup_at, str_at, put_record. map_keys. cbn.
      by rewrite from_str_to_string, de_ser_lookup by apply lookup_json_wf.
    + by apply add_tunnel_in; left.
  - unfold info_at, str_at, put_record, put_ex. map_keys. cbn.
    by rewrite from_str_to_string, de_TunnelInfo_ser_Tunnel by auto using tunnel_json_wf.
Qed.

(** ** Deleting a tunnel *)

Section delete.
Context `{Hspec : RedisSpec R} `{Hcodec : Codec}.
Import TunnelStorage.
Implicit Types (m : gmap string rentry).

(** The tunnel stored under an identifier, as the API decodes it. *)
Definition tunnel_at m (id : uuid) : option Tunnel :=
  str_at m (tunnel_key (uuid_to_string id)) ≫= from_str de_Tunnel.

Lemma get_tunnel_ok now id (r r' : R) o :
  get_tunnel now id r = (r', Ok o) → o = tunnel_at (live now r) id ∧ live now r' = live now r.
Proof.
  unfold get_tunnel, get_connection, storage. intros Hr. inv_io Hr.
  apply connect_spec with (now := now) in Hio. apply get_ok_at in Hio0 as [Hv Hl].
  rewrite Hio in *. unfold tunnel_at. rewrite <- Hv. destruct v0 as [data|]; cbn in *.
  - unfold io_lift in Hr. destruct (from_str de_Tunnel data); by simplify_eq.
  - apply io_ret_inv in Hr as [-> [= ->]]. done.
Qed.

Lemma get_tunnel_reads now id : reads now (get_tunnel now id).
Proof.
  unfold get_tunnel, get_connection, storage.
  apply reads_bind; [eauto with redis|]. intros _. apply reads_bind; [eauto with redis|].
  intros [data|]; eauto with redis.
Qed.

Lemma is_subdomain_available_reads now sub : reads now (is_subdomain_available now sub).
Proof.
  unfold is_subdomain_available, get_tunnel_by_subdomain, get_connection, storage.
  apply reads_bind; [|eauto with redis]. apply reads_bind; [eauto with redis|]. intros _.
  apply reads_bind; [eauto with redis|]. intros [id|]; [|eauto with redis].
  destruct (uuid_parse id); [apply get_tunnel_reads|eauto with redis].
Qed.

(** The deletions, and the rewritten lookup. *)
Definition drop_tunnel_map (id : uuid) (t : Tunnel) m : gmap string rentry :=
  delete (dns_slot_key (t_fqdn t)) (delete (subdomain_key (t_subdomain t))
    (delete (tunnel_key (uuid_to_string id)) m)).

Definition delete_map (id : uuid) (t : Tunnel) m : gmap string rentry :=
  let key := tunnel_lookup_key (t_github_user_id t) in
  match lookup_at m key with
  | Some l => <[key := REntry (RString (json_to_string (ser_UserTunnelLookup
                         (drop_tunnel l (uuid_to_string id))))) None]> (drop_tunnel_map id t m)
  | None => drop_tunnel_map id t m
  end.

Lemma delete_tunnel_effect now id (r r' : R) b :
  delete_tunnel now id r = (r', Ok b) →
  match tunnel_at (live now r) id with
  | None => b = false ∧ live now r' = live now r
  | Some t => b = true ∧ live now r' = delete_map id t (live now r)
  end.
Proof.
  unfold delete_tunnel, get_connection, storage. intros Hr.
  apply io_bind_ok in Hr as (r0 & o & [-> L0]%get_tunnel_ok & Hr).
  destruct (tunnel_at (live now r) id) as [t|].
  2: { apply io_ret_inv in Hr as [-> [= ->]]. done. }
  apply io_bind_ok in Hr as (r1 & [] & H1%io_map_err_ok & Hr).
  apply io_bind_ok in Hr as (r2 & [] & H2%io_map_err_ok & Hr).
  apply io_bind_ok in Hr as (r3 & [] & H3%io_map_err_ok & Hr).
  apply io_bind_ok in Hr as (r4 & [] & H4%io_map_err_ok & Hr).
  apply io_bind_ok in Hr as (r5 & ex & [-> L5]%io_map_err_ok%get_ok_at & Hr).
  apply connect_spec with (now := now) in H1.
  apply (proj1 (del_writes now _)) in H2, H3, H4. rewrite H3, H2, H1, L0 in H4.
  fold (drop_tunnel_map id t (live now r)) in H4. rewrite H4 in *.
  assert (str_at (drop_tunnel_map id t (live now r)) (tunnel_lookup_key (t_github_user_id t))
          = str_at (live now r) (tunnel_lookup_key (t_github_user_id t))) as E
    by (apply str_at_ext; unfold drop_tunnel_map; by map_keys).
  rewrite E in Hr. fold (lookup_at (live now r) (tunnel_lookup_key (t_github_user_id t))) in Hr.
  unfold delete_map. destruct (lookup_at (live now r) _) as [l|].
  - apply io_bind_ok in Hr as (r6 & [] & H6%io_map_err_ok & Hr).
    apply (proj1 (set_writes now _ _)) in H6. apply io_ret_inv in Hr as [-> [= ->]].
    split; [done|]. by rewrite H6, L5.
  - apply io_ret_inv in Hr as [-> [= ->]]. by rewrite L5.
Qed.
End delete.

(** C23: deleting a tunnel.  It reports whether the record existed; afterwards
    the record, the subdomain claim and the DNS mapping are gone, the identifier
    is off its owner's list, and the records of all other tunnels are as they
    were. *)
Theorem delete_tunnel_correct `{RedisSpec R} `{Codec} now id t (r r' : R) b
    (Hr : TunnelStorage.delete_tunnel now id r = (r', Ok b))
    (Ht : tunnel_at (live now r) id = Some t) :
  b = true
  ∧ live now r' !! tunnel_key (uuid_to_string id) = None
  ∧ live now r' !! subdomain_key (t_subdomain t) = None
  ∧ live now r' !! dns_slot_key (t_fqdn t) = None
  ∧ (∀ l, lookup_at (live now r') (tunnel_lookup_key (t_github_user_id t)) = Some l →
       uuid_to_string id ∉ l_tunnels l)
  ∧ (∀ id', id' ≠ id → tunnel_at (live now r') id' = tunnel_at (live now r) id').
Proof.
  apply delete_tunnel_effect in Hr. rewrite Ht in Hr. destruct Hr as [-> ->].
  assert (∀ k, k ≠ tunnel_lookup_key (t_github_user_id t) →
    delete_map id t (live now r) !! k = drop_tunnel_map id t (live now r) !! k) as Hk.
  { intros k Hk. unfold delete_map. case_match; [|done]. by rewrite lookup_insert_ne. }
  split; [done|]. rewrite !Hk by key_ne. unfold drop_tunnel_map. split_and!; [by map_keys..| |].
  - intros l Hl. unfold delete_map in Hl.
    destruct (lookup_at (live now r) _) as [l0|] eqn:E0.
    + unfold lookup_at, str_at in Hl. rewrite lookup_insert_eq in Hl. cbn in Hl.
      rewrite from_str_to_string, de_ser_lookup in Hl by apply lookup_json_wf. simplify_eq.
      cbn. rewrite list_elem_of_filter. tauto.
    + unfold lookup_at in Hl. rewrite (str_at_ext _ (live now r)) in Hl
        by (unfold drop_tunnel_map; by map_keys).
      unfold lookup_at in E0. congruence.
  - intros id' Hne. unfold tunnel_at. f_equal. apply str_at_ext. rewrite Hk by key_ne.
    unfold drop_tunnel_map. map_keys. apply lookup_delete_ne.
    intros E%str_app_inj_l%uuid_to_string_inj. done.
Qed.

(** ** Port allocation *)

Section ports.
Context `{Hredis : RedisServer R} {Hspec : RedisSpec R} `{Hcodec : Codec}.
Import TunnelStorage.

(** The ports probed from a start, in order. *)
Fixpoint probes (n : nat) (port : Z) : list Z :=
  match n with O => [] | S n => port :: probes n (next_port port) end.

(** The reference allocator: the first free port in probing order. *)
Definition first_free (m : gmap string rentry) (ports : list Z) : option Z :=
  head (filter (λ p, m !! port_key p = None) ports).

Definition in_port_range (p : Z) : Prop := PORT_RANGE_START ≤ p ≤ PORT_RANGE_END.

Lemma next_port_range p : in_port_range p → in_port_range (next_port p).
Proof. unfold in_port_range, next_port, PORT_RANGE_START, PORT_RANGE_END. case_match; lia. Qed.

Lemma probes_range n p q : in_port_range p → q ∈ probes n p → in_port_range q.
Proof.
  revert p. induction n as [|n IH]; intros p Hp; cbn; [by intros ?%not_elem_of_nil|].
  intros [->|Hq]%elem_of_cons; [done|]. by eapply IH, Hq; apply next_port_range.
Qed.

(** [allocate_port] implements the reference allocator: success is its answer. *)
Lemma try_ports_ok now id ttl n p (r r' : R) q :
  try_ports now id ttl n p r = (r', Ok q) →
  first_free (live now r) (probes n p) = Some q
  ∧ live now r' = put_ex now (port_key q) id ttl (live now r).
Proof.
  revert p r. induction n as [|n IH]; intros p r Hr; cbn [try_ports] in Hr.
  { by unfold io_fail in Hr. }
  unfold storage in Hr. apply io_bind_ok in Hr as (r1 & o & E%io_map_err_ok & Hr).
  pose proof (set_nx_ex_reply _ _ _ _ _ _ _ E) as [_ Ho].
  apply (proj1 (set_nx_ex_writes now _ _ _)) in E.
  unfold first_free. cbn [probes]. destruct o as [x|].
  - apply io_ret_inv in Hr as [-> [= ->]]. rewrite (proj1 Ho) in E by eauto.
    rewrite filter_cons_True by (by apply Ho). done.
  - destruct (live now r !! port_key p) eqn:Ep; [|by destruct (proj2 Ho eq_refl)].
    rewrite filter_cons_False by congruence. apply IH in Hr as [Hf ->].
    by rewrite E in *.
Qed.

Lemma first_free_Some m ports q :
  first_free m ports = Some q → q ∈ ports ∧ m !! port_key q = None.
Proof.
  unfold first_free. intros Hq. assert (q ∈ filter (λ p, m !! port_key p = None) ports) as Hin.
  { destruct (filter _ _); [done|]. cbn in Hq. simplify_eq. left. }
  apply list_elem_of_filter in Hin. tauto.
Qed.

Lemma port_key_inj p q : port_key p = port_key q → p = q.
Proof. intros E%str_app_inj_l. by apply (inj pretty) in E. Qed.
End ports.

Section ports_up.
Context `{Hredis : RedisServer R} {Hspec : RedisSpec R} {Hup : RedisAvailable R} `{Hcodec : Codec}.
Import TunnelStorage.

(** On an available server the loop is exactly the reference allocator. *)
Lemma try_ports_up now id ttl n p (r : R) :
  ttl_ok ttl →
  ∃ r', match first_free (live now r) (probes n p) with
        | Some q => try_ports now id ttl n p r = (r', Ok q)
        | None => try_ports now id ttl n p r =
            (r', Err (AE.StorageError "No available ports found after 1000 attempts"))
        end.
Proof.
  intros Ht. revert p r. induction n as [|n IH]; intros p r; cbn [try_ports probes].
  { by exists r. }
  unfold first_free. rewrite filter_cons. case_decide as Hp; cbn [head].
  - destruct (runs_set_nx_ex now (port_key p) id ttl _ r Ht Hp eq_refl) as (r1 & x & E & _).
    exists r1. unfold storage. by erewrite io_bind_step; [|by apply io_map_err_ok].
  - assert (is_Some (live now r !! port_key p)) as Hs by by apply not_eq_None_Some.
    destruct (runs_set_nx_ex_held now (port_key p) id ttl _ Ht Hs r eq_refl) as (r1 & E & L).
    destruct (IH (next_port p) r1) as [r' HIH]. exists r'. rewrite L in HIH.
    unfold storage. erewrite io_bind_step; [|by apply io_map_err_ok]. exact HIH.
Qed.
End ports_up.

(** C17: port allocation refines "take the first free port".  On an available
    server the allocator claims, for the tunnel, the first port of its 1000
    probes that is free; the port lies in 10000..65535 and nothing else changes;
    it fails with the exhaustion error exactly when all probes are taken. *)
Theorem allocate_port_correct `{RedisSpec R, !RedisAvailable R} `{Codec} now start id ttl (r : R)
    (Hstart : PORT_RANGE_START ≤ start < PORT_RANGE_END) (Ht : ttl_ok ttl) :
  ∃ r', match first_free (live now r) (probes 1000 start) with
        | Some p =>
            TunnelStorage.allocate_port now start id ttl r = (r', Ok p)
            ∧ PORT_RANGE_START ≤ p ≤ PORT_RANGE_END
            ∧ live now r !! port_key p = None
            ∧ live now r' = put_ex now (port_key p) id ttl (live now r)
        | None =>
            TunnelStorage.allocate_port now start id ttl r =
              (r', Err (AE.StorageError "No available ports found after 1000 attempts"))
            ∧ ∀ p, p ∈ probes 1000 start → is_Some (live now r !! port_key p)
        end.
Proof.
  unfold TunnelStorage.allocate_port, TunnelStorage.get_connection, TunnelStorage.storage.
  destruct (runs_connect now _ r eq_refl) as (r0 & E0 & L0).
  erewrite io_bind_step; [|by apply io_map_err_ok]. rewrite <- L0.
  change (Z.to_nat MAX_ATTEMPTS) with 1000%nat.
  destruct (try_ports_up now id ttl 1000 start r0 Ht) as [r' Hr']. exists r'.
  destruct (first_free (live now r0) (probes 1000 start)) as [p|] eqn:Hf.
  - split; [done|]. apply first_free_Some in Hf as Hp. destruct Hp as [Hin Hp].
    split; [|split; [done|by apply (try_ports_ok _ _ _ _ _ _ _ _ Hr')]].
    eapply (probes_range 1000 start); [|exact Hin]. unfold in_port_range. lia.
  - split; [done|]. intros p Hp. apply not_eq_None_Some. intros Hn. unfold first_free in Hf.
    assert (p ∈ filter (λ p, live now r0 !! port_key p = None) (probes 1000 start)) as Hin
      by by apply list_elem_of_filter.
    destruct (filter _ _); [by apply not_elem_of_nil in Hin|done].
Qed.

(** No slot is handed out twice.  While an allocated port's reservation is
    live, no later allocation, by whatever caller, returns it. *)
Lemma allocate_port_exclusive `{RedisSpec R} `{Codec} now now' s s' id id' ttl ttl' (r r1 r2 : R) p p'
    (Ha1 : TunnelStorage.allocate_port now s id ttl r = (r1, Ok p))
    (Ha2 : TunnelStorage.allocate_port now' s' id' ttl' r1 = (r2, Ok p'))
    (Hw : now ≤ now' < now + secs ttl) :
  p' ≠ p.
Proof.
  unfold TunnelStorage.allocate_port, TunnelStorage.get_connection, TunnelStorage.storage in *.
  apply io_bind_ok in Ha1 as (r0 & [] & _ & [_ L1]%try_ports_ok).
  apply io_bind_ok in Ha2 as (r3 & [] & H3%io_map_err_ok & [Hf _]%try_ports_ok).
  apply connect_spec with (now := now') in H3. rewrite H3 in Hf.
  apply first_free_Some in Hf as [_ Hn]. intros ->.
  assert (live now r1 !! port_key p = Some (REntry (RString id) (Some (now + secs ttl)))) as Hp
    by (rewrite L1; apply lookup_insert_eq).
  apply (live_later now now') in Hp; [|lia]. cbn in Hp.
  destruct (Z.ltb_spec now' (now + secs ttl)); [|lia]. congruence.
Qed.

(** ** Sessions and grants *)

(** The hub's check against a session record the API wrote. *)
Lemma stored_session_runs `{RedisSpec R, !RedisAvailable R} `{Codec} `{SshKeys}
    now now' sid user user' pk fp expires key (r1 : R) :
  live now r1 !! ("session:" +:+ sid) =
    Some (REntry (RString (json_to_string (ser_SessionData
      (TunnelStorage.ssh_session sid user pk fp expires))))
      (Some (now + secs (TunnelStorage.session_ttl now expires)))) →
  dt_ok expires → i64_ok (num_seconds (expires - now)) → now ≤ now' →
  runs now' (validate_public_key "session" now' user' key sid) (live now' r1)
    ((now' <=? expires) && String.eqb (fingerprint key) fp) (live now' r1).
Proof.
  intros Hk Hdt Hi Hle. apply (live_later now now') in Hk; [|done]. cbn in Hk.
  unfold validate_public_key, auth_conn, context.
  change (session_key "session" sid) with ("session:" +:+ sid).
  eapply runs_bind; [apply runs_map_err, runs_connect|].
  assert (expires < now + secs (TunnelStorage.session_ttl now expires)) as Hgrace.
  { unfold TunnelStorage.session_ttl, i64_ok, num_seconds in *.
    rewrite as_u64_id by (unfold u64_ok; lia). unfold secs.
    pose proof (Z.quot_rem' (expires - now) 1000000000).
    pose proof (Z.rem_bound_abs (expires - now) 1000000000). lia. }
  destruct (Z.ltb_spec now' (now + secs (TunnelStorage.session_ttl now expires))) as [Hlt|Hge];
    (eapply runs_bind; [apply runs_map_err, runs_get; by rewrite Hk|]); cbn beta iota.
  - unfold parse_session. rewrite from_str_to_string, de_ser_SessionData by done.
    eapply runs_bind; [apply runs_lift|]. cbn.
    destruct (Z.ltb_spec expires now'), (Z.leb_spec now' expires); try lia; apply runs_ret.
  - destruct (Z.leb_spec now' expires); [lia|]. apply runs_ret.
Qed.

(** The API's SSH session authenticates at the hub.  After the API stored a
    session, the hub's check at any later time accepts a key exactly when its
    fingerprint is the stored one and the tunnel has not expired. *)
Lemma ssh_session_authenticates `{RedisSpec R, !RedisAvailable R} `{Codec} `{SshKeys}
    now now' sid user pk fp expires key (r r1 : R)
    (Hst : TunnelStorage.store_ssh_session now sid user pk fp expires r = (r1, Ok ()))
    (Hdt : dt_ok expires) (Hi : i64_ok (num_seconds (expires - now))) (Hle : now ≤ now') :
  ∃ r2, validate_public_key "session" now' user key sid r1 =
    (r2, Ok ((now' <=? expires) && String.eqb (fingerprint key) fp)).
Proof.
  unfold TunnelStorage.store_ssh_session, TunnelStorage.get_connection,
    TunnelStorage.storage in Hst. inv_io Hst. clear Hio.
  apply (proj1 (set_ex_writes now _ _ _)) in Hst.
  destruct (stored_session_runs now now' sid user user pk fp expires key r1) with (r := r1)
    as (r2 & E2 & _); eauto. rewrite Hst. apply lookup_insert_eq.
Qed.

(** A session grant minted by the API opens the edge's gate for exactly its
    subdomain and token, from the mint until its time to live has passed. *)
Lemma session_grant_roundtrip `{RedisSpec R, !RedisAvailable R} `{Codec}
    now now' sub token user ttl (r r1 : R)
    (Hst : TunnelStorage.store_session_grant now sub token user ttl r = (r1, Ok ()))
    (Hle : now ≤ now') :
  ∃ r2, check_session_grant now' sub token r1 = (r2, Ok (now' <? now + secs ttl)).
Proof.
  unfold TunnelStorage.store_session_grant, TunnelStorage.get_connection,
    TunnelStorage.storage in Hst. inv_io Hst. clear Hio.
  apply (proj1 (set_ex_writes now _ _ _)) in Hst.
  assert (live now r1 !! session_grant_key sub token =
    Some (REntry (RString (json_to_string (TunnelStorage.grant_doc now user)))
            (Some (now + secs ttl)))) as Hk by (rewrite Hst; apply lookup_insert_eq).
  apply (live_later now now') in Hk; [|done]. cbn in Hk.
  enough (runs now' (check_session_grant now' sub token) (live now' r1)
    (bool_decide (is_Some (live now' r1 !! session_grant_key sub token))) (live now' r1)) as Hruns.
  { destruct (Hruns r1 eq_refl) as (r2 & E2 & _). exists r2. rewrite E2, Hk.
    by destruct (now' <? now + secs ttl). }
  unfold check_session_grant, pool_get, query.
  eapply runs_bind; [apply runs_map_err, runs_connect|]. apply runs_map_err, runs_exists.
Qed.

Lemma sample_ports_bounds `{RedisServer R} now ports n (r r' : R) n' :
  TunnelStorage.sample_ports now ports n r = (r', Ok n') →
  n ≤ n' ≤ n + Z.of_nat (length ports).
Proof.
  revert n r. induction ports as [|p ports IH]; intros n r Hr; cbn [TunnelStorage.sample_ports] in Hr.
  { apply io_ret_inv in Hr as [_ [= ->]]. cbn. lia. }
  apply io_bind_ok in Hr as (r1 & v & _ & Hr). apply IH in Hr. cbn [length].
  case_decide; lia.
Qed.

Lemma estimated_bounds n :
  0 ≤ n ≤ SAMPLE_SIZE →
  0 ≤ TunnelStorage.estimated_allocated n ≤ TunnelStorage.total_ports.
Proof.
  intros Hn. split; [apply (f64_to_uint_range 16); lia|]. apply Z.leb_le.
  assert (forallb (λ n, TunnelStorage.estimated_allocated n <=? TunnelStorage.total_ports)
            (seqZ 0 1001) = true) as Hall by by vm_compute.
  rewrite forallb_forall in Hall. apply Hall, list_elem_of_In, elem_of_seqZ.
  unfold SAMPLE_SIZE in Hn. lia.
Qed.

(** The port statistics never underflow: the estimate for a full sample is
    within the port range, and the two figures add up to the range size. *)
Lemma get_port_stats_bounds `{RedisServer R} now samples (r r' : R) est avail total
    (Hlen : Z.of_nat (length samples) = SAMPLE_SIZE)
    (Hr : TunnelStorage.get_port_stats now samples r = (r', Ok (est, avail, total))) :
  total = 55536 ∧ 0 ≤ est ∧ 0 ≤ avail ∧ est + avail = total.
Proof.
  unfold TunnelStorage.get_port_stats in Hr.
  apply io_bind_ok in Hr as (r0 & [] & _ & Hr).
  apply io_bind_ok in Hr as (r1 & n & Hn%sample_ports_bounds & Hr).
  apply io_ret_inv in Hr as [_ [= -> -> ->]].
  pose proof (estimated_bounds n ltac:(lia)) as Hest.
  change TunnelStorage.total_ports with 55536 in *. lia.
Qed.

(** ** Examples on the concrete server *)
Module StorageDemo.
Import MemRedis BitCodec CacheDemo TunnelStorage.

(** A server after the store of the example tunnel. *)
Definition empty : mem := ∅.
Definition stored : mem := (store_tunnel 0 None tunnel empty).1.
Definition rival : Tunnel :=
  Tunnel_new 0 6%N "8" "bob" "app" "fdns.run" 3000 20001 "s2" 60.

Lemma tunnel_is_ok : tunnel_ok tunnel.
Proof. vm_compute. repeat split; congruence. Qed.

Lemma store_tunnel_exclusive_witness :
  t_id (set_status tunnel Error) = t_id tunnel ∧
  holder (live (secs 1) (store_tunnel (secs 1) None (set_status tunnel Error) stored).1)
    (t_subdomain tunnel) = Some (uuid_to_string (t_id tunnel)).
Proof.
  apply (store_tunnel_exclusive 0 (secs 1) None None tunnel (set_status tunnel Error) empty stored).
  - eval_eq.
  - eval_eq.
  - reflexivity.
  - vm_compute. split; congruence.
Defined.

Lemma store_get_tunnel_witness :
  ∃ r2, get_tunnel (secs 59) (t_id tunnel) stored = (r2, Ok (Some tunnel)).
Proof.
  apply (store_get_tunnel 0 (secs 59) None tunnel empty stored).
  - apply tunnel_is_ok.
  - eval_eq.
  - unfold secs. lia.
Defined.

Lemma edge_routes_stored_tunnel_witness :
  match (RedisCache.get_tunnel_by_subdomain (secs 59) "app" stored).2 with
  | Ok o => o
  | Err _ => None
  end = Some (info_of tunnel).
Proof.
  apply (edge_routes_stored_tunnel 0 (secs 59) None tunnel empty stored stored).
  - apply tunnel_is_ok.
  - eval_eq.
  - vm_compute. split; congruence.
  - intros id i (user & l & Hl & _). discriminate Hl.
  - eval_eq.
Defined.

Lemma store_tunnel_conflict_witness :
  ∃ r', store_tunnel 0 None rival stored = (r', Err (conflict "app"))
    ∧ holder (live 0 r') "app" = Some (uuid_to_string (t_id tunnel))
    ∧ live 0 r' !! dns_slot_key "app.fdns.run" = live 0 stored !! dns_slot_key "app.fdns.run"
    ∧ registered (live 0 r') (info_of rival).
Proof.
  apply (store_tunnel_conflict 0 None rival stored (uuid_to_string (t_id tunnel))).
  - vm_compute. repeat split; congruence.
  - vm_compute. split; congruence.
  - vm_compute. discriminate.
  - eval_eq.
  - vm_compute. discriminate.
Defined.

Lemma delete_tunnel_witness :
  live 0 (delete_tunnel 0 (t_id tunnel) stored).1 !! dns_slot_key (t_fqdn tunnel) = None.
Proof.
  apply (delete_tunnel_correct 0 (t_id tunnel) tunnel stored (delete_tunnel 0 (t_id tunnel) stored).1 true).
  - eval_eq.
  - eval_eq.
Defined.

Lemma allocate_port_witness :
  ∃ r', match first_free (live 0 empty) (probes 1000 65534) with
        | Some p =>
            allocate_port 0 65534 "x" 60 empty = (r', Ok p)
            ∧ PORT_RANGE_START ≤ p ≤ PORT_RANGE_END
            ∧ live 0 empty !! port_key p = None
            ∧ live 0 r' = put_ex 0 (port_key p) "x" 60 (live 0 empty)
        | None =>
            allocate_port 0 65534 "x" 60 empty =
              (r', Err (AE.StorageError "No available ports found after 1000 attempts"))
            ∧ ∀ p, p ∈ probes 1000 65534 → is_Some (live 0 empty !! port_key p)
        end.
Proof.
  apply (allocate_port_correct 0 65534 "x" 60 empty).
  - unfold PORT_RANGE_START, PORT_RANGE_END. lia.
  - unfold ttl_ok. lia.
Defined.

Lemma allocate_port_exclusive_witness : 10000 ≠ 65535.
Proof.
  apply (allocate_port_exclusive 0 (secs 1) 65535 65535 "x" "y" 60 60 empty
           (allocate_port 0 65535 "x" 60 empty).1
           (allocate_port (secs 1) 65535 "y" 60 (allocate_port 0 65535 "x" 60 empty).1).1).
  - eval_eq.
  - eval_eq.
  - unfold secs. lia.
Defined.

(** Keys named by their fingerprint. *)
#[export] Instance demo_keys : SshKeys := {| PublicKey := string; fingerprint := id |}.
Definition demo_key : PublicKey (SshKeys := demo_keys) := "fp".

Lemma ssh_session_authenticates_witness :
  ∃ r2, validate_public_key "session" (secs 59) "7" demo_key "sid"
          (store_ssh_session 0 "sid" "7" "pk" "fp" (secs 60) empty).1 = (r2, Ok true).
Proof.
  apply (ssh_session_authenticates 0 (secs 59) "sid" "7" "pk" "fp" (secs 60)
           demo_key empty).
  - eval_eq.
  - unfold dt_ok, secs. lia.
  - vm_compute. split; congruence.
  - unfold secs. lia.
Defined.

Lemma session_grant_roundtrip_witness :
  ∃ r2, check_session_grant (secs 60) "app" "tok"
          (store_session_grant 0 "app" "tok" "7" 60 empty).1 = (r2, Ok false).
Proof.
  apply (session_grant_roundtrip 0 (secs 60) "app" "tok" "7" 60 empty).
  - eval_eq.
  - unfold secs. lia.
Defined.

Lemma get_port_stats_witness :
  55536 = 55536 ∧ 0 ≤ 0 ∧ 0 ≤ 55536 ∧ 0 + 55536 = 55536.
Proof.
  apply (get_port_stats_bounds 0 (replicate 1000 10000) empty empty 0 55536 55536).
  - reflexivity.
  - eval_eq.
Defined.

End StorageDemo.
