(* ===== verification/TunnelsApi.v ===== *)
(** * The tunnel handlers of the control API

    crates/backendapi/src/handlers/tunnels.rs: the handlers that create, show,
    list, delete and probe tunnels and mint session grants, on top of the
    authentication, the quota, the certificate authority and the storage.  A
    handler runs at one instant [now]; its random choices and the generated SSH
    key are the arguments of [Env].  Tracing and metrics are left out; the usage
    meter's events are kept as a list. *)

From S2P Require Import Prelude Redis Serde Models Errors Net Float Auth Quota RedisCache CA Storage.

(** ** Requests and responses *)

Record CreateTunnelRequest := {
  q_port : Z;
  q_ttl : option Z;
  q_custom_subdomain : option string;
  q_auth : option bool;
  q_protected : option bool;
  q_teardown_policy : option TeardownPolicy;
}.

Record SshKeyPair := { private_key : string; public_key : string; key_fingerprint : string }.
Record BasicAuthCredentials := { ba_username : string; ba_password : string }.

Record CreateTunnelResponse := {
  c_id : string;
  c_fqdn : string;
  c_slot : Z;
  c_tls_cert : string;
  c_private_key : string;
  c_ssh_key : SshKeyPair;
  c_expires_at : string;
  c_auth : option BasicAuthCredentials;
}.

(** The handlers' [TunnelInfo]. *)
Record TunnelView := {
  v_id : string;
  v_fqdn : string;
  v_local_port : Z;
  v_slot : Z;
  v_status : TunnelStatus;
  v_created_at : string;
  v_expires_at : string;
  v_remaining_ttl : Z;
}.

Inductive TunnelHealthStatus := Healthy | Degraded | Unhealthy | Unknown.
Inductive ConnectionStatus := Connected | Disconnected | Connecting | Failed.
Record HealthDetails := {
  ssh_connected : bool;
  certificate_valid : bool;
  dns_resolvable : bool;
  port_forwarding_active : bool;
}.
Record TunnelHealthInfo := {
  h_status : TunnelHealthStatus;
  h_connection_status : ConnectionStatus;
  h_details : HealthDetails;
  h_last_check : Z;
  h_response_time_ms : Z;
}.
Record TunnelHealthResult := { hr_tunnel_id : string; hr_health_info : TunnelHealthInfo }.
Record HealthError := { he_tunnel_id : string; he_error : string }.
Record BulkHealthResponse := {
  health_results : list TunnelHealthResult;
  bulk_errors : list HealthError;
  total_tunnels : Z;
  successful_checks : Z;
  failed_checks : Z;
}.

Record SessionGrantResponse := {
  g_token : string;
  g_cookie : string;
  g_fqdn : string;
  g_expires_at : string;
}.

(** crates/common/src/billing.rs. *)
Inductive CloseReason := UserRequested | ExpiredReason.
Inductive UsageEvent :=
  | TunnelOpened (tunnel_id user_id : string) (at_ : Z)
  | TunnelClosed (tunnel_id user_id : string) (at_ : Z) (reason : CloseReason).

Definition SESSION_GRANT_TTL_SECONDS : Z := 900.

(** ** Names *)

Definition ends_with_char (c : ascii) (s : string) : bool :=
  match str_rev s with String a _ => Ascii.eqb a c | "" => false end.

Definition validate_subdomain (subdomain : string) : result AE.t () :=
  if (subdomain =?s "") || (63 <? str_len subdomain)
  then Err (AE.BadRequest "Subdomain must be 1-63 characters")
  else if negb (str_all (λ c, is_ascii_alphanumeric c || Ascii.eqb c "-") subdomain)
  then Err (AE.BadRequest "Subdomain can only contain alphanumeric characters and hyphens")
  else if starts_with "-" subdomain || ends_with_char "-" subdomain
  then Err (AE.BadRequest "Subdomain cannot start or end with hyphen")
  else Ok ().

(** The random indices, each in [0..36]. *)
Definition base36 (idx : Z) : ascii :=
  ascii_of_N (Z.to_N (if idx <? 10 then 48 + idx else 97 + idx - 10)).
Definition generate_random_subdomain (idxs : list Z) : string :=
  "tunnel-" +:+ string_of_list_ascii (base36 <$> idxs).

Definition CHARSET : string :=
  "abcdefghijklmnopqrstuvwxyzABCDEFGHIJKLMNOPQRSTUVWXYZ0123456789".
(** The random indices into [CHARSET], one per character. *)
Definition generate_random_string (idxs : list nat) : string :=
  string_of_list_ascii (omap (λ i, list_ascii_of_string CHARSET !! i) idxs).

(** ** State *)

Section handlers.
Context `{Hredis : RedisServer R} `{Hcodec : Codec} `{Hrcgen : Rcgen} `{Hmd5 : Md5}.
Implicit Types (now : Z).

Record ApiState := {
  st_redis : R;
  st_usage : gmap string UserUsage;
  st_ca : CertificateAuthority;
  st_events : list UsageEvent;
}.

(** The random choices of a handler and the environment variable of the store. *)
Record Env := {
  e_tunnel_id : uuid;
  e_request_id : uuid;
  e_serial : uuid;
  e_entropy : string;
  e_start_port : Z;
  e_subdomain : list Z;
  e_keypair : result string SshKeyPair;
  e_username : list nat;
  e_password : list nat;
  e_token : list nat;
  e_edge_public_ip : option string;
}.

#[local] Abbreviation api A := (io ApiState AE.t A).

Definition with_redis {A} (c : io R AE.t A) : api A := λ s,
  let '(r, res) := c (st_redis s) in
  ({| st_redis := r; st_usage := st_usage s; st_ca := st_ca s; st_events := st_events s |}, res).
Definition with_usage {A} (f : gmap string UserUsage → gmap string UserUsage * A) : api A := λ s,
  let '(u, a) := f (st_usage s) in
  ({| st_redis := st_redis s; st_usage := u; st_ca := st_ca s; st_events := st_events s |}, Ok a).
Definition with_ca {A} (f : CertificateAuthority → R → CertificateAuthority * R * A) : api A := λ s,
  let '(ca, r, a) := f (st_ca s) (st_redis s) in
  ({| st_redis := r; st_usage := st_usage s; st_ca := ca; st_events := st_events s |}, Ok a).
Definition record_event (e : UsageEvent) : api () := λ s,
  ({| st_redis := st_redis s; st_usage := st_usage s; st_ca := st_ca s;
      st_events := st_events s ++ [e] |}, Ok ()).

(** ** Handlers *)

Context (cfg : ApiConfig).

Definition check_requested_ttl (q : CreateTunnelRequest) : result AE.t () :=
  let ttl_seconds := default (default_tunnel_ttl cfg) (q_ttl q) in
  if max_tunnel_ttl cfg <? ttl_seconds then
    Err (AE.BadRequest ("TTL " +:+ pretty ttl_seconds +:+ " exceeds maximum allowed TTL of "
           +:+ pretty (max_tunnel_ttl cfg) +:+ " seconds"))
  else Ok ().

Definition choose_subdomain (e : Env) (q : CreateTunnelRequest) : result AE.t string :=
  match q_custom_subdomain q with
  | Some custom => _ ← validate_subdomain custom; Ok custom
  | None => Ok (generate_random_subdomain (e_subdomain e))
  end.

(** The tunnel record of a request. *)
Definition new_tunnel now (e : Env) (user : GitHubUser) (subdomain serial : string) (port : Z)
    (q : CreateTunnelRequest) : Tunnel :=
  let t := Tunnel_new now (e_tunnel_id e) (gh_id user) (gh_login user) subdomain
             "fleetingdns.run" (q_port q) port serial (default 3600 (q_ttl q)) in
  {| t_id := t_id t; t_github_user_id := t_github_user_id t;
     t_github_username := t_github_username t; t_subdomain := t_subdomain t;
     t_fqdn := t_fqdn t; t_local_port := t_local_port t; t_slot := t_slot t;
     t_certificate_serial := t_certificate_serial t; t_created_at := t_created_at t;
     t_expires_at := t_expires_at t; t_status := t_status t;
     t_protected := default false (q_protected q);
     t_teardown_policy := default TtlOnly (q_teardown_policy q) |}.

Definition generate_ssh_key_pair (e : Env) : result AE.t SshKeyPair :=
  map_err (λ m, AE.InternalError ("SSH key generation failed: " +:+ m)) (e_keypair e).

Definition subdomain_taken (s : string) : AE.t :=
  AE.BadRequest ("Subdomain '" +:+ s +:+ "' is already in use by an active tunnel").

Definition QUOTA_MESSAGE : string :=
  "Tunnel creation quota exceeded. Please upgrade your ServicePlan or wait until next billing period.".

(** Issue the client certificate and reserve a port for its lifetime. *)
Definition issue_and_allocate now (e : Env) (user : GitHubUser)
    : api (EphemeralCertificate * Z) :=
  let request := IssuanceRequest_new (uuid_to_string (e_request_id e))
                   ("tunnel-client-" +:+ gh_id user) (gh_id user) in
  res ← with_ca (issue_client_certificate now (e_entropy e) (e_serial e) request);
  cert ← io_lift (map_err (λ err, AE.CertificateError (FE.to_string err)) res);
  let certificate_ttl := as_u64 (num_seconds (cm_expires_at (ec_metadata cert) - now)) in
  port ← with_redis (TunnelStorage.allocate_port now (e_start_port e) (gh_id user) certificate_ttl);
  mret (cert, port).

Definition create_tunnel now (e : Env) (headers : HeaderMap) (q : CreateTunnelRequest)
    : api CreateTunnelResponse :=
  user ← io_lift (authenticate cfg now headers);
  _ ← io_lift (check_requested_ttl q);
  can_create ← with_usage (can_create_tunnel now (gh_id user));
  _ ← io_lift (if (can_create : bool) then Ok () else Err (AE.BadRequest QUOTA_MESSAGE));
  subdomain ← io_lift (choose_subdomain e q);
  available ← with_redis (TunnelStorage.is_subdomain_available now subdomain);
  _ ← io_lift (if (available : bool) then Ok () else Err (subdomain_taken subdomain));
  '(cert, port) ← issue_and_allocate now e user;
  let tunnel := new_tunnel now e user subdomain (cm_serial_number (ec_metadata cert)) port q in
  let id := uuid_to_string (t_id tunnel) in
  _ ← with_redis (TunnelStorage.store_tunnel now (e_edge_public_ip e) tunnel);
  _ ← record_event (TunnelOpened id (gh_id user) now);
  ssh_key ← io_lift (generate_ssh_key_pair e);
  _ ← with_redis (TunnelStorage.store_ssh_session now id (gh_id user) (public_key ssh_key)
                    (key_fingerprint ssh_key) (t_expires_at tunnel));
  mret {| c_id := id; c_fqdn := t_fqdn tunnel; c_slot := port;
          c_tls_cert := ec_certificate_pem cert; c_private_key := ec_private_key_pem cert;
          c_ssh_key := ssh_key; c_expires_at := to_rfc3339 (t_expires_at tunnel);
          c_auth := if default false (q_auth q)
                    then Some {| ba_username := generate_random_string (e_username e);
                                 ba_password := generate_random_string (e_password e) |}
                    else None |}.

(** The steps the handlers of one tunnel share: authenticate, parse the
    identifier, read the tunnel, compare its owner. *)
Definition owned_tunnel now (tunnel_id denied : string) (headers : HeaderMap)
    : api (GitHubUser * uuid * Tunnel) :=
  user ← io_lift (authenticate cfg now headers);
  id ← io_lift (ok_or (uuid_parse tunnel_id) (AE.BadRequest "Invalid tunnel ID format"));
  found ← with_redis (TunnelStorage.get_tunnel now id);
  tunnel ← io_lift (ok_or found (AE.NotFound "Tunnel not found"));
  if t_github_user_id tunnel =?s gh_id user then mret (user, id, tunnel)
  else io_fail (AE.Forbidden denied).

Definition view_of now (t : Tunnel) : TunnelView :=
  {| v_id := uuid_to_string (t_id t); v_fqdn := t_fqdn t; v_local_port := t_local_port t;
     v_slot := t_slot t; v_status := t_status t; v_created_at := to_rfc3339 (t_created_at t);
     v_expires_at := to_rfc3339 (t_expires_at t);
     v_remaining_ttl := num_seconds (t_expires_at t - now) |}.

Definition get_tunnel now (tunnel_id : string) (headers : HeaderMap) : api TunnelView :=
  '(_, _, tunnel) ← owned_tunnel now tunnel_id "Access denied" headers;
  mret (view_of now tunnel).

Definition session_cookie (token fqdn : string) : string :=
  SESSION_COOKIE_NAME +:+ "=" +:+ token +:+ "; Domain=" +:+ fqdn
  +:+ "; Path=/; Secure; HttpOnly; SameSite=Lax; Max-Age=" +:+ pretty SESSION_GRANT_TTL_SECONDS.

Definition create_tunnel_session now (e : Env) (tunnel_id : string) (headers : HeaderMap)
    : api SessionGrantResponse :=
  '(user, _, tunnel) ← owned_tunnel now tunnel_id "Access denied" headers;
  let token := generate_random_string (e_token e) in
  _ ← with_redis (TunnelStorage.store_session_grant now (t_subdomain tunnel) token (gh_id user)
                    SESSION_GRANT_TTL_SECONDS);
  mret {| g_token := token; g_cookie := session_cookie token (t_fqdn tunnel);
          g_fqdn := t_fqdn tunnel;
          g_expires_at := to_rfc3339 (now + secs SESSION_GRANT_TTL_SECONDS) |}.

Definition delete_tunnel now (tunnel_id : string) (headers : HeaderMap) : api json :=
  '(user, id, tunnel) ← owned_tunnel now tunnel_id "Access denied" headers;
  deleted ← with_redis (TunnelStorage.delete_tunnel now id);
  _ ← (if (deleted : bool)
       then record_event (TunnelClosed (uuid_to_string (t_id tunnel)) (gh_id user) now UserRequested)
       else mret ());
  mret (JObj [("deleted", JBool deleted);
              ("message", JStr (if deleted then "Tunnel deleted successfully" else "Tunnel not found"))]).

(** ** Health *)

Definition perform_tunnel_health_checks now (t : Tunnel) : api TunnelHealthInfo :=
  if is_expired now t then
    mret {| h_status := Unhealthy; h_connection_status := Disconnected;
            h_details := {| ssh_connected := false; certificate_valid := false;
                            dns_resolvable := false; port_forwarding_active := false |};
            h_last_check := now; h_response_time_ms := 0 |}
  else
    valid ← (if t_certificate_serial t =?s "" then mret false
             else with_ca (validate_certificate now (t_certificate_serial t)));
    (** [.unwrap_or(false)]: an error counts as not connected. *)
    io_try (with_redis (TunnelStorage.is_tunnel_live now (uuid_to_string (t_id t)))) (λ live_res,
      let connected := match live_res with Ok b => b | Err _ => false end in
      mret {| h_status := if negb connected then Unhealthy
                          else if negb valid then Degraded else Healthy;
              h_connection_status :=
                if negb connected then Disconnected
                else if decide (t_status t = Creating) then Connecting
                else if decide (t_status t = Error) then Failed else Connected;
              h_details := {| ssh_connected := connected; certificate_valid := valid;
                              dns_resolvable := connected && negb (t_fqdn t =?s "");
                              port_forwarding_active := connected && negb (t_slot t =? 0) |};
              h_last_check := now; h_response_time_ms := 50 |}).

Definition get_tunnel_health now (tunnel_id : string) (headers : HeaderMap) : api TunnelHealthInfo :=
  '(_, _, tunnel) ← owned_tunnel now tunnel_id "Access denied to tunnel" headers;
  perform_tunnel_health_checks now tunnel.

(** One tunnel of the bulk request: a result or an error entry. *)
Definition bulk_one now (user : GitHubUser) (tunnel_id : string)
    : api (result HealthError TunnelHealthResult) :=
  let failed msg : result HealthError TunnelHealthResult :=
    Err {| he_tunnel_id := tunnel_id; he_error := msg |} in
  match uuid_parse tunnel_id with
  | None => mret (failed ("Invalid tunnel ID format: " +:+ tunnel_id))
  | Some id =>
      io_try (with_redis (TunnelStorage.get_tunnel now id)) (λ res,
        match res with
        | Ok (Some tunnel) =>
            if negb (t_github_user_id tunnel =?s gh_id user)
            then mret (failed "Access denied to tunnel")
            else
              io_try (perform_tunnel_health_checks now tunnel) (λ res,
                match res with
                | Ok info => mret (Ok {| hr_tunnel_id := tunnel_id; hr_health_info := info |})
                | Err e => mret (failed (AE.to_string e))
                end)
        | Ok None => mret (failed "Tunnel not found")
        | Err _ => mret (failed "Failed to retrieve tunnel")
        end)
  end.

Fixpoint bulk_loop now (user : GitHubUser) (ids : list string)
    : api (list TunnelHealthResult * list HealthError) :=
  match ids with
  | [] => mret ([], [])
  | id :: ids =>
      one ← bulk_one now user id;
      '(oks, errs) ← bulk_loop now user ids;
      mret (match one with Ok x => (x :: oks, errs) | Err e => (oks, e :: errs) end)
  end.

Definition get_bulk_tunnel_health now (headers : HeaderMap) (tunnel_ids : list string)
    : api BulkHealthResponse :=
  user ← io_lift (authenticate cfg now headers);
  _ ← io_lift (if decide (tunnel_ids = []) then Err (AE.BadRequest "No tunnel IDs provided")
               else if 100 <? Z.of_nat (length tunnel_ids)
               then Err (AE.BadRequest "Maximum 100 tunnels per request") else Ok ());
  '(oks, errs) ← bulk_loop now user tunnel_ids;
  mret {| health_results := oks; bulk_errors := errs;
          total_tunnels := Z.of_nat (length tunnel_ids);
          successful_checks := Z.of_nat (length oks); failed_checks := Z.of_nat (length errs) |}.

Definition list_tunnels now (headers : HeaderMap) : api (list TunnelView) :=
  user ← io_lift (authenticate cfg now headers);
  tunnels ← with_redis (TunnelStorage.list_user_tunnels now (gh_id user));
  mret (view_of now <$> tunnels).

(** [samples] are the random ports of the storage's estimate. *)
Definition get_port_stats now (samples : list Z) (headers : HeaderMap) : api json :=
  _ ← io_lift (authenticate cfg now headers);
  '(allocated, available, total) ← with_redis (TunnelStorage.get_port_stats now samples);
  let percentage := f64_mul (f64_div (f64_of_Z allocated) (f64_of_Z total)) (f64_of_Z 100) in
  mret (JObj [("allocated_ports", JNum allocated); ("available_ports", JNum available);
              ("total_ports", JNum total);
              ("utilization_percentage",
                JNum (Z.max 0 (Z.min 255 (default 0 (f64_round percentage)))))]).

End handlers.

(** ** Only the owner *)

Section specs.
Context `{Hspec : RedisSpec R} `{Hcodec : Codec} `{Hrcgen : Rcgen} `{Hmd5 : Md5}.
Implicit Types (now : Z) (s : ApiState (R := R)).

(** Nothing the API keeps has changed. *)
Definition same_data now s s' : Prop :=
  live now (st_redis s') = live now (st_redis s)
  ∧ st_usage s' = st_usage s ∧ st_ca s' = st_ca s ∧ st_events s' = st_events s.

Lemma same_data_refl now s : same_data now s s.
Proof. done. Qed.

Lemma with_redis_inv {A} (c : io R AE.t A) s s' res :
  with_redis c s = (s', res) →
  c (st_redis s) = (st_redis s', res)
  ∧ st_usage s' = st_usage s ∧ st_ca s' = st_ca s ∧ st_events s' = st_events s.
Proof. unfold with_redis. destruct (c (st_redis s)) as [r x]. intros [= <- <-]. done. Qed.

Lemma with_redis_reads {A} now (c : io R AE.t A) s s' res :
  reads now c → with_redis c s = (s', res) → same_data now s s'.
Proof. intros Hc [Hr ?]%with_redis_inv. split; [by eapply Hc|done]. Qed.

Lemma io_lift_bind {S E A B} (x : result E A) (f : A → io S E B) (s : S) :
  (io_lift x ≫= f) s = match x with Ok a => f a s | Err e => (s, Err e) end.
Proof. by destruct x. Qed.

(** What the shared prefix of the handlers establishes. *)
Lemma owned_tunnel_spec cfg now tid denied headers s s' res :
  owned_tunnel cfg now tid denied headers s = (s', res) →
  same_data now s s' ∧
  match res with
  | Ok (user, id, t) =>
      authenticate cfg now headers = Ok user ∧ uuid_parse tid = Some id
      ∧ tunnel_at (live now (st_redis s)) id = Some t ∧ t_github_user_id t = gh_id user
  | Err _ => True
  end.
Proof.
  unfold owned_tunnel. rewrite io_lift_bind.
  destruct (authenticate cfg now headers) as [user|]; [|by intros [= <- <-]].
  rewrite io_lift_bind. destruct (uuid_parse tid) as [id|]; cbn [ok_or]; [|by intros [= <- <-]].
  unfold mbind at 1, io_bind at 1.
  destruct (with_redis _ s) as [s1 found] eqn:E1.
  pose proof (with_redis_reads now _ _ _ _ (get_tunnel_reads now id) E1) as Hsame.
  destruct found as [o|]; [|by intros [= <- <-]].
  apply with_redis_inv in E1 as [[Ho _]%get_tunnel_ok _].
  rewrite io_lift_bind. destruct o as [t|]; cbn [ok_or]; [|by intros [= <- <-]].
  destruct (String.eqb_spec (t_github_user_id t) (gh_id user)); intros [= <- <-]; by split.
Qed.
End specs.

(** C9: tunnels are private to their owner.  Unless the request authenticates as
    the user who owns the tunnel with that identifier, showing, deleting and
    probing it and minting a grant for it all fail, and the API's data, quota,
    registry and events are unchanged. *)
Theorem handlers_owner_only `{RedisSpec R} `{Codec} `{Rcgen} `{Md5}
    cfg now e tid headers (s : ApiState (R := R))
    (Hown : ∀ user id t, authenticate cfg now headers = Ok user → uuid_parse tid = Some id →
       tunnel_at (live now (st_redis s)) id = Some t → t_github_user_id t ≠ gh_id user) :
  (∃ s' err, get_tunnel cfg now tid headers s = (s', Err err) ∧ same_data now s s')
  ∧ (∃ s' err, delete_tunnel cfg now tid headers s = (s', Err err) ∧ same_data now s s')
  ∧ (∃ s' err, get_tunnel_health cfg now tid headers s = (s', Err err) ∧ same_data now s s')
  ∧ (∃ s' err, create_tunnel_session cfg now e tid headers s = (s', Err err) ∧ same_data now s s').
Proof.
  assert (∀ denied, ∃ s' err, owned_tunnel cfg now tid denied headers s = (s', Err err)
            ∧ same_data now s s') as Hno.
  { intros denied. destruct (owned_tunnel cfg now tid denied headers s) as [s' res] eqn:E.
    apply owned_tunnel_spec in E as [Hsame Hres].
    destruct res as [[[user id] t]|err]; [|by eauto].
    destruct Hres as (Ha & Hid & Ht & Ho). by destruct (Hown user id t Ha Hid Ht). }
  destruct (Hno "Access denied") as (s1 & err1 & E1 & Hs1).
  destruct (Hno "Access denied to tunnel") as (s2 & err2 & E2 & Hs2).
  unfold get_tunnel, delete_tunnel, get_tunnel_health, create_tunnel_session.
  split_and!; first [exists s1, err1; split; [by apply io_bind_stop|done]
                    |exists s2, err2; split; [by apply io_bind_stop|done]].
Qed.

(** ** What a successful creation leaves behind *)

Section create.
Context `{Hspec : RedisSpec R} `{Hcodec : Codec} `{Hrcgen : Rcgen} `{Hmd5 : Md5}.
Implicit Types (now : Z) (s : ApiState (R := R)).

Lemma io_lift_ok {S E A} (x : result E A) (s s' : S) a :
  io_lift x s = (s', Ok a) → x = Ok a ∧ s' = s.
Proof. by intros [= <- ->]. Qed.

(** Certificate and port: the port was free and is reserved for the user. *)
Lemma issue_and_allocate_ok now e user s s' cert port :
  issue_and_allocate now e user s = (s', Ok (cert, port)) →
  PORT_RANGE_START ≤ e_start_port e < PORT_RANGE_END →
  PORT_RANGE_START ≤ port ≤ PORT_RANGE_END
  ∧ live now (st_redis s) !! port_key port = None
  ∧ str_at (live now (st_redis s')) (port_key port) = Some (gh_id user)
  ∧ ∀ k, (∀ sn, k ≠ cert_key sn) → (∀ p, k ≠ port_key p) →
      live now (st_redis s') !! k = live now (st_redis s) !! k.
Proof.
  unfold issue_and_allocate. intros Hr Hstart.
  apply io_bind_ok in Hr as (s1 & res & H1 & Hr).
  apply io_bind_ok in Hr as (s2 & c & [_ ->]%io_lift_ok & Hr).
  apply io_bind_ok in Hr as (s3 & p & [Ha _]%with_redis_inv & [-> [= -> ->]]%io_ret_inv).
  unfold with_ca in H1. destruct (issue_client_certificate _ _ _ _ _ _) as [[ca r1] res'] eqn:Ei.
  injection H1 as <- <-. cbn [st_redis] in Ha.
  unfold TunnelStorage.allocate_port, TunnelStorage.get_connection, TunnelStorage.storage in Ha.
  apply io_bind_ok in Ha as (r2 & [] & Hcon%io_map_err_ok & [Hf Hl]%try_ports_ok).
  apply connect_spec with (now := now) in Hcon. rewrite Hcon in Hf, Hl.
  apply first_free_Some in Hf as [Hin Hfree].
  apply probes_range in Hin; [|unfold in_port_range; lia]. split; [done|].
  assert (∀ k, (∀ sn, k ≠ cert_key sn) → live now r1 !! k = live now (st_redis s) !! k) as Hframe
    by (intros; by eapply issue_frame).
  split; [rewrite <- Hfree; symmetry; apply Hframe; intros; key_ne|].
  split; [unfold str_at, put_ex in *; by rewrite Hl, lookup_insert_eq|].
  intros k Hc Hp. rewrite Hl. unfold put_ex. rewrite lookup_insert_ne by done. by apply Hframe.
Qed.

(** The stages of a creation: the data [m] when the tunnel is stored, then the
    store's writes, then the session. *)
Lemma create_tunnel_steps cfg now e headers q s s' resp :
  create_tunnel cfg now e headers q s = (s', Ok resp) →
  PORT_RANGE_START ≤ e_start_port e < PORT_RANGE_END →
  ∃ user sub serial port key m, let t := new_tunnel now e user sub serial port q in
    authenticate cfg now headers = Ok user
    ∧ choose_subdomain e q = Ok sub
    ∧ PORT_RANGE_START ≤ port ≤ PORT_RANGE_END
    ∧ live now (st_redis s) !! port_key port = None
    ∧ agree_tunnels m (live now (st_redis s))
    ∧ str_at m (port_key port) = Some (gh_id user)
    ∧ 0 < TunnelStorage.tunnel_ttl now t < 2 ^ 63
    ∧ (m !! subdomain_key (t_subdomain t) = None
       ∨ holder m (t_subdomain t) = Some (uuid_to_string (t_id t)))
    ∧ live now (st_redis s') =
        put_ex now ("session:" +:+ uuid_to_string (t_id t))
          (json_to_string (ser_SessionData (TunnelStorage.ssh_session (uuid_to_string (t_id t))
             (gh_id user) (public_key key) (key_fingerprint key) (t_expires_at t))))
          (TunnelStorage.session_ttl now (t_expires_at t))
          (put_tunnel now (e_edge_public_ip e) t m)
    ∧ c_id resp = uuid_to_string (t_id t) ∧ c_fqdn resp = t_fqdn t ∧ c_slot resp = port
    ∧ c_ssh_key resp = key.
Proof.
  unfold create_tunnel. intros Hc Hstart.
  apply io_bind_ok in Hc as (s0 & user & [Hauth ->]%io_lift_ok & Hc).
  apply io_bind_ok in Hc as (s0 & [] & [_ ->]%io_lift_ok & Hc).
  apply io_bind_ok in Hc as (s1 & can & Hs1 & Hc).
  apply io_bind_ok in Hc as (s0 & [] & [_ ->]%io_lift_ok & Hc).
  apply io_bind_ok in Hc as (s0 & sub & [Hsub ->]%io_lift_ok & Hc).
  apply io_bind_ok in Hc as (s2 & av & Hs2 & Hc).
  apply io_bind_ok in Hc as (s0 & [] & [_ ->]%io_lift_ok & Hc).
  apply io_bind_ok in Hc as (s3 & [cert port] & Hs3 & Hc).
  cbn zeta in Hc. set (serial := cm_serial_number (ec_metadata cert)) in Hc.
  set (t := new_tunnel now e user sub serial port q) in Hc.
  apply io_bind_ok in Hc as (s4 & [] & [Hs4 _]%with_redis_inv & Hc).
  apply io_bind_ok in Hc as (s5 & [] & [= <-] & Hc).
  apply io_bind_ok in Hc as (s0 & key & [_ ->]%io_lift_ok & Hc).
  apply io_bind_ok in Hc as (s6 & [] & [Hs6 _]%with_redis_inv & [-> [= ->]]%io_ret_inv).
  assert (st_redis s1 = st_redis s) as E1.
  { unfold with_usage in Hs1. destruct (can_create_tunnel _ _ _). by simplify_eq. }
  apply (with_redis_reads now) in Hs2 as [E2 _]; [|apply is_subdomain_available_reads].
  apply issue_and_allocate_ok in Hs3 as (Hrange & Hfree & Hport & Hframe); [|done].
  rewrite E2, E1 in Hfree, Hframe. apply store_tunnel_effect in Hs4 as (E4 & Hpos & Hcl).
  unfold TunnelStorage.store_ssh_session, TunnelStorage.get_connection, TunnelStorage.storage in Hs6.
  inv_io Hs6. apply connect_spec with (now := now) in Hio.
  apply (proj1 (set_ex_writes now _ _ _)) in Hs6. cbn [st_redis] in Hio. rewrite Hio, E4 in Hs6.
  exists user, sub, serial, port, key, (live now (st_redis s3)). cbn zeta.
  split_and!; solve [done | apply Hrange | apply Hpos | split; intros; apply Hframe; intros; key_ne].
Qed.
End create.

(** C10: what a successful creation leaves behind.  The caller is authenticated
    and owns the stored tunnel; its subdomain is claimed by it and its name
    resolves to the edge; its slot is a port that was free, is reserved for the
    user and is the one returned; the SSH session of the returned key is stored
    with the tunnel's expiry.  The domain is always [fleetingdns.run] and the
    default lifetime 3600 seconds, whatever the configuration says. *)
Theorem create_tunnel_correct `{RedisSpec R} `{Codec} `{Rcgen} `{Md5}
    cfg now e headers q (s s' : ApiState (R := R)) resp
    (Hc : create_tunnel cfg now e headers q s = (s', Ok resp))
    (Hq : u16_ok (q_port q))
    (Hstart : PORT_RANGE_START ≤ e_start_port e < PORT_RANGE_END)
    (Hdt : dt_ok now ∧ dt_ok (now + secs (as_i64 (default 3600 (q_ttl q))))) :
  let m := live now (st_redis s') in
  ∃ user t, authenticate cfg now headers = Ok user
    ∧ tunnel_at m (e_tunnel_id e) = Some t
    ∧ c_id resp = uuid_to_string (t_id t) ∧ t_github_user_id t = gh_id user
    ∧ c_fqdn resp = t_subdomain t +:+ ".fleetingdns.run"
    ∧ t_expires_at t = now + secs (as_i64 (default 3600 (q_ttl q)))
    ∧ holder m (t_subdomain t) = Some (c_id resp)
    ∧ str_at m (dns_slot_key (c_fqdn resp)) = Some (TunnelStorage.edge_ip (e_edge_public_ip e))
    ∧ c_slot resp = t_slot t ∧ PORT_RANGE_START ≤ t_slot t ≤ PORT_RANGE_END
    ∧ live now (st_redis s) !! port_key (t_slot t) = None
    ∧ str_at m (port_key (t_slot t)) = Some (gh_id user)
    ∧ ∃ d, session_at m (session_key "session" (c_id resp)) = Some d
        ∧ s_fingerprint d = key_fingerprint (c_ssh_key resp) ∧ s_expires_at d = t_expires_at t.
Proof.
  apply create_tunnel_steps in Hc as (user & sub & serial & port & key & m0 & Hc); [|done].
  cbn zeta in Hc. set (t := new_tunnel now e user sub serial port q) in Hc.
  destruct Hc as (Hauth & _ & Hrange & Hfree & _ & Hport & Hpos & Hcl & -> & -> & -> & -> & ->).
  assert (tunnel_ok t) as Hok.
  { split_and!; [done| |apply Hdt..].
    cbn. unfold PORT_RANGE_START, PORT_RANGE_END, u16_ok in *. lia. }
  intros m. exists user, t.
  assert (∀ k, k ≠ "session:" +:+ uuid_to_string (t_id t) →
            m !! k = put_tunnel now (e_edge_public_ip e) t m0 !! k) as Hm
    by (intros; by apply lookup_insert_ne).
  assert (∀ k, str_at m k = match m !! k with Some (REntry (RString x) _) => Some x | _ => None end)
    as Hstr by done.
  unfold tunnel_at, holder, session_at. rewrite !Hstr.
  change (e_tunnel_id e) with (t_id t). change (t_slot t) with port.
  rewrite !Hm by key_ne. rewrite put_tunnel_record, put_tunnel_slot, put_tunnel_claim by done.
  rewrite put_tunnel_other by key_ne.
  split; [done|]. split; [cbn; by rewrite from_str_to_string, de_ser_Tunnel by auto using tunnel_json_wf|].
  split_and!; try solve [done | apply Hrange].
  exists (TunnelStorage.ssh_session (uuid_to_string (t_id t)) (gh_id user) (public_key key)
            (key_fingerprint key) (t_expires_at t)).
  unfold m, put_ex, session_key. split; [|done].
  change ("session" +:+ ":" +:+ uuid_to_string (t_id t)) with ("session:" +:+ uuid_to_string (t_id t)).
  rewrite lookup_insert_eq. cbn.
  rewrite from_str_to_string, de_ser_SessionData by (apply session_json_wf || apply Hdt). done.
Qed.

(** ** Examples on the concrete server *)
Module ApiDemo.
Import MemRedis BitCodec AuthDemo CADemo.

Definition env : Env :=
  {| e_tunnel_id := (5%N : @uuid bit_codec); e_request_id := (6%N : @uuid bit_codec);
     e_serial := (7%N : @uuid bit_codec); e_entropy := "seed"; e_start_port := 20000;
     e_subdomain := [10; 11; 12]; e_username := [0%nat]; e_password := [1%nat];
     e_token := [0; 1; 2]%nat;
     e_keypair := Ok {| private_key := "priv"; public_key := "pub"; key_fingerprint := "SHA256:x" |};
     e_edge_public_ip := Some "203.0.113.7" |}.
Definition start : ApiState (R := mem) :=
  {| st_redis := ∅; st_usage := ∅; st_ca := authority; st_events := [] |}.
Definition ann : HeaderMap := headers (signed "42:ann:0" "your-jwt-secret-key").
Definition bob : HeaderMap := headers (signed "43:bob:0" "your-jwt-secret-key").
Definition request : CreateTunnelRequest :=
  {| q_port := 3000; q_ttl := None; q_custom_subdomain := Some "app"; q_auth := None;
     q_protected := Some true; q_teardown_policy := None |}.

Definition created := create_tunnel default_api_config 0 env ann request start.
Definition response : CreateTunnelResponse :=
  match created.2 with
  | Ok r => r
  | Err _ => {| c_id := ""; c_fqdn := ""; c_slot := 0; c_tls_cert := ""; c_private_key := "";
                c_ssh_key := {| private_key := ""; public_key := ""; key_fingerprint := "" |};
                c_expires_at := ""; c_auth := None |}
  end.

Example created_ok : created.2 = Ok response.
Proof. eval_eq. Qed.

Lemma create_tunnel_correct_witness :
  ∃ user t, authenticate default_api_config 0 ann = Ok user
    ∧ tunnel_at (live 0 (st_redis created.1)) (e_tunnel_id env) = Some t
    ∧ t_github_user_id t = gh_id user
    ∧ t_expires_at t = secs 3600
    ∧ str_at (live 0 (st_redis created.1)) (port_key (t_slot t)) = Some (gh_id user).
Proof.
  destruct (create_tunnel_correct default_api_config 0 env ann request start created.1 response)
    as (user & t & Ha & Ht & _ & Ho & _ & He & _ & _ & _ & _ & _ & Hp & _).
  - eval_eq.
  - by vm_compute.
  - by vm_compute.
  - by vm_compute.
  - exists user, t.
    exact (conj Ha (conj Ht (conj Ho (conj (He : t_expires_at t = secs 3600) Hp)))).
Defined.

Definition tid : string := c_id response.

Lemma handlers_owner_only_witness :
  ∃ s' err, delete_tunnel default_api_config 0 tid bob created.1 = (s', Err err)
    ∧ same_data 0 created.1 s'.
Proof.
  apply (handlers_owner_only default_api_config 0 env tid bob created.1).
  intros user id t Ha Hid Ht Ho.
  assert (authenticate default_api_config 0 bob = Ok (bare_user "43" "bob")) as Hb by eval_eq.
  assert (uuid_parse tid = Some (e_tunnel_id env)) as Hi by eval_eq.
  assert (t_github_user_id <$> tunnel_at (live 0 (st_redis created.1)) (e_tunnel_id env) = Some "42")
    as Hown by eval_eq.
  rewrite Hb in Ha. injection Ha as <-. assert (id = e_tunnel_id env) as -> by congruence.
  rewrite Ht in Hown. injection Hown as Hown. rewrite Hown in Ho. discriminate Ho.
Defined.
End ApiDemo.
