(* ===== verification/ApiStack.v ===== *)
(** * The API server: middleware, routes, small handlers

    crates/backendapi/src/middleware/error_handler.rs and telemetry.rs, the router
    of crates/backendapi/src/lib.rs with its layers, and the handlers
    quota_management.rs, certificates.rs, stats.rs and the health check of
    crates/backendapi/src/handlers.  The rate limiter is that of [RateLimit], the
    authentication layer that of [Auth].  axum applies the layer added last first,
    so a request meets rate limiting, authentication, telemetry, the size check,
    the timeout, error recovery and the error handler in this order; the trace and
    CORS layers of tower-http outside them are left out. *)

From S2P Require Import Prelude Redis Serde Models Errors Net Float Auth RateLimit Quota RedisCache CA Storage TunnelsApi.

(** ** Requests *)

Record Request := {
  rq_method : string;
  rq_path : string;
  rq_headers : HeaderMap;
  (** The user the authentication layer put into the extensions. *)
  rq_user : option AuthenticatedUser;
  rq_body : string;
}.

Definition insert_header (name value : string) (q : Request) : Request :=
  {| rq_method := rq_method q; rq_path := rq_path q;
     rq_headers := <[name := {| hv_to_str := Some value |}]> (rq_headers q);
     rq_user := rq_user q; rq_body := rq_body q |}.
Definition set_user (u : AuthenticatedUser) (q : Request) : Request :=
  {| rq_method := rq_method q; rq_path := rq_path q; rq_headers := rq_headers q;
     rq_user := Some u; rq_body := rq_body q |}.

(** [str::parse::<usize>]: an optional plus sign and at least one digit. *)
Definition parse_usize (s : string) : option Z :=
  let digits s := if String.eqb s "" then None else dec_value 0 s in
  v ← match s with
      | String a s' => if Ascii.eqb a "+" then digits s' else digits s
      | "" => None
      end;
  if bool_decide (v < 2 ^ 64) then Some v else None.

(** ** Circuit breaker *)

Record CircuitBreaker := {
  failure_threshold : Z;
  timeout_duration : Z;
  failure_count : Z;
  last_failure_time : option Z;
}.

Definition CircuitBreaker_new (threshold timeout : Z) : CircuitBreaker :=
  {| failure_threshold := threshold; timeout_duration := timeout; failure_count := 0;
     last_failure_time := None |}.

Definition is_open (now : Z) (b : CircuitBreaker) : bool :=
  (failure_threshold b <=? failure_count b)
  && match last_failure_time b with
     | Some t => duration_since now t <? timeout_duration b
     | None => false
     end.

Definition record_success (b : CircuitBreaker) : CircuitBreaker :=
  {| failure_threshold := failure_threshold b; timeout_duration := timeout_duration b;
     failure_count := 0; last_failure_time := None |}.
Definition record_failure (now : Z) (b : CircuitBreaker) : CircuitBreaker :=
  {| failure_threshold := failure_threshold b; timeout_duration := timeout_duration b;
     failure_count := as_u32 (failure_count b + 1); last_failure_time := Some now |}.

(** ** Routes *)

Inductive Endpoint :=
  | HealthCheck | GithubOauth | ExchangeToken | GithubOauthUrl
  | CreateTunnel | GetTunnel | DeleteTunnel | ListTunnels | CreateTunnelSession | GetTunnelHealth
  | GetBulkTunnelHealth | IssueCertificate | GetCertificate | GetStats
  | GetRateLimitPolicy | UpdateRateLimitPolicy | CreateServicePlan | ListServicePlans
  | GetServicePlan | UpdateServicePlan | DeleteServicePlan | AssignServicePlan
  | GetMyServicePlan | GetMyServicePlanUsage | GetAvailableServicePlans | RequestServicePlanChange
  | GetQuotaInfo | CheckOperationAllowed | ResetUserUsage | GetAllUsersQuotaStatus.
#[export] Instance Endpoint_eq_dec : EqDecision Endpoint.
Proof. solve_decision. Defined.

(** The routes of [create_router], in its order. *)
Definition ROUTES : list (string * string * Endpoint) :=
  [("/health", "GET", HealthCheck);
   ("/v1/auth/github", "POST", GithubOauth);
   ("/v1/auth/token", "POST", ExchangeToken);
   ("/v1/auth/github/url", "GET", GithubOauthUrl);
   ("/v1/tunnels", "POST", CreateTunnel);
   ("/v1/tunnels/{id}", "GET", GetTunnel);
   ("/v1/tunnels/{id}", "DELETE", DeleteTunnel);
   ("/v1/tunnels", "GET", ListTunnels);
   ("/v1/tunnels/{id}/session", "POST", CreateTunnelSession);
   ("/v1/tunnels/{id}/health", "GET", GetTunnelHealth);
   ("/v1/tunnels/health/bulk", "POST", GetBulkTunnelHealth);
   ("/v1/certificates", "POST", IssueCertificate);
   ("/v1/certificates/{serial}", "GET", GetCertificate);
   ("/v1/stats", "GET", GetStats);
   ("/admin/rate-limit-policy", "GET", GetRateLimitPolicy);
   ("/admin/rate-limit-policy", "PUT", UpdateRateLimitPolicy);
   ("/admin/service-plans", "POST", CreateServicePlan);
   ("/admin/service-plans", "GET", ListServicePlans);
   ("/admin/service-plans/{id}", "GET", GetServicePlan);
   ("/admin/service-plans/{id}", "PUT", UpdateServicePlan);
   ("/admin/service-plans/{id}", "DELETE", DeleteServicePlan);
   ("/admin/users/{user_id}/service-plan", "POST", AssignServicePlan);
   ("/my/service-plan", "GET", GetMyServicePlan);
   ("/my/service-plan/usage", "GET", GetMyServicePlanUsage);
   ("/service-plans/available", "GET", GetAvailableServicePlans);
   ("/service-plans/change-request", "POST", RequestServicePlanChange);
   ("/my/quota-info", "GET", GetQuotaInfo);
   ("/quota/check-operation", "POST", CheckOperationAllowed);
   ("/admin/quota/reset-usage", "POST", ResetUserUsage);
   ("/admin/quota/all-users-status", "GET", GetAllUsersQuotaStatus)].

(** A path parameter stands for one non-empty segment. *)
Definition is_param (seg : string) : bool := starts_with "{" seg.

Fixpoint match_segments (pattern path : list string) : option (list string) :=
  match pattern, path with
  | [], [] => Some []
  | p :: pattern, s :: path =>
      if is_param p then
        if s =?s "" then None else cons s <$> match_segments pattern path
      else if p =?s s then match_segments pattern path else None
  | _, _ => None
  end.

Definition match_path (pattern path : string) : option (list string) :=
  match_segments (str_split "/" pattern) (str_split "/" path).

(** A [GET] route answers [HEAD] too. *)
Definition match_method (route method : string) : bool :=
  (route =?s method) || ((route =?s "GET") && (method =?s "HEAD")).

Inductive Routed := Found (e : Endpoint) (params : list string) | MethodNotAllowed | NoRoute.

Fixpoint find_route (routes : list (string * string * Endpoint)) (method path : string) : Routed :=
  match routes with
  | [] => NoRoute
  | (pattern, m, e) :: routes =>
      match match_path pattern path with
      | Some params =>
          if match_method m method then Found e params
          else match find_route routes method path with
               | NoRoute => MethodNotAllowed | found => found end
      | None => find_route routes method path
      end
  end.

Definition route (method path : string) : Routed := find_route ROUTES method path.

(** The endpoints that need no token. *)
Definition PUBLIC : list Endpoint := [HealthCheck; GithubOauth; ExchangeToken; GithubOauthUrl].

(** ** Middleware *)

Section stack.
Context `{Hgov : Governor} `{Hcodec : Codec} `{Hmd5 : Md5}.
(** The state behind the routes, response bodies and their two built-in forms. *)
Context {W B : Type} (error_body : AE.ErrorResponse → B) (empty_body : B).
Context (show : f64 → string) (hv_from_str : string → option string).
Context (cfg : ApiConfig).

(** A service that may still be running when the request's deadline passes:
    then the state is the one it has reached. *)
Definition Pending : Type := Request → W → W * option (Response B).
(** A service that answers. *)
Definition Service : Type := Request → W → W * Response B.

(** The random identifiers of one request. *)
Record Draw := { d_request_id : uuid; d_error_id : uuid }.

(** An error as [IntoResponse] renders it. *)
Definition error_response (x : Z * AE.ErrorResponse) : Response B :=
  {| status := x.1; headers := {[ "content-type" := "application/json" ]}; body := error_body x.2 |}.

(** The context of a request for the log. *)
Definition extract_request_context (q : Request) (request_id : string) : AE.ErrorContext :=
  let header name := v ← rq_headers q !! name; hv_to_str v in
  {| AE.request_id := Some request_id;
     AE.user_id := h ← header "authorization"; token ← strip_prefix "Bearer " h;
                   if 10 <? Z.of_nat (String.length token) then Some (substring 0 10 token) else None;
     AE.endpoint := Some (rq_path q);
     AE.method := Some (rq_method q);
     AE.client_ip := v ← match rq_headers q !! "x-forwarded-for" with
                         | Some v => Some v | None => rq_headers q !! "x-real-ip" end;
                     s ← hv_to_str v; first ← head (str_split "," s); Some (str_trim first);
     AE.user_agent := header "user-agent" |}.

(** The context only goes to the log. *)
Definition error_handler_middleware (d : Draw) (next : Pending) : Pending := λ q w,
  next (insert_header "x-request-id" (uuid_to_string (d_request_id d)) q) w.

Definition is_success (code : Z) : bool := (200 <=? code) && (code <? 300).

Definition apply_error_recovery (r : Response B) : Response B :=
  if status r =? 503 then insert_headers [("retry-after", "30")] r
  else if status r =? 429 then insert_headers [("retry-after", "60")] r
  else if status r =? 500 then insert_headers [("x-error-correlation", "internal-error")] r
  else r.

Definition error_recovery_middleware (next : Pending) : Pending := λ q w,
  let '(w, r) := next q w in
  (w, (λ r, if is_success (status r) then r else apply_error_recovery r) <$> r).

Definition timeout_middleware (now : Z) (d : Draw) (next : Pending) : Service := λ q w,
  match next q w with
  | (w, Some r) => (w, r)
  | (w, None) =>
      (w, error_response (AE.into_response_with_context now (d_error_id d)
            (AE.RequestTimeout "Request timed out after 30 seconds") AE.no_context))
  end.

Definition MAX_REQUEST_SIZE : Z := 1024 * 1024.

Definition content_length (q : Request) : option Z :=
  v ← rq_headers q !! "content-length"; s ← hv_to_str v; parse_usize s.

Definition too_large (q : Request) : option Z :=
  size ← content_length q; if MAX_REQUEST_SIZE <? size then Some size else None.

Definition request_size_middleware (now : Z) (d : Draw) (next : Service) : Service := λ q w,
  match too_large q with
  | Some size =>
      (w, error_response (AE.into_response_with_context now (d_error_id d)
            (AE.PayloadTooLarge ("Request size " +:+ pretty size
               +:+ " bytes exceeds maximum allowed size of " +:+ pretty MAX_REQUEST_SIZE +:+ " bytes"))
            AE.no_context))
  | None => next q w
  end.

(** Spans, metrics and logs only. *)
Definition telemetry_middleware (next : Service) : Service := next.

Definition auth_layer (now : Z) (d : Draw) (next : Service) : Service := λ q w,
  match auth_middleware cfg now (rq_path q) (rq_headers q) with
  | Ok None => next q w
  | Ok (Some user) => next (set_user user q) w
  | Err e => (w, error_response (AE.into_response now (d_error_id d) e))
  end.

(** The handlers: what an endpoint does with its path parameters. *)
Context (dispatch : Endpoint → list string → Pending).

Definition router : Pending := λ q w,
  match route (rq_method q) (rq_path q) with
  | Found e params => dispatch e params q w
  | MethodNotAllowed => (w, Some {| status := 405; headers := ∅; body := empty_body |})
  | NoRoute => (w, Some {| status := 404; headers := ∅; body := empty_body |})
  end.

(** What is behind the rate limiter. *)
Definition inner_service (now : Z) (d : Draw) : Service :=
  auth_layer now d (telemetry_middleware (request_size_middleware now d
    (timeout_middleware now d (error_recovery_middleware (error_handler_middleware d router))))).

(** [create_router]; [None] is a panic in the creation of a limiter. *)
Definition api_service (now : Z) (d : Draw) (q : Request) (s : RateLimitState) (w : W)
    : option (RateLimitState * W * Response B) :=
  rate_limit_middleware error_body show hv_from_str now (d_error_id d) (rq_path q) (rq_method q)
    (rq_headers q) (inner_service now d q) s w.

(** ** What a request meets *)

Lemma router_found q w e params :
  route (rq_method q) (rq_path q) = Found e params → router q w = dispatch e params q w.
Proof. intros E. unfold router. by rewrite E. Qed.

(** The request as the router sees it. *)
Definition forwarded (d : Draw) (user : option AuthenticatedUser) (q : Request) : Request :=
  insert_header "x-request-id" (uuid_to_string (d_request_id d))
    match user with Some u => set_user u q | None => q end.

(** How an answer goes back: its status and body as they are, 408 when there is
    none in time. *)
Definition answered (out : option (Response B)) (r : Response B) : Prop :=
  match out with
  | Some h => status r = status h ∧ body r = body h
  | None => status r = 408
  end.

Lemma insert_headers_same hs (r : Response B) :
  status (insert_headers hs r) = status r ∧ body (insert_headers hs r) = body r.
Proof. done. Qed.

Lemma recovery_answered h :
  answered (Some h) (if is_success (status h) then h else apply_error_recovery h).
Proof. unfold apply_error_recovery. by repeat case_match. Qed.

(** The layers behind the rate limiter. *)
Lemma inner_service_spec now d q w w' r :
  inner_service now d q w = (w', r) →
  match auth_middleware cfg now (rq_path q) (rq_headers q) with
  | Err e => w' = w ∧ r = error_response (AE.into_response now (d_error_id d) e)
  | Ok user =>
      match too_large q with
      | Some _ => w' = w ∧ status r = 413
      | None => ∃ out, router (forwarded d user q) w = (w', out) ∧ answered out r
      end
  end.
Proof.
  unfold inner_service, auth_layer, telemetry_middleware. generalize router as next. intros next.
  destruct (auth_middleware cfg now (rq_path q) (rq_headers q)) as [user|e]; [|by intros [= <- <-]].
  intros E.
  assert (request_size_middleware now d (timeout_middleware now d
            (error_recovery_middleware (error_handler_middleware d next)))
            (match user with Some u => set_user u q | None => q end) w = (w', r)) as E'
    by by destruct user. clear E.
  unfold request_size_middleware in E'.
  replace (too_large (match user with Some u => set_user u q | None => q end)) with (too_large q) in E'
    by by destruct user.
  destruct (too_large q) as [size|]; [injection E' as <- <-; by split|].
  unfold timeout_middleware, error_recovery_middleware, error_handler_middleware in E'.
  unfold forwarded. destruct (next _ w) as [w1 [h|]]; cbn in E'; injection E' as <- <-.
  - exists (Some h). split; [done|]. apply recovery_answered.
  - by exists None.
Qed.

(** A status of the authentication layer's errors. *)
Lemma auth_middleware_status now path h e id :
  auth_middleware cfg now path h = Err e → (AE.into_response now id e).1 = 401.
Proof.
  unfold auth_middleware. destruct (is_public_endpoint path); [done|].
  destruct (extract_bearer_token_with_dev_bypass h (development_mode cfg)) as [t|e1]; cbn;
    [|by intros [= <-]].
  destruct (validate_jwt_token now t (jwt_secret cfg)); cbn; [done|by intros [= <-]].
Qed.

End stack.

(** A path that matches a pattern is the pattern's literals with its parameters. *)
Fixpoint fill (pattern params : list string) : list string :=
  match pattern with
  | [] => []
  | p :: pattern =>
      if is_param p then default "" (head params) :: fill pattern (tail params)
      else p :: fill pattern params
  end.

Lemma match_segments_fill pattern path params :
  match_segments pattern path = Some params → path = fill pattern params.
Proof.
  revert path params. induction pattern as [|p pattern IH]; intros [|x path] params; cbn; try done.
  destruct (is_param p).
  - destruct (x =?s ""); [done|]. destruct (match_segments pattern path) as [ps|] eqn:E; [|done].
    intros [= <-]. cbn. f_equal. by apply IH.
  - destruct (String.eqb_spec p x) as [->|]; [|done]. intros E. f_equal. by apply IH.
Qed.

Lemma match_path_fill pattern path params :
  match_path pattern path = Some params → path = str_join "/" (fill (str_split "/" pattern) params).
Proof. intros E%match_segments_fill. rewrite <- E. symmetry. apply str_join_split. Qed.

Lemma find_route_found routes method path e params :
  find_route routes method path = Found e params →
  ∃ pattern m, (pattern, m, e) ∈ routes ∧ match_path pattern path = Some params
               ∧ match_method m method = true.
Proof.
  induction routes as [|[[pattern m] e'] routes IH]; cbn; [done|].
  destruct (match_path pattern path) as [ps|] eqn:Ep.
  - destruct (match_method m method) eqn:Em.
    + intros [= -> ->]. exists pattern, m. by split; [left|].
    + destruct (find_route routes method path) as [e1 p1| |]; try done. intros [= -> ->].
      destruct IH as (pt & m1 & ? & ?); [done|]. exists pt, m1. by split; [right|].
  - intros E. destruct (IH E) as (pt & m1 & ? & ?). exists pt, m1. by split; [right|].
Qed.

Lemma public_paths params :
  Forall (λ '(pattern, _, e),
    is_public_endpoint (str_join "/" (fill (str_split "/" pattern) params)) = bool_decide (e ∈ PUBLIC))
    ROUTES.
Proof. unfold ROUTES. repeat (apply Forall_cons; split; [reflexivity|]). by apply Forall_nil. Qed.

(** Exactly the four public endpoints are reached without a token. *)
Lemma public_routes method path e params :
  route method path = Found e params → is_public_endpoint path = bool_decide (e ∈ PUBLIC).
Proof.
  unfold route. intros (pattern & m & Hin & Hp & _)%find_route_found. apply match_path_fill in Hp as ->.
  pose proof (public_paths params) as H. rewrite Forall_forall in H. exact (H _ Hin).
Qed.

(** The layers of the API.  A request either is answered 429 by the rate
    limiter, 401 by the authentication layer or 413 by the size check, without
    reaching the routes, or runs the router exactly once, with its user and a
    fresh request id; the router's status and body go back as they are, 408 takes
    their place when the deadline passes. *)
Lemma api_stack_guards `{Governor} `{Codec} `{Md5} {W B} (error_body : AE.ErrorResponse → B)
    (empty_body : B) show hv_from_str cfg (dispatch : Endpoint → list string → Pending (W := W))
    now d q s w s' w' r
    (Hrun : api_service error_body empty_body show hv_from_str cfg dispatch now d q s w
            = Some (s', w', r)) :
  (w' = w ∧ status r = 429)
  ∨ is_ok (check_ip_rate_limit now (client_ip (rq_headers q)) s).2 = true
    ∧ match auth_middleware cfg now (rq_path q) (rq_headers q) with
      | Err _ => w' = w ∧ status r = 401
      | Ok user =>
          match too_large q with
          | Some _ => w' = w ∧ status r = 413
          | None => ∃ out, router empty_body dispatch (forwarded d user q) w = (w', out)
                           ∧ answered out r
          end
      end.
Proof.
  unfold api_service, rate_limit_middleware in Hrun.
  destruct (check_ip_rate_limit now (client_ip (rq_headers q)) s) as [s1 [[]|e]];
    [|injection Hrun as _ <- <-; by left].
  destruct (check_rate_limit _ now _ s1) as [[s2 [[]|e]]|]; cbn in Hrun; [| |done].
  - destruct (get_rate_limit_info show _ s2) as [info|]; cbn in Hrun; [|done].
    destruct (inner_service _ _ _ _ now d q w) as [w1 r1] eqn:E. injection Hrun as _ <- <-.
    right. split; [done|]. apply inner_service_spec in E.
    destruct (auth_middleware cfg now (rq_path q) (rq_headers q)) as [user|e] eqn:Ea.
    + destruct (too_large q); [done|]. destruct E as (out & E & Ho). exists out. split; [done|].
      by destruct out.
    + destruct E as [-> ->]. split; [done|]. by apply auth_middleware_status with (id := d_error_id d) in Ea.
  - injection Hrun as _ <- <-. by left.
Qed.

(** The authentication layer and the handlers read the same user. *)
Lemma auth_middleware_user `{Md5} cfg now path h au :
  auth_middleware cfg now path h = Ok (Some au) →
  ∃ user, authenticate cfg now h = Ok user ∧ au_user_id au = gh_id user.
Proof.
  unfold auth_middleware, authenticate. destruct (is_public_endpoint path); [done|].
  destruct (extract_bearer_token_with_dev_bypass h (development_mode cfg)) as [t|]; cbn; [|done].
  destruct (validate_jwt_token now t (jwt_secret cfg)) as [user|]; cbn; [|done].
  intros [= <-]. by exists user.
Qed.

Lemma auth_middleware_public `{Md5} cfg now path h :
  auth_middleware cfg now path h = Ok None → is_public_endpoint path = true.
Proof.
  unfold auth_middleware. destruct (is_public_endpoint path); [done|].
  destruct (extract_bearer_token_with_dev_bypass h (development_mode cfg)) as [t|]; cbn; [|done].
  by destruct (validate_jwt_token now t (jwt_secret cfg)).
Qed.

(** C14: every endpoint but the health check and the three token endpoints is
    behind the authentication layer.  A request routed to it changes nothing and
    is answered 401, 413 or 429, or it carries a token that validates, and then
    the handler of that endpoint runs, once, as that user; its status and body go
    back as they are, or 408 when it is late. *)
Theorem protected_endpoints `{Governor} `{Codec} `{Md5} {W B} (error_body : AE.ErrorResponse → B)
    (empty_body : B) show hv_from_str cfg (dispatch : Endpoint → list string → Pending (W := W))
    now d q s w s' w' r e params
    (Hrun : api_service error_body empty_body show hv_from_str cfg dispatch now d q s w
            = Some (s', w', r))
    (Hroute : route (rq_method q) (rq_path q) = Found e params) (Hprotected : e ∉ PUBLIC) :
  (w' = w ∧ status r ∈ [401; 413; 429])
  ∨ ∃ user au out, authenticate cfg now (rq_headers q) = Ok user ∧ au_user_id au = gh_id user
      ∧ dispatch e params (forwarded d (Some au) q) w = (w', out) ∧ answered out r.
Proof.
  apply api_stack_guards in Hrun as [[-> ->]|[_ Hrun]]; [left; split; [done|set_solver]|].
  destruct (auth_middleware cfg now (rq_path q) (rq_headers q)) as [[au|]|] eqn:Ea;
    [| |destruct Hrun as [-> ->]; left; split; [done|set_solver]].
  - destruct (too_large q); [destruct Hrun as [-> ->]; left; split; [done|set_solver]|].
    destruct Hrun as (out & E & Ho). destruct (auth_middleware_user _ _ _ _ _ Ea) as (user & Hu & Hid).
    right. exists user, au, out. rewrite <- (router_found empty_body dispatch (forwarded d (Some au) q) w e params Hroute).
    exact (conj Hu (conj Hid (conj E Ho))).
  - apply auth_middleware_public in Ea. rewrite (public_routes _ _ _ _ Hroute) in Ea.
    by apply bool_decide_eq_true in Ea.
Qed.

(** ** Handlers *)

(** handlers/mod.rs *)
Definition health_check `{Codec} (now : Z) : json :=
  JObj [("status", JStr "healthy"); ("service", JStr "fleetingdns-api"); ("version", JStr "0.1.0");
        ("timestamp", JStr (to_rfc3339 now))].

Section handlers.
Context `{Hredis : RedisServer R} `{Hcodec : Codec} `{Hrcgen : Rcgen} `{Hmd5 : Md5}.
Context (cfg : ApiConfig).
Implicit Types (now : Z).
#[local] Abbreviation api A := (io (ApiState (R := R)) AE.t A).

(** The first two lines of the handlers that accept no development bypass. *)
Definition authenticate_bearer now (headers : HeaderMap) : result AE.t GitHubUser :=
  token ← map_err from_auth_error (extract_bearer_token headers);
  map_err from_auth_error (validate_jwt_token now token (jwt_secret cfg)).

(** *** quota_management.rs *)

Record QuotaInfoResponse := {
  qr_usage : UserUsage;
  qr_limits : QuotaLimits;
  qr_warnings : list string;
  qr_period_start : Z;
  qr_period_end : Z;
}.
Record OperationCheckResponse := {
  oc_allowed : bool;
  oc_operation_type : string;
  oc_message : string;
}.
Record ResetUsageResponse := { ru_message : string; ru_reset_timestamp : Z }.
Record UserQuotaStatus := {
  uq_user_id : string;
  uq_service_plan_id : string;
  uq_usage_percentage : f64;
  uq_quota_warnings : list string;
  uq_last_activity : Z;
}.

Definition quota_info_handler now (headers : HeaderMap) : api QuotaInfoResponse :=
  user ← io_lift (authenticate_bearer now headers);
  info ← with_usage (get_quota_info now (gh_id user));
  mret {| qr_usage := qi_usage info; qr_limits := qi_limits info;
          qr_warnings := quota_name <$> has_quota_warnings info;
          qr_period_start := u_period_start (qi_usage info);
          qr_period_end := u_period_start (qi_usage info) + secs (30 * 86400) |}.

Definition check_operation_allowed now (headers : HeaderMap) (operation_type : string)
    : api OperationCheckResponse :=
  user ← io_lift (authenticate_bearer now headers);
  allowed ←
    if operation_type =?s "api_call" then with_usage (can_make_api_call now (gh_id user))
    else if operation_type =?s "tunnel_creation" then with_usage (can_create_tunnel now (gh_id user))
    else if operation_type =?s "dns_operation"
    then with_usage (can_perform_dns_operation now (gh_id user))
    else io_fail (AE.ValidationError "Invalid operation type");
  mret {| oc_allowed := allowed; oc_operation_type := operation_type;
          oc_message := if (allowed : bool) then "Operation is allowed"
                        else "Operation is not allowed due to quota limits" |}.

Definition reset_user_usage now (headers : HeaderMap) (user_id : string) : api ResetUsageResponse :=
  _ ← io_lift (authenticate_bearer now headers);
  _ ← with_usage (λ u, (reset_usage now user_id u, ()));
  mret {| ru_message := "Usage reset successfully for user " +:+ user_id; ru_reset_timestamp := now |}.

Definition get_all_users_quota_status now (headers : HeaderMap) : api (list UserQuotaStatus) :=
  _ ← io_lift (authenticate_bearer now headers);
  mret [].

(** *** certificates.rs *)

Record IssueCertificateResponse := {
  icr_serial : string;
  icr_certificate : string;
  icr_fingerprint : string;
  icr_expires_at : string;
}.
Record CertificateInfoResponse := {
  cir_serial : string;
  cir_subject : string;
  cir_fingerprint : string;
  cir_issued_at : string;
  cir_expires_at : string;
  cir_status : string;
}.

Definition ca_failed {A} (x : result FE.t A) : api A :=
  io_lift (map_err (λ e, AE.CertificateError (FE.to_string e)) x).

Definition issue_certificate_handler now (e : Env) (headers : HeaderMap) (common_name : string)
    (ttl : option Z) : api IssueCertificateResponse :=
  user ← io_lift (authenticate cfg now headers);
  let ttl_seconds := default (default_tunnel_ttl cfg) ttl in
  _ ← io_lift (if max_tunnel_ttl cfg <? ttl_seconds then
        Err (AE.BadRequest ("Certificate TTL " +:+ pretty ttl_seconds
               +:+ " exceeds maximum allowed TTL of " +:+ pretty (max_tunnel_ttl cfg) +:+ " seconds"))
      else Ok ());
  let request := {| ir_request_id := uuid_to_string (e_request_id e); ir_common_name := common_name;
                    ir_subject_alt_names := []; ir_ttl := Some (secs (as_i64 ttl_seconds));
                    ir_client_id := gh_id user; ir_metadata := ∅ |} in
  res ← with_ca (issue_certificate now (e_entropy e) (e_serial e) request);
  cert ← ca_failed res;
  mret {| icr_serial := cm_serial_number (is_metadata cert);
          icr_certificate := is_certificate_pem cert;
          icr_fingerprint := cm_fingerprint (is_metadata cert);
          icr_expires_at := to_rfc3339 (cm_expires_at (is_metadata cert)) |}.

Definition get_certificate_handler now (headers : HeaderMap) (serial : string)
    : api CertificateInfoResponse :=
  _ ← io_lift (authenticate cfg now headers);
  res ← with_ca (get_certificate_info now serial);
  cert ← ca_failed res;
  let m := ac_metadata cert in
  mret {| cir_serial := cm_serial_number m; cir_subject := cm_subject m;
          cir_fingerprint := cm_fingerprint m; cir_issued_at := to_rfc3339 (cm_issued_at m);
          cir_expires_at := to_rfc3339 (cm_expires_at m);
          cir_status := if cm_expires_at m <? now then "expired" else "active" |}.

(** *** stats.rs *)

Record CaStats := {
  certificates_issued : Z;
  active_certificates : Z;
  expired_certificates : Z;
  issuance_rate : f64;
}.
Record ApiStats := {
  active_tunnels : Z;
  tunnels_created_today : Z;
  bytes_transferred_today : Z;
  ca_stats : CaStats;
  uptime_seconds : Z;
}.

Definition get_stats_handler now (headers : HeaderMap) : api ApiStats :=
  _ ← io_lift (authenticate cfg now headers);
  tunnels ← with_redis (TunnelStorage.get_active_tunnel_count now);
  s ← with_ca (λ ca r, (ca, r, (rl_total_issued (rate_limiter ca), active_count ca)));
  mret {| active_tunnels := tunnels; tunnels_created_today := 0; bytes_transferred_today := 0;
          ca_stats := {| certificates_issued := s.1; active_certificates := s.2;
                         expired_certificates := 0; issuance_rate := f64_of_Z 0 |};
          uptime_seconds := 0 |}.

End handlers.

(** ** The quota endpoints *)

Lemma quota_limit_small q : quota_limit q < 2 ^ 62.
Proof. by destruct q. Qed.

(** Asking spends a unit of the quota when the answer is yes. *)
Lemma enforce_spends q now user c :
  0 ≤ used q user c ≤ quota_limit q →
  allowed (enforce q 1 now user c).2 = bool_decide (used q user c < quota_limit q)
  ∧ used q user (enforce q 1 now user c).1
    = Z.min (quota_limit q) (used q user c + 1).
Proof.
  intros Hr. unfold enforce. destruct (check_quota now user q 1 c) as [c1 r] eqn:E.
  destruct (check_quota_spec q now user c c1 r Hr E) as [Hk Ha]. cbn [fst snd]. split; [done|].
  rewrite Ha. pose proof (quota_limit_small q). case_bool_decide.
  - rewrite record_usage_used, decide_True by done. rewrite Hk, as_i64_id by (unfold i64_ok; lia). lia.
  - rewrite Hk. lia.
Qed.

(** The quota endpoints.  An authenticated check of a tunnel creation answers
    whether the caller has quota left and spends one unit of it when it answers
    yes.  An authenticated reset clears the usage of the user named in the request,
    whoever asks, and of nobody else. *)
Lemma quota_endpoints_correct `{RedisServer R} `{Codec} `{Rcgen} `{Md5} cfg now headers user victim
    (s : ApiState (R := R))
    (Hauth : authenticate_bearer cfg now headers = Ok user)
    (Hused : 0 ≤ used TunnelCreation (gh_id user) (st_usage s) ≤ quota_limit TunnelCreation) :
  (∃ s1 answer, check_operation_allowed cfg now headers "tunnel_creation" s = (s1, Ok answer)
     ∧ oc_allowed answer
         = bool_decide (used TunnelCreation (gh_id user) (st_usage s) < quota_limit TunnelCreation)
     ∧ used TunnelCreation (gh_id user) (st_usage s1)
         = Z.min (quota_limit TunnelCreation) (used TunnelCreation (gh_id user) (st_usage s) + 1))
  ∧ ∃ s2 answer, reset_user_usage cfg now headers victim s = (s2, Ok answer)
      ∧ ∀ q u, used q u (st_usage s2) = if decide (u = victim) then 0 else used q u (st_usage s).
Proof.
  split.
  - destruct (enforce_spends TunnelCreation now (gh_id user) (st_usage s) Hused) as [Ha Hu].
    unfold check_operation_allowed, mbind, io_bind, io_lift. rewrite Hauth. cbn -[used enforce].
    unfold with_usage, can_create_tunnel, ask, enforce_tunnel_creation_quota.
    destruct (enforce TunnelCreation 1 now (gh_id user) (st_usage s)) as [c r]. cbn -[used] in *. eauto.
  - unfold reset_user_usage, mbind, io_bind, io_lift. rewrite Hauth.
    eexists _, _. split; [done|]. intros q u. apply reset_usage_used.
Qed.

(** ** Circuit breaker *)

(** The breaker after a history, the latest event first: failures with their
    times, and successes. *)
Fixpoint breaker (threshold timeout : Z) (events : list (option Z)) : CircuitBreaker :=
  match events with
  | [] => CircuitBreaker_new threshold timeout
  | Some t :: events => record_failure t (breaker threshold timeout events)
  | None :: events => record_success (breaker threshold timeout events)
  end.

(** The failures since the last success, the latest first. *)
Fixpoint recent_failures (events : list (option Z)) : list Z :=
  match events with Some t :: events => t :: recent_failures events | _ => [] end.

(** The breaker is open exactly when the failures since the last success reach
    the threshold and the latest of them is younger than the timeout. *)
Lemma circuit_breaker_exact threshold timeout events now :
  Z.of_nat (length (recent_failures events)) < 2 ^ 32 → 0 < threshold →
  is_open now (breaker threshold timeout events) = true ↔
  ∃ t rest, recent_failures events = t :: rest
    ∧ threshold ≤ Z.of_nat (length (recent_failures events)) ∧ duration_since now t < timeout.
Proof.
  intros Hn Ht.
  assert (failure_threshold (breaker threshold timeout events) = threshold
          ∧ timeout_duration (breaker threshold timeout events) = timeout) as [H1 H2]
    by (clear; by induction events as [|[t|] events IH]).
  assert (failure_count (breaker threshold timeout events) = Z.of_nat (length (recent_failures events))
          ∧ last_failure_time (breaker threshold timeout events) = head (recent_failures events))
    as [H3 H4].
  { clear H1 H2. induction events as [|[t|] events IH]; [done| |done].
    cbn in Hn |- *. destruct IH as [-> _]; [lia|]. split; [|done].
    unfold as_u32, wrap. rewrite Z.mod_small by lia. lia. }
  unfold is_open. rewrite H1, H2, H3, H4, andb_true_iff, Z.leb_le.
  destruct (recent_failures events) as [|t rest]; cbn [head]; [naive_solver|].
  rewrite Z.ltb_lt. naive_solver.
Qed.

(** ** Evaluation *)
Module ApiStackDemo.
Import MemRedis BitCodec AuthDemo CADemo.
#[local] Existing Instance RateDemo.gcra.

Definition ann : HeaderMap := headers (signed "42:ann:0" "your-jwt-secret-key").
Definition get (path : string) (h : HeaderMap) : Request :=
  {| rq_method := "GET"; rq_path := path; rq_headers := h; rq_user := None; rq_body := "" |}.
Definition draw : Draw := {| d_request_id := (3%N : uuid); d_error_id := (4%N : uuid) |}.

(** Handlers that write down the endpoint, its parameters and the user. *)
Definition log_calls (e : Endpoint) (params : list string) : Pending (B := unit) := λ q w,
  (w ++ [(e, params, au_user_id <$> rq_user q)], Some RateDemo.ok_response).

Definition serve_api (q : Request) :=
  api_service RateDemo.no_body () RateDemo.show Some default_api_config log_calls 0 draw q
    (RateLimitState_new RateDemo.cfg) [].

(** The route, without a token and with one. *)
Example no_token_refused :
  (λ x, (x.1.2, status x.2)) <$> serve_api (get "/v1/tunnels/5/health" ∅) = Some ([], 401).
Proof. by vm_compute. Qed.
Example bulk_route : route "POST" "/v1/tunnels/health/bulk" = Found GetBulkTunnelHealth [].
Proof. by vm_compute. Qed.
Example head_route : route "HEAD" "/v1/tunnels/health/health" = Found GetTunnelHealth ["health"].
Proof. by vm_compute. Qed.
Example wrong_method : route "PUT" "/v1/tunnels" = MethodNotAllowed.
Proof. by vm_compute. Qed.

Lemma protected_endpoints_witness : ∃ w' r,
  w' = [(GetTunnelHealth, ["5"], Some "42")] ∧ status r = 200
  ∧ ((w' = [] ∧ status r ∈ [401; 413; 429])
     ∨ ∃ user au out, authenticate default_api_config 0 ann = Ok user ∧ au_user_id au = gh_id user
         ∧ log_calls GetTunnelHealth ["5"]
             (forwarded draw (Some au) (get "/v1/tunnels/5/health" ann)) [] = (w', out)
         ∧ answered out r).
Proof.
  assert ((λ x, (x.1.2, status x.2)) <$> serve_api (get "/v1/tunnels/5/health" ann)
          = Some ([(GetTunnelHealth, ["5"], Some "42")], 200)) as Hv by by vm_compute.
  destruct (serve_api (get "/v1/tunnels/5/health" ann)) as [[[s' w'] r]|] eqn:E; [|discriminate Hv].
  injection Hv as Hw Hr. exists w', r. split; [exact Hw|]. split; [exact Hr|].
  apply (protected_endpoints RateDemo.no_body () RateDemo.show Some default_api_config log_calls 0 draw
           (get "/v1/tunnels/5/health" ann) (RateLimitState_new RateDemo.cfg) [] s' w' r
           GetTunnelHealth ["5"]).
  - exact E.
  - by vm_compute.
  - by apply (bool_decide_unpack _); vm_compute.
Defined.

Definition start : ApiState (R := mem) :=
  {| st_redis := ∅; st_usage := ∅; st_ca := authority; st_events := [] |}.

Lemma quota_endpoints_correct_witness :
  (∃ s1 answer,
    check_operation_allowed default_api_config 0 ann "tunnel_creation" start = (s1, Ok answer)
    ∧ oc_allowed answer = true ∧ used TunnelCreation "42" (st_usage s1) = 1)
  ∧ ∃ s2 answer, reset_user_usage default_api_config 0 ann "99" start = (s2, Ok answer)
      ∧ ∀ q u, used q u (st_usage s2) = if decide (u = "99") then 0 else used q u (st_usage start).
Proof.
  apply (quota_endpoints_correct default_api_config 0 ann (bare_user "42" "ann") "99" start).
  - eval_eq.
  - by vm_compute.
Defined.

End ApiStackDemo.
