(* ===== verification/ServicePlans.v ===== *)
(** * Service plans

    crates/backendapi/src/handlers/admin.rs and user_service_plan.rs over the
    tables of crates/models/src/entities/service_plan.rs and
    user_service_plan.rs.  The database is a parameter: the statements the
    handlers issue ([Database]) and what a relational database documents of them
    ([DatabaseSpec]); a statement that reports an error may have been applied.
    Requests are served one after the other. *)

From S2P Require Import Prelude Redis Serde Models Errors Net Float Auth RateLimit Quota RedisCache CA Storage TunnelsApi ApiStack.

(** [x as i32]. *)
Definition as_i32 (z : Z) : Z := let u := wrap 32 z in if u <? 2 ^ 31 then u else u - 2 ^ 32.
Definition i32_ok (z : Z) : Prop := - 2 ^ 31 ≤ z < 2 ^ 31.

Lemma as_i32_ok z : i32_ok (as_i32 z).
Proof.
  unfold i32_ok, as_i32. pose proof (wrap_range 32 z).
  destruct (Z.ltb_spec (wrap 32 z) (2 ^ 31)); lia.
Qed.

Lemma u32_i32_u32 z : u32_ok z → as_u32 (as_i32 z) = z.
Proof.
  unfold u32_ok, as_u32, as_i32, wrap. intros Hz. rewrite (Z.mod_small z) by done.
  destruct (Z.ltb_spec z (2 ^ 31)); [by apply Z.mod_small|].
  rewrite <- (Z.mod_add (z - 2 ^ 32) 1) by lia.
  replace (z - 2 ^ 32 + 1 * 2 ^ 32) with z by lia. by apply Z.mod_small.
Qed.

(** ** Rows *)

(** The limits of a plan, in the order of the columns. *)
Record Limits := {
  l_api_rate_limit : Z;
  l_tunnel_creation_limit : Z;
  l_dns_provisioning_limit : Z;
  l_max_concurrent_tunnels : Z;
}.

Record PlanRow := {
  pl_id : string;
  pl_name : string;
  pl_limits : Limits;
  pl_features_json : option string;
  pl_created_at : Z;
}.

Section rows.
Context `{Codec}.
Record Assignment := {
  ua_id : uuid;
  ua_user_id : string;
  ua_service_plan_id : string;
  ua_start_date : Z;
  ua_end_date : option Z;
  ua_is_active : bool;
  ua_created_at : Z;
}.
Definition asg_key (a : Assignment) : string := uuid_to_string (ua_id a).
End rows.

(** ** The database *)

Definition db_error := string.

Class Database `{Codec} (D : Type) := {
  (** The rows by primary key. *)
  plans : D → gmap string PlanRow;
  assignments : D → gmap string Assignment;
  (** [find().filter(f).one(db)], [.all(db)] and [.count(db)]. *)
  plan_one : (PlanRow → bool) → io D db_error (option PlanRow);
  plan_all : io D db_error (list PlanRow);
  asg_one : (Assignment → bool) → io D db_error (option Assignment);
  asg_all : (Assignment → bool) → io D db_error (list Assignment);
  asg_count : (Assignment → bool) → io D db_error Z;
  (** [insert], [update] and [delete_by_id]. *)
  plan_insert : PlanRow → io D db_error PlanRow;
  plan_update : PlanRow → io D db_error PlanRow;
  plan_delete : string → io D db_error ();
  asg_insert : Assignment → io D db_error Assignment;
  asg_update : Assignment → io D db_error Assignment;
}.

Section spec.
Context `{Database D}.

(** A statement that only reads. *)
Definition selects {E A} (c : io D E A) : Prop :=
  ∀ d d' res, c d = (d', res) → plans d' = plans d ∧ assignments d' = assignments d.

(** A statement that changes one table, when it succeeds, and may have changed it
    when it fails. *)
Definition changes {E A} (c : io D E A)
    (f : gmap string PlanRow → gmap string PlanRow)
    (g : gmap string Assignment → gmap string Assignment) : Prop :=
  ∀ d d' res, c d = (d', res) →
    (plans d' = f (plans d) ∧ assignments d' = g (assignments d))
    ∨ (is_ok res = false ∧ plans d' = plans d ∧ assignments d' = assignments d).

(** A row is added under a new key, replaced under an old one. *)
Definition add_row {V} (k : string) (v : V) (m : gmap string V) : gmap string V :=
  match m !! k with Some _ => m | None => <[k := v]> m end.
Definition replace_row {V} (k : string) (v : V) (m : gmap string V) : gmap string V :=
  match m !! k with Some _ => <[k := v]> m | None => m end.
End spec.

Class DatabaseSpec (D : Type) `{Database D} := {
  plan_one_selects : ∀ f, selects (plan_one f);
  plan_all_selects : selects plan_all;
  asg_one_selects : ∀ f, selects (asg_one f);
  asg_all_selects : ∀ f, selects (asg_all f);
  asg_count_selects : ∀ f, selects (asg_count f);
  plan_one_ok : ∀ f d d' o, plan_one f d = (d', Ok o) →
    match o with
    | Some p => plans d !! pl_id p = Some p ∧ f p = true
    | None => ∀ k p, plans d !! k = Some p → f p = false
    end;
  plan_all_ok : ∀ d d' l, plan_all d = (d', Ok l) →
    ∀ p, p ∈ l ↔ plans d !! pl_id p = Some p;
  asg_one_ok : ∀ f d d' o, asg_one f d = (d', Ok o) →
    match o with
    | Some a => assignments d !! asg_key a = Some a ∧ f a = true
    | None => ∀ k a, assignments d !! k = Some a → f a = false
    end;
  asg_all_ok : ∀ f d d' l, asg_all f d = (d', Ok l) →
    ∀ a, a ∈ l ↔ assignments d !! asg_key a = Some a ∧ f a = true;
  asg_count_ok : ∀ f d d' n, asg_count f d = (d', Ok n) →
    n = Z.of_nat (size (filter (λ ka, f ka.2 = true) (assignments d)));
  plan_insert_changes : ∀ p, changes (plan_insert p) (add_row (pl_id p) p) id;
  plan_insert_ok : ∀ p d d' q, plan_insert p d = (d', Ok q) → q = p ∧ plans d !! pl_id p = None;
  plan_update_changes : ∀ p, changes (plan_update p) (replace_row (pl_id p) p) id;
  plan_update_ok : ∀ p d d' q, plan_update p d = (d', Ok q) → q = p ∧ is_Some (plans d !! pl_id p);
  plan_delete_changes : ∀ k, changes (plan_delete k) (delete k) id;
  asg_insert_changes : ∀ a, changes (asg_insert a) id (add_row (asg_key a) a);
  asg_insert_ok : ∀ a d d' b, asg_insert a d = (d', Ok b) →
    b = a ∧ assignments d !! asg_key a = None;
  asg_update_changes : ∀ a, changes (asg_update a) id (replace_row (asg_key a) a);
  asg_update_ok : ∀ a d d' b, asg_update a d = (d', Ok b) →
    b = a ∧ is_Some (assignments d !! asg_key a);
}.

(** ** Requests and responses *)

Record CreateServicePlanRequest := {
  cp_name : string;
  cp_limits : Limits;
  cp_features_json : option string;
}.
Record UpdateServicePlanRequest := {
  up_name : option string;
  up_api_rate_limit : option Z;
  up_tunnel_creation_limit : option Z;
  up_dns_provisioning_limit : option Z;
  up_max_concurrent_tunnels : option Z;
  up_features_json : option string;
}.
Record AssignServicePlanRequest := { ap_service_plan_id : string; ap_end_date : option Z }.

Record ServicePlanResponse := {
  spr_id : string;
  spr_name : string;
  spr_limits : Limits;
  spr_features_json : string;
  spr_created_at : Z;
}.
Record UserServicePlanResponse := {
  usr_id : string;
  usr_user_id : string;
  usr_service_plan_id : string;
  usr_start_date : Z;
  usr_end_date : option Z;
  usr_is_active : bool;
}.
Record MyServicePlanResponse := {
  my_service_plan_id : string;
  my_name : string;
  my_description : string;
  my_features : json;
  my_quotas : json;
  my_pricing : f64;
  my_assignment_date : Z;
  my_end_date : option Z;
  my_is_active : bool;
}.
Record ServicePlanUsage := {
  su_tunnels_created : Z;
  su_tunnels_active : Z;
  su_dns_queries : Z;
  su_data_transferred_mb : Z;
  su_certificates_issued : Z;
  su_quota_limits : json;
}.
Record ServicePlanUsageResponse := {
  pu_service_plan_id : string;
  pu_service_plan_name : string;
  pu_usage : ServicePlanUsage;
  pu_last_updated : Z;
}.
Record AvailableServicePlanResponse := {
  av_id : string;
  av_name : string;
  av_description : string;
  av_features : json;
  av_quotas : json;
  av_pricing : f64;
  av_is_current_plan : bool;
  av_can_upgrade : bool;
  av_can_downgrade : bool;
}.
Record ServicePlanChangeResponse := {
  ch_message : string;
  ch_request_id : string;
  ch_status : string;
  ch_estimated_processing_time : string;
}.

(** The columns as [u32], and back. *)
Definition map_limits (f : Z → Z) (l : Limits) : Limits :=
  {| l_api_rate_limit := f (l_api_rate_limit l);
     l_tunnel_creation_limit := f (l_tunnel_creation_limit l);
     l_dns_provisioning_limit := f (l_dns_provisioning_limit l);
     l_max_concurrent_tunnels := f (l_max_concurrent_tunnels l) |}.
Definition limits_all (P : Z → Prop) (l : Limits) : Prop :=
  P (l_api_rate_limit l) ∧ P (l_tunnel_creation_limit l)
  ∧ P (l_dns_provisioning_limit l) ∧ P (l_max_concurrent_tunnels l).

Definition plan_response (p : PlanRow) : ServicePlanResponse :=
  {| spr_id := pl_id p; spr_name := pl_name p; spr_limits := map_limits as_u32 (pl_limits p);
     spr_features_json := default "{}" (pl_features_json p); spr_created_at := pl_created_at p |}.

(** ** Handlers *)

Section handlers.
Context `{Hdb : Database D} `{Hmd5 : Md5}.
Context (cfg : ApiConfig).
Implicit Types (now : Z) (headers : HeaderMap).
#[local] Abbreviation api A := (io D AE.t A).

(** A statement; [From<DbErr>] gives the error. *)
Definition db {A} (c : io D db_error A) : api A := io_map_err AE.DatabaseError c.

Definition by_id (id : string) (p : PlanRow) : bool := pl_id p =?s id.
Definition by_name (name : string) (p : PlanRow) : bool := pl_name p =?s name.
Definition active_of (user : string) (a : Assignment) : bool :=
  (ua_user_id a =?s user) && ua_is_active a.
Definition active_for_plan (plan : string) (a : Assignment) : bool :=
  (ua_service_plan_id a =?s plan) && ua_is_active a.

Definition plan_missing (id : string) : AE.t :=
  AE.NotFound ("ServicePlan with id '" +:+ id +:+ "' not found").
Definition name_taken (name : string) : AE.t :=
  AE.ValidationError ("ServicePlan with name '" +:+ name +:+ "' already exists").

Definition find_plan (id : string) (e : AE.t) : api PlanRow :=
  p ← db (plan_one (by_id id)); io_lift (ok_or p e).

(** *** admin.rs *)

Definition new_plan now (plan_id : uuid) (q : CreateServicePlanRequest) : PlanRow :=
  {| pl_id := uuid_to_string plan_id; pl_name := cp_name q;
     pl_limits := map_limits as_i32 (cp_limits q); pl_features_json := cp_features_json q;
     pl_created_at := now |}.

Definition create_service_plan now (plan_id : uuid) headers (q : CreateServicePlanRequest)
    : api ServicePlanResponse :=
  _ ← io_lift (authenticate_bearer cfg now headers);
  existing ← db (plan_one (by_name (cp_name q)));
  _ ← io_lift (match existing with Some _ => Err (name_taken (cp_name q)) | None => Ok () end);
  inserted ← db (plan_insert (new_plan now plan_id q));
  mret (plan_response inserted).

Definition list_service_plans now headers : api (list ServicePlanResponse) :=
  _ ← io_lift (authenticate_bearer cfg now headers);
  ps ← db plan_all;
  mret (plan_response <$> ps).

Definition get_service_plan now headers (plan_id : string) : api ServicePlanResponse :=
  _ ← io_lift (authenticate_bearer cfg now headers);
  p ← find_plan plan_id (plan_missing plan_id);
  mret (plan_response p).

(** The columns that are set. *)
Definition update_row (q : UpdateServicePlanRequest) (p : PlanRow) : PlanRow :=
  let set o v := from_option as_i32 v o in
  let l := pl_limits p in
  {| pl_id := pl_id p; pl_name := default (pl_name p) (up_name q);
     pl_limits :=
       {| l_api_rate_limit := set (up_api_rate_limit q) (l_api_rate_limit l);
          l_tunnel_creation_limit := set (up_tunnel_creation_limit q) (l_tunnel_creation_limit l);
          l_dns_provisioning_limit := set (up_dns_provisioning_limit q) (l_dns_provisioning_limit l);
          l_max_concurrent_tunnels := set (up_max_concurrent_tunnels q) (l_max_concurrent_tunnels l) |};
     pl_features_json := match up_features_json q with Some f => Some f | None => pl_features_json p end;
     pl_created_at := pl_created_at p |}.

(** The check of a changed name. *)
Definition check_new_name (q : UpdateServicePlanRequest) (p : PlanRow) : api () :=
  match up_name q with
  | Some new_name =>
      if negb (new_name =?s pl_name p) then
        duplicate ← db (plan_one (λ p', by_name new_name p' && negb (by_id (pl_id p) p')));
        io_lift (match duplicate with Some _ => Err (name_taken new_name) | None => Ok () end)
      else mret ()
  | None => mret ()
  end.

Definition update_service_plan now headers (plan_id : string) (q : UpdateServicePlanRequest)
    : api ServicePlanResponse :=
  _ ← io_lift (authenticate_bearer cfg now headers);
  existing ← find_plan plan_id (plan_missing plan_id);
  _ ← check_new_name q existing;
  updated ← db (plan_update (update_row q existing));
  mret (plan_response updated).

(** 204 on success. *)
Definition delete_service_plan now headers (plan_id : string) : api () :=
  _ ← io_lift (authenticate_bearer cfg now headers);
  _ ← find_plan plan_id (plan_missing plan_id);
  active_assignments ← db (asg_count (active_for_plan plan_id));
  _ ← io_lift (if 0 <? active_assignments
               then Err (AE.ValidationError "Cannot delete ServicePlan with active user assignments")
               else Ok ());
  db (plan_delete plan_id).

Definition deactivated (a : Assignment) : Assignment :=
  {| ua_id := ua_id a; ua_user_id := ua_user_id a; ua_service_plan_id := ua_service_plan_id a;
     ua_start_date := ua_start_date a; ua_end_date := ua_end_date a; ua_is_active := false;
     ua_created_at := ua_created_at a |}.

Fixpoint deactivate_all (l : list Assignment) : api () :=
  match l with
  | [] => mret ()
  | a :: l => _ ← db (asg_update (deactivated a)); deactivate_all l
  end.

Definition new_assignment now (id : uuid) (user_id : string) (q : AssignServicePlanRequest) : Assignment :=
  {| ua_id := id; ua_user_id := user_id; ua_service_plan_id := ap_service_plan_id q;
     ua_start_date := now; ua_end_date := ap_end_date q; ua_is_active := true; ua_created_at := now |}.

Definition assign_service_plan_to_user now (id : uuid) headers (user_id : string)
    (q : AssignServicePlanRequest) : api UserServicePlanResponse :=
  _ ← io_lift (authenticate_bearer cfg now headers);
  _ ← find_plan (ap_service_plan_id q) (plan_missing (ap_service_plan_id q));
  existing_assignments ← db (asg_all (active_of user_id));
  _ ← deactivate_all existing_assignments;
  inserted ← db (asg_insert (new_assignment now id user_id q));
  mret {| usr_id := uuid_to_string (ua_id inserted); usr_user_id := ua_user_id inserted;
          usr_service_plan_id := ua_service_plan_id inserted;
          usr_start_date := ua_start_date inserted; usr_end_date := ua_end_date inserted;
          usr_is_active := ua_is_active inserted |}.

Definition get_rate_limit_policy now headers : api RateLimitConfig :=
  _ ← io_lift (authenticate_bearer cfg now headers); mret default_rate_limit_config.

(** The new policy is only echoed. *)
Definition update_rate_limit_policy now headers (new_config : RateLimitConfig) : api RateLimitConfig :=
  _ ← io_lift (authenticate_bearer cfg now headers); mret new_config.

(** *** user_service_plan.rs *)

Definition quotas_json (l : Limits) : json :=
  JObj [("api_rate_limit", JNum (l_api_rate_limit l));
        ("tunnel_creation_limit", JNum (l_tunnel_creation_limit l));
        ("dns_provisioning_limit", JNum (l_dns_provisioning_limit l));
        ("max_concurrent_tunnels", JNum (l_max_concurrent_tunnels l))].

Definition parse_features (p : PlanRow) : api json :=
  io_lift (ok_or (json_from_str (default "{}" (pl_features_json p)))
             (AE.InternalError "Invalid features JSON")).

Definition plan_description (p : PlanRow) : string :=
  "Service plan with " +:+ pretty (l_api_rate_limit (pl_limits p)) +:+ " API calls per hour".

(** The caller's active assignment and its plan. *)
Definition my_assignment (user : string) : api (Assignment * PlanRow) :=
  a ← db (asg_one (active_of user));
  a ← io_lift (ok_or a (AE.NotFound "No active ServicePlan found"));
  p ← find_plan (ua_service_plan_id a) (AE.NotFound "ServicePlan not found");
  mret (a, p).

Definition get_my_service_plan now headers : api MyServicePlanResponse :=
  user ← io_lift (authenticate_bearer cfg now headers);
  '(a, p) ← my_assignment (gh_id user);
  features ← parse_features p;
  mret {| my_service_plan_id := pl_id p; my_name := pl_name p; my_description := plan_description p;
          my_features := features; my_quotas := quotas_json (pl_limits p); my_pricing := f64_of_Z 0;
          my_assignment_date := ua_start_date a; my_end_date := ua_end_date a;
          my_is_active := ua_is_active a |}.

Definition get_my_service_plan_usage now headers : api ServicePlanUsageResponse :=
  user ← io_lift (authenticate_bearer cfg now headers);
  '(_, p) ← my_assignment (gh_id user);
  mret {| pu_service_plan_id := pl_id p; pu_service_plan_name := pl_name p;
          pu_usage := {| su_tunnels_created := 0; su_tunnels_active := 0; su_dns_queries := 0;
                         su_data_transferred_mb := 0; su_certificates_issued := 0;
                         su_quota_limits := quotas_json (pl_limits p) |};
          pu_last_updated := now |}.

Fixpoint available_plans (current : option Assignment) (ps : list PlanRow)
    : api (list AvailableServicePlanResponse) :=
  match ps with
  | [] => mret []
  | p :: ps =>
      features ← parse_features p;
      let is_current := match current with
                        | Some a => ua_service_plan_id a =?s pl_id p | None => false end in
      rest ← available_plans current ps;
      mret ({| av_id := pl_id p; av_name := pl_name p; av_description := plan_description p;
               av_features := features; av_quotas := quotas_json (pl_limits p);
               av_pricing := f64_of_Z 0; av_is_current_plan := is_current;
               av_can_upgrade := negb is_current; av_can_downgrade := negb is_current |} :: rest)
  end.

Definition get_available_service_plans now headers : api (list AvailableServicePlanResponse) :=
  user ← io_lift (authenticate_bearer cfg now headers);
  current ← db (asg_one (active_of (gh_id user)));
  ps ← db plan_all;
  available_plans current ps.

(** The request is acknowledged and forgotten. *)
Definition request_service_plan_change now (request_id : uuid) headers (service_plan_id : string)
    : api ServicePlanChangeResponse :=
  user ← io_lift (authenticate_bearer cfg now headers);
  _ ← find_plan service_plan_id (AE.NotFound "Target ServicePlan not found");
  current ← db (asg_one (λ a, active_of (gh_id user) a && (ua_service_plan_id a =?s service_plan_id)));
  _ ← io_lift (match current with
               | Some _ => Err (AE.ValidationError "User already has this ServicePlan")
               | None => Ok () end);
  mret {| ch_message :=
            "ServicePlan change request received. An admin will review and process your request.";
          ch_request_id := uuid_to_string request_id; ch_status := "pending";
          ch_estimated_processing_time := "24-48 hours" |}.

End handlers.

(** ** A logic for handlers *)

Section logic.
Context `{Hspec : DatabaseSpec D}.

(** The two tables. *)
Definition tables : Type := gmap string PlanRow * gmap string Assignment.
Definition tab (d : D) : tables := (plans d, assignments d).

(** From tables in [P] the computation succeeds with tables in [Q], or fails with
    tables in [E]. *)
Definition hoare {X A} (E P : tables → Prop) (c : io D X A) (Q : A → tables → Prop) : Prop :=
  ∀ d d' res, P (tab d) → c d = (d', res) →
    match res with Ok a => Q a (tab d') | Err _ => E (tab d') end.

Lemma hoare_bind {X A B} E P (c : io D X A) (k : A → io D X B) Q S :
  hoare E P c Q → (∀ a, hoare E (Q a) (k a) S) → hoare E P (a ← c; k a) S.
Proof.
  intros Hc Hk d d' res Hp. unfold mbind, io_bind.
  destruct (c d) as [d1 [a|e]] eqn:Ec; specialize (Hc _ _ _ Hp Ec).
  - by apply Hk.
  - by intros [= <- <-].
Qed.

Lemma hoare_lift {X A} E P (r : result X A) Q :
  (∀ t, P t → match r with Ok a => Q a t | Err _ => E t end) → hoare E P (io_lift r) Q.
Proof. intros Hr d d' res Hp [= <- <-]. exact (Hr _ Hp). Qed.

Lemma hoare_ret {X A} E P (a : A) Q : (∀ t, P t → Q a t) → hoare (X := X) E P (mret a) Q.
Proof. intros Hr d d' res Hp [= <- <-]. exact (Hr _ Hp). Qed.

Lemma hoare_pre {X A} E (P P' : tables → Prop) (c : io D X A) Q :
  (∀ t, P t → P' t) → hoare E P' c Q → hoare E P c Q.
Proof. intros HP Hc d d' res Hp. by apply Hc, HP. Qed.

Lemma hoare_pure {X A} (φ : Prop) E P (c : io D X A) Q :
  (φ → hoare E P c Q) → hoare E (λ t, φ ∧ P t) c Q.
Proof. intros Hc d d' res [Hφ Hp]. by apply Hc. Qed.

Lemma hoare_db {A} E P (c : io D db_error A) Q : hoare E P c Q → hoare E P (db c) Q.
Proof.
  intros Hc d d' res Hp. unfold db, io_map_err. destruct (c d) as [d1 [a|e]] eqn:Ec;
    intros [= <- <-]; exact (Hc _ _ _ Hp Ec).
Qed.

(** A query keeps what is known and adds what it found. *)
Lemma hoare_select {A} E P (c : io D db_error A) (F : A → tables → Prop) :
  selects c → (∀ d d' a, c d = (d', Ok a) → F a (tab d)) → (∀ t, P t → E t) →
  hoare E P (db c) (λ a t, P t ∧ F a t).
Proof.
  intros Hs Hf HE. apply hoare_db. intros d d' res Hp Ec. destruct (Hs _ _ _ Ec) as [H1 H2].
  assert (tab d' = tab d) as -> by (unfold tab; by rewrite H1, H2).
  destruct res; [split; [done|by eapply Hf]|by apply HE].
Qed.

(** A statement that changes a table. *)
Lemma hoare_change {A} E P (c : io D db_error A) f g (F : A → tables → Prop) Q :
  changes c f g → (∀ d d' a, c d = (d', Ok a) → F a (tab d)) →
  (∀ t, P t → E t ∧ E (f t.1, g t.2)) → (∀ a t, P t → F a t → Q a (f t.1, g t.2)) →
  hoare E P (db c) Q.
Proof.
  intros Hc Hf HE HQ. apply hoare_db. intros d d' res Hp Ec.
  destruct (HE _ Hp) as [HE1 HE2].
  destruct (Hc _ _ _ Ec) as [[H1 H2]|(Hr & H1 & H2)];
    (assert (tab d' = (plans d', assignments d')) as -> by done); rewrite H1, H2.
  - destruct res as [a|]; [exact (HQ a (tab d) Hp (Hf _ _ _ Ec))|done].
  - by destruct res.
Qed.

Lemma hoare_plan_one E P f :
  (∀ t, P t → E t) →
  hoare E P (db (plan_one f)) (λ o t, P t ∧
    match o with
    | Some p => t.1 !! pl_id p = Some p ∧ f p = true
    | None => ∀ k p, t.1 !! k = Some p → f p = false
    end).
Proof. apply hoare_select; [apply plan_one_selects|apply plan_one_ok]. Qed.

Lemma hoare_asg_one E P f :
  (∀ t, P t → E t) →
  hoare E P (db (asg_one f)) (λ o t, P t ∧
    match o with
    | Some a => t.2 !! asg_key a = Some a ∧ f a = true
    | None => ∀ k a, t.2 !! k = Some a → f a = false
    end).
Proof. apply hoare_select; [apply asg_one_selects|apply asg_one_ok]. Qed.

Lemma hoare_find_plan E P id e :
  (∀ t, P t → E t) →
  hoare E P (find_plan id e) (λ p t, P t ∧ pl_id p = id ∧ t.1 !! id = Some p).
Proof.
  intros HE. eapply hoare_bind; [by apply hoare_plan_one|]. intros o. apply hoare_lift.
  intros t [Hp Ho]. destruct o as [p|]; cbn [ok_or]; [|by apply HE].
  destruct Ho as [Hl Hid%String.eqb_eq]. by subst id.
Qed.

End logic.

(** The first step of every handler. *)
Lemma hoare_auth `{DatabaseSpec D} {B} (E P : tables → Prop) {U} (r : result AE.t U)
    (k : U → io D AE.t B) Q :
  (∀ t, P t → E t) → (∀ u, hoare E P (k u) Q) → hoare E P (u ← io_lift r; k u) Q.
Proof.
  intros HE Hk. eapply hoare_bind; [|intros u; exact (Hk u)].
  apply hoare_lift. intros t Hp. destruct r; [exact Hp|by apply HE].
Qed.

(** ** The invariant of the tables *)

Section invariant.
Context `{Hcodec : Codec}.
Implicit Types (t : tables).

Record plans_inv t : Prop := {
  (** Rows are stored under their keys. *)
  inv_keyed : ∀ k p, t.1 !! k = Some p → pl_id p = k;
  inv_asg_keyed : ∀ k a, t.2 !! k = Some a → asg_key a = k;
  (** Plan names are unique. *)
  inv_names : ∀ p q, t.1 !! pl_id p = Some p → t.1 !! pl_id q = Some q →
    pl_name p = pl_name q → pl_id p = pl_id q;
  (** A user has at most one active assignment, of a plan that exists. *)
  inv_active : ∀ a b, t.2 !! asg_key a = Some a → t.2 !! asg_key b = Some b →
    ua_is_active a = true → ua_is_active b = true → ua_user_id a = ua_user_id b →
    asg_key a = asg_key b;
  inv_refs : ∀ k a, t.2 !! k = Some a → ua_is_active a = true →
    is_Some (t.1 !! ua_service_plan_id a);
}.

(** Every limit fits its column. *)
Definition typed t : Prop := ∀ k p, t.1 !! k = Some p → limits_all i32_ok (pl_limits p).

Lemma add_row_lookup {V} (m : gmap string V) k v j x :
  add_row k v m !! j = Some x →
  m !! j = Some x ∨ (j = k ∧ x = v ∧ m !! k = None).
Proof.
  unfold add_row. destruct (m !! k) eqn:E; [auto|]. rewrite lookup_insert_Some. naive_solver.
Qed.

Lemma replace_row_lookup {V} (m : gmap string V) k v j x :
  replace_row k v m !! j = Some x →
  (j ≠ k ∧ m !! j = Some x) ∨ (j = k ∧ x = v ∧ is_Some (m !! k)).
Proof.
  unfold replace_row. destruct (m !! k) as [y|] eqn:E; [rewrite lookup_insert_Some; naive_solver|].
  intros Hj. left. split; [by intros ->; simplify_eq|done].
Qed.

Lemma add_row_some {V} (m : gmap string V) k v j : is_Some (m !! j) → is_Some (add_row k v m !! j).
Proof.
  unfold add_row. destruct (m !! k) eqn:E; [done|]. intros Hj.
  destruct (decide (j = k)) as [->|]; [by rewrite lookup_insert_eq|by rewrite lookup_insert_ne].
Qed.

Lemma replace_row_some {V} (m : gmap string V) k v j :
  is_Some (m !! j) → is_Some (replace_row k v m !! j).
Proof.
  unfold replace_row. destruct (m !! k) eqn:E; [|done]. intros Hj.
  destruct (decide (j = k)) as [->|]; [by rewrite lookup_insert_eq|by rewrite lookup_insert_ne].
Qed.

Lemma inv_add_plan p t :
  plans_inv t → (∀ k q, t.1 !! k = Some q → pl_name q ≠ pl_name p) →
  plans_inv (add_row (pl_id p) p t.1, t.2).
Proof.
  intros [Hk Ha Hn Ho Hr] Hfresh. split; cbn [fst snd]; [|done| |done|].
  - intros k q [?|(-> & -> & _)]%add_row_lookup; [by apply Hk|done].
  - intros q1 q2 [H1|(H1 & <- & _)]%add_row_lookup [H2|(H2 & -> & _)]%add_row_lookup Hq;
      [by apply Hn| | |done]; exfalso; [by eapply Hfresh|by eapply Hfresh; eauto].
  - intros k a Hka Hact. by eapply add_row_some, Hr.
Qed.

Lemma inv_replace_plan p t :
  plans_inv t → (∀ k q, t.1 !! k = Some q → k ≠ pl_id p → pl_name q ≠ pl_name p) →
  plans_inv (replace_row (pl_id p) p t.1, t.2).
Proof.
  intros [Hk Ha Hn Ho Hr] Hfresh. split; cbn [fst snd]; [|done| |done|].
  - intros k q [[_ ?]|(-> & -> & _)]%replace_row_lookup; [by apply Hk|done].
  - intros q1 q2 [[N1 H1]|(H1 & -> & _)]%replace_row_lookup [[N2 H2]|(H2 & -> & _)]%replace_row_lookup Hq;
      [by apply Hn| | |done]; exfalso; [by eapply Hfresh|by eapply Hfresh].
  - intros k a Hka Hact. by eapply replace_row_some, Hr.
Qed.

Lemma inv_delete_plan k t :
  plans_inv t →
  (∀ j a, t.2 !! j = Some a → ua_is_active a = true → ua_service_plan_id a ≠ k) →
  plans_inv (delete k t.1, t.2).
Proof.
  intros [Hk Ha Hn Ho Hr] Hfree. split; cbn [fst snd]; [|done| |done|].
  - intros j q [_ ?]%lookup_delete_Some. by apply Hk.
  - intros q1 q2 [_ H1]%lookup_delete_Some [_ H2]%lookup_delete_Some. by apply Hn.
  - intros j a Hja Hact. rewrite lookup_delete_ne; [by eapply Hr|].
    intros Heq. by destruct (Hfree j a).
Qed.

Lemma inv_deactivate a t : plans_inv t → plans_inv (t.1, replace_row (asg_key a) (deactivated a) t.2).
Proof.
  intros [Hk Ha Hn Ho Hr]. split; cbn [fst snd]; [done| |done| |].
  - intros k b [[_ ?]|(-> & -> & _)]%replace_row_lookup; [by apply Ha|done].
  - intros b c [[_ H1]|(H1 & -> & _)]%replace_row_lookup [[_ H2]|(H2 & -> & _)]%replace_row_lookup;
      [by apply Ho|done|done|done].
  - intros k b [[_ H1]|(_ & -> & _)]%replace_row_lookup; [by eapply Hr|done].
Qed.

Lemma inv_add_assignment a t :
  plans_inv t → is_Some (t.1 !! ua_service_plan_id a) →
  (∀ k b, t.2 !! k = Some b → active_of (ua_user_id a) b = false) →
  plans_inv (t.1, add_row (asg_key a) a t.2).
Proof.
  intros [Hk Ha Hn Ho Hr] Hp Hfree.
  assert (∀ k b, t.2 !! k = Some b → ua_is_active b = true → ua_user_id b ≠ ua_user_id a) as Hno.
  { intros k b Hb Hact Hu. specialize (Hfree k b Hb). unfold active_of in Hfree.
    by rewrite Hu, Hact, String.eqb_refl in Hfree. }
  split; cbn [fst snd]; [done| |done| |].
  - intros k b [?|(-> & -> & _)]%add_row_lookup; [by apply Ha|done].
  - intros b c [H1|(H1 & -> & _)]%add_row_lookup [H2|(H2 & -> & _)]%add_row_lookup; try done.
    + by apply Ho.
    + intros Hb _ Hu. by destruct (Hno _ _ H1 Hb).
    + intros _ Hc Hu. by destruct (Hno _ _ H2 Hc).
  - intros k b [H1|(_ & -> & _)]%add_row_lookup Hact; [by eapply Hr|done].
Qed.

End invariant.

(** ** Every request keeps the invariant *)

(** The requests to the service plan endpoints, with the identifiers they draw. *)
Inductive PlanCall `{Codec} :=
  | CallCreate (plan_id : uuid) (q : CreateServicePlanRequest)
  | CallList
  | CallGet (plan_id : string)
  | CallUpdate (plan_id : string) (q : UpdateServicePlanRequest)
  | CallDelete (plan_id : string)
  | CallAssign (id : uuid) (user_id : string) (q : AssignServicePlanRequest)
  | CallMine
  | CallMyUsage
  | CallAvailable
  | CallChange (request_id : uuid) (service_plan_id : string).

Definition handle `{Database D} `{Md5} cfg now (headers : HeaderMap) (c : PlanCall) (d : D) : D :=
  match c with
  | CallCreate id q => (create_service_plan cfg now id headers q d).1
  | CallList => (list_service_plans cfg now headers d).1
  | CallGet id => (get_service_plan cfg now headers id d).1
  | CallUpdate id q => (update_service_plan cfg now headers id q d).1
  | CallDelete id => (delete_service_plan cfg now headers id d).1
  | CallAssign id user q => (assign_service_plan_to_user cfg now id headers user q d).1
  | CallMine => (get_my_service_plan cfg now headers d).1
  | CallMyUsage => (get_my_service_plan_usage cfg now headers d).1
  | CallAvailable => (get_available_service_plans cfg now headers d).1
  | CallChange id plan => (request_service_plan_change cfg now id headers plan d).1
  end.

Section preservation.
Context `{Hspec : DatabaseSpec D} `{Hmd5 : Md5}.
Context (cfg : ApiConfig) (now : Z) (headers : HeaderMap).

Definition inv (t : tables) : Prop := plans_inv t ∧ typed t.

Lemma create_inv pid q :
  hoare inv inv (create_service_plan cfg now pid headers q) (λ _, inv).
Proof.
  apply hoare_auth; [done|]. intros _.
  eapply hoare_bind; [by apply hoare_plan_one|]. intros existing. cbn beta.
  eapply hoare_bind; [apply (hoare_lift _ _ _ (λ _ t, inv t ∧
    ∀ k p, t.1 !! k = Some p → by_name (cp_name q) p = false))|].
  { intros t [Hi Ho]. by destruct existing. }
  intros []. eapply hoare_bind with (Q := λ _, inv); [|intros r; by apply hoare_ret].
  set (row := new_plan now pid q).
  assert (∀ t, inv t ∧ (∀ k p, t.1 !! k = Some p → by_name (cp_name q) p = false) →
               inv (add_row (pl_id row) row t.1, id t.2)) as Hadd.
  { intros t [[Hi Ht] Hfree]. split.
    - apply inv_add_plan; [done|]. intros k p Hp Heq. specialize (Hfree k p Hp).
      unfold by_name in Hfree. by rewrite Heq, String.eqb_refl in Hfree.
    - intros k p [Hp|(_ & -> & _)]%add_row_lookup; [by eapply Ht|].
      repeat split; apply as_i32_ok. }
  eapply hoare_change with (F := λ _ _, True); [apply plan_insert_changes|done| |].
  - intros t Ht. split; [apply Ht|by apply Hadd].
  - intros _ t Ht _. by apply Hadd.
Qed.

(** The name an update leaves is free, apart from the updated plan. *)
Lemma check_new_name_hoare q p :
  hoare inv (λ t, inv t ∧ t.1 !! pl_id p = Some p) (check_new_name q p)
    (λ _ t, (inv t ∧ t.1 !! pl_id p = Some p)
       ∧ ∀ k p', t.1 !! k = Some p' → k ≠ pl_id p → pl_name p' ≠ default (pl_name p) (up_name q)).
Proof.
  assert (∀ t, inv t ∧ t.1 !! pl_id p = Some p →
            ∀ k p', t.1 !! k = Some p' → k ≠ pl_id p → pl_name p' ≠ pl_name p) as Hold.
  { intros t [[Hi _] Hp] k p' Hk Hne Heq. destruct Hne. pose proof (inv_keyed _ Hi _ _ Hk) as Hid.
    subst k. by apply (inv_names _ Hi). }
  unfold check_new_name. destruct (up_name q) as [name|]; cbn [default from_option id];
    [|apply hoare_ret; by split; [|apply Hold]].
  destruct (String.eqb_spec name (pl_name p)) as [->|Hne]; cbn [negb];
    [apply hoare_ret; by split; [|apply Hold]|].
  eapply hoare_bind; [apply hoare_plan_one; naive_solver|]. intros dup. apply hoare_lift.
  intros t [[Hi Hp] Ho]. destruct dup as [|]; [done|]. split; [done|]. intros k p' Hk Hnk Heq.
  specialize (Ho k p' Hk). unfold by_name, by_id in Ho. rewrite Heq, String.eqb_refl in Ho. cbn in Ho.
  apply negb_false_iff, String.eqb_eq in Ho. by rewrite (inv_keyed _ (proj1 Hi) _ _ Hk) in Ho.
Qed.

Lemma update_typed q p : limits_all i32_ok (pl_limits p) → limits_all i32_ok (pl_limits (update_row q p)).
Proof.
  intros (H1 & H2 & H3 & H4). unfold limits_all, update_row. cbn. split_and!;
    match goal with |- i32_ok (from_option _ _ ?o) => destruct o; [apply as_i32_ok|done] end.
Qed.

Lemma update_inv plan_id q :
  hoare inv inv (update_service_plan cfg now headers plan_id q) (λ _, inv).
Proof.
  apply hoare_auth; [done|]. intros _.
  eapply hoare_bind; [by apply hoare_find_plan|]. intros p. cbn beta.
  eapply hoare_bind; [eapply hoare_pre; [|apply check_new_name_hoare]|].
  { intros t (Hi & <- & Hp). exact (conj Hi Hp). }
  intros []. eapply hoare_bind with (Q := λ _, inv); [|intros r; by apply hoare_ret].
  assert (∀ t, (inv t ∧ t.1 !! pl_id p = Some p)
     ∧ (∀ k p', t.1 !! k = Some p' → k ≠ pl_id p → pl_name p' ≠ default (pl_name p) (up_name q)) →
     inv (replace_row (pl_id (update_row q p)) (update_row q p) t.1, id t.2)) as Hrep.
  { intros t [[[Hi Ht] Hp] Hfree]. split; [by apply inv_replace_plan|].
    intros k p' [[_ Hk]|(_ & -> & _)]%replace_row_lookup; [by eapply Ht|].
    by eapply update_typed, Ht. }
  eapply hoare_change with (F := λ _ _, True); [apply plan_update_changes|done| |].
  - intros t Ht. split; [apply Ht|by apply Hrep].
  - intros _ t Ht _. by apply Hrep.
Qed.

Lemma delete_inv plan_id : hoare inv inv (delete_service_plan cfg now headers plan_id) (λ _, inv).
Proof.
  apply hoare_auth; [done|]. intros _.
  eapply hoare_bind; [by apply hoare_find_plan|]. intros p. cbn beta.
  eapply hoare_bind.
  { apply (hoare_select _ _ _ (λ n t, n = Z.of_nat (size
      (filter (λ ka, active_for_plan plan_id ka.2 = true) t.2)))); [apply asg_count_selects| |].
    - intros d d' n Hn. by apply asg_count_ok in Hn.
    - naive_solver. }
  intros n. cbn beta. eapply hoare_bind; [apply (hoare_lift _ _ _ (λ _ t, inv t ∧
    ∀ j a, t.2 !! j = Some a → ua_is_active a = true → ua_service_plan_id a ≠ plan_id))|].
  { intros t [[Hi _] Hn]. destruct (Z.ltb_spec 0 n); [done|]. split; [done|].
    intros j a Hj Hact Heq.
    assert (size (filter (λ ka : string * Assignment, active_for_plan plan_id ka.2 = true) t.2) = 0%nat)
      as Hz%map_size_empty_inv by lia.
    apply (map_filter_empty_not_lookup _ _ j a Hz); [|done].
    unfold active_for_plan. cbn. by rewrite Heq, String.eqb_refl, Hact. }
  intros [].
  assert (∀ t, inv t ∧ (∀ j a, t.2 !! j = Some a → ua_is_active a = true → ua_service_plan_id a ≠ plan_id) →
            inv (delete plan_id t.1, id t.2)) as Hdel.
  { intros t [[Hi Ht] Hfree]. split; [by apply inv_delete_plan|].
    intros k p'. cbn [fst]. intros [_ Hk]%lookup_delete_Some. by eapply Ht. }
  eapply hoare_change with (F := λ _ _, True); [apply plan_delete_changes|done| |].
  - intros t Ht. split; [apply Ht|by apply Hdel].
  - intros _ t Ht _. by apply Hdel.
Qed.

(** Nothing but the user's own assignments differs. *)
Definition frame (user : string) (t0 t : tables) : Prop :=
  t.1 = t0.1 ∧ ∀ k a, ua_user_id a ≠ user → t.2 !! k = Some a ↔ t0.2 !! k = Some a.

(** The rows still to be deactivated are the user's and include all active ones. *)
Definition pending (user : string) (l : list Assignment) (t : tables) : Prop :=
  (∀ a, a ∈ l → ua_user_id a = user ∧ ∃ b, t.2 !! asg_key a = Some b ∧ ua_user_id b = user)
  ∧ ∀ k a, t.2 !! k = Some a → active_of user a = true → a ∈ l.

Lemma frame_deactivate user t0 t a b :
  frame user t0 t → ua_user_id a = user → t.2 !! asg_key a = Some b → ua_user_id b = user →
  frame user t0 (t.1, replace_row (asg_key a) (deactivated a) t.2).
Proof.
  intros [H1 H2] Ha Hb Hu. split; [done|]. intros k c Hc. rewrite <- H2 by done. cbn [snd].
  unfold replace_row. rewrite Hb. destruct (decide (k = asg_key a)) as [->|].
  - rewrite lookup_insert_eq, Hb. split; intros [= <-]; exfalso; [by apply Hc|done].
  - by rewrite lookup_insert_ne.
Qed.

Lemma pending_deactivate user t a l :
  plans_inv t → pending user (a :: l) t →
  pending user l (t.1, replace_row (asg_key a) (deactivated a) t.2).
Proof.
  intros Hi [Hl Hact]. destruct (Hl a ltac:(left)) as (Ha & b & Hb & Hub). split.
  - intros c Hc. destruct (Hl c ltac:(by right)) as (Hcu & c' & Hc' & Hcu'). split; [done|].
    cbn [snd]. unfold replace_row. rewrite Hb.
    destruct (decide (asg_key c = asg_key a)) as [->|]; [rewrite lookup_insert_eq; by eexists|].
    rewrite lookup_insert_ne by done. by eexists.
  - intros k c [[Hne Hc]|(_ & -> & _)]%replace_row_lookup Hca.
    + specialize (Hact k c Hc Hca) as [->|]%elem_of_cons; [|done].
      by rewrite (inv_asg_keyed _ Hi _ _ Hc) in Hne.
    + unfold active_of in Hca. cbn in Hca. by rewrite andb_false_r in Hca.
Qed.

Lemma deactivate_all_hoare user t0 l :
  hoare (λ t, inv t ∧ frame user t0 t) (λ t, (inv t ∧ frame user t0 t) ∧ pending user l t)
    (deactivate_all l) (λ _ t, (inv t ∧ frame user t0 t) ∧ pending user [] t).
Proof.
  induction l as [|a l IH]; cbn [deactivate_all]; [by apply hoare_ret|].
  eapply hoare_bind; [|intros r; exact IH].
  assert (∀ t, (inv t ∧ frame user t0 t) ∧ pending user (a :: l) t →
     (inv (id t.1, replace_row (asg_key a) (deactivated a) t.2)
      ∧ frame user t0 (id t.1, replace_row (asg_key a) (deactivated a) t.2))
     ∧ pending user l (id t.1, replace_row (asg_key a) (deactivated a) t.2)) as Hstep.
  { intros t [[[Hi Ht] Hf] Hp]. destruct (proj1 Hp a ltac:(left)) as (Ha & b & Hb & Hub).
    split; [split; [split; [by apply inv_deactivate|exact Ht]|by eapply frame_deactivate]|].
    by apply pending_deactivate. }
  eapply hoare_change with (F := λ _ _, True); [apply (asg_update_changes (deactivated a))|done| |].
  - intros t Ht. split; [apply Ht|by apply Hstep].
  - intros _ t Ht _. by apply Hstep.
Qed.

(** The last step of the assignment. *)
Lemma insert_hoare aid user q t0 :
  let a := new_assignment now aid user q in
  is_Some (t0.1 !! ap_service_plan_id q) →
  hoare (λ t, inv t ∧ frame user t0 t) (λ t, (inv t ∧ frame user t0 t) ∧ pending user [] t)
    (inserted ← db (asg_insert a);
     mret {| usr_id := uuid_to_string (ua_id inserted); usr_user_id := ua_user_id inserted;
             usr_service_plan_id := ua_service_plan_id inserted;
             usr_start_date := ua_start_date inserted; usr_end_date := ua_end_date inserted;
             usr_is_active := ua_is_active inserted |} : io D AE.t UserServicePlanResponse)
    (λ r t, (inv t ∧ frame user t0 t) ∧ usr_service_plan_id r = ap_service_plan_id q
       ∧ t.2 !! asg_key a = Some a ∧ is_Some (t.1 !! ap_service_plan_id q)
       ∧ ∀ k b, t.2 !! k = Some b → active_of user b = true → b = a).
Proof.
  intros a Hplan. set (add t := (id t.1, add_row (asg_key a) a t.2) : tables).
  assert (∀ t, (inv t ∧ frame user t0 t) ∧ pending user [] t → inv (add t) ∧ frame user t0 (add t)) as Hadd.
  { intros t [[[Hi Ht] [Hf1 Hf2]] Hp]. split; [split; [|exact Ht]|].
    - apply inv_add_assignment; [done|by rewrite Hf1|]. intros k b Hb.
      destruct (active_of (ua_user_id a) b) eqn:E; [|done]. exfalso.
      by apply (proj2 Hp k b Hb) in E; apply elem_of_nil in E.
    - split; [done|]. intros k b Hb. rewrite <- Hf2 by done. cbn [add snd]. unfold add_row.
      destruct (t.2 !! asg_key a) eqn:E; [done|]. destruct (decide (k = asg_key a)) as [->|].
      + rewrite lookup_insert_eq, E. split; [|done]. intros [= <-]. by destruct Hb.
      + by rewrite lookup_insert_ne. }
  eapply hoare_bind with (Q := λ b t, b = a ∧ ∃ t1, t = add t1 ∧ ((inv t1 ∧ frame user t0 t1)
    ∧ pending user [] t1) ∧ t1.2 !! asg_key a = None).
  - eapply hoare_change with (F := λ b t, b = a ∧ t.2 !! asg_key a = None);
      [apply asg_insert_changes|intros d d' b Hb; by apply asg_insert_ok in Hb| |].
    + intros t Ht. split; [apply Ht|by apply Hadd].
    + intros b t Ht [-> Hn]. split; [done|]. by exists t.
  - intros b. apply hoare_ret. intros t [-> (t1 & -> & Ht & Hn)].
    split; [by apply Hadd|]. split; [done|]. cbn [add fst snd]. unfold add_row. rewrite Hn.
    split; [apply lookup_insert_eq|]. destruct Ht as [[_ [-> _]] Hp]. split; [done|].
    intros k b [[_ ->]|[_ Hb]]%lookup_insert_Some Hact; [done|].
    by apply (proj2 Hp k b Hb), elem_of_nil in Hact.
Qed.

(** The assignment, from tables [t0]. *)
Lemma assign_hoare aid user q t0 :
  let a := new_assignment now aid user q in
  hoare (λ t, inv t ∧ frame user t0 t) (λ t, inv t ∧ t = t0)
    (assign_service_plan_to_user cfg now aid headers user q)
    (λ r t, (inv t ∧ frame user t0 t) ∧ usr_service_plan_id r = ap_service_plan_id q
       ∧ t.2 !! asg_key a = Some a ∧ is_Some (t.1 !! ap_service_plan_id q)
       ∧ ∀ k b, t.2 !! k = Some b → active_of user b = true → b = a).
Proof.
  intros a.
  assert (∀ t, inv t ∧ t = t0 → inv t ∧ frame user t0 t) as Hstart by (intros t [? ->]; by split; [|split]).
  apply hoare_auth; [done|]. intros _.
  eapply hoare_bind; [by apply hoare_find_plan|]. intros p. cbn beta.
  eapply (hoare_pre _ _ (λ t, is_Some (t0.1 !! ap_service_plan_id q) ∧ (inv t ∧ t = t0)));
    [intros t ([Hi ->] & _ & Hp); by split; [eexists|]|].
  apply hoare_pure. intros Hplan. eapply hoare_bind.
  { apply (hoare_select _ _ _ (λ l t, ∀ b, b ∈ l ↔ t.2 !! asg_key b = Some b ∧ active_of user b = true));
      [apply asg_all_selects|intros d d' l Hl; exact (asg_all_ok _ d d' l Hl)|done]. }
  intros l. cbn beta. eapply hoare_bind.
  { eapply hoare_pre; [|apply (deactivate_all_hoare user t0 l)].
    intros t [Ht Hl]. split; [by apply Hstart|]. split.
    - intros b [Hb Hact]%Hl. unfold active_of in Hact.
      apply andb_true_iff in Hact as [Hu%String.eqb_eq _]. split; [done|]. by exists b.
    - intros k b Hb Hact. apply Hl. by rewrite (inv_asg_keyed _ (proj1 (proj1 Ht)) _ _ Hb). }
  intros []. apply (insert_hoare aid user q t0 Hplan).
Qed.

(** The handlers that only read. *)
Lemma hoare_read {A} (c : io D db_error A) : selects c → hoare inv inv (db c) (λ _, inv).
Proof. intros Hc. eapply hoare_db. intros d d' [a|e] Hi [H1 H2]%Hc; unfold tab; by rewrite H1, H2. Qed.

Lemma hoare_guard {A} (r : result AE.t A) : hoare inv inv (io_lift (S := D) r) (λ _, inv).
Proof. apply hoare_lift. intros t Ht. by destruct r. Qed.

Lemma hoare_find id e : hoare inv inv (find_plan id e) (λ _, inv).
Proof. eapply hoare_bind; [apply hoare_read, plan_one_selects|intros o; apply hoare_guard]. Qed.

Ltac reading :=
  repeat first
    [ apply hoare_auth; [done|intros ?]
    | eapply hoare_bind;
        [first [apply hoare_find | apply hoare_guard
               | apply hoare_read; first [apply plan_one_selects | apply plan_all_selects
                                         | apply asg_one_selects]]|intros ?]
    | by apply hoare_ret ].

Lemma my_assignment_inv user : hoare inv inv (my_assignment user) (λ _, inv).
Proof. unfold my_assignment. reading. Qed.

Lemma available_inv current ps : hoare inv inv (available_plans current ps) (λ _, inv).
Proof.
  induction ps as [|p ps IH]; cbn [available_plans]; [by apply hoare_ret|].
  eapply hoare_bind; [apply hoare_guard|]. intros f. eapply hoare_bind; [exact IH|]. intros rest.
  by apply hoare_ret.
Qed.

(** A handler that meets its specification leaves the invariant, whatever it
    answers. *)
Lemma hoare_state {X A} (c : io D X A) d :
  hoare inv inv c (λ _, inv) → inv (tab d) → inv (tab (c d).1).
Proof. intros Hc Hi. destruct (c d) as [d' [a|e]] eqn:E; exact (Hc _ _ _ Hi E). Qed.

Lemma handle_inv call d : inv (tab d) → inv (tab (handle cfg now headers call d)).
Proof.
  destruct call as [pid q| |pid|pid q|pid|aid user q| | | |rid plan]; cbn [handle].
  - apply hoare_state, create_inv.
  - apply hoare_state. unfold list_service_plans. reading.
  - apply hoare_state. unfold get_service_plan. reading.
  - apply hoare_state, update_inv.
  - apply hoare_state, delete_inv.
  - intros Hi. destruct (assign_service_plan_to_user cfg now aid headers user q d) as [d' res] eqn:E.
    apply (assign_hoare aid user q (tab d)) in E; [|done]. cbn [fst]. destruct res; apply E.
  - apply hoare_state. unfold get_my_service_plan. apply hoare_auth; [done|]. intros u.
    eapply hoare_bind; [apply my_assignment_inv|]. intros [a p]. unfold parse_features. reading.
  - apply hoare_state. unfold get_my_service_plan_usage. apply hoare_auth; [done|]. intros u.
    eapply hoare_bind; [apply my_assignment_inv|]. intros [a p]. by apply hoare_ret.
  - apply hoare_state. unfold get_available_service_plans. reading. apply available_inv.
  - apply hoare_state. unfold request_service_plan_change. reading.
Qed.

End preservation.

(** C24: the service plan tables stay consistent.  In every history of requests,
    whoever sends them and whatever statements fail, plan names are unique, a
    user has at most one active assignment, every active assignment is of a plan
    that exists, and every limit fits its column. *)
Theorem service_plans_invariant `{DatabaseSpec D} `{Md5} cfg (calls : list (Z * HeaderMap * PlanCall))
    (d : D) (Hinv : inv (tab d)) :
  inv (tab (foldl (λ d '(now, headers, c), handle cfg now headers c d) d calls)).
Proof.
  revert d Hinv. induction calls as [|[[now headers] c] calls IH]; intros d Hinv; [done|].
  apply IH, handle_inv, Hinv.
Qed.

(** Assigning a plan.  The request changes no plan and no assignment of
    another user.  When it succeeds the plan exists and the user's new assignment
    to it is the user's only active one; when it fails the invariant still holds,
    so the user is left with at most one active assignment, possibly none.  Any
    authenticated caller may assign any plan to anyone. *)
Lemma assign_service_plan_correct `{DatabaseSpec D} `{Md5} cfg now aid headers user q (d d' : D) res
    (Hinv : inv (tab d))
    (Hrun : assign_service_plan_to_user cfg now aid headers user q d = (d', res)) :
  inv (tab d') ∧ plans d' = plans d
  ∧ (∀ k a, ua_user_id a ≠ user → assignments d' !! k = Some a ↔ assignments d !! k = Some a)
  ∧ (is_ok res = true →
     is_Some (plans d !! ap_service_plan_id q)
     ∧ assignments d' !! uuid_to_string aid = Some (new_assignment now aid user q)
     ∧ ∀ k b, assignments d' !! k = Some b → active_of user b = true →
         b = new_assignment now aid user q).
Proof.
  apply (assign_hoare cfg now headers aid user q (tab d)) in Hrun; [|done].
  destruct res as [r|e].
  - destruct Hrun as ([Hi [Hf1 Hf2]] & _ & Ha & Hp & Hb). split_and!; [done..|]. intros _.
    cbn in Hf1, Hp. rewrite Hf1 in Hp. done.
  - by destruct Hrun as [Hi [Hf1 Hf2]].
Qed.

(** A successful creation stores the row it answers with; a lookup answers with
    the stored row. *)
Lemma create_ok `{DatabaseSpec D} `{Md5} cfg now pid headers q (d d1 : D) r :
  create_service_plan cfg now pid headers q d = (d1, Ok r) →
  plans d1 !! uuid_to_string pid = Some (new_plan now pid q) ∧ r = plan_response (new_plan now pid q).
Proof.
  unfold create_service_plan, db. intros E. inv_io E. simplify_eq.
  match goal with Hi : plan_insert _ _ = (_, Ok _) |- _ =>
    destruct (plan_insert_ok _ _ _ _ Hi) as [-> Hn];
    destruct (plan_insert_changes _ _ _ _ Hi) as [[Hp _]|[? _]]; [|done] end.
  split; [|done]. rewrite Hp. unfold add_row. cbn in Hn |- *. rewrite Hn. apply lookup_insert_eq.
Qed.

Lemma get_plan_ok `{DatabaseSpec D} `{Md5} cfg now headers id (d d1 : D) r :
  get_service_plan cfg now headers id d = (d1, Ok r) →
  ∃ p, plans d !! id = Some p ∧ r = plan_response p.
Proof.
  unfold get_service_plan, find_plan, db. intros E. inv_io E. simplify_eq. inv_io Hio0.
  injection Hio as -> _. destruct v1 as [p|]; [|done]. injection Hio0 as _ <-.
  apply plan_one_ok in Hio1 as [Hl <-%String.eqb_eq]. by exists p.
Qed.

(** C36: types of the plan limits.  The columns are [i32], the interface is
    [u32]: a created plan is stored with columns that fit and is answered with
    exactly the limits of the request, and so is every later lookup of it until it
    is changed. *)
Theorem plan_limits_typed `{DatabaseSpec D} `{Md5} cfg now now' pid headers headers' q (d d1 d2 : D) r r'
    (Hlimits : limits_all u32_ok (cp_limits q))
    (Hcreate : create_service_plan cfg now pid headers q d = (d1, Ok r))
    (Hget : get_service_plan cfg now' headers' (uuid_to_string pid) d1 = (d2, Ok r')) :
  spr_limits r = cp_limits q ∧ r' = r
  ∧ ∃ p, plans d1 !! uuid_to_string pid = Some p ∧ limits_all i32_ok (pl_limits p)
         ∧ map_limits as_u32 (pl_limits p) = cp_limits q.
Proof.
  apply create_ok in Hcreate as [Hrow ->]. apply get_plan_ok in Hget as (p & Hp & ->).
  assert (p = new_plan now pid q) as -> by congruence.
  assert (map_limits as_u32 (pl_limits (new_plan now pid q)) = cp_limits q) as Hl.
  { destruct q as [name [l1 l2 l3 l4] f]. destruct Hlimits as (Hl1 & Hl2 & Hl3 & Hl4). cbn in *.
    unfold map_limits. cbn. by rewrite !u32_i32_u32. }
  split_and!; [exact Hl|done|]. eexists. split; [done|]. split; [|done].
  repeat split; apply as_i32_ok.
Qed.

(** ** A database in memory *)
Module MemDb.
Section rows.
Context {V : Type} (key : V → string).

(** Rows, the latest version of a key first. *)
Definition table (l : list V) : gmap string V := list_to_map ((λ v, (key v, v)) <$> l).
Definition rows (l : list V) : list V := (map_to_list (table l)).*2.
Definition remove (k : string) (l : list V) : list V := filter (λ v, key v ≠ k) l.

Lemma table_keyed l k v : table l !! k = Some v → key v = k.
Proof.
  induction l as [|x l IH]; cbn; [by rewrite lookup_empty|].
  rewrite lookup_insert_Some. naive_solver.
Qed.

Lemma elem_of_rows l v : v ∈ rows l ↔ table l !! key v = Some v.
Proof.
  unfold rows. rewrite list_elem_of_fmap. split.
  - intros ([k w] & -> & Hw%elem_of_map_to_list). cbn. by rewrite (table_keyed _ _ _ Hw).
  - intros Hv%elem_of_map_to_list. by exists (key v, v).
Qed.

Lemma table_remove k l : table (remove k l) = delete k (table l).
Proof.
  unfold remove. induction l as [|x l IH]; [cbn; by rewrite delete_empty|].
  rewrite filter_cons. destruct (decide (key x ≠ k)) as [Hne|Heq%dec_stable].
  - change (<[key x := x]> (table (filter (λ v, key v ≠ k) l)) = delete k (<[key x := x]> (table l))).
    by rewrite delete_insert_ne, IH.
  - change (table (filter (λ v, key v ≠ k) l) = delete k (<[key x := x]> (table l))).
    subst k. by rewrite delete_insert_eq.
Qed.

Definition first (f : V → bool) (l : list V) : option V := head (filter (λ v, f v = true) (rows l)).

Lemma first_ok f l :
  match first f l with
  | Some v => table l !! key v = Some v ∧ f v = true
  | None => ∀ k v, table l !! k = Some v → f v = false
  end.
Proof.
  unfold first. destruct (filter (λ v, f v = true) (rows l)) as [|v r] eqn:E; cbn.
  - intros k v Hv. destruct (f v) eqn:Ef; [|done].
    assert (v ∈ filter (λ v, f v = true) (rows l)) as Hin.
    { apply list_elem_of_filter. split; [done|]. apply elem_of_rows.
      by rewrite (table_keyed _ _ _ Hv). }
    rewrite E in Hin. by apply elem_of_nil in Hin.
  - assert (v ∈ filter (λ v, f v = true) (rows l)) as [Hf Hv]%list_elem_of_filter
      by (rewrite E; left). by apply elem_of_rows in Hv.
Qed.

Definition insert_row (v : V) (l : list V) : list V * result db_error V :=
  match table l !! key v with Some _ => (l, Err "duplicate key") | None => (v :: l, Ok v) end.
Definition update_one (v : V) (l : list V) : list V * result db_error V :=
  match table l !! key v with Some _ => (v :: l, Ok v) | None => (l, Err "no record updated") end.

Lemma insert_row_spec v l l' res :
  insert_row v l = (l', res) →
  table l' = add_row (key v) v (table l) ∧ (∀ w, res = Ok w → w = v ∧ table l !! key v = None).
Proof.
  unfold insert_row, add_row. destruct (table l !! key v) eqn:E; intros [= <- <-]; split; naive_solver.
Qed.

Lemma update_one_spec v l l' res :
  update_one v l = (l', res) →
  table l' = replace_row (key v) v (table l) ∧ (∀ w, res = Ok w → w = v ∧ is_Some (table l !! key v)).
Proof.
  unfold update_one, replace_row. destruct (table l !! key v) eqn:E; intros [= <- <-]; split; naive_solver.
Qed.
End rows.

Section memdb.
Context `{Codec}.

Definition mem_db : Type := list PlanRow * list Assignment.

(** A statement on one of the two tables. *)
Definition on_plans {A} (c : list PlanRow → list PlanRow * A) (d : mem_db) : mem_db * A :=
  let '(l, a) := c d.1 in ((l, d.2), a).
Definition on_assignments {A} (c : list Assignment → list Assignment * A) (d : mem_db) : mem_db * A :=
  let '(l, a) := c d.2 in ((d.1, l), a).

#[export] Instance mem_database : Database mem_db := {|
  plans d := table pl_id d.1;
  assignments d := table asg_key d.2;
  plan_one f d := (d, Ok (first pl_id f d.1));
  plan_all d := (d, Ok (rows pl_id d.1));
  asg_one f d := (d, Ok (first asg_key f d.2));
  asg_all f d := (d, Ok (filter (λ a, f a = true) (rows asg_key d.2)));
  asg_count f d := (d, Ok (Z.of_nat (size (filter (λ ka, f ka.2 = true) (table asg_key d.2)))));
  plan_insert p := on_plans (insert_row pl_id p);
  plan_update p := on_plans (update_one pl_id p);
  plan_delete k := on_plans (λ l, (remove pl_id k l, Ok ()));
  asg_insert a := on_assignments (insert_row asg_key a);
  asg_update a := on_assignments (update_one asg_key a);
|}.

Lemma plans_change {A} (c : list PlanRow → list PlanRow * result db_error A) f :
  (∀ l, table pl_id (c l).1 = f (table pl_id l)) → changes (on_plans c) f id.
Proof.
  intros Hc d d' res. unfold on_plans. specialize (Hc d.1). destruct (c d.1) as [l a].
  intros [= <- <-]. by left.
Qed.
Lemma assignments_change {A} (c : list Assignment → list Assignment * result db_error A) g :
  (∀ l, table asg_key (c l).1 = g (table asg_key l)) → changes (on_assignments c) id g.
Proof.
  intros Hc d d' res. unfold on_assignments. specialize (Hc d.2). destruct (c d.2) as [l a].
  intros [= <- <-]. by left.
Qed.

Lemma insert_row_table {V} (key : V → string) v l :
  table key (insert_row key v l).1 = add_row (key v) v (table key l).
Proof. destruct (insert_row key v l) eqn:E. by apply insert_row_spec in E as [? _]. Qed.
Lemma update_one_table {V} (key : V → string) v l :
  table key (update_one key v l).1 = replace_row (key v) v (table key l).
Proof. destruct (update_one key v l) eqn:E. by apply update_one_spec in E as [? _]. Qed.

#[export] Instance mem_database_spec : DatabaseSpec mem_db.
Proof.
  split.
  1-5: intros; intros d d' res [= <- _]; done.
  - intros f d d' o [= <- <-]. apply first_ok.
  - intros d d' l [= <- <-] p. apply elem_of_rows.
  - intros f d d' o [= <- <-]. apply first_ok.
  - intros f d d' l [= <- <-] a. rewrite list_elem_of_filter, elem_of_rows. naive_solver.
  - intros f d d' n [= <- <-]. done.
  - intros p. apply plans_change, insert_row_table.
  - intros p d d' q. cbn. unfold on_plans. destruct (insert_row pl_id p d.1) as [l r] eqn:E.
    intros [= <- ->]. by apply insert_row_spec in E as [_ E]; apply E.
  - intros p. apply plans_change, update_one_table.
  - intros p d d' q. cbn. unfold on_plans. destruct (update_one pl_id p d.1) as [l r] eqn:E.
    intros [= <- ->]. by apply update_one_spec in E as [_ E]; apply E.
  - intros k. apply plans_change. intros l. apply table_remove.
  - intros a. apply assignments_change, insert_row_table.
  - intros a d d' b. cbn. unfold on_assignments. destruct (insert_row asg_key a d.2) as [l r] eqn:E.
    intros [= <- ->]. by apply insert_row_spec in E as [_ E]; apply E.
  - intros a. apply assignments_change, update_one_table.
  - intros a d d' b. cbn. unfold on_assignments. destruct (update_one asg_key a d.2) as [l r] eqn:E.
    intros [= <- ->]. by apply update_one_spec in E as [_ E]; apply E.
Qed.
End memdb.
End MemDb.

(** ** Examples *)
Module ServicePlansDemo.
Import BitCodec AuthDemo MemDb.

Definition ann : HeaderMap := headers (signed "42:ann:0" "your-jwt-secret-key").
Definition plan_request (name : string) (n : Z) : CreateServicePlanRequest :=
  {| cp_name := name; cp_features_json := None;
     cp_limits := {| l_api_rate_limit := n; l_tunnel_creation_limit := 4294967295;
                     l_dns_provisioning_limit := 7; l_max_concurrent_tunnels := 0 |} |}.
Definition uid (n : N) : @uuid bit_codec := n.
Definition empty_db : mem_db := ([], []).

Lemma inv_empty : inv (tab empty_db).
Proof.
  assert (tab empty_db = (∅, ∅)) as -> by done.
  split; [split|unfold typed]; intros *; cbn [fst snd]; rewrite lookup_empty; done.
Qed.

(** A plan, a second one of the same name, which is refused, another plan, and
    two assignments of one user. *)
Definition history : list (Z * HeaderMap * PlanCall) :=
  (λ c, (0, ann, c)) <$>
  [CallCreate (uid 1) (plan_request "free" 60); CallCreate (uid 2) (plan_request "free" 61);
   CallCreate (uid 3) (plan_request "pro" 600);
   CallAssign (uid 4) "42" {| ap_service_plan_id := uuid_to_string (uid 1); ap_end_date := None |};
   CallAssign (uid 5) "42" {| ap_service_plan_id := uuid_to_string (uid 3); ap_end_date := None |};
   CallDelete (uuid_to_string (uid 1)); CallDelete (uuid_to_string (uid 3))].
Definition run_history : mem_db :=
  foldl (λ d '(now, h, c), handle default_api_config now h c d) empty_db history.

Lemma service_plans_invariant_witness :
  inv (tab run_history)
  ∧ pl_name <$> rows pl_id run_history.1 = ["pro"]
  ∧ ua_is_active <$> rows asg_key run_history.2 ≡ₚ [false; true].
Proof.
  split; [|by vm_compute].
  apply (service_plans_invariant default_api_config history empty_db). exact inv_empty.
Defined.

Definition assigned := assign_service_plan_to_user default_api_config 9 (uid 6) ann "42"
  {| ap_service_plan_id := uuid_to_string (uid 3); ap_end_date := Some 10 |} run_history.

Lemma assign_service_plan_correct_witness :
  is_ok assigned.2 = true ∧ plans assigned.1 = plans run_history.
Proof.
  split; [by vm_compute|].
  apply (assign_service_plan_correct default_api_config 9 (uid 6) ann "42"
           {| ap_service_plan_id := uuid_to_string (uid 3); ap_end_date := Some 10 |}
           run_history assigned.1 assigned.2).
  - unfold run_history, history. cbn [foldl fmap list_fmap].
    repeat (apply handle_inv). exact inv_empty.
  - unfold assigned. by destruct (assign_service_plan_to_user _ _ _ _ _ _ _).
Defined.

Definition created := create_service_plan default_api_config 0 (uid 1) ann (plan_request "free" 60) empty_db.
Definition answer : ServicePlanResponse := plan_response (new_plan 0 (uid 1) (plan_request "free" 60)).

(** The second limit is above the largest [i32]. *)
Lemma plan_limits_typed_witness :
  spr_limits answer = cp_limits (plan_request "free" 60)
  ∧ ∃ p, plans created.1 !! uuid_to_string (uid 1) = Some p ∧ limits_all i32_ok (pl_limits p).
Proof.
  destruct (plan_limits_typed default_api_config 0 0 (uid 1) ann ann (plan_request "free" 60)
              empty_db created.1 created.1 answer answer) as (Hl & _ & p & Hp & Ht & _).
  - by vm_compute.
  - eval_eq.
  - eval_eq.
  - split; [exact Hl|]. by exists p.
Defined.

End ServicePlansDemo.
