(* ===== verification/SshHub.v ===== *)
(** * The SSH hub

    crates/edgehub/src/ssh_server.rs: public-key authentication with brute-force
    lockout, the slot gate of [tcpip_forward], the background tasks of a bound
    slot (accept loop, liveness heartbeat, viewer-idle reaper), cancellation and
    session teardown, and the certificate validation pipeline.

    The operating system's [bind] is a parameter ([Os]).  A tokio task is an
    entry of the hub's task table while it runs; aborting it removes the entry.
    The bytes spliced through forwarded channels are not modelled. *)

From Stdlib Require Import Sorting.Sorted.
From S2P Require Import Prelude Redis Serde Models Errors Net RedisCache.

(** ** Configuration *)

Definition VIEWER_IDLE_TEARDOWN : Z := secs 60.
Definition VIEWER_IDLE_POLL : Z := secs 10.
Definition TUNNEL_LIVE_TTL : Z := secs 45.
Definition TUNNEL_LIVE_REFRESH : Z := secs 15.

(** The parts of [SshConfig] and [SshServerState] that the handlers read: the
    key prefix of the Redis authentication handler when there is one, whether
    there is a Redis pool, and the authentication policy. *)
Record HubConfig := {
  redis_auth_handler : option string;
  redis_pool : bool;
  insecure_accept_all_keys : bool;
  max_auth_attempts : Z;
  auth_lockout_duration : Z;
}.

(** [SshConfig::default] as [SshServer::new] turns it into server state. *)
Definition default_config : HubConfig :=
  {| redis_auth_handler := None; redis_pool := false; insecure_accept_all_keys := false;
     max_auth_attempts := 3; auth_lockout_duration := secs 300 |}.

(** [SshServer::new]: the handler and the pool exist when a URL is given and
    connecting succeeded. *)
Definition new_config (redis_url : option string) (redis_auth_enabled : bool)
    (redis_key_prefix : string) (handler_ok pool_ok insecure : bool)
    (max_attempts lockout : Z) : HubConfig :=
  {| redis_auth_handler :=
       if redis_auth_enabled then
         match redis_url with
         | Some _ => if handler_ok then Some redis_key_prefix else None
         | None => None
         end
       else None;
     redis_pool := match redis_url with Some _ => pool_ok | None => false end;
     insecure_accept_all_keys := insecure;
     max_auth_attempts := max_attempts;
     auth_lockout_duration := lockout |}.

(** ** Slot activity *)

Record SlotActivity := { active : Z; last_event : Z }.

Definition SlotActivity_new (now : Z) : SlotActivity := {| active := 0; last_event := now |}.
(** [fetch_add] and [fetch_sub] wrap around. *)
Definition connection_opened (now : Z) (a : SlotActivity) : SlotActivity :=
  {| active := as_u64 (active a + 1); last_event := now |}.
Definition connection_closed (now : Z) (a : SlotActivity) : SlotActivity :=
  {| active := as_u64 (active a - 1); last_event := now |}.
Definition idle_for (now : Z) (a : SlotActivity) : Z := now - last_event a.

Definition should_teardown_idle (policy : TeardownPolicy) (active_connections idle threshold : Z)
    : bool :=
  bool_decide (policy = ViewerIdle) && (active_connections =? 0) && (threshold <=? idle).

(** ** Session identifiers *)

Definition session_char (a : ascii) : bool :=
  is_ascii_alphanumeric a || Ascii.eqb a "-" || Ascii.eqb a "_".

Definition is_valid_session_id (session_id : string) : bool :=
  negb (String.eqb session_id "") && (str_len session_id <=? 64)
  && str_all session_char session_id.

(** [user.strip_prefix("tunnel-").unwrap_or(user)]. *)
Definition session_of_user (user : string) : string :=
  default user (strip_prefix "tunnel-" user).

(** ** Brute-force protection *)

Record AuthAttempt := {
  timestamp : Z;
  client_addr : SocketAddr;
  success : bool;
  certificate_serial : option string;
  failure_reason : option string;
}.

Record BruteForceProtection := {
  attempts : gmap SocketAddr (list AuthAttempt);
  lockouts : gmap SocketAddr Z;
}.

Definition no_attempts : BruteForceProtection := {| attempts := ∅; lockouts := ∅ |}.

Definition is_locked_out (now : Z) (b : BruteForceProtection) (addr : SocketAddr)
    (lockout_duration : Z) : bool :=
  match lockouts b !! addr with
  | Some t => now - t <? lockout_duration
  | None => false
  end.

Definition recent (now lockout_duration : Z) (l : list AuthAttempt) : list AuthAttempt :=
  filter (λ a, now - lockout_duration < timestamp a) l.
Definition failures (l : list AuthAttempt) : Z :=
  Z.of_nat (length (filter (λ a, success a = false) l)).
Definition attempts_of (b : BruteForceProtection) (addr : SocketAddr) : list AuthAttempt :=
  default [] (attempts b !! addr).

Definition record_attempt (now : Z) (b : BruteForceProtection) (attempt : AuthAttempt)
    (max_attempts lockout_duration : Z) : BruteForceProtection :=
  let addr := client_addr attempt in
  let l := recent now lockout_duration (attempts_of b addr) ++ [attempt] in
  if success attempt then
    {| attempts := <[addr := filter (λ a, success a = true) l]> (attempts b);
       lockouts := delete addr (lockouts b) |}
  else
    {| attempts := <[addr := l]> (attempts b);
       lockouts := if max_attempts <=? failures l then <[addr := now]> (lockouts b)
                   else lockouts b |}.

(** ** Accept back-off *)

Definition BACKOFF_START : Z := millis 100.
Definition MAX_ACCEPT_BACKOFF : Z := secs 5.
Definition next_backoff (d : Z) : Z := Z.min (d * 2) MAX_ACCEPT_BACKOFF.

(** ** Tasks and sessions *)

Inductive Task :=
  | AcceptLoop (port : Z) (activity : SlotActivity)
  | Heartbeat (tunnel_id : string)
  | Reaper (accept : nat) (policy : TeardownPolicy).

(** [SshSession]: the authenticated session id, the peer, and the task handles
    of each port it forwards. *)
Record Session := {
  client_certificate_serial : option string;
  peer_addr : SocketAddr;
  forward_listeners : gmap Z (list nat);
}.

Record Hub := {
  brute_force_protection : BruteForceProtection;
  sessions : gmap nat Session;
  tasks : gmap nat Task;
  next_task : nat;
  edge_tunnels_open : Z;
}.

(** Ports bound by a running accept loop. *)
Definition task_port (t : Task) : option Z :=
  match t with AcceptLoop p _ => Some p | _ => None end.
Definition bound_ports (h : Hub) : gset Z :=
  list_to_set (omap (λ kt, task_port kt.2) (map_to_list (tasks h))).

(** [TcpListener::bind] on loopback, given the ports in use. *)
Class Os := {
  os_bind : gset Z → Z → option Z;
  os_bind_free : ∀ used p q, os_bind used p = Some q → q ∉ used;
  os_bind_port : ∀ used p q, os_bind used p = Some q → p ≠ 0 → q = p;
  os_bind_range : ∀ used p q, os_bind used p = Some q → u16_ok q;
}.

(** [handle.abort()] on every handle. *)
Definition abort_all (hs : list nat) (h : Hub) : Hub :=
  {| brute_force_protection := brute_force_protection h; sessions := sessions h;
     tasks := foldr delete (tasks h) hs; next_task := next_task h;
     edge_tunnels_open := edge_tunnels_open h |}.

(** [tokio::spawn]. *)
Definition spawn (t : Task) (h : Hub) : Hub * nat :=
  ({| brute_force_protection := brute_force_protection h; sessions := sessions h;
      tasks := <[next_task h := t]> (tasks h); next_task := S (next_task h);
      edge_tunnels_open := edge_tunnels_open h |}, next_task h).

Definition set_session (sid : nat) (s : Session) (h : Hub) : Hub :=
  {| brute_force_protection := brute_force_protection h; sessions := <[sid := s]> (sessions h);
     tasks := tasks h; next_task := next_task h; edge_tunnels_open := edge_tunnels_open h |}.

Definition set_bfp (b : BruteForceProtection) (h : Hub) : Hub :=
  {| brute_force_protection := b; sessions := sessions h; tasks := tasks h;
     next_task := next_task h; edge_tunnels_open := edge_tunnels_open h |}.

Definition add_gauge (d : Z) (h : Hub) : Hub :=
  {| brute_force_protection := brute_force_protection h; sessions := sessions h;
     tasks := tasks h; next_task := next_task h;
     edge_tunnels_open := edge_tunnels_open h + d |}.

Definition set_listeners (s : Session) (l : gmap Z (list nat)) : Session :=
  {| client_certificate_serial := client_certificate_serial s; peer_addr := peer_addr s;
     forward_listeners := l |}.

Definition empty_hub : Hub :=
  {| brute_force_protection := no_attempts; sessions := ∅; tasks := ∅; next_task := 0;
     edge_tunnels_open := 0 |}.

(** A connection is accepted by the server: a fresh session. *)
Definition new_session (addr : SocketAddr) : Session :=
  {| client_certificate_serial := None; peer_addr := addr; forward_listeners := ∅ |}.

(** ** Handlers *)

Section handlers.
Context `{Hredis : RedisServer R} `{Hcodec : Codec} `{Hkeys : SshKeys} `{Hos : Os}.
Context (cfg : HubConfig).
Implicit Types (now : Z) (s : Session) (h : Hub) (r : R).

(** Whether the presented key is accepted: the Redis record when there is a
    handler, otherwise only the insecure development flag. *)
Definition check_key now (user : string) (key : PublicKey) (session_id : string) r : R * bool :=
  match redis_auth_handler cfg with
  | Some prefix =>
      match validate_public_key prefix now user key session_id r with
      | (r', Ok valid) => (r', valid)
      | (r', Err _) => (r', false)
      end
  | None => (r, insecure_accept_all_keys cfg)
  end.

Definition auth_publickey now (user : string) (key : PublicKey) s (b : BruteForceProtection) r
    : Session * BruteForceProtection * R * bool :=
  let lockout := auth_lockout_duration cfg in
  if is_locked_out now b (peer_addr s) lockout then (s, b, r, false)
  else
    let session_id := session_of_user user in
    if negb (is_valid_session_id session_id) then (s, b, r, false)
    else
      let '(r', accepted) := check_key now user key session_id r in
      let b' := record_attempt now b
        {| timestamp := now; client_addr := peer_addr s; success := accepted;
           certificate_serial := Some session_id;
           failure_reason := if accepted then None else Some "key validation failed" |}
        (max_auth_attempts cfg) lockout in
      if accepted then
        ({| client_certificate_serial := Some session_id; peer_addr := peer_addr s;
            forward_listeners := forward_listeners s |}, b', r', true)
      else (s, b', r', false).

(** The slot gate: the teardown policy and the tunnel to publish, or a denial. *)
Definition slot_gate now (requested_port : Z) s r
    : R * option (TeardownPolicy * option string) :=
  if redis_pool cfg then
    match get_tunnel_by_slot now requested_port r with
    | (r', Ok (Some tunnel)) =>
        match client_certificate_serial s with
        | Some session_id =>
            if String.eqb session_id (i_id tunnel)
            then (r', Some (i_teardown_policy tunnel, Some (i_id tunnel)))
            else (r', None)
        | None => (r', None)
        end
    | (r', Ok None) => (r', None)
    | (r', Err _) => (r', None)
    end
  else (r, Some (TtlOnly, None)).

(** The tasks of a bound slot, in the order they are spawned. *)
Definition spawn_tasks now (bound_port : Z) (policy : TeardownPolicy)
    (live_tunnel_id : option string) h : Hub * list nat :=
  let '(h1, accept) := spawn (AcceptLoop bound_port (SlotActivity_new now)) h in
  let '(h2, hs2) :=
    match live_tunnel_id with
    | Some id => let '(h2, t) := spawn (Heartbeat id) h1 in (h2, [accept; t])
    | None => (h1, [accept])
    end in
  if decide (policy = ViewerIdle) then
    let '(h3, t) := spawn (Reaper accept policy) h2 in (h3, hs2 ++ [t])
  else (h2, hs2).

(** [port] is the client's 32-bit request; the answer carries the bound port. *)
Definition tcpip_forward now (port : Z) s h r : Session * Hub * R * (bool * Z) :=
  let requested_port := as_u16 port in
  match slot_gate now requested_port s r with
  | (r', None) => (s, h, r', (false, port))
  | (r', Some (policy, live_tunnel_id)) =>
      match os_bind (bound_ports h) requested_port with
      | None => (s, h, r', (false, port))
      | Some bound_port =>
          let '(h', handles) := spawn_tasks now bound_port policy live_tunnel_id (add_gauge 1 h) in
          (set_listeners s (<[bound_port := handles]> (forward_listeners s)), h', r',
           (true, bound_port))
      end
  end.

Definition cancel_tcpip_forward (port : Z) s h : Session * Hub * bool :=
  match forward_listeners s !! as_u16 port with
  | Some handles =>
      (set_listeners s (delete (as_u16 port) (forward_listeners s)),
       add_gauge (-1) (abort_all handles h), true)
  | None => (s, h, false)
  end.

(** [Drop for SshSession]. *)
Definition drop_session s h : Hub :=
  foldr (λ kv h, add_gauge (-1) (abort_all kv.2 h)) h (map_to_list (forward_listeners s)).

(** ** Background tasks *)

Definition heartbeat_tick now (tunnel_id : string) r : R :=
  (mark_tunnel_live now tunnel_id (num_seconds TUNNEL_LIVE_TTL) r).1.

(** One wake-up of the reaper with task number [n]. *)
Definition reaper_tick now (n : nat) h : Hub :=
  match tasks h !! n with
  | Some (Reaper accept policy) =>
      match tasks h !! accept with
      | Some (AcceptLoop _ a) =>
          if should_teardown_idle policy (active a) (idle_for now a) VIEWER_IDLE_TEARDOWN
          then abort_all [accept; n] h else h
      | _ => h
      end
  | _ => h
  end.

Definition on_activity (f : SlotActivity → SlotActivity) (n : nat) h : Hub :=
  match tasks h !! n with
  | Some (AcceptLoop p a) =>
      {| brute_force_protection := brute_force_protection h; sessions := sessions h;
         tasks := <[n := AcceptLoop p (f a)]> (tasks h); next_task := next_task h;
         edge_tunnels_open := edge_tunnels_open h |}
  | _ => h
  end.

(** ** Steps of the hub *)

Inductive step : Hub * R → Hub * R → Prop :=
  | step_connect h r sid addr :
      sessions h !! sid = None →
      step (h, r) (set_session sid (new_session addr) h, r)
  | step_auth h r sid s now user key s' b' r' ok :
      sessions h !! sid = Some s →
      auth_publickey now user key s (brute_force_protection h) r = (s', b', r', ok) →
      step (h, r) (set_session sid s' (set_bfp b' h), r')
  | step_forward h r sid s now port s' h' r' res :
      sessions h !! sid = Some s →
      tcpip_forward now port s h r = (s', h', r', res) →
      step (h, r) (set_session sid s' h', r')
  | step_cancel h r sid s port s' h' ok :
      sessions h !! sid = Some s →
      cancel_tcpip_forward port s h = (s', h', ok) →
      step (h, r) (set_session sid s' h', r)
  | step_drop h r sid s :
      sessions h !! sid = Some s →
      step (h, r)
        (let h' := drop_session s h in
         {| brute_force_protection := brute_force_protection h';
            sessions := delete sid (sessions h'); tasks := tasks h';
            next_task := next_task h'; edge_tunnels_open := edge_tunnels_open h' |}, r)
  | step_opened h r now n : step (h, r) (on_activity (connection_opened now) n h, r)
  | step_closed h r now n : step (h, r) (on_activity (connection_closed now) n h, r)
  | step_heartbeat h r now n id :
      tasks h !! n = Some (Heartbeat id) →
      step (h, r) (h, heartbeat_tick now id r)
  | step_reaper h r now n : step (h, r) (reaper_tick now n h, r).

Definition reachable (w : Hub * R) : Prop := ∃ r0, rtc step (empty_hub, r0) w.

End handlers.

(** ** Authentication *)

(** A decision about a key. *)
Lemma auth_publickey_spec `{RedisSpec R} `{Codec} `{SshKeys}
    cfg prefix now user key s b (r r' : R) s' b' ok
    (Hcfg : redis_auth_handler cfg = Some prefix)
    (Hauth : auth_publickey cfg now user key s b r = (s', b', r', ok)) :
  live now r' = live now r ∧
  if ok then
    is_locked_out now b (peer_addr s) (auth_lockout_duration cfg) = false
    ∧ is_valid_session_id (session_of_user user) = true
    ∧ (∃ d, session_at (live now r) (session_key prefix (session_of_user user)) = Some d
         ∧ now ≤ s_expires_at d ∧ s_fingerprint d = fingerprint key)
    ∧ client_certificate_serial s' = Some (session_of_user user)
  else s' = s.
Proof.
  unfold auth_publickey, check_key in Hauth. rewrite Hcfg in Hauth.
  destruct (is_locked_out _ _ _ _) eqn:Hl; [by simplify_eq|].
  destruct (negb _) eqn:Hv; [by simplify_eq|]. apply negb_false_iff in Hv.
  destruct (validate_public_key prefix now user key _ r) as [r1 [valid|e]] eqn:Hval.
  - apply validate_public_key_spec in Hval as [Hr Hiff].
    destruct valid; simplify_eq; [|done].
    split_and!; try done. by apply Hiff.
  - simplify_eq. split; [|done].
    assert (reads now (validate_public_key prefix now user key (session_of_user user))) as Hreads.
    { unfold validate_public_key, auth_conn, context.
      repeat first [apply reads_bind | apply reads_map_err | apply reads_lift | apply reads_ret
        | apply connect_spec | apply get_reads | case_match | intros ?]. }
    by eapply Hreads.
Qed.

(** C4: who gets in.  Whatever the configuration, a key is accepted only if the
    peer is not locked out and the user name carries a well-formed session id, to
    which the session is then bound.  In a hub with a Redis handler Redis must also
    hold an unexpired session under that id with the key's fingerprint; in a hub
    without one the key is not looked at, and one is accepted only if the flag that
    accepts every key is set.  Otherwise the request is rejected and the session is
    unchanged: a missing record, a Redis error or a malformed name never
    authenticate.  The data in Redis is never changed. *)
Theorem auth_publickey_sound `{RedisSpec R} `{Codec} `{SshKeys}
    cfg now user key s b (r r' : R) s' b' ok
    (Hauth : auth_publickey cfg now user key s b r = (s', b', r', ok)) :
  live now r' = live now r ∧
  if ok then
    is_locked_out now b (peer_addr s) (auth_lockout_duration cfg) = false
    ∧ is_valid_session_id (session_of_user user) = true
    ∧ match redis_auth_handler cfg with
      | Some prefix =>
          ∃ d, session_at (live now r) (session_key prefix (session_of_user user)) = Some d
            ∧ now ≤ s_expires_at d ∧ s_fingerprint d = fingerprint key
      | None => insecure_accept_all_keys cfg = true
      end
    ∧ client_certificate_serial s' = Some (session_of_user user)
  else s' = s.
Proof.
  destruct (redis_auth_handler cfg) as [prefix|] eqn:Hcfg; [by eapply auth_publickey_spec|].
  unfold auth_publickey, check_key in Hauth. rewrite Hcfg in Hauth.
  destruct (is_locked_out _ _ _ _) eqn:Hl; [by simplify_eq|].
  destruct (negb _) eqn:Hv; [by simplify_eq|]. apply negb_false_iff in Hv.
  destruct (insecure_accept_all_keys cfg) eqn:Hi; by simplify_eq.
Qed.

(** Without a Redis handler only the insecure flag lets a key in. *)
Lemma auth_publickey_no_backend `{RedisServer R} `{Codec} `{SshKeys}
    cfg now user key s b (r : R) :
  redis_auth_handler cfg = None → insecure_accept_all_keys cfg = false →
  (auth_publickey cfg now user key s b r).2 = false.
Proof.
  intros Hh Hi. unfold auth_publickey, check_key. rewrite Hh, Hi. by repeat case_match.
Qed.

(** ** Lockout *)

Lemma record_attempt_other now b a mx d addr :
  client_addr a ≠ addr →
  lockouts (record_attempt now b a mx d) !! addr = lockouts b !! addr
  ∧ attempts_of (record_attempt now b a mx d) addr = attempts_of b addr.
Proof.
  intros Hne. unfold record_attempt, attempts_of. destruct (success a); cbn.
  - by rewrite lookup_delete_ne, lookup_insert_ne.
  - split; [case_match|]; by rewrite ?lookup_insert_ne.
Qed.

(** A failed attempt counts, and reaching the limit locks the address. *)
Lemma record_attempt_failure now b a mx d :
  success a = false → timestamp a = now → 0 < d →
  let b' := record_attempt now b a mx d in
  failures (attempts_of b' (client_addr a)) =
    failures (recent now d (attempts_of b (client_addr a))) + 1
  ∧ (mx ≤ failures (attempts_of b' (client_addr a)) →
       lockouts b' !! client_addr a = Some now).
Proof.
  intros Hf Ht Hd. unfold record_attempt. rewrite Hf. cbn.
  unfold attempts_of at 1. cbn. rewrite lookup_insert_eq. cbn.
  assert (failures (recent now d (attempts_of b (client_addr a)) ++ [a])
          = failures (recent now d (attempts_of b (client_addr a))) + 1) as E.
  { unfold failures. rewrite filter_app, length_app, filter_cons_True by done. cbn. lia. }
  split; [done|]. unfold attempts_of at 1. cbn. rewrite lookup_insert_eq. cbn.
  intros Hmx. destruct (Z.leb_spec mx (failures (recent now d (attempts_of b (client_addr a)) ++ [a])));
    [apply lookup_insert_eq|lia].
Qed.

Definition failed_attempt (addr : SocketAddr) (t : Z) : AuthAttempt :=
  {| timestamp := t; client_addr := addr; success := false; certificate_serial := None;
     failure_reason := None |}.

(** Recording failures at the given times, oldest first. *)
Definition record_failures (mx d : Z) (addr : SocketAddr) (ts : list Z) (b : BruteForceProtection)
    : BruteForceProtection :=
  foldl (λ b t, record_attempt t b (failed_attempt addr t) mx d) b ts.

Lemma record_failures_all_failed mx d addr ts b :
  (∀ a, a ∈ attempts_of b addr → success a = false ∧ ∀ t, t ∈ ts → t - d < timestamp a) →
  StronglySorted Z.le ts → (∀ t t', t ∈ ts → t' ∈ ts → t' < t + d) →
  failures (attempts_of (record_failures mx d addr ts b) addr) =
    Z.of_nat (length (attempts_of b addr) + length ts).
Proof.
  revert b. induction ts as [|t ts IH]; intros b Hb Hsort Hwin.
  { cbn. unfold failures. rewrite list_filter_all by (apply Forall_forall; intros a Ha; by apply Hb). lia. }
  apply StronglySorted_inv in Hsort as [Hsort Hle]. rewrite Forall_forall in Hle.
  set (b' := record_attempt t b (failed_attempt addr t) mx d).
  assert (attempts_of b' addr = attempts_of b addr ++ [failed_attempt addr t]) as E.
  { unfold b', attempts_of, record_attempt. cbn. rewrite lookup_insert_eq. cbn. f_equal.
    fold (attempts_of b addr). apply list_filter_all, Forall_forall. intros a Ha.
    apply Hb; [done|left]. }
  change (record_failures mx d addr (t :: ts) b) with (record_failures mx d addr ts b').
  rewrite IH; [rewrite E, length_app; cbn; lia| |done|].
  - intros a. rewrite E, elem_of_app, list_elem_of_singleton. intros [Ha| ->].
    + split; [by apply Hb|]. intros t' Ht'. apply Hb; [done|by right].
    + split; [done|]. intros t' Ht'. cbn. pose proof (Hwin t t' ltac:(left) ltac:(by right)). lia.
  - intros t1 t2 H1 H2. apply Hwin; by right.
Qed.

(** Brute force is stopped.  Once an address has failed as often as the
    limit within one lockout period, every later attempt from it is rejected
    without looking at the key, until the period has passed since the last
    failure. *)
Lemma lockout_after_failures `{RedisServer R} `{Codec} `{SshKeys}
    cfg now user key s (r : R) ts t
    (Hsort : StronglySorted Z.le (ts ++ [t]))
    (Hwin : ∀ u, u ∈ ts → t < u + auth_lockout_duration cfg)
    (Hmax : max_auth_attempts cfg ≤ Z.of_nat (length (ts ++ [t])))
    (Hnow : t ≤ now < t + auth_lockout_duration cfg) :
  let b := record_failures (max_auth_attempts cfg) (auth_lockout_duration cfg) (peer_addr s)
             (ts ++ [t]) no_attempts in
  auth_publickey cfg now user key s b r = (s, b, r, false).
Proof.
  intros b. unfold auth_publickey.
  enough (is_locked_out now b (peer_addr s) (auth_lockout_duration cfg) = true) as -> by done.
  unfold is_locked_out. enough (lockouts b !! peer_addr s = Some t) as -> by lia.
  assert (∀ u v, u ∈ ts ++ [t] → v ∈ ts ++ [t] → v < u + auth_lockout_duration cfg) as Hall.
  { intros u v Hu Hv. assert (v ≤ t) as Hvt.
    { apply elem_of_app in Hv as [Hv| ->%list_elem_of_singleton]; [|lia].
      clear -Hsort Hv. induction ts as [|w ts IH]; [by apply not_elem_of_nil in Hv|].
      cbn in Hsort. apply StronglySorted_inv in Hsort as [Hs Hle].
      apply elem_of_cons in Hv as [->|Hv]; [|by apply IH].
      rewrite Forall_forall in Hle. apply Hle, elem_of_app. right. by apply list_elem_of_singleton. }
    apply elem_of_app in Hu as [Hu| ->%list_elem_of_singleton]; [|lia].
    specialize (Hwin u Hu). lia. }
  pose proof (record_failures_all_failed (max_auth_attempts cfg) (auth_lockout_duration cfg)
    (peer_addr s) (ts ++ [t]) no_attempts ltac:(by intros a Ha%not_elem_of_nil) Hsort Hall) as Hcount.
  fold b in Hcount. cbn [length attempts_of] in Hcount.
  set (b0 := record_failures (max_auth_attempts cfg) (auth_lockout_duration cfg) (peer_addr s)
               ts no_attempts).
  assert (b = record_attempt t b0 (failed_attempt (peer_addr s) t) (max_auth_attempts cfg)
                (auth_lockout_duration cfg)) as Eb
    by (unfold b, b0, record_failures; by rewrite foldl_app).
  rewrite Eb in *. clear Eb b.
  destruct (record_attempt_failure t b0 (failed_attempt (peer_addr s) t) (max_auth_attempts cfg)
    (auth_lockout_duration cfg) eq_refl eq_refl ltac:(lia)) as [_ Hlock].
  apply Hlock. cbn [client_addr failed_attempt]. rewrite Hcount. unfold attempts_of. cbn. lia.
Qed.

(** ** The slot gate *)

(** What the slot gate lets through. *)
Lemma slot_gate_spec `{RedisSpec R} `{Codec} cfg now slot s (r r' : R) gate :
  slot_gate cfg now slot s r = (r', gate) →
  live now r' = live now r
  ∧ match gate with
    | Some _ => redis_pool cfg = true →
        ∃ t, registered (live now r) t ∧ i_slot t = slot ∧ client_certificate_serial s = Some (i_id t)
    | None => redis_pool cfg = true
    end.
Proof.
  unfold slot_gate. destruct (redis_pool cfg); [|by intros [= <- <-]].
  destruct (get_tunnel_by_slot now slot r) as [r1 res] eqn:Hg.
  assert (live now r1 = live now r) as Hl by (by eapply scan_reads).
  destruct res as [[t|]|e]; [|by intros [= <- <-]..].
  apply scan_correct in Hg as [_ [Hreg Hslot]].
  destruct (client_certificate_serial s) as [id|]; [|by intros [= <- <-]].
  destruct (String.eqb_spec id (i_id t)) as [->|]; intros [= <- <-]; [|done].
  split; [done|]. intros _. exists t. split_and!; [done|lia|done].
Qed.

(** C2: cross-tenant isolation at the hub.  In a hub with a Redis pool a forward is
    accepted only for a session that authenticated as the very tunnel whose
    registered record owns the requested slot.  A hub without a pool has no such
    gate: there a forward is accepted exactly when the port can be bound.  In both
    an accepted forward binds a free port, the requested one unless that is zero; a
    refused one (unknown slot, foreign slot, unauthenticated session, Redis error,
    port in use) leaves session and hub as they were.  The data in Redis is never
    changed. *)
Theorem tcpip_forward_owner `{RedisSpec R} `{Codec} `{Os} cfg now port s h (r r' : R) s' h' ok port'
    (Hf : tcpip_forward cfg now port s h r = (s', h', r', (ok, port'))) :
  live now r' = live now r
  ∧ (if redis_pool cfg
     then ok = true → ∃ t, registered (live now r) t ∧ i_slot t = as_u16 port
                        ∧ client_certificate_serial s = Some (i_id t)
     else ok = bool_decide (is_Some (os_bind (bound_ports h) (as_u16 port))))
  ∧ if ok then
      (as_u16 port ≠ 0 → port' = as_u16 port)
      ∧ (port' ∉ bound_ports h)
      ∧ is_Some (forward_listeners s' !! port')
    else s' = s ∧ h' = h ∧ port' = port.
Proof.
  unfold tcpip_forward in Hf.
  destruct (slot_gate cfg now (as_u16 port) s r) as [r1 gate] eqn:Hg.
  apply slot_gate_spec in Hg as [Hl Hgate].
  assert (r' = r1) as -> by (repeat case_match; by simplify_eq).
  split; [done|]. destruct gate as [[policy id]|].
  - destruct (os_bind _ _) as [q|] eqn:Hb.
    + destruct (spawn_tasks now q _ _ _) as [h1 hs] eqn:Hsp. simplify_eq.
      split; [by destruct (redis_pool cfg)|].
      split_and!; [by eapply os_bind_port|by eapply os_bind_free|].
      cbn. rewrite lookup_insert_eq. by eexists.
    + simplify_eq. split; [|done]. by destruct (redis_pool cfg).
  - rewrite Hgate. by simplify_eq.
Qed.

(** ** Task invariant *)

(** The bound ports are those of running accept loops. *)
Lemma elem_of_bound_ports h p :
  p ∈ bound_ports h ↔ ∃ n a, tasks h !! n = Some (AcceptLoop p a).
Proof.
  unfold bound_ports. rewrite elem_of_list_to_set, list_elem_of_omap. split.
  - intros ([n t] & Hin%elem_of_map_to_list & Ht). exists n. destruct t; cbn in *; simplify_eq. by eexists.
  - intros (n & a & Hn). exists (n, AcceptLoop p a). split; [by apply elem_of_map_to_list|done].
Qed.

(** Task numbers are fresh, a port has one accept loop, and every accept loop
    is held by the session that forwards its port. *)
Definition fresh_tasks h : Prop := ∀ n t, tasks h !! n = Some t → (n < next_task h)%nat.
Definition one_listener h : Prop :=
  ∀ n m p a b, tasks h !! n = Some (AcceptLoop p a) → tasks h !! m = Some (AcceptLoop p b) → n = m.
Definition owned h : Prop :=
  ∀ n p a, tasks h !! n = Some (AcceptLoop p a) →
    ∃ sid s hs, sessions h !! sid = Some s ∧ forward_listeners s !! p = Some hs ∧ n ∈ hs.
Definition hub_wf h : Prop := fresh_tasks h ∧ one_listener h ∧ owned h.

Lemma lookup_abort_all hs h n :
  tasks (abort_all hs h) !! n = if decide (n ∈ hs) then None else tasks h !! n.
Proof.
  cbn. induction hs as [|k hs IH]; cbn; [done|]. destruct (decide (n = k)) as [->|Hne].
  - rewrite lookup_delete_eq. rewrite decide_True by left. done.
  - rewrite lookup_delete_ne, IH by done. apply decide_ext. rewrite elem_of_cons. tauto.
Qed.

(** What a session's drop leaves: everything but its handles. *)
Lemma drop_session_spec s h :
  sessions (drop_session s h) = sessions h ∧ next_task (drop_session s h) = next_task h
  ∧ brute_force_protection (drop_session s h) = brute_force_protection h
  ∧ ∀ n t, tasks (drop_session s h) !! n = Some t →
      tasks h !! n = Some t ∧
      ∀ p hs, forward_listeners s !! p = Some hs → n ∉ hs.
Proof.
  unfold drop_session.
  assert (∀ p hs, forward_listeners s !! p = Some hs ↔ (p, hs) ∈ map_to_list (forward_listeners s))
    as Hin by (intros; by rewrite elem_of_map_to_list).
  setoid_rewrite Hin. clear Hin.
  induction (map_to_list (forward_listeners s)) as [|[p hs] l IH].
  { split_and!; try done. intros n t Hn. split; [done|]. by intros ?? ?%not_elem_of_nil. }
  cbn [foldr fst snd]. destruct IH as (IH1 & IH2 & IH3 & IH). split_and!; try done.
  intros n t Hn. cbn [add_gauge tasks] in Hn. rewrite lookup_abort_all in Hn.
  case_decide as Hd; [done|]. destruct (IH n t Hn) as [? Hl]. split; [done|].
  intros p' hs' [[= -> ->]|?]%elem_of_cons; [done|]. by eapply Hl.
Qed.

Section invariant.
Context `{Hredis : RedisServer R} `{Hcodec : Codec} `{Hkeys : SshKeys} `{Hos : Os}.
Context (cfg : HubConfig).
Implicit Types (h : Hub) (s : Session).

(** Removing tasks and keeping the sessions preserves the invariant. *)
Lemma hub_wf_fewer h h' :
  (∀ n t, tasks h' !! n = Some t → tasks h !! n = Some t) →
  sessions h' = sessions h → next_task h' = next_task h → hub_wf h → hub_wf h'.
Proof.
  intros Ht Hs Hn (H1 & H2 & H3). split_and!.
  - intros n t Hnt%Ht. rewrite Hn. by eapply H1.
  - intros n m p a b Ha%Ht Hb%Ht. by eapply H2.
  - intros n p a Ha%Ht. rewrite Hs. by eapply H3.
Qed.

(** Ownership after one session changed. *)
Lemma owned_update h h' sid s s' :
  sessions h !! sid = Some s → sessions h' = <[sid := s']> (sessions h) → owned h →
  (∀ n p a, tasks h' !! n = Some (AcceptLoop p a) →
     (∃ hs, forward_listeners s' !! p = Some hs ∧ n ∈ hs)
     ∨ (∃ a', tasks h !! n = Some (AcceptLoop p a'))
       ∧ ∀ hs, forward_listeners s !! p = Some hs → n ∈ hs →
           ∃ hs', forward_listeners s' !! p = Some hs' ∧ n ∈ hs') →
  owned h'.
Proof.
  intros Hsid Hs' Hown Hstep n p a Ha. rewrite Hs'.
  destruct (Hstep n p a Ha) as [(hs & Hp & Hn)|[[a' Ha'] Hkeep]].
  { exists sid, s', hs. by rewrite lookup_insert_eq. }
  destruct (Hown n p a' Ha') as (sid0 & s0 & hs & Hs0 & Hp & Hn).
  destruct (decide (sid0 = sid)) as [->|Hne].
  - simplify_eq. destruct (Hkeep hs Hp Hn) as (hs' & ? & ?).
    exists sid, s', hs'. by rewrite lookup_insert_eq.
  - exists sid0, s0, hs. by rewrite lookup_insert_ne.
Qed.

Lemma fresh_insert (t : Task) (T : gmap nat Task) n :
  (∀ m u, T !! m = Some u → (m < n)%nat) →
  ∀ m u, <[n := t]> T !! m = Some u → (m < S n)%nat.
Proof.
  intros HT m u. rewrite lookup_insert_Some. intros [[<- _]|[_ Hm]]; [lia|].
  apply HT in Hm. lia.
Qed.

Lemma spawn_tasks_spec now p pol live h h' hs :
  spawn_tasks now p pol live h = (h', hs) → fresh_tasks h →
  sessions h' = sessions h ∧ fresh_tasks h'
  ∧ tasks h' !! next_task h = Some (AcceptLoop p (SlotActivity_new now)) ∧ next_task h ∈ hs
  ∧ ∀ n q a, tasks h' !! n = Some (AcceptLoop q a) →
      n = next_task h ∧ q = p ∨ tasks h !! n = Some (AcceptLoop q a).
Proof.
  unfold spawn_tasks, spawn. intros Hsp Hf.
  destruct live as [id|]; case_decide; simplify_eq; cbn in *;
    (split; [done|]); (split; [unfold fresh_tasks; cbn; repeat apply fresh_insert; exact Hf|]);
    (split; [repeat (rewrite lookup_insert_ne by lia); apply lookup_insert_eq|]);
    (split; [left|]);
    intros n q a; rewrite !lookup_insert_Some; naive_solver.
Qed.

Lemma tcpip_forward_wf sid s now port s' h h' (r r' : R) res :
  sessions h !! sid = Some s → tcpip_forward cfg now port s h r = (s', h', r', res) →
  hub_wf h → hub_wf (set_session sid s' h').
Proof.
  intros Hsid Hf (H1 & H2 & H3). unfold tcpip_forward in Hf.
  assert (hub_wf (set_session sid s h)) as Hsame.
  { split_and!; [exact H1|exact H2|]. eapply (owned_update h _ sid s s); [done..|].
    intros n p a Ha. right. split; [by eexists|]. eauto. }
  destruct (slot_gate cfg now (as_u16 port) s r) as [r1 [[pol live]|]]; [|by simplify_eq].
  destruct (os_bind _ _) as [q|] eqn:Hb; [|by simplify_eq].
  destruct (spawn_tasks now q pol live (add_gauge 1 h)) as [h1 hs] eqn:Hsp. simplify_eq.
  apply os_bind_free in Hb.
  apply spawn_tasks_spec in Hsp as (Hs & Hfr & Hnew & Hin & Hold); [|exact H1]. cbn in *.
  assert (∀ n a, tasks h !! n ≠ Some (AcceptLoop q a)) as Hq.
  { intros n a Ha. apply Hb, elem_of_bound_ports. eauto. }
  split_and!; [exact Hfr| |].
  - intros n m p a b Ha Hb'. cbn in *. apply Hold in Ha as [[-> ->]|Ha].
    + apply Hold in Hb' as [[-> _]|Hb']; [done|]. by destruct (Hq m b).
    + apply Hold in Hb' as [[-> ->]|Hb']; [by destruct (Hq n a)|]. by eapply H2.
  - eapply (owned_update h _ sid s); [done|cbn; by rewrite Hs|exact H3|].
    intros n p a Ha. cbn in *. apply Hold in Ha as [[-> ->]|Ha].
    + left. exists hs. by rewrite lookup_insert_eq.
    + right. split; [by eexists|]. intros hs0 Hhs0 Hn. exists hs0.
      rewrite lookup_insert_ne; [done|]. intros ->. by destruct (Hq n a).
Qed.

Lemma cancel_wf sid s port s' h h' ok :
  sessions h !! sid = Some s → cancel_tcpip_forward port s h = (s', h', ok) →
  hub_wf h → hub_wf (set_session sid s' h').
Proof.
  intros Hsid Hc (H1 & H2 & H3). unfold cancel_tcpip_forward in Hc.
  destruct (forward_listeners s !! as_u16 port) as [hs|] eqn:Hl; simplify_eq.
  - assert (∀ n t, tasks (abort_all hs h) !! n = Some t → tasks h !! n = Some t ∧ n ∉ hs) as Hab
      by (intros n t; rewrite lookup_abort_all; case_decide; naive_solver).
    split_and!.
    + intros n t [? _]%Hab. by eapply H1.
    + intros n m p a b [? _]%Hab [? _]%Hab. by eapply H2.
    + eapply (owned_update h _ sid s); [done..|].
      intros n p a [Ha Hn]%Hab. right. split; [by eexists|]. intros hs0 Hhs0 Hn0. exists hs0.
      cbn. rewrite lookup_delete_ne; [done|]. intros Ep. rewrite <- Ep in Hhs0. by simplify_eq.
  - split_and!; [exact H1|exact H2|]. eapply (owned_update h' _ sid s' s'); [done..|].
    intros n p a Ha. right. split; [by eexists|]. eauto.
Qed.

Lemma on_activity_wf f n h : hub_wf h → hub_wf (on_activity f n h).
Proof.
  intros (H1 & H2 & H3). unfold on_activity.
  destruct (tasks h !! n) as [[p a| |]|] eqn:E; try by split_and!.
  assert (∀ m q b, <[n := AcceptLoop p (f a)]> (tasks h) !! m = Some (AcceptLoop q b) →
            ∃ b', tasks h !! m = Some (AcceptLoop q b')) as Hback.
  { intros m q b. rewrite lookup_insert_Some. naive_solver. }
  split_and!.
  - intros m t. cbn. rewrite lookup_insert_Some. intros [[<- <-]|[_ Hm]]; eauto.
  - intros m m' q b b' [? Hm]%Hback [? Hm']%Hback. by eapply H2.
  - intros m q b [b' Hm]%Hback. by eapply H3.
Qed.

Lemma reaper_wf now n h : hub_wf h → hub_wf (reaper_tick now n h).
Proof.
  intros Hwf. unfold reaper_tick. repeat case_match; try done.
  eapply (hub_wf_fewer h); [|done..|exact Hwf].
  intros m u. rewrite lookup_abort_all. by case_decide.
Qed.

Lemma step_wf h h' (r r' : R) : step cfg (h, r) (h', r') → hub_wf h → hub_wf h'.
Proof.
  intros Hstep Hwf. inversion Hstep; subst.
  - destruct Hwf as (I1 & I2 & I3). split_and!; [exact I1|exact I2|].
    intros n p a Ha. destruct (I3 n p a Ha) as (sid0 & s & hs & Hs & ?). exists sid0, s, hs.
    split; [|done]. cbn. rewrite lookup_insert_ne; [done|]. intros ->. congruence.
  - destruct Hwf as (I1 & I2 & I3). split_and!; [exact I1|exact I2|].
    eapply (owned_update h _ sid s); [done..|]. intros n p a Ha. right. split; [by eexists|].
    intros hs Hhs Hn. exists hs. split; [|done]. rewrite <- Hhs. f_equal.
    match goal with H : auth_publickey _ _ _ _ _ _ _ = _ |- _ => unfold auth_publickey in H end.
    repeat case_match; by simplify_eq.
  - by eapply tcpip_forward_wf.
  - by eapply cancel_wf.
  - destruct (drop_session_spec s h) as (Es & En & _ & Ht). destruct Hwf as (I1 & I2 & I3).
    split_and!; cbn.
    + intros n t [? _]%Ht. cbn. rewrite En. by eapply I1.
    + intros n m p a b [? _]%Ht [? _]%Ht. by eapply I2.
    + intros n p a [Ha Hno]%Ht. destruct (I3 n p a Ha) as (sid0 & s0 & hs & Hs & Hp & Hn).
      exists sid0, s0, hs. split; [|done]. cbn. rewrite Es, lookup_delete_ne; [done|].
      intros ->. simplify_eq. by destruct (Hno p hs).
  - by apply on_activity_wf.
  - by apply on_activity_wf.
  - done.
  - by apply reaper_wf.
Qed.

Lemma reachable_wf h (r : R) : reachable cfg (h, r) → hub_wf h.
Proof.
  intros [r0 Hr]. remember (empty_hub, r0) as w0 eqn:E0. remember (h, r) as w eqn:E.
  assert (hub_wf w0.1 → hub_wf w.1) as Hw.
  { clear E0 E. induction Hr as [|[h1 r1] [h2 r2] w3 Hstep _ IH]; [done|].
    intros H1. by apply IH; eapply step_wf. }
  subst. apply Hw. split_and!; by intros ?.
Qed.
End invariant.

(** C13: no zombie listeners.  In every reachable state of the hub (any
    interleaving of connections, authentications, forwards, cancellations,
    disconnects and background tasks), a bound slot port has exactly one accept
    loop, and a connected session still holds it. *)
Theorem no_zombie_listeners `{RedisServer R} `{Codec} `{SshKeys} `{Os} cfg h (r : R) p
    (Hreach : reachable cfg (h, r)) (Hp : p ∈ bound_ports h) :
  ∃ n a sid s hs,
    tasks h !! n = Some (AcceptLoop p a)
    ∧ (∀ m b, tasks h !! m = Some (AcceptLoop p b) → m = n)
    ∧ sessions h !! sid = Some s ∧ forward_listeners s !! p = Some hs ∧ n ∈ hs.
Proof.
  apply reachable_wf in Hreach as (_ & Hone & Hown).
  apply elem_of_bound_ports in Hp as (n & a & Hn).
  destruct (Hown n p a Hn) as (sid & s & hs & Hs & Hl & Hin).
  exists n, a, sid, s, hs. split_and!; try done. intros m b Hm. by eapply Hone.
Qed.

(** ** Lockout under interleaving *)

(** A sequence of authentication requests against the shared state. *)
Record AuthRequest `{SshKeys} := {
  q_now : Z; q_user : string; q_key : PublicKey; q_session : Session;
}.

Fixpoint run_auths `{RedisServer R} `{Codec} `{SshKeys} (cfg : HubConfig)
    (qs : list AuthRequest) (b : BruteForceProtection) (r : R) : list bool * BruteForceProtection :=
  match qs with
  | [] => ([], b)
  | q :: qs =>
      let '(_, b', r', ok) :=
        auth_publickey cfg (q_now q) (q_user q) (q_key q) (q_session q) b r in
      let '(oks, b'') := run_auths cfg qs b' r' in (ok :: oks, b'')
  end.

(** C35: a lockout holds against any traffic.  While an address is locked out,
    no sequence of requests, from it and from other peers in any order, gets it
    accepted or lifts its lockout early. *)
Theorem lockout_holds `{RedisServer R} `{Codec} `{SshKeys} cfg addr t qs b (r : R)
    (Hlock : lockouts b !! addr = Some t)
    (Hqs : ∀ q, q ∈ qs → q_now q < t + auth_lockout_duration cfg) :
  lockouts (run_auths cfg qs b r).2 !! addr = Some t
  ∧ ∀ i q, qs !! i = Some q → peer_addr (q_session q) = addr →
      (run_auths cfg qs b r).1 !! i = Some false.
Proof.
  revert b r Hlock. induction qs as [|q qs IH]; intros b r Hlock; [done|].
  cbn [run_auths].
  destruct (auth_publickey cfg (q_now q) (q_user q) (q_key q) (q_session q) b r)
    as [[[s' b'] r'] ok] eqn:Ha.
  assert (lockouts b' !! addr = Some t ∧ (peer_addr (q_session q) = addr → ok = false)) as [Hb' Hok].
  { unfold auth_publickey in Ha. destruct (decide (peer_addr (q_session q) = addr)) as [E|Hne].
    - unfold is_locked_out in Ha. rewrite E, Hlock in Ha.
      pose proof (Hqs q ltac:(left)). destruct (Z.ltb_spec (q_now q - t) (auth_lockout_duration cfg));
        [by simplify_eq|lia].
    - split; [|done]. repeat case_match; simplify_eq; try done;
        (etrans; [refine (proj1 (record_attempt_other _ _ _ _ _ addr _)); exact Hne|exact Hlock]). }
  destruct (IH ltac:(intros; apply Hqs; by right) b' r' Hb') as [IH1 IH2].
  destruct (run_auths cfg qs b' r') as [oks b'']. split; [done|].
  intros [|i] q' Hi Hp; cbn in *; [simplify_eq; by rewrite Hok|by eapply IH2].
Qed.

(** ** The viewer-idle reaper *)

(** The reaper's decision.  It stops an accept loop exactly when the tunnel
    asked for viewer-idle teardown, no viewer is connected and nothing happened
    for 60 seconds; then the loop and the reaper end and nothing else does. *)
Lemma reaper_tick_correct (now : Z) n h acc pol p a
    (Hn : tasks h !! n = Some (Reaper acc pol)) (Ha : tasks h !! acc = Some (AcceptLoop p a)) :
  (pol = ViewerIdle ∧ active a = 0 ∧ last_event a + secs 60 ≤ now ∧
   tasks (reaper_tick now n h) = delete acc (delete n (tasks h)))
  ∨ ((pol = TtlOnly ∨ active a ≠ 0 ∨ now < last_event a + secs 60) ∧ reaper_tick now n h = h).
Proof.
  unfold reaper_tick. rewrite Hn, Ha. unfold should_teardown_idle, idle_for, VIEWER_IDLE_TEARDOWN.
  destruct (bool_decide_reflect (pol = ViewerIdle)) as [->|Hp]; cbn.
  - destruct (Z.eqb_spec (active a) 0), (Z.leb_spec (secs 60) (now - last_event a)); cbn;
      [left|right..]; split_and?; auto; try lia; (right; (left; done) || (right; lia)).
  - right. split; [|done]. left. by destruct pol.
Qed.

(** Liveness outlives the reaped listener.  When the reaper closes a slot,
    the tunnel's heartbeat keeps running, so the port is no longer bound while
    Redis still reports the tunnel as live after the next refresh. *)
Lemma reaped_tunnel_reported_live `{RedisSpec R, !RedisAvailable R} `{Codec} `{SshKeys} `{Os}
    cfg now now' n m h id acc p a (r : R)
    (Hreach : reachable cfg (h, r)) (Hn : tasks h !! n = Some (Reaper acc ViewerIdle))
    (Ha : tasks h !! acc = Some (AcceptLoop p a)) (Hm : tasks h !! m = Some (Heartbeat id))
    (Hidle : active a = 0 ∧ last_event a + secs 60 ≤ now) (Hw : now ≤ now' < now + secs 45) :
  let h' := reaper_tick now n h in
  (p ∉ bound_ports h') ∧ tasks h' !! m = Some (Heartbeat id)
  ∧ ∃ r2, is_tunnel_live now' id (heartbeat_tick now id r) = (r2, Ok true).
Proof.
  intros h'. assert (tasks h' = delete acc (delete n (tasks h))) as Ht.
  { unfold h', reaper_tick. rewrite Hn, Ha.
    unfold should_teardown_idle, idle_for, VIEWER_IDLE_TEARDOWN. cbn.
    destruct (Z.eqb_spec (active a) 0), (Z.leb_spec (secs 60) (now - last_event a)); try lia. done. }
  split_and!.
  - rewrite elem_of_bound_ports. intros (k & b & Hk). rewrite Ht in Hk.
    rewrite !lookup_delete_Some in Hk. destruct Hk as (Hne & _ & Hk).
    apply reachable_wf in Hreach as (_ & Hone & _). by destruct (Hne (Hone _ _ _ _ _ Ha Hk)).
  - rewrite Ht, !lookup_delete_ne by (intros ->; congruence). done.
  - unfold heartbeat_tick, mark_tunnel_live, set_string_ex, pool_get, query.
    destruct (runs_connect now _ r eq_refl) as (r0 & E0 & L0).
    destruct (runs_set_ex now (tunnel_live_key id) "1" (num_seconds TUNNEL_LIVE_TTL) _
                ltac:(vm_compute; split; congruence) r0 L0) as (r1 & E1 & L1).
    erewrite io_bind_step; [|by apply io_map_err_ok].
    unfold io_map_err at 1. rewrite E1. cbn [fst].
    assert (live now r1 !! tunnel_live_key id =
              Some (REntry (RString "1") (Some (now + secs 45)))) as Hk
      by (rewrite L1; apply lookup_insert_eq).
    apply (live_later now now') in Hk; [|lia]. cbn in Hk.
    destruct (Z.ltb_spec now' (now + secs 45)); [|lia].
    enough (runs now' (is_tunnel_live now' id) (live now' r1) true (live now' r1)) as Hruns
      by (destruct (Hruns r1 eq_refl) as (r2 & E2 & _); eauto).
    unfold is_tunnel_live, get_string, pool_get, query.
    apply (runs_bind _ _ _ _ (Some "1") (live now' r1)); [|apply runs_ret].
    eapply runs_bind; [apply runs_map_err, runs_connect|].
    apply runs_map_err, runs_get. by rewrite Hk.
Qed.

(** ** Certificate validation and tunnel metadata *)

Section certificates.
(** Parsing of PEM and X.509 is third-party code: a DER certificate, its fields. *)
Context {Der : Type}.

Record CertificateInfo := {
  ci_serial_number : string; ci_subject : string; ci_issuer : string;
  ci_not_before : Z; ci_not_after : Z; ci_fingerprint : string;
}.

Context (parse_certificate_pem : string → result string Der).
Context (extract_certificate_info : Der → option CertificateInfo).

Record CertificateValidationResult := {
  is_valid : bool;
  serial_number : option string;
  subject : option string;
  issuer : option string;
  not_before : option Z;
  not_after : option Z;
  cert_fingerprint : option string;
  validation_errors : list string;
  validated_at : Z;
}.

(** [validate_certificate_pinning] only fails on an unparsable certificate. *)
Definition validate_certificate_pinning (der : Der) : result string () :=
  match extract_certificate_info der with
  | Some _ => Ok ()
  | None => Err "Failed to parse certificate for pinning"
  end.

(** [ca] is the certificate authority's answer for a serial number, when an
    authority is configured. *)
Definition validate_certificate_comprehensive (now : Z) (pinning_enabled : bool)
    (ca : option (string → result string bool)) (pem : string) : CertificateValidationResult :=
  match parse_certificate_pem pem with
  | Err e =>
      {| is_valid := false; serial_number := None; subject := None; issuer := None;
         not_before := None; not_after := None; cert_fingerprint := None;
         validation_errors := ["Certificate parsing failed: " +:+ e]; validated_at := now |}
  | Ok der =>
      let info := extract_certificate_info der in
      let serial := ci_serial_number <$> info in
      let '(valid, errors) :=
        match ca with
        | Some check =>
            match serial with
            | Some sn =>
                match check sn with
                | Ok true => (true, [])
                | Ok false => (false, ["Certificate not found in CA registry"])
                | Err e => (false, ["CA validation failed: " +:+ e])
                end
            | None => (false, [])
            end
        | None => (false, ["No certificate authority configured"])
        end in
      let '(valid, errors) :=
        if pinning_enabled then
          match validate_certificate_pinning der with
          | Ok _ => (valid, errors)
          | Err e => (false, errors ++ ["Certificate pinning validation failed: " +:+ e])
          end
        else (valid, errors) in
      {| is_valid := valid; serial_number := serial; subject := ci_subject <$> info;
         issuer := ci_issuer <$> info; not_before := ci_not_before <$> info;
         not_after := ci_not_after <$> info; cert_fingerprint := ci_fingerprint <$> info;
         validation_errors := errors; validated_at := now |}
  end.

(** The legacy entry point. *)
Definition validate_certificate (now : Z) (pinning_enabled : bool)
    (ca : option (string → result string bool)) (pem : string) : bool :=
  is_valid (validate_certificate_comprehensive now pinning_enabled ca pem).

Definition extract_certificate_serial (pem : string) : option string :=
  match parse_certificate_pem pem with
  | Ok der => ci_serial_number <$> extract_certificate_info der
  | Err _ => None
  end.

End certificates.

(** A certificate is valid only on the authority's word: it parsed, its
    serial number was read, and the configured authority confirmed that serial;
    a valid result carries no errors, and without an authority nothing is
    valid. *)
Lemma certificate_valid_sound {Der} parse (info : Der → option CertificateInfo)
    now pinning ca pem
    (Hvalid : is_valid (validate_certificate_comprehensive parse info now pinning ca pem) = true) :
  let res := validate_certificate_comprehensive parse info now pinning ca pem in
  validation_errors res = [] ∧
  ∃ check sn, ca = Some check ∧ check sn = Ok true ∧ serial_number res = Some sn
    ∧ extract_certificate_serial parse info pem = Some sn.
Proof.
  cbn. unfold validate_certificate_comprehensive, validate_certificate_pinning,
    extract_certificate_serial in *.
  destruct (parse pem) as [der|e]; [|done].
  destruct (info der) as [ci|]; cbn in *.
  - destruct ca as [check|]; cbn in *; [|by destruct pinning].
    destruct (check (ci_serial_number ci)) as [[]|e] eqn:E; cbn in *; try by destruct pinning.
    destruct pinning; cbn; (split; [done|]); eauto 10.
  - destruct ca; by destruct pinning.
Qed.

(** [ReverseTunnelInfo] and its registry: metadata for introspection. *)
Record ReverseTunnelInfo := {
  rt_subdomain : string; rt_local_port : Z; rt_channel_id : Z; rt_created_at : Z;
  rt_developer_id : string; rt_certificate_serial : option string;
}.

Definition register_reverse_tunnel (now : Z) (public_domain subdomain : string)
    (local_port channel_id : Z) (developer_id : string) (serial : option string)
    (m : gmap string ReverseTunnelInfo) : gmap string ReverseTunnelInfo * string :=
  (<[subdomain := {| rt_subdomain := subdomain; rt_local_port := local_port;
                     rt_channel_id := channel_id; rt_created_at := now;
                     rt_developer_id := developer_id; rt_certificate_serial := serial |}]> m,
   "https://" +:+ subdomain +:+ "." +:+ public_domain).

Definition find_reverse_tunnel (subdomain : string) (m : gmap string ReverseTunnelInfo)
    : option ReverseTunnelInfo := m !! subdomain.

Definition reverse_tunnel_count (m : gmap string ReverseTunnelInfo) : Z := Z.of_nat (size m).

(** ** Examples on the concrete server *)
Module HubDemo.
Import MemRedis BitCodec CacheDemo.

#[export] Instance demo_keys : SshKeys := {| PublicKey := string; fingerprint := id |}.

#[export, refine] Instance demo_os : Os := {|
  os_bind used p :=
    if bool_decide (p ∈ used) || (p <=? 0) || (65536 <=? p) then None else Some p |}.
Proof.
  - intros used p q. destruct (bool_decide_reflect (p ∈ used)); cbn; [done|].
    repeat case_match; naive_solver.
  - intros used p q. repeat case_match; naive_solver.
  - intros used p q. unfold u16_ok. case_match; intros; simplify_eq.
    destruct (bool_decide _); cbn in *; lia.
Defined.

Definition cfg : HubConfig :=
  {| redis_auth_handler := Some "session"; redis_pool := true; insecure_accept_all_keys := false;
     max_auth_attempts := 2; auth_lockout_duration := secs 300 |}.

Definition peer : SocketAddr := {| sa_ip := V4 (Ipv4 10 0 0 9); sa_port := 5000 |}.
Definition sid : string := uuid_to_string (t_id tunnel).
Definition user : string := "tunnel-" +:+ sid.
Definition key : PublicKey (SshKeys := demo_keys) := "fp".

Definition redis : mem :=
  <["session:" +:+ sid := REntry (RString (json_to_string (ser_SessionData
      {| s_github_user_id := "7"; s_public_key := "pk"; s_fingerprint := "fp";
         s_expires_at := secs 60; s_session_id := sid |}))) None]> store.

Definition fresh : Session := new_session peer.
Definition authed : Session :=
  {| client_certificate_serial := Some sid; peer_addr := peer; forward_listeners := ∅ |}.
Definition auth_result := auth_publickey cfg 0 user key fresh no_attempts redis.

Lemma auth_publickey_sound_witness :
  live 0 redis = live 0 redis ∧
  is_locked_out 0 no_attempts (peer_addr fresh) (auth_lockout_duration cfg) = false
  ∧ is_valid_session_id (session_of_user user) = true
  ∧ (∃ d, session_at (live 0 redis) (session_key "session" (session_of_user user)) = Some d
       ∧ 0 ≤ s_expires_at d ∧ s_fingerprint d = fingerprint key)
  ∧ client_certificate_serial authed = Some (session_of_user user).
Proof.
  apply (auth_publickey_sound cfg 0 user key fresh no_attempts redis redis authed
           auth_result.1.1.2 true).
  eval_eq.
Defined.

Lemma lockout_after_failures_witness :
  let b := record_failures 2 (secs 300) peer [0; secs 1] no_attempts in
  auth_publickey cfg (secs 2) user key fresh b redis = (fresh, b, redis, false).
Proof.
  apply (lockout_after_failures cfg (secs 2) user key fresh redis [0] (secs 1)).
  - apply (SSorted_cons 0); [apply (SSorted_cons (secs 1)); constructor|].
    constructor; [unfold secs; lia|constructor].
  - intros u ->%list_elem_of_singleton. vm_compute. congruence.
  - vm_compute. congruence.
  - vm_compute. split; congruence.
Defined.

Definition request (t : Z) : AuthRequest :=
  {| q_now := t; q_user := user; q_key := key; q_session := fresh |}.

Lemma lockout_holds_witness :
  (run_auths cfg [request (secs 5); request (secs 6)]
     {| attempts := ∅; lockouts := {[peer := 0]} |} redis).1 !! 1%nat = Some false.
Proof.
  apply (lockout_holds cfg peer 0 [request (secs 5); request (secs 6)]
           {| attempts := ∅; lockouts := {[peer := 0]} |} redis) with (q := request (secs 6)).
  - reflexivity.
  - intros q [->|[->|[]%not_elem_of_nil]%elem_of_cons]%elem_of_cons; vm_compute; congruence.
  - reflexivity.
  - reflexivity.
Defined.

(** The hub after connect, authentication and forward of slot 20000. *)
Definition hub1 : Hub := set_session 0 fresh empty_hub.
Definition hub2 : Hub := set_session 0 authed (set_bfp auth_result.1.1.2 hub1).
Definition forward_result := tcpip_forward cfg 0 20000 authed hub2 redis.
Definition hub3 : Hub := set_session 0 forward_result.1.1.1 forward_result.1.1.2.

Lemma hub3_reachable : reachable cfg (hub3, redis).
Proof.
  exists redis. eapply rtc_l; [by apply (step_connect cfg empty_hub redis 0 peer)|].
  eapply rtc_l.
  { apply (step_auth cfg hub1 redis 0 fresh 0 user key authed auth_result.1.1.2 redis true);
      [done|eval_eq]. }
  apply rtc_once. apply (step_forward cfg hub2 redis 0 authed 0 20000 forward_result.1.1.1
    forward_result.1.1.2 redis (true, 20000)); [done|eval_eq].
Qed.

Lemma tcpip_forward_owner_witness :
  live 0 redis = live 0 redis
  ∧ (true = true → ∃ t, registered (live 0 redis) t ∧ i_slot t = 20000
       ∧ client_certificate_serial authed = Some (i_id t))
  ∧ ((20000 : Z) ≠ 0 → (20000 : Z) = 20000) ∧ (20000 ∉ bound_ports hub2)
  ∧ is_Some (forward_listeners forward_result.1.1.1 !! 20000).
Proof.
  apply (tcpip_forward_owner cfg 0 20000 authed hub2 redis redis forward_result.1.1.1
           forward_result.1.1.2 true 20000).
  eval_eq.
Defined.

Lemma no_zombie_listeners_witness :
  ∃ n a sid s hs,
    tasks hub3 !! n = Some (AcceptLoop 20000 a)
    ∧ (∀ m b, tasks hub3 !! m = Some (AcceptLoop 20000 b) → m = n)
    ∧ sessions hub3 !! sid = Some s ∧ forward_listeners s !! 20000 = Some hs ∧ n ∈ hs.
Proof.
  apply (no_zombie_listeners cfg hub3 redis 20000).
  - apply hub3_reachable.
  - apply (bool_decide_unpack _). vm_compute. exact I.
Defined.

Lemma reaper_tick_witness :
  tasks (reaper_tick (secs 60) 2 hub3) = delete 0%nat (delete 2%nat (tasks hub3)).
Proof.
  destruct (reaper_tick_correct (secs 60) 2 hub3 0 ViewerIdle 20000 (SlotActivity_new 0))
    as [(_ & _ & _ & E)|[[E|[E|E]] _]].
  - eval_eq.
  - eval_eq.
  - exact E.
  - discriminate E.
  - destruct (E eq_refl).
  - vm_compute in E. discriminate E.
Defined.

Lemma reaped_tunnel_reported_live_witness :
  let h' := reaper_tick (secs 60) 2 hub3 in
  (20000 ∉ bound_ports h') ∧ tasks h' !! 1%nat = Some (Heartbeat sid)
  ∧ ∃ r2, is_tunnel_live (secs 100) sid (heartbeat_tick (secs 60) sid redis) = (r2, Ok true).
Proof.
  apply (reaped_tunnel_reported_live cfg (secs 60) (secs 100) 2 1 hub3 sid 0 20000
           (SlotActivity_new 0) redis).
  - apply hub3_reachable.
  - eval_eq.
  - eval_eq.
  - eval_eq.
  - vm_compute. split; congruence.
  - vm_compute. split; congruence.
Defined.

Lemma certificate_valid_sound_witness :
  let res := validate_certificate_comprehensive Ok
    (λ s, Some {| ci_serial_number := s; ci_subject := "a"; ci_issuer := "b";
                  ci_not_before := 0; ci_not_after := 1; ci_fingerprint := "f" |})
    0 true (Some (λ s, Ok (String.eqb s "01"))) "01" in
  validation_errors res = [] ∧
  ∃ check sn, Some (λ s, Ok (E := string) (String.eqb s "01")) = Some check ∧ check sn = Ok true
    ∧ serial_number res = Some sn
    ∧ extract_certificate_serial (Ok (E := string))
        (λ s, Some {| ci_serial_number := s; ci_subject := "a"; ci_issuer := "b";
                      ci_not_before := 0; ci_not_after := 1; ci_fingerprint := "f" |}) "01" = Some sn.
Proof.
  apply (certificate_valid_sound Ok
    (λ s, Some {| ci_serial_number := s; ci_subject := "a"; ci_issuer := "b";
                  ci_not_before := 0; ci_not_after := 1; ci_fingerprint := "f" |})
    0 true (Some (λ s, Ok (String.eqb s "01"))) "01").
  reflexivity.
Defined.

End HubDemo.
