(* ===== verification/EdgeRouter.v ===== *)
(** * The edge router

    The HTTPS router of cmd/edgehub-bin/src/main.rs: the subdomain of the TLS
    SNI, the bounded reading of the first request head, the session-grant cookie,
    and [handle_router_connection], which either answers with a minimal HTTP
    error or splices the decrypted bytes to the hub's slot listener.

    TLS, TCP and the clock of the timeouts are the environment: a connection
    ([Conn]) carries what they do, and the client's bytes arrive as the successive
    results of [read]. *)

From S2P Require Import Prelude Redis Serde Models Errors Net RedisCache.

(** ** SNI *)

Definition subdomain_from_sni (sni : string) : string := default sni (head (str_split "." sni)).

(** ** Reading the request head *)

Definition MAX_HEADER_BYTES : Z := 16 * 1024.
Definition CHUNK_BYTES : Z := 2048.
Definition HEADER_READ_TIMEOUT : Z := secs 10.

Definition CR : ascii := ascii_of_nat 13.
Definition LF : ascii := ascii_of_nat 10.
Definition CRLF : string := String CR (String LF "").

(** [buf.windows(4).any(|w| w == b"\r\n\r\n")]. *)
Fixpoint has_terminator (buf : string) : bool :=
  starts_with (CRLF +:+ CRLF) buf
  || match buf with String _ buf' => has_terminator buf' | "" => false end.

Inductive io_kind := InvalidData | UnexpectedEof | TimedOut | OtherIo.
Record io_error := { kind : io_kind; io_msg : string }.

(** The result of one [read]: some bytes, zero bytes at the end of the stream,
    or an error; the stream ends after the last result. *)
Definition reads_of := list (result io_error string).

(** The buffer and the unread results are returned with the outcome. *)
Fixpoint read_request_head (stream : reads_of) (buf : string)
    : string * reads_of * result io_error () :=
  if has_terminator buf then (buf, stream, Ok ())
  else if MAX_HEADER_BYTES <? str_len buf then
    (buf, stream, Err {| kind := InvalidData; io_msg := "request headers exceed limit" |})
  else
    let eof := {| kind := UnexpectedEof;
                  io_msg := "connection closed before request headers completed" |} in
    match stream with
    | [] => (buf, [], Err eof)
    | Err e :: stream' => (buf, stream', Err e)
    | Ok chunk :: stream' =>
        if String.eqb chunk "" then (buf, stream', Err eof)
        else read_request_head stream' (buf +:+ chunk)
    end.

(** ** Decoding and the cookie *)

Definition byte_in (lo hi : Z) (a : ascii) : bool := in_range lo hi a.
Definition cont (a : ascii) : bool := byte_in 128 191 a.

(** The second byte a three- or four-byte sequence admits. *)
Definition second3 (a b : ascii) : bool :=
  if code a =? 224 then byte_in 160 191 b
  else if code a =? 237 then byte_in 128 159 b else cont b.
Definition second4 (a b : ascii) : bool :=
  if code a =? 240 then byte_in 144 191 b
  else if code a =? 244 then byte_in 128 143 b else cont b.

(** U+FFFD in UTF-8. *)
Definition replacement (s : string) : string :=
  String (ascii_of_nat 239) (String (ascii_of_nat 191) (String (ascii_of_nat 189) s)).

(** [String::from_utf8_lossy]: each maximal ill-formed prefix becomes one
    replacement character. *)
Fixpoint from_utf8_lossy (s : string) : string :=
  match s with
  | "" => ""
  | String a s1 =>
      if code a <? 128 then String a (from_utf8_lossy s1)
      else if byte_in 194 223 a then
        match s1 with
        | String b s2 =>
            if cont b then String a (String b (from_utf8_lossy s2))
            else replacement (from_utf8_lossy s1)
        | "" => replacement ""
        end
      else if byte_in 224 239 a then
        match s1 with
        | String b s2 =>
            if second3 a b then
              match s2 with
              | String c s3 =>
                  if cont c then String a (String b (String c (from_utf8_lossy s3)))
                  else replacement (from_utf8_lossy s2)
              | "" => replacement ""
              end
            else replacement (from_utf8_lossy s1)
        | "" => replacement ""
        end
      else if byte_in 240 244 a then
        match s1 with
        | String b s2 =>
            if second4 a b then
              match s2 with
              | String c s3 =>
                  if cont c then
                    match s3 with
                    | String d s4 =>
                        if cont d
                        then String a (String b (String c (String d (from_utf8_lossy s4))))
                        else replacement (from_utf8_lossy s3)
                    | "" => replacement ""
                    end
                  else replacement (from_utf8_lossy s2)
              | "" => replacement ""
              end
            else replacement (from_utf8_lossy s1)
        | "" => replacement ""
        end
      else replacement (from_utf8_lossy s1)
  end.

(** A trailing carriage return of a terminated line. *)
Fixpoint strip_cr (s : string) : string :=
  match s with
  | "" => ""
  | String a "" => if Ascii.eqb a CR then "" else s
  | String a s' => String a (strip_cr s')
  end.

(** The terminated lines lose their line ending; an unterminated last line is
    kept as it is unless empty. *)
Fixpoint finish_lines (pieces : list string) : list string :=
  match pieces with
  | [] => []
  | [last] => if String.eqb last "" then [] else [last]
  | p :: ps => strip_cr p :: finish_lines ps
  end.
(** [str::lines]. *)
Definition lines (s : string) : list string := finish_lines (str_split LF s).

(** The value of a [name=value] pair with the given name. *)
Definition cookie_pair (name pair : string) : option string :=
  match str_split_once "=" (str_trim pair) with
  | Some (ck, cv) => if String.eqb (str_trim ck) name then Some (str_trim cv) else None
  | None => None
  end.

(** The first matching pair of a header line that is a [Cookie] header. *)
Definition cookie_line (name line : string) : option string :=
  match str_split_once ":" line with
  | Some (key, value) =>
      if eq_ignore_ascii_case (str_trim key) "cookie"
      then head (omap (cookie_pair name) (str_split ";" value)) else None
  | None => None
  end.

Definition cookie_from_request_head (hd name : string) : option string :=
  head (omap (cookie_line name) (lines hd)).

(** ** Connections *)

Definition http_response (status_line body : string) : string :=
  "HTTP/1.1 " +:+ status_line +:+ CRLF +:+ "Content-Type: text/plain" +:+ CRLF
  +:+ "Content-Length: " +:+ pretty (str_len body) +:+ CRLF
  +:+ "Connection: close" +:+ CRLF +:+ CRLF +:+ body.

Inductive Dial := Connected | Refused | DialTimeout.

(** What the environment does with a connection. *)
Record Conn := {
  hello_ok : bool;                 (** the ClientHello was read *)
  sni : option string;
  handshake_ok : bool;
  client : reads_of;               (** the client's bytes after the handshake *)
  head_timeout : bool;             (** the head did not arrive within ten seconds *)
  dial : Z → Dial;                 (** connecting to a loopback port *)
  replay_ok : bool;                (** writing the replayed head succeeded *)
}.

(** What the router does: close silently, answer an error and close, or connect
    the client to a slot: the bytes replayed, then the unread rest. *)
Inductive Outcome :=
  | Dropped
  | Answered (response : string)
  | Spliced (slot : Z) (replayed : string) (rest : reads_of).

Definition answer (status : string) : Outcome := Answered (http_response status (status +:+ String LF "")).

Section router.
Context `{Hredis : RedisServer R} `{Hcodec : Codec}.

(** The second hop. *)
Definition connect_slot (c : Conn) (slot : Z) (replay_buf : string) (rest : reads_of) : Outcome :=
  match dial c slot with
  | Refused => answer "502 Bad Gateway"
  | DialTimeout => answer "504 Gateway Timeout"
  | Connected =>
      if negb (String.eqb replay_buf "") && negb (replay_ok c) then answer "502 Bad Gateway"
      else Spliced slot replay_buf rest
  end.

(** The grant check of a protected tunnel on the request head. *)
Definition authorize (now : Z) (subdomain replay_buf : string) : io R FE.t bool :=
  match cookie_from_request_head (from_utf8_lossy replay_buf) SESSION_COOKIE_NAME with
  | Some token => check_session_grant now subdomain token
  | None => mret false
  end.

Definition handle_router_connection (now : Z) (c : Conn) (r : R) : R * Outcome :=
  if negb (hello_ok c) then (r, Dropped)
  else if negb (handshake_ok c) then (r, Dropped)
  else
    match sni c with
    | None => (r, Answered (http_response "400 Bad Request"
                              ("400 Bad Request: missing SNI" +:+ String LF "")))
    | Some sni =>
        let subdomain := subdomain_from_sni sni in
        match get_tunnel_by_subdomain now subdomain r with
        | (r, Ok None) => (r, answer "404 Not Found")
        | (r, Err _) => (r, answer "500 Internal Server Error")
        | (r, Ok (Some tunnel)) =>
            if i_protected tunnel then
              let '(replay_buf, rest, res) := read_request_head (client c) "" in
              let res := if head_timeout c
                         then Err {| kind := TimedOut; io_msg := "timed out reading request headers" |}
                         else res in
              match res with
              | Err _ => (r, answer "400 Bad Request")
              | Ok _ =>
                  match authorize now subdomain replay_buf r with
                  | (r, Err _) => (r, answer "500 Internal Server Error")
                  | (r, Ok false) => (r, answer "403 Forbidden")
                  | (r, Ok true) => (r, connect_slot c (i_slot tunnel) replay_buf rest)
                  end
              end
            else (r, connect_slot c (i_slot tunnel) "" (client c))
        end
    end.
End router.

(** ** Reading is bounded and loses nothing *)

(** The bytes of a stream. *)
Fixpoint received (stream : reads_of) : string :=
  match stream with
  | [] => ""
  | Ok chunk :: stream' => chunk +:+ received stream'
  | Err _ :: stream' => received stream'
  end.

Lemma read_request_head_spec stream buf buf' rest res :
  read_request_head stream buf = (buf', rest, res) →
  buf' +:+ received rest = buf +:+ received stream
  ∧ (res = Ok () → has_terminator buf' = true)
  ∧ (∀ n, str_len buf ≤ MAX_HEADER_BYTES + n → 0 ≤ n →
       (∀ chunk, Ok chunk ∈ stream → str_len chunk ≤ n) →
       str_len buf' ≤ MAX_HEADER_BYTES + n).
Proof.
  revert buf. induction stream as [|x stream IH]; intros buf Hr; cbn [read_request_head] in Hr.
  { destruct (has_terminator buf) eqn:Ht; [by simplify_eq|]. case_match; by simplify_eq. }
  destruct (has_terminator buf) eqn:Ht; [by simplify_eq|].
  destruct (Z.ltb_spec MAX_HEADER_BYTES (str_len buf)) as [Hlt|Hle]; [by simplify_eq|].
  destruct x as [chunk|e]; [|by simplify_eq].
  destruct (String.eqb_spec chunk "") as [->|Hne]; [by simplify_eq|].
  apply IH in Hr as (E & Hok & Hn). split_and!; [|done|].
  - rewrite E. cbn [received]. apply str_app_assoc.
  - intros n Hbuf Hpos Hchunks. apply Hn; [|done|].
    + rewrite str_len_app.
      specialize (Hchunks chunk ltac:(left)). lia.
    + intros chunk' Hin. apply Hchunks. by right.
Qed.

(** Reading the head of a protected request never buffers more than the
    header limit plus one read; the bytes read and the bytes left are exactly the
    client's bytes, in order; and success means the header terminator was seen. *)
Lemma read_request_head_correct stream buf rest res
    (Hr : read_request_head stream "" = (buf, rest, res))
    (Hchunks : ∀ chunk, Ok chunk ∈ stream → str_len chunk ≤ CHUNK_BYTES) :
  str_len buf ≤ MAX_HEADER_BYTES + CHUNK_BYTES
  ∧ buf +:+ received rest = received stream
  ∧ (res = Ok () → has_terminator buf = true).
Proof.
  apply read_request_head_spec in Hr as (E & Hok & Hn). split_and!; [|done|done].
  apply Hn; [by vm_compute|by vm_compute|done].
Qed.

(** ** The gate *)

Lemma check_session_grant_ok `{RedisSpec R} `{Codec} now sub token (r r' : R) b :
  check_session_grant now sub token r = (r', Ok b) →
  b = bool_decide (is_Some (live now r !! session_grant_key sub token))
  ∧ live now r' = live now r.
Proof.
  unfold check_session_grant, pool_get, query. intros Hr. inv_io Hr.
  apply connect_spec with (now := now) in Hio. apply exists_ok in Hr as Hb.
  apply exists_reads in Hr as Hl. rewrite Hio in *. done.
Qed.

(** C3: what reaches a slot.  Bytes are spliced to a slot only when the SNI's
    left-most label is the subdomain of a registered tunnel with that slot; the
    slot receives the client's bytes completely and in order; and for a protected
    tunnel, a complete request head carried the session cookie with a token whose
    grant for this very subdomain was live. *)
Theorem router_gate `{RedisSpec R} `{Codec} now c (r r' : R) slot replayed rest
    (Hr : handle_router_connection now c r = (r', Spliced slot replayed rest)) :
  ∃ sni t, EdgeRouter.sni c = Some sni
    ∧ registered (live now r) t ∧ i_subdomain t = subdomain_from_sni sni ∧ i_slot t = slot
    ∧ replayed +:+ received rest = received (client c)
    ∧ (i_protected t = true →
       has_terminator replayed = true
       ∧ ∃ token, cookie_from_request_head (from_utf8_lossy replayed) SESSION_COOKIE_NAME = Some token
         ∧ is_Some (live now r !! session_grant_key (subdomain_from_sni sni) token)).
Proof.
  unfold handle_router_connection in Hr.
  destruct (negb (hello_ok c)); [done|]. destruct (negb (handshake_ok c)); [done|].
  destruct (EdgeRouter.sni c) as [sni|]; [|done].
  destruct (get_tunnel_by_subdomain now (subdomain_from_sni sni) r) as [r1 [[t|]|e]] eqn:Hg; [|done..].
  apply scan_correct in Hg as [Hl [Hreg Hsub%String.eqb_eq]].
  assert (∀ buf rst, connect_slot c (i_slot t) buf rst = Spliced slot replayed rest →
            i_slot t = slot ∧ buf = replayed ∧ rst = rest) as Hconn.
  { intros buf rst. unfold connect_slot, answer. repeat case_match; intros; by simplify_eq. }
  exists sni, t. split; [done|]. split; [done|]. split; [done|].
  destruct (i_protected t) eqn:Hp.
  - destruct (read_request_head (client c) "") as [[buf rst] res] eqn:Hread.
    destruct (head_timeout c); [done|]. destruct res as [[]|e]; [|done].
    apply read_request_head_spec in Hread as (E & Hok & _).
    unfold authorize in Hr.
    destruct (cookie_from_request_head _ _) as [token|] eqn:Hck; [|done].
    destruct (check_session_grant now _ token r1) as [r2 [[]|e]] eqn:Hgr; [|done..].
    apply check_session_grant_ok in Hgr as [Hb _]. simplify_eq.
    apply Hconn in H3 as (<- & -> & ->). split_and!; [done|done|].
    intros _. split; [by apply Hok|]. exists token. split; [done|].
    symmetry in Hb. apply bool_decide_eq_true in Hb. congruence.
  - simplify_eq. apply Hconn in H3 as (<- & <- & <-). split_and!; [done|done|]. done.
Qed.

(** A protected tunnel without a live grant is refused: whenever a complete
    head arrives in time and carries no cookie, or a token without a live grant,
    the client gets 403 and no slot is dialled. *)
Lemma router_refuses_without_grant `{RedisSpec R, !RedisAvailable R} `{Codec}
    now c (r r1 : R) sni t buf rest
    (Henv : hello_ok c = true ∧ handshake_ok c = true ∧ EdgeRouter.sni c = Some sni
            ∧ head_timeout c = false)
    (Hget : get_tunnel_by_subdomain now (subdomain_from_sni sni) r = (r1, Ok (Some t)))
    (Hprot : i_protected t = true)
    (Hread : read_request_head (client c) "" = (buf, rest, Ok ()))
    (Hno : ∀ token, cookie_from_request_head (from_utf8_lossy buf) SESSION_COOKIE_NAME = Some token →
       live now r !! session_grant_key (subdomain_from_sni sni) token = None) :
  (handle_router_connection now c r).2 = answer "403 Forbidden".
Proof.
  destruct Henv as (Hh & Hs & Hsni & Ht). unfold handle_router_connection.
  rewrite Hh, Hs, Hsni, Hget, Hprot, Hread, Ht. cbn [negb].
  apply scan_correct in Hget as [Hl _]. unfold authorize.
  destruct (cookie_from_request_head _ _) as [token|]; [|done].
  enough (runs now (check_session_grant now (subdomain_from_sni sni) token) (live now r) false
            (live now r)) as Hruns.
  { destruct (Hruns r1 Hl) as (r2 & E2 & _). unfold check_session_grant in *. by rewrite E2. }
  specialize (Hno token eq_refl).
  unfold check_session_grant, pool_get, query.
  eapply runs_bind; [apply runs_map_err, runs_connect|]. apply runs_map_err.
  intros r2 Hr2. destruct (runs_exists now (session_grant_key (subdomain_from_sni sni) token)
    (live now r) r2 Hr2) as (r3 & E3 & L3). rewrite Hno in E3. by exists r3.
Qed.

(** ** Cookies and SNI *)

Lemma from_utf8_lossy_ascii s : str_all (λ a, code a <? 128) s = true → from_utf8_lossy s = s.
Proof.
  induction s as [|a s IH]; [done|]. cbn. rewrite andb_true_iff. intros [Ha Hs].
  by rewrite Ha, IH.
Qed.

Lemma strip_cr_app l : strip_cr (l +:+ String CR "") = l.
Proof.
  induction l as [|a l IH]; [done|].
  change (String a l +:+ String CR "") with (String a (l +:+ String CR "")).
  cbn [strip_cr]. rewrite IH. by destruct l.
Qed.

Lemma lines_app l s : str_has LF l = false → lines (l +:+ CRLF +:+ s) = l :: lines s.
Proof.
  intros Hl. unfold lines.
  assert (l +:+ CRLF +:+ s = (l +:+ String CR "") +:+ String LF s) as -> by by rewrite str_app_assoc.
  rewrite str_split_app by (rewrite str_has_app, Hl; done).
  pose proof (str_split_nonnil LF s). destruct (str_split LF s) as [|p ps]; [done|].
  cbn [finish_lines]. by rewrite strip_cr_app.
Qed.

(** The bytes of a cookie name or value. *)
Definition cookie_char (a : ascii) : bool :=
  graphic a && negb (Ascii.eqb a ";") && negb (Ascii.eqb a "=") && negb (Ascii.eqb a ":").

Lemma cookie_char_all s c :
  str_all cookie_char s = true → cookie_char c = false → str_has c s = false.
Proof. intros. by eapply str_has_all. Qed.

Lemma cookie_graphic s : str_all cookie_char s = true → str_all graphic s = true.
Proof. apply str_all_impl. intros a. unfold cookie_char. rewrite !andb_true_iff. tauto. Qed.

Lemma cookie_pair_found name token :
  str_all cookie_char name = true → str_all cookie_char token = true →
  cookie_pair name (String " " (name +:+ String "=" token)) = Some token.
Proof.
  intros Hn Ht. unfold cookie_pair.
  assert (str_trim (String " " (name +:+ String "=" token)) = name +:+ String "=" token) as ->.
  { change (str_trim (String " " (name +:+ String "=" token)))
      with (str_trim (name +:+ String "=" token)).
    apply str_trim_graphic. rewrite str_all_app, cookie_graphic by done.
    change (str_all graphic (String "=" token)) with (str_all graphic token).
    by apply cookie_graphic. }
  rewrite str_split_once_app by by apply cookie_char_all.
  rewrite !str_trim_graphic by by apply cookie_graphic. by rewrite String.eqb_refl.
Qed.

Lemma cookie_line_found name token :
  str_all cookie_char name = true → str_all cookie_char token = true →
  cookie_line name ("Cookie: " +:+ name +:+ "=" +:+ token) = Some token.
Proof.
  intros Hn Ht. unfold cookie_line.
  change ("Cookie: " +:+ name +:+ "=" +:+ token)
    with ("Cookie" +:+ String ":" (String " " (name +:+ String "=" token))).
  rewrite str_split_once_app by done.
  change (eq_ignore_ascii_case (str_trim "Cookie") "cookie") with true. cbn beta iota.
  rewrite str_split_none.
  - cbn. by rewrite cookie_pair_found.
  - rewrite str_has_cons, str_has_app, str_has_cons, !cookie_char_all by done. done.
Qed.

(** The edge finds the cookie the API set.  In a request whose earlier lines
    hold no such cookie, the header [Cookie: name=token] yields exactly the
    token, whatever follows. *)
Lemma cookie_roundtrip before name token rest
    (Hbefore : Forall (λ l, str_has LF l = false ∧ cookie_line name l = None) before)
    (Hn : str_all cookie_char name = true) (Ht : str_all cookie_char token = true) :
  cookie_from_request_head
    (foldr (λ l s, l +:+ CRLF +:+ s) (("Cookie: " +:+ name +:+ "=" +:+ token) +:+ CRLF +:+ rest) before)
    name = Some token.
Proof.
  unfold cookie_from_request_head. induction Hbefore as [|l before [Hlf Hl] _ IH].
  - cbn [foldr]. rewrite lines_app.
    + cbn [omap list_omap]. by rewrite cookie_line_found.
    + assert (∀ s, str_all cookie_char s = true → str_has LF s = false) as Hno
        by (intros; by apply cookie_char_all).
      rewrite !str_has_app, (Hno name Hn), (Hno token Ht). done.
  - cbn [foldr]. rewrite lines_app by done. cbn [omap list_omap]. rewrite Hl. exact IH.
Qed.

Lemma subdomain_from_sni_label sub base :
  str_has "." sub = false → subdomain_from_sni (sub +:+ "." +:+ base) = sub.
Proof.
  intros Hs. unfold subdomain_from_sni.
  change ("." +:+ base) with (String "." base). by rewrite str_split_app.
Qed.

(** ** Examples on the concrete server *)
Module RouterDemo.
Import MemRedis BitCodec CacheDemo.

Definition request : string :=
  "GET / HTTP/1.1" +:+ CRLF +:+ "Cookie: fdns_session=tok" +:+ CRLF +:+ CRLF.
Definition conn (token_sent : bool) : Conn :=
  {| hello_ok := true; sni := Some "app.fdns.run"; handshake_ok := true;
     client := [Ok (if token_sent then request else "GET / HTTP/1.1" +:+ CRLF +:+ CRLF); Ok "body"];
     head_timeout := false; dial := λ _, Connected; replay_ok := true |}.
Definition granted : mem :=
  <[session_grant_key "app" "tok" := REntry (RString "{}") None]> store.

Lemma read_request_head_witness :
  str_len request ≤ MAX_HEADER_BYTES + CHUNK_BYTES
  ∧ request +:+ received [Ok "body"] = received (client (conn true))
  ∧ (Ok (E := io_error) () = Ok () → has_terminator request = true).
Proof.
  apply (read_request_head_correct (client (conn true)) request [Ok "body"] (Ok ())).
  - eval_eq.
  - intros chunk [[= ->]|[[= ->]|[]%not_elem_of_nil]%elem_of_cons]%elem_of_cons; by vm_compute.
Defined.

Lemma router_gate_witness :
  ∃ sni t, EdgeRouter.sni (conn true) = Some sni
    ∧ registered (live 0 granted) t ∧ i_subdomain t = subdomain_from_sni sni ∧ i_slot t = 20000
    ∧ request +:+ received [Ok "body"] = received (client (conn true))
    ∧ (i_protected t = true →
       has_terminator request = true
       ∧ ∃ token, cookie_from_request_head (from_utf8_lossy request) SESSION_COOKIE_NAME = Some token
         ∧ is_Some (live 0 granted !! session_grant_key (subdomain_from_sni sni) token)).
Proof.
  apply (router_gate 0 (conn true) granted granted 20000 request [Ok "body"]). eval_eq.
Defined.

Lemma router_refuses_witness :
  (handle_router_connection 0 (conn false) store).2 = answer "403 Forbidden".
Proof.
  apply (router_refuses_without_grant 0 (conn false) store store "app.fdns.run" (info_of tunnel)
           ("GET / HTTP/1.1" +:+ CRLF +:+ CRLF) [Ok "body"]).
  - done.
  - eval_eq.
  - reflexivity.
  - eval_eq.
  - intros token Hc. vm_compute in Hc. discriminate Hc.
Defined.

Lemma cookie_roundtrip_witness :
  cookie_from_request_head request "fdns_session" = Some "tok".
Proof.
  apply (cookie_roundtrip ["GET / HTTP/1.1"] "fdns_session" "tok" CRLF).
  - repeat constructor.
  - reflexivity.
  - reflexivity.
Defined.
End RouterDemo.
