(* ===== verification/Metrics.v ===== *)
(** * DNS performance metrics

    The singleton [MetricsManager] of crates/dnsd/src/metrics_manager.rs.  The
    counters are 64-bit and wrap as in a release build; averages and percentiles
    are binary64.  The slow-response log line is not modelled. *)

From S2P Require Import Prelude Float.
From stdpp Require Import sorting.
Open Scope Z_scope.

Record MetricsManager := {
  total_queries : Z;
  cache_hits : Z;
  cache_misses : Z;
  avg_response_time_ms : f64;
  p95_response_time_ms : f64;
  p99_response_time_ms : f64;
  total_errors : Z;
  response_times : list Z;
  max_response_time_ms : Z;
  max_response_times : Z;
}.

Definition MetricsManager_new (threshold : Z) : MetricsManager :=
  {| total_queries := 0; cache_hits := 0; cache_misses := 0;
     avg_response_time_ms := f64_of_Z 0; p95_response_time_ms := f64_of_Z 0;
     p99_response_time_ms := f64_of_Z 0; total_errors := 0; response_times := [];
     max_response_time_ms := threshold; max_response_times := 1000 |}.

(** [(len as f64 * 0.95) as usize]; the literals are the doubles nearest to
    95/100 and 99/100, which the correctly rounded quotients are. *)
Definition percentile_index (hundredths len : Z) : Z :=
  f64_to_u64 (f64_mul (f64_of_Z len) (f64_div (f64_of_Z hundredths) (f64_of_Z 100))).

(** Indexing is out of bounds for no input (below); the model's default is never
    used. *)
Definition percentile (hundredths : Z) (sorted : list Z) : f64 :=
  f64_of_Z (as_millis (default 0
    (sorted !! Z.to_nat (percentile_index hundredths (Z.of_nat (length sorted)))))).

(** [push_back], then [pop_front] when over the limit. *)
Definition push_sample (m : MetricsManager) (t : Z) : list Z :=
  let l := response_times m ++ [t] in
  if max_response_times m <? Z.of_nat (length l) then drop 1 l else l.

Definition update_metrics (m : MetricsManager) (cache_hit : bool) (response_time : Z)
    : MetricsManager :=
  let total := as_u64 (total_queries m + 1) in
  let times := push_sample m response_time in
  let enough := 20 <=? Z.of_nat (length times) in
  let sorted := merge_sort Z.le times in
  {| total_queries := total;
     cache_hits := if cache_hit then as_u64 (cache_hits m + 1) else cache_hits m;
     cache_misses := if cache_hit then cache_misses m else as_u64 (cache_misses m + 1);
     avg_response_time_ms :=
       f64_div (f64_add (f64_mul (avg_response_time_ms m) (f64_of_Z (as_u64 (total - 1))))
                  (f64_of_Z (as_millis response_time)))
         (f64_of_Z total);
     p95_response_time_ms := if enough then percentile 95 sorted else p95_response_time_ms m;
     p99_response_time_ms := if enough then percentile 99 sorted else p99_response_time_ms m;
     total_errors := total_errors m;
     response_times := times;
     max_response_time_ms := max_response_time_ms m;
     max_response_times := max_response_times m |}.

Record PerformanceMetrics := {
  pm_total_queries : Z; pm_cache_hits : Z; pm_cache_misses : Z;
  pm_avg_response_time_ms : f64; pm_p95_response_time_ms : f64;
  pm_p99_response_time_ms : f64; pm_total_errors : Z;
}.

Definition get_metrics (m : MetricsManager) : PerformanceMetrics :=
  {| pm_total_queries := total_queries m; pm_cache_hits := cache_hits m;
     pm_cache_misses := cache_misses m; pm_avg_response_time_ms := avg_response_time_ms m;
     pm_p95_response_time_ms := p95_response_time_ms m;
     pm_p99_response_time_ms := p99_response_time_ms m; pm_total_errors := total_errors m |}.

Definition reset (m : MetricsManager) : MetricsManager :=
  {| total_queries := 0; cache_hits := 0; cache_misses := 0;
     avg_response_time_ms := f64_of_Z 0; p95_response_time_ms := f64_of_Z 0;
     p99_response_time_ms := f64_of_Z 0; total_errors := 0; response_times := [];
     max_response_time_ms := max_response_time_ms m;
     max_response_times := max_response_times m |}.

(** ** Lemmas *)

(** Both indices are within every window the code sorts. *)
Lemma percentile_index_bounds len :
  20 ≤ len ≤ 1000 →
  0 ≤ percentile_index 95 len ≤ percentile_index 99 len
  ∧ percentile_index 99 len < len.
Proof.
  intros Hlen.
  assert (forallb (λ n, (percentile_index 95 n <=? percentile_index 99 n)
                        && (percentile_index 99 n <? n)) (seqZ 20 981) = true) as Hall by by vm_compute.
  rewrite forallb_forall in Hall. specialize (Hall len).
  assert (In len (seqZ 20 981)) as Hin by (apply list_elem_of_In, elem_of_seqZ; lia).
  specialize (Hall Hin). pose proof (f64_to_uint_range 64 (f64_mul (f64_of_Z len)
    (f64_div (f64_of_Z 95) (f64_of_Z 100))) ltac:(lia)).
  unfold percentile_index, f64_to_u64 in *. lia.
Qed.

Definition metrics_wf (m : MetricsManager) : Prop :=
  max_response_times m = 1000
  ∧ u64_ok (total_queries m)
  ∧ as_u64 (cache_hits m + cache_misses m) = total_queries m
  ∧ Z.of_nat (length (response_times m)) ≤ 1000.

Lemma new_wf threshold : metrics_wf (MetricsManager_new threshold).
Proof. by split_and!. Qed.

Lemma push_sample_length m t :
  metrics_wf m →
  Z.of_nat (length (push_sample m t)) = Z.min 1000 (Z.of_nat (length (response_times m)) + 1).
Proof.
  intros (Hmax & _ & _ & Hlen). unfold push_sample. rewrite Hmax, length_app. cbn [length].
  destruct (Z.ltb_spec 1000 (Z.of_nat (length (response_times m) + 1))).
  - rewrite length_drop, length_app. cbn [length]. lia.
  - rewrite length_app. cbn [length]. lia.
Qed.

Lemma update_metrics_wf m hit t : metrics_wf m → metrics_wf (update_metrics m hit t).
Proof.
  intros Hwf. pose proof (push_sample_length m t Hwf) as Hl.
  destruct Hwf as (Hmax & Hu & Hsum & Hlen). split_and!; cbn; [done| | |lia].
  - apply wrap_range. lia.
  - rewrite <- Hsum. destruct hit; rewrite ?as_u64_add_l, ?as_u64_add_r;
      f_equal; lia.
Qed.

(** A run of queries, each a hit or miss with its response time. *)
Definition run_metrics (threshold : Z) (qs : list (bool * Z)) : MetricsManager :=
  foldl (λ m q, update_metrics m q.1 q.2) (MetricsManager_new threshold) qs.

Lemma run_metrics_snoc threshold qs q :
  run_metrics threshold (qs ++ [q]) = update_metrics (run_metrics threshold qs) q.1 q.2.
Proof. unfold run_metrics. by rewrite foldl_app. Qed.

Lemma run_metrics_wf threshold qs : metrics_wf (run_metrics threshold qs).
Proof.
  induction qs as [|q qs IH] using rev_ind; [apply new_wf|].
  rewrite run_metrics_snoc. by apply update_metrics_wf.
Qed.

(** The window is the last thousand response times. *)
Lemma run_metrics_window threshold qs :
  response_times (run_metrics threshold qs) = drop (length qs - 1000) (qs.*2).
Proof.
  induction qs as [|q qs IH] using rev_ind; [done|].
  rewrite run_metrics_snoc. cbn [update_metrics response_times]. unfold push_sample.
  destruct (run_metrics_wf threshold qs) as (Hmax & _ & _ & _). rewrite Hmax, IH.
  rewrite !length_app, length_drop, length_fmap, fmap_app. cbn [length fmap list_fmap].
  destruct (Z.ltb_spec 1000 (Z.of_nat (length qs - (length qs - 1000) + 1))) as [Hlt|Hge].
  - assert (length qs - 1000 < length qs)%nat by lia.
    rewrite <- (drop_app_le _ [q.2]) by (rewrite length_fmap; lia).
    rewrite drop_drop. f_equal. lia.
  - assert (length qs - 1000 = 0)%nat as -> by lia.
    assert (length qs + 1 - 1000 = 0)%nat as -> by lia. by rewrite !drop_0.
Qed.

(** The lower percentile of a sorted window is at most the higher one. *)
Lemma sorted_lookup_le (l : list Z) i j x y :
  Sorted Z.le l → (i ≤ j)%nat → l !! i = Some x → l !! j = Some y → x ≤ y.
Proof.
  intros Hs%Sorted_StronglySorted; [|intros ???; lia]. revert i j.
  induction Hs as [|z l Hs IH Hz]; intros i j Hij Hi Hj; [done|].
  destruct i as [|i], j as [|j]; cbn in *; simplify_eq; [lia| |lia|by eapply (IH i j); [lia|..]].
  rewrite Forall_forall in Hz. apply Hz. by eapply list_elem_of_lookup_2.
Qed.

Lemma run_metrics_percentiles threshold qs :
  (20 ≤ length qs)%nat →
  let m := run_metrics threshold qs in
  p95_response_time_ms m = percentile 95 (merge_sort Z.le (response_times m))
  ∧ p99_response_time_ms m = percentile 99 (merge_sort Z.le (response_times m)).
Proof.
  intros Hlen m. destruct qs as [|q qs _] using rev_ind; [cbn in Hlen; lia|].
  unfold m in *. clear m. rewrite length_app in Hlen. cbn in Hlen.
  pose proof (run_metrics_window threshold (qs ++ [q])) as Hw.
  rewrite run_metrics_snoc in *. cbn [update_metrics p95_response_time_ms p99_response_time_ms
    response_times] in *.
  assert (20 ≤ Z.of_nat (length (push_sample (run_metrics threshold qs) q.2))) as Hl.
  { rewrite Hw, length_drop, length_fmap, length_app. cbn. lia. }
  destruct (Z.leb_spec 20 (Z.of_nat (length (push_sample (run_metrics threshold qs) q.2)))); [done|lia].
Qed.

(** The metrics after any run of queries.  Hits and misses add up to the
    queries (modulo 2^64), the window holds exactly the last thousand response
    times, and from twenty samples on both percentile indices are in bounds and
    the 95th percentile is at most the 99th. *)
Lemma metrics_correct threshold qs :
  let m := run_metrics threshold qs in
  as_u64 (cache_hits m + cache_misses m) = total_queries m
  ∧ response_times m = drop (length qs - 1000) (qs.*2)
  ∧ ((20 ≤ length qs)%nat →
     let sorted := merge_sort Z.le (response_times m) in
     ∃ a b,
       sorted !! Z.to_nat (percentile_index 95 (Z.of_nat (length sorted))) = Some a
       ∧ sorted !! Z.to_nat (percentile_index 99 (Z.of_nat (length sorted))) = Some b
       ∧ a ≤ b
       ∧ p95_response_time_ms m = f64_of_Z (as_millis a)
       ∧ p99_response_time_ms m = f64_of_Z (as_millis b)).
Proof.
  intros m. split_and!; [apply run_metrics_wf|apply run_metrics_window|].
  intros Hlen sorted.
  assert (length sorted = length (response_times m)) as Hls
    by (unfold sorted; by rewrite (merge_sort_Permutation Z.le (response_times m))).
  assert (20 ≤ Z.of_nat (length sorted) ≤ 1000) as Hb.
  { rewrite Hls. unfold m. rewrite run_metrics_window, length_drop, length_fmap. lia. }
  destruct (percentile_index_bounds _ Hb) as [[? ?] ?].
  destruct (lookup_lt_is_Some_2 sorted
    (Z.to_nat (percentile_index 95 (Z.of_nat (length sorted))))) as [a Ha]; [lia|].
  destruct (lookup_lt_is_Some_2 sorted
    (Z.to_nat (percentile_index 99 (Z.of_nat (length sorted))))) as [b Hbb]; [lia|].
  assert (p95_response_time_ms m = percentile 95 sorted ∧ p99_response_time_ms m = percentile 99 sorted)
    as [Hp95 Hp99] by (by apply run_metrics_percentiles).
  exists a, b. split_and!; [done|done| | |].
  - eapply (sorted_lookup_le sorted); [|..|exact Ha|exact Hbb]; [|lia].
    apply (Sorted_merge_sort Z.le).
  - rewrite Hp95. unfold percentile. by rewrite Ha.
  - rewrite Hp99. unfold percentile. by rewrite Hbb.
Qed.
