(* ===== verification/DnsHandler.v ===== *)
(** * The DNS server

    [DnsHandler] of crates/dnsd/src/dns_handler.rs and the DNS-over-TLS framing
    of crates/dnsd/src/lib.rs.  The hickory library's message codec, the TTL cache
    crate and the standard library's unspecified 64-bit hasher are parameters
    ([Hickory], [TtlCache], [Hasher]).  Telemetry records are not modelled; the
    performance metrics are. *)

From S2P Require Import Prelude Redis Serde Errors Net RedisCache Storage Float Metrics.

(** ** Messages *)

Inductive MessageType := Query | Response.
Inductive ResponseCode := NoError | FormErr | ServFail | NXDomain | OtherCode (c : Z).
(** Record types: the two the handler answers, and the code of any other. *)
Inductive RecordType := TypeA | TypeAAAA | OtherType (t : Z).

Section messages.
Context (Name : Type).

Record DnsQuery := { q_name : Name; q_type : RecordType }.
Inductive RData := RDataA (i : Ipv4Addr) | RDataAAAA (bits : N).
Record DnsRecord := { rec_name : Name; rec_ttl : Z; rec_data : RData }.
(** The fields of a message that the handler reads or sets. *)
Record Message := {
  msg_id : Z; msg_type : MessageType; op_code : Z; response_code : ResponseCode;
  queries : list DnsQuery; answers : list DnsRecord;
}.
End messages.
Arguments q_name {Name}. Arguments q_type {Name}.
Arguments rec_name {Name}. Arguments rec_ttl {Name}. Arguments rec_data {Name}.
Arguments msg_id {Name}. Arguments msg_type {Name}. Arguments op_code {Name}.
Arguments response_code {Name}. Arguments queries {Name}. Arguments answers {Name}.

(** The hickory codec: [Message::from_vec], [Message::to_vec], [Name::to_string]. *)
Class Hickory := {
  Name : Type;
  name_to_string : Name → string;
  from_vec : string → option (Message Name);
  to_vec : Message Name → option string;
  to_from_vec : ∀ m v, to_vec m = Some v → from_vec v = Some m;
}.

(** [ttl_cache_with_purging]: an entry is returned until it expires. *)
Class TtlCache (C : Type) := {
  cache_empty : C;
  cache_get : Z → string → C → option string;
  cache_insert : string → string → Z → C → C;
  cache_purge : Z → C → C;
  cache_get_empty : ∀ now k, cache_get now k cache_empty = None;
  cache_get_insert : ∀ now k v t c,
    cache_get now k (cache_insert k v t c) = if now <? t then Some v else None;
  cache_get_insert_ne : ∀ now k k' v t c, k ≠ k' →
    cache_get now k (cache_insert k' v t c) = cache_get now k c;
  cache_get_purge : ∀ now now' k c, now ≤ now' →
    cache_get now' k (cache_purge now c) = cache_get now' k c;
}.

(** [DefaultHasher] over the packet bytes. *)
Class Hasher := { hash64 : string → Z; hash64_range : ∀ p, u64_ok (hash64 p) }.

Record PerformanceConfig := {
  enable_compression : bool; cache_ttl : Z; enable_metrics : bool;
  cfg_max_response_time_ms : Z; max_cache_size : Z; enable_cache_warming : bool;
  cache_hit_ratio_target : Z;
}.
Definition default_performance : PerformanceConfig :=
  {| enable_compression := false; cache_ttl := 300; enable_metrics := true;
     cfg_max_response_time_ms := 50; max_cache_size := 5000; enable_cache_warming := true;
     cache_hit_ratio_target := 80 |}.

Definition ANSWER_TTL : Z := 300.

Section handler.
Context `{Hredis : RedisServer R} `{Hh : Hickory} `{Hc : TtlCache C} `{Hhash : Hasher}.
Context (cfg : PerformanceConfig).
Implicit Types (now : Z) (r : R).

(** [Message::response] and [Message::error_msg]. *)
Definition response_msg (id op : Z) : Message Name :=
  {| msg_id := id; msg_type := Response; op_code := op; response_code := NoError;
     queries := []; answers := [] |}.
Definition error_msg (id op : Z) (c : ResponseCode) : Message Name :=
  {| msg_id := id; msg_type := Response; op_code := op; response_code := c;
     queries := []; answers := [] |}.
Definition add_query (m : Message Name) (q : DnsQuery Name) : Message Name :=
  {| msg_id := msg_id m; msg_type := msg_type m; op_code := op_code m;
     response_code := response_code m; queries := queries m ++ [q]; answers := answers m |}.
Definition add_answer (m : Message Name) (a : DnsRecord Name) : Message Name :=
  {| msg_id := msg_id m; msg_type := msg_type m; op_code := op_code m;
     response_code := response_code m; queries := queries m; answers := answers m ++ [a] |}.
Definition set_code (m : Message Name) (c : ResponseCode) : Message Name :=
  {| msg_id := msg_id m; msg_type := msg_type m; op_code := op_code m;
     response_code := c; queries := queries m; answers := answers m |}.

(** [response.to_vec().unwrap_or_else(|_| vec![])]. *)
Definition to_vec_or_empty (m : Message Name) : string := default "" (to_vec m).

Definition OPCODE_QUERY : Z := 0.

Definition build_error_response (packet : string) (c : ResponseCode) : string :=
  match from_vec packet with
  | None => to_vec_or_empty (error_msg 0 OPCODE_QUERY FormErr)
  | Some message =>
      let response := error_msg (msg_id message) (op_code message) c in
      to_vec_or_empty
        match queries message with
        | q :: _ => add_query response q
        | [] => response
        end
  end.

(** Errors of the [GET] become [None]; only a failed connection is an error. *)
Definition lookup_slot_in_redis now (qname : string) : io R string (option string) :=
  if String.eqb qname "" then mret None
  else
    _ ← io_map_err (λ e, "Redis connection failed: " +:+ e) r_connect;
    io_try (r_get now (dns_slot_key (trim_end_matches "." qname))) (λ res,
      match res with Ok slot => mret slot | Err _ => mret None end).

Definition build_dns_response (message : Message Name) (q : DnsQuery Name) (qname : Name)
    (slot : option string) : result string string :=
  let response := add_query (response_msg (msg_id message) (op_code message)) q in
  let finish m := ok_or (to_vec m) "Failed to serialize response" in
  match slot with
  | Some slot_ip =>
      match q_type q with
      | TypeA =>
          match parse_ipv4 slot_ip with
          | Some ip => finish (add_answer response
              {| rec_name := qname; rec_ttl := ANSWER_TTL; rec_data := RDataA ip |})
          | None => Err ("Invalid IPv4 address: " +:+ slot_ip)
          end
      | TypeAAAA =>
          match parse_ipv6 slot_ip with
          | Some ip => finish (add_answer response
              {| rec_name := qname; rec_ttl := ANSWER_TTL; rec_data := RDataAAAA ip |})
          | None => Err ("Invalid IPv6 address: " +:+ slot_ip)
          end
      | OtherType _ => finish (set_code response NXDomain)
      end
  | None => finish (set_code response NXDomain)
  end.

(** Every path yields a response. *)
Definition process_dns_query now (packet : string) r : R * string :=
  match from_vec packet with
  | None => (r, build_error_response packet FormErr)
  | Some message =>
      match msg_type message with
      | Response => (r, build_error_response packet FormErr)
      | Query =>
          match queries message with
          | [] => (r, build_error_response packet FormErr)
          | q :: _ =>
              let '(r', res) := lookup_slot_in_redis now (name_to_string (q_name q)) r in
              let slot := match res with Ok slot => slot | Err _ => None end in
              match build_dns_response message q (q_name q) slot with
              | Ok response => (r', response)
              | Err _ => (r', build_error_response packet ServFail)
              end
          end
      end
  end.

(** ** The response cache *)

Definition generate_cache_key (packet : string) : string := "dns:" +:+ pretty (hash64 packet).

Definition get_cached_response now (packet : string) (c : C) : option string :=
  cache_get now (generate_cache_key packet) c.

Definition cache_response now (packet response : string) (c : C) : C :=
  cache_insert (generate_cache_key packet) response (now + secs (cache_ttl cfg)) c.

(** The server's state besides Redis: the cache and the metrics. *)
Record DnsState := { d_cache : C; d_metrics : MetricsManager }.

Definition count (hit : bool) (elapsed : Z) (m : MetricsManager) : MetricsManager :=
  if enable_metrics cfg then update_metrics m hit elapsed else m.

(** [elapsed] is the measured response time. *)
Definition handle_packet now (elapsed : Z) (packet : string) (s : DnsState) r
    : DnsState * R * string :=
  match get_cached_response now packet (d_cache s) with
  | Some cached =>
      ({| d_cache := d_cache s; d_metrics := count true elapsed (d_metrics s) |}, r, cached)
  | None =>
      let '(r', response) := process_dns_query now packet r in
      ({| d_cache := cache_response now packet response (d_cache s);
          d_metrics := count false elapsed (d_metrics s) |}, r', response)
  end.

Definition get_cache_stats : Z * Z := (0, max_cache_size cfg).

End handler.

(** ** DNS over TLS framing *)

Section dot.
(** [handle] is one call of [handle_packet]; it always produces a response. *)
Context {S : Type} (handle : string → S → S * string).

Definition be16 (n : Z) : string :=
  String (ascii_of_N (Z.to_N (as_u16 n / 256))) (String (ascii_of_N (Z.to_N (as_u16 n mod 256))) "").

(** [read_exact] of [n] bytes: [None] at a premature end. *)
Fixpoint take_exact (n : nat) (s : string) : option (string * string) :=
  match n, s with
  | O, _ => Some ("", s)
  | Datatypes.S n, String a s' =>
      match take_exact n s' with Some (x, y) => Some (String a x, y) | None => None end
  | Datatypes.S _, "" => None
  end.

(** The connection loop: [budget] is the number of responses that can still be
    written before the peer closes.  The fuel is the length of the input, which
    every iteration shortens. *)
Fixpoint dot_loop (fuel : nat) (budget : option nat) (input : string) (s : S) : S * string :=
  match fuel with
  | O => (s, "")
  | Datatypes.S fuel =>
      match input with
      | String hi (String lo rest) =>
          let len := Z.to_nat (256 * code hi + code lo) in
          match take_exact len rest with
          | None => (s, "")
          | Some (packet, rest') =>
              let '(s', resp) := handle packet s in
              match budget with
              | Some O => (s', "")
              | _ =>
                  let '(s'', out) := dot_loop fuel (pred <$> budget) rest' s' in
                  (s'', be16 (str_len resp) +:+ resp +:+ out)
              end
          end
      | _ => (s, "")
      end
  end.

Definition serve_stream (budget : option nat) (input : string) (s : S) : S * string :=
  dot_loop (String.length input) budget input s.

(** ** Framing lemmas *)

Definition frame (p : string) : string := be16 (str_len p) +:+ p.

(** The reference server: handle the packets in order and frame the responses. *)
Fixpoint answer_all (packets : list string) (s : S) : S * string :=
  match packets with
  | [] => (s, "")
  | p :: ps =>
      let '(s', resp) := handle p s in
      let '(s'', out) := answer_all ps s' in (s'', frame resp +:+ out)
  end.

Lemma take_exact_app p rest : take_exact (String.length p) (p +:+ rest) = Some (p, rest).
Proof.
  induction p as [|a p IH]; [done|]. change (String a p +:+ rest) with (String a (p +:+ rest)).
  cbn. by rewrite IH.
Qed.

(** The length prefix of a frame is read back. *)
Lemma frame_bytes p rest :
  u16_ok (str_len p) →
  ∃ hi lo, frame p +:+ rest = String hi (String lo (p +:+ rest))
    ∧ 256 * code hi + code lo = str_len p ∧ take_exact (Z.to_nat (str_len p)) (p +:+ rest) = Some (p, rest).
Proof.
  unfold u16_ok. intros Hlen. eexists _, _. split; [unfold frame, be16; by rewrite as_u16_id|]. split.
  - rewrite !code_ascii_of_N by
      (split; first [apply Z.mod_pos_bound; lia | apply Z.div_pos; lia
                    | apply Z.div_lt_upper_bound; lia]).
    by rewrite <- Z.div_mod by lia.
  - unfold str_len. by rewrite Nat2Z.id, take_exact_app.
Qed.

Lemma dot_loop_frames packets fuel s :
  Forall (λ p, u16_ok (str_len p)) packets →
  (String.length (foldr (λ p o, frame p +:+ o) "" packets) ≤ fuel)%nat →
  dot_loop fuel None (foldr (λ p o, frame p +:+ o) "" packets) s = answer_all packets s.
Proof.
  intros Hp. revert fuel s. induction Hp as [|p ps Hlen _ IH]; intros fuel s Hf.
  { by destruct fuel. }
  cbn [foldr] in *. set (rest := foldr (λ p o, frame p +:+ o) "" ps) in *.
  destruct (frame_bytes p rest Hlen) as (hi & lo & E & Hn & Ht).
  rewrite E in *. destruct fuel as [|fuel]; [cbn in Hf; lia|].
  cbn [dot_loop]. rewrite Hn, Ht. cbn [answer_all]. destruct (handle p s) as [s' resp].
  rewrite IH.
  - destruct (answer_all ps s') as [s'' out]. unfold frame. by rewrite str_app_assoc.
  - assert (str_len (p +:+ rest) = str_len p + str_len rest) as Hl by apply str_len_app.
    unfold str_len in *. cbn in Hf. lia.
Qed.
End dot.

(** DNS over TLS framing.  A stream of length-prefixed packets is answered by
    the stream of length-prefixed responses, packet by packet in order, each
    packet handled exactly once in the state its predecessors left. *)
Lemma dot_framing_correct {S} (handle : string → S → S * string) packets s
    (Hlen : Forall (λ p, u16_ok (str_len p)) packets) :
  serve_stream handle None (foldr (λ p o, frame p +:+ o) "" packets) s
    = answer_all handle packets s.
Proof. by apply dot_loop_frames. Qed.

(** ** Answers *)

Section answers.
Context `{Hredis : RedisServer R} {Hspec : RedisSpec R} `{Hh : Hickory}.

(** The answer for a query given the slot record. *)
Definition answer_message (message : Message Name) (q : DnsQuery Name) (slot : option string)
    : Message Name :=
  let base c as_ := {| msg_id := msg_id message; msg_type := Response;
                       op_code := op_code message; response_code := c;
                       queries := [q]; answers := as_ |} in
  match slot with
  | None => base NXDomain []
  | Some ip =>
      match q_type q with
      | TypeA =>
          match parse_ipv4 ip with
          | Some i => base NoError [{| rec_name := q_name q; rec_ttl := 300; rec_data := RDataA i |}]
          | None => base ServFail []
          end
      | TypeAAAA =>
          match parse_ipv6 ip with
          | Some i => base NoError [{| rec_name := q_name q; rec_ttl := 300; rec_data := RDataAAAA i |}]
          | None => base ServFail []
          end
      | OtherType _ => base NXDomain []
      end
  end.

Lemma lookup_slot_ok now qname (r r' : R) o :
  qname ≠ "" → lookup_slot_in_redis now qname r = (r', Ok o) →
  live now r' = live now r ∧
  (o = str_at (live now r) (dns_slot_key (trim_end_matches "." qname)) ∨ o = None).
Proof.
  intros Hne. unfold lookup_slot_in_redis. destruct (String.eqb_spec qname ""); [done|].
  intros Hr. inv_io Hr. apply connect_spec with (now := now) in Hio. unfold io_try in Hr.
  destruct (r_get now _ st) as [r1 [w|e]] eqn:Hg.
  - apply io_ret_inv in Hr as [-> [= ->]]. apply get_ok_at in Hg as [-> Hl].
    rewrite Hio in *. auto.
  - apply io_ret_inv in Hr as [-> [= ->]]. apply get_reads in Hg. rewrite Hio in *. auto.
Qed.

Lemma lookup_slot_up {Hup : RedisAvailable R} now qname m v :
  qname ≠ "" → get_reply (m !! dns_slot_key (trim_end_matches "." qname)) = Some v →
  runs now (lookup_slot_in_redis now qname) m v m.
Proof.
  intros Hne Hv. unfold lookup_slot_in_redis. destruct (String.eqb_spec qname ""); [done|].
  eapply runs_bind; [apply runs_map_err, runs_connect|]. intros r Hr.
  destruct (runs_get now _ m v Hv r Hr) as (r1 & E1 & L1). exists r1.
  unfold io_try. by rewrite E1.
Qed.

(** The bytes of the response for a well-formed query. *)
Lemma process_query_spec now packet message q qs (r r' : R) slot :
  (∀ m, is_Some (to_vec m)) →
  from_vec packet = Some message → msg_type message = Query → queries message = q :: qs →
  lookup_slot_in_redis now (name_to_string (q_name q)) r = (r', Ok slot) →
  from_vec (process_dns_query now packet r).2 = Some (answer_message message q slot).
Proof.
  intros Htot Hm Hty Hq Hl. unfold process_dns_query. rewrite Hm, Hty, Hq, Hl.
  assert (∀ m, from_vec (default "" (to_vec m)) = Some m) as Hto.
  { intros m. destruct (Htot m) as [v Hv]. rewrite Hv. by apply to_from_vec. }
  assert (from_vec (build_error_response packet ServFail) = Some
    {| msg_id := msg_id message; msg_type := Response; op_code := op_code message;
       response_code := ServFail; queries := [q]; answers := [] |}) as Hsf.
  { unfold build_error_response. rewrite Hm, Hq. apply Hto. }
  assert (∀ m, ∃ v, to_vec m = Some v ∧ from_vec v = Some m) as Hv.
  { intros m. destruct (Htot m) as [v Hv]. exists v. split; [done|]. by apply to_from_vec. }
  unfold build_dns_response, answer_message.
  destruct slot as [ip|]; [destruct (q_type q)|]; repeat case_match; cbn in *; simplify_eq; try done;
    match goal with
    | H : ok_or (to_vec ?m) _ = _ |- _ => destruct (Hv m) as (v & E1 & E2); rewrite E1 in H; by simplify_eq/=
    end.
Qed.
End answers.

(** C20: a well-formed query is answered from the slot record.  The response
    echoes id, operation and question, and carries: for an A (AAAA) query on a
    name whose slot record, found under the name without trailing dots, is an
    IPv4 (IPv6) address, that address with a TTL of 300; SERVFAIL when the record
    is not such an address; NXDOMAIN for other types and for unknown names.  Redis
    answers, the slot's key holds a text if anything, the name is not empty and the
    library encodes every response. *)
Theorem dns_answer_correct `{RedisSpec R, !RedisAvailable R} `{Hickory}
    now packet message q qs (r : R)
    (Htot : ∀ m, is_Some (to_vec m))
    (Hm : from_vec packet = Some message) (Hty : msg_type message = Query)
    (Hq : queries message = q :: qs) (Hname : name_to_string (q_name q) ≠ "")
    (Hkey : get_reply (live now r !!
              dns_slot_key (trim_end_matches "." (name_to_string (q_name q)))) ≠ None) :
  from_vec (process_dns_query now packet r).2 =
    Some (answer_message message q
      (str_at (live now r) (dns_slot_key (trim_end_matches "." (name_to_string (q_name q)))))).
Proof.
  destruct (get_reply _) as [v|] eqn:Hv in Hkey; [|done].
  destruct (lookup_slot_up now _ (live now r) v Hname Hv r eq_refl) as (r1 & E1 & _).
  apply get_reply_str_at in Hv as <-. by eapply process_query_spec.
Qed.

(** What the answer to a packet is: a response message, FORMERR for bytes that are
    not a query, otherwise with the query's id and operation. *)
Definition proper_response `{Hickory} (packet response : string) : Prop :=
  ∃ m, from_vec response = Some m ∧ msg_type m = Response ∧
    match from_vec packet with
    | None => response_code m = FormErr
    | Some message =>
        msg_id m = msg_id message ∧ op_code m = op_code message
        ∧ (msg_type message = Response ∨ queries message = [] → response_code m = FormErr)
    end.

(** Every packet, however malformed and whatever Redis does, produces a response. *)
Lemma dns_always_answers `{RedisServer R} `{Hickory} now packet (r : R)
    (Htot : ∀ m, is_Some (to_vec m)) :
  proper_response packet (process_dns_query now packet r).2.
Proof.
  unfold proper_response.
  assert (∀ m, from_vec (default "" (to_vec m)) = Some m) as Hto.
  { intros m. destruct (Htot m) as [v Hv]. rewrite Hv. by apply to_from_vec. }
  assert (∀ c, ∃ m, from_vec (build_error_response packet c) = Some m ∧ msg_type m = Response ∧
    match from_vec packet with
    | None => response_code m = FormErr
    | Some message =>
        msg_id m = msg_id message ∧ op_code m = op_code message ∧ response_code m = c
    end) as Herr.
  { intros c. unfold build_error_response. destruct (from_vec packet) as [message|].
    - unfold to_vec_or_empty. eexists. split; [apply Hto|]. by destruct (queries message).
    - eexists. by split; [apply Hto|]. }
  unfold process_dns_query. destruct (from_vec packet) as [message|] eqn:Hm.
  2: { apply Herr. }
  destruct (Herr FormErr) as (m1 & E1 & T1 & I1 & O1 & C1).
  destruct (msg_type message) eqn:Hty; [|by exists m1].
  destruct (queries message) as [|q qs] eqn:Hq; [by exists m1|].
  destruct (lookup_slot_in_redis now _ r) as [r' res].
  destruct (build_dns_response message q (q_name q) _) as [v|e] eqn:Hb.
  - unfold build_dns_response, ok_or in Hb.
    repeat case_match; simplify_eq;
      (eexists; split; [by apply to_from_vec|]; cbn; split; [done|]; split_and!; [done|done|]; by intros [?|?]).
  - destruct (Herr ServFail) as (m2 & E2 & T2 & I2 & O2 & C2). exists m2.
    split_and!; try done. by intros [?|?].
Qed.

(** The response cache.  A response computed at [now] is repeated verbatim
    for the same packet for 300 seconds, without consulting Redis; afterwards the
    packet is processed afresh. *)
Lemma dns_cache_window `{RedisServer R} `{Hickory} `{TtlCache C} `{Hasher}
    now now' e e' packet (s s1 : DnsState (C := C)) (r r1 r2 : R) resp
    (Hmiss : get_cached_response now packet (d_cache s) = None)
    (Hfirst : handle_packet default_performance now e packet s r = (s1, r1, resp)) :
  (now' < now + secs 300 →
     (handle_packet default_performance now' e' packet s1 r2).1.2 = r2
     ∧ (handle_packet default_performance now' e' packet s1 r2).2 = resp)
  ∧ (now + secs 300 ≤ now' →
     (handle_packet default_performance now' e' packet s1 r2).1.2 = (process_dns_query now' packet r2).1
     ∧ (handle_packet default_performance now' e' packet s1 r2).2 = (process_dns_query now' packet r2).2).
Proof.
  unfold handle_packet in Hfirst. rewrite Hmiss in Hfirst.
  destruct (process_dns_query now packet r) as [r' response]. simplify_eq.
  assert (get_cached_response now' packet (cache_response default_performance now packet resp (d_cache s))
          = if now' <? now + secs 300 then Some resp else None) as Hget
    by apply cache_get_insert.
  unfold handle_packet. cbn [d_cache]. rewrite Hget. split; intros Hw.
  - destruct (Z.ltb_spec now' (now + secs 300)); [done|lia].
  - destruct (Z.ltb_spec now' (now + secs 300)); [lia|].
    by destruct (process_dns_query now' packet r2).
Qed.

(** ** A concrete codec, cache and hasher *)
Module DnsDemo.
Import MemRedis BitCodec.

#[export] Instance MessageType_eq : EqDecision MessageType.
Proof. solve_decision. Defined.

(** Messages as nested tuples, for a countable encoding. *)
Definition type_code (t : RecordType) : Z + bool :=
  match t with TypeA => inr true | TypeAAAA => inr false | OtherType z => inl z end.
Definition code_type (c : Z + bool) : RecordType :=
  match c with inr true => TypeA | inr false => TypeAAAA | inl z => OtherType z end.
Definition rcode_code (c : ResponseCode) : Z + (bool * bool) :=
  match c with
  | NoError => inr (false, false) | FormErr => inr (false, true)
  | ServFail => inr (true, false) | NXDomain => inr (true, true) | OtherCode z => inl z
  end.
Definition code_rcode (c : Z + (bool * bool)) : ResponseCode :=
  match c with
  | inr (false, false) => NoError | inr (false, true) => FormErr
  | inr (true, false) => ServFail | inr (true, true) => NXDomain | inl z => OtherCode z
  end.
Definition query_code (q : DnsQuery string) : string * (Z + bool) := (q_name q, type_code (q_type q)).
Definition code_query (c : string * (Z + bool)) : DnsQuery string :=
  {| q_name := c.1; q_type := code_type c.2 |}.
Definition record_code (r : DnsRecord string) : string * Z * (Ipv4Addr + N) :=
  (rec_name r, rec_ttl r, match rec_data r with RDataA i => inl i | RDataAAAA b => inr b end).
Definition code_record (c : string * Z * (Ipv4Addr + N)) : DnsRecord string :=
  {| rec_name := c.1.1; rec_ttl := c.1.2;
     rec_data := match c.2 with inl i => RDataA i | inr b => RDataAAAA b end |}.
Definition message_code (m : Message string) :=
  (msg_id m, match msg_type m with Query => true | Response => false end, op_code m,
   rcode_code (response_code m), query_code <$> queries m, record_code <$> answers m).
Definition code_message (c : Z * bool * Z * (Z + (bool * bool)) * list (string * (Z + bool))
    * list (string * Z * (Ipv4Addr + N))) : Message string :=
  let '(id, ty, op, rc, qs, rs) := c in
  {| msg_id := id; msg_type := if ty then Query else Response; op_code := op;
     response_code := code_rcode rc; queries := code_query <$> qs; answers := code_record <$> rs |}.

Lemma code_message_code m : code_message (message_code m) = m.
Proof.
  destruct m as [mid ty op rc qs rs]. unfold code_message, message_code. cbn [msg_id msg_type op_code
    response_code queries answers]. f_equal.
  - by destruct ty.
  - by destruct rc.
  - rewrite <- list_fmap_compose. transitivity (id <$> qs); [|apply list_fmap_id].
    apply list_fmap_ext. intros i [n t] _. unfold code_query, query_code; cbn. by destruct t.
  - rewrite <- list_fmap_compose. transitivity (id <$> rs); [|apply list_fmap_id].
    apply list_fmap_ext. intros i [n t d] _. unfold code_record, record_code; cbn. by destruct d.
Qed.

#[export, refine] Instance demo_hickory : Hickory := {|
  Name := string; name_to_string := λ n, n;
  from_vec := λ s, code_message <$> parse s;
  to_vec := λ m, Some (print (message_code m));
|}.
Proof.
  intros m v [= <-]. rewrite parse_print. exact (f_equal Some (code_message_code m)).
Defined.

#[export, refine] Instance demo_cache : TtlCache (gmap string (string * Z)) := {|
  cache_empty := ∅;
  cache_get now k c :=
    match c !! k with Some (v, t) => if now <? t then Some v else None | None => None end;
  cache_insert k v t c := <[k := (v, t)]> c;
  cache_purge now c := filter (λ kv, now < kv.2.2) c;
|}.
Proof.
  - intros. by rewrite lookup_empty.
  - intros. by rewrite lookup_insert_eq.
  - intros. by rewrite lookup_insert_ne.
  - intros now now' k c Hle. destruct (c !! k) as [[v t]|] eqn:E.
    + destruct (decide (now < t)) as [Hlt|Hge].
      * by rewrite (map_lookup_filter_Some_2 _ _ _ _ E).
      * rewrite map_lookup_filter_None_2 by (right; intros; by simplify_eq).
        destruct (Z.ltb_spec now' t); [lia|done].
    + by rewrite map_lookup_filter_None_2 by by left.
Defined.

#[export, refine] Instance demo_hasher : Hasher := {| hash64 := λ p, as_u64 (str_len p) |}.
Proof. intros p. apply wrap_range. lia. Defined.

Definition query : DnsQuery (Name (Hickory := demo_hickory)) :=
  {| q_name := "app.fdns.run."; q_type := TypeA |}.
Definition message : Message (Name (Hickory := demo_hickory)) :=
  {| msg_id := 7; msg_type := Query; op_code := 0; response_code := NoError;
     queries := [query]; answers := [] |}.
Definition packet : string := print (message_code message).
Definition redis : mem := {[ "slot:app.fdns.run" := REntry (RString "10.0.0.1") None ]}.

Lemma to_vec_total m : is_Some (to_vec (Hickory := demo_hickory) m).
Proof. by eexists. Qed.

Lemma dns_answer_correct_witness :
  from_vec (process_dns_query 0 packet redis).2 =
    Some {| msg_id := 7; msg_type := Response; op_code := 0; response_code := NoError;
            queries := queries message;
            answers := [{| rec_name := q_name query; rec_ttl := 300;
                           rec_data := RDataA (Ipv4 10 0 0 1) |}] |}.
Proof.
  rewrite (dns_answer_correct 0 packet message query [] redis).
  - eval_eq.
  - apply to_vec_total.
  - eval_eq.
  - reflexivity.
  - reflexivity.
  - discriminate.
  - vm_compute. discriminate.
Defined.

Definition state0 : DnsState (C := gmap string (string * Z)) :=
  {| d_cache := ∅; d_metrics := MetricsManager_new 50 |}.
Definition first := handle_packet default_performance 0 1000 packet state0 redis.

Lemma dns_cache_window_witness :
  (handle_packet default_performance (secs 299) 1000 packet first.1.1 (∅ : mem)).2 = first.2.
Proof.
  apply (dns_cache_window 0 (secs 299) 1000 1000 packet state0 first.1.1 redis redis ∅ first.2).
  - reflexivity.
  - eval_eq.
  - unfold secs. lia.
Defined.

Lemma dot_framing_correct_witness :
  serve_stream (λ p (n : nat), (S n, p +:+ p)) None (frame "ab" +:+ frame "c" +:+ "") 0%nat
    = (2%nat, frame "abab" +:+ frame "cc" +:+ "").
Proof.
  apply (dot_framing_correct (λ p (n : nat), (S n, p +:+ p)) ["ab"; "c"] 0%nat).
  repeat constructor; vm_compute; congruence.
Defined.
End DnsDemo.
