(* ===== verification/System.v ===== *)
(** * The services together

    Theorems across the components: a tunnel the API created is reachable at
    the edge under its name, the key the API returned opens exactly its slot at
    the hub, and a grant minted by the API opens the edge's gate. *)

From S2P Require Import Prelude Redis Serde Models Errors Net Auth Quota RedisCache CA Storage.
From S2P Require Import TunnelsApi SshHub EdgeRouter.

(** ** Subdomains are labels *)

Definition label_char (c : ascii) : bool := is_ascii_alphanumeric c || Ascii.eqb c "-".

Lemma validate_subdomain_ok s :
  validate_subdomain s = Ok () → 1 ≤ str_len s ≤ 63 ∧ str_all label_char s = true.
Proof.
  unfold validate_subdomain. destruct (String.eqb_spec s "") as [|Hne]; [done|].
  destruct (Z.ltb_spec 63 (str_len s)) as [|Hlen]; [done|]. cbn [orb].
  destruct (str_all _ s) eqn:Ha; cbn [negb]; [|done]. intros _. split; [|done].
  destruct s; [done|]. unfold str_len in *. cbn in *. lia.
Qed.

Lemma label_no_dot s : str_all label_char s = true → str_has "." s = false.
Proof. intros. by eapply str_has_all. Qed.

Lemma base36_alphanumeric i : 0 ≤ i < 36 → is_ascii_alphanumeric (base36 i) = true.
Proof.
  intros Hi. assert (forallb (λ i, is_ascii_alphanumeric (base36 i)) (seqZ 0 36) = true) as Hall
    by by vm_compute.
  rewrite forallb_forall in Hall. apply Hall, list_elem_of_In, elem_of_seqZ. lia.
Qed.

Lemma random_chars idxs :
  Forall (λ i, 0 ≤ i < 36) idxs →
  str_all is_ascii_alphanumeric (string_of_list_ascii (base36 <$> idxs)) = true.
Proof.
  induction 1 as [|i idxs Hi _ IH]; [done|]. cbn. rewrite base36_alphanumeric by done. exact IH.
Qed.

(** A generated subdomain passes the validation of custom ones. *)
Lemma random_subdomain_valid idxs :
  Forall (λ i, 0 ≤ i < 36) idxs → (0 < length idxs ≤ 56)%nat →
  validate_subdomain (generate_random_subdomain idxs) = Ok ().
Proof.
  intros Hr Hlen. apply random_chars in Hr as Hc.
  set (chars := string_of_list_ascii (base36 <$> idxs)) in *.
  assert (str_len chars = Z.of_nat (length idxs)) as Hl.
  { unfold chars, str_len. clear. induction idxs as [|i idxs IH]; [done|]. cbn in *. lia. }
  unfold validate_subdomain, generate_random_subdomain. fold chars.
  rewrite str_len_app. change (str_len "tunnel-") with 7.
  destruct (Z.ltb_spec 63 (7 + str_len chars)); [lia|].
  change ("tunnel-" +:+ chars =?s "") with false. cbn [orb].
  rewrite str_all_app, (str_all_impl is_ascii_alphanumeric _ chars) by (done || by intros a ->).
  cbn [andb negb]. change (str_all _ "tunnel-") with true. cbn [andb negb].
  change (starts_with "-" ("tunnel-" +:+ chars)) with false. cbn [orb].
  assert (ends_with_char "-" ("tunnel-" +:+ chars) = false) as ->; [|done].
  unfold ends_with_char. rewrite str_rev_app. rewrite <- str_all_rev in Hc.
  assert (str_rev chars ≠ "") as Hn.
  { apply str_rev_nonempty. intros E. rewrite E in Hl. change (str_len "") with 0 in Hl. lia. }
  destruct (str_rev chars) as [|a l]; [done|]. cbn in Hc |- *.
  apply andb_true_iff in Hc as [Ha _]. change (Ascii.eqb a "-" = false).
  apply Ascii.eqb_neq. by intros ->.
Qed.

Definition env_ok `{Codec} (e : Env) : Prop :=
  Forall (λ i, 0 ≤ i < 36) (e_subdomain e) ∧ (0 < length (e_subdomain e) ≤ 56)%nat
  ∧ PORT_RANGE_START ≤ e_start_port e < PORT_RANGE_END.

Lemma choose_subdomain_label `{Codec} e q sub :
  env_ok e → choose_subdomain e q = Ok sub → str_all label_char sub = true.
Proof.
  intros (Hr & Hl & _). unfold choose_subdomain. destruct (q_custom_subdomain q) as [c|].
  - destruct (validate_subdomain c) as [[]|] eqn:E; [|done]. intros [= <-].
    by apply validate_subdomain_ok in E as [_ ?].
  - intros [= <-]. by apply validate_subdomain_ok, random_subdomain_valid.
Qed.

(** ** From the API to the edge and the hub *)

Section system.
Context `{Hspec : RedisSpec R} `{Hcodec : Codec} `{Hrcgen : Rcgen} `{Hmd5 : Md5}.
Implicit Types (now : Z) (s : ApiState (R := R)).

(** The lifetime of the tunnel a request creates, in seconds. *)
Definition lifetime (q : CreateTunnelRequest) : Z := as_i64 (default 3600 (q_ttl q)).

(** What the other services find after a successful creation. *)
Record created_facts now e q s s' resp (t : Tunnel) : Prop := {
  cf_ok : tunnel_ok t;
  cf_id : c_id resp = uuid_to_string (t_id t);
  cf_slot : c_slot resp = t_slot t;
  cf_range : PORT_RANGE_START ≤ t_slot t ≤ PORT_RANGE_END;
  cf_fqdn : c_fqdn resp = t_subdomain t +:+ "." +:+ "fleetingdns.run";
  cf_label : str_all label_char (t_subdomain t) = true;
  cf_protected : t_protected t = default false (q_protected q);
  cf_policy : t_teardown_policy t = default TtlOnly (q_teardown_policy q);
  cf_expires : t_expires_at t = now + secs (lifetime q);
  cf_ttl : TunnelStorage.tunnel_ttl now t = lifetime q;
  cf_stored : ∃ m, agree_tunnels m (live now (st_redis s))
    ∧ agree_tunnels (live now (st_redis s')) (put_tunnel now (e_edge_public_ip e) t m);
  cf_session : ∃ user pk, live now (st_redis s') !! ("session:" +:+ uuid_to_string (t_id t)) =
    Some (REntry (RString (json_to_string (ser_SessionData
      (TunnelStorage.ssh_session (uuid_to_string (t_id t)) user pk
         (key_fingerprint (c_ssh_key resp)) (t_expires_at t)))))
      (Some (now + secs (TunnelStorage.session_ttl now (t_expires_at t)))));
}.

Lemma create_tunnel_facts cfg now e headers q s s' resp :
  create_tunnel cfg now e headers q s = (s', Ok resp) → env_ok e → u16_ok (q_port q) →
  dt_ok now ∧ dt_ok (now + secs (lifetime q)) →
  ∃ t, created_facts now e q s s' resp t.
Proof.
  intros Hc He Hq Hdt.
  apply create_tunnel_steps in Hc as (user & sub & serial & port & key & m & Hc); [|apply He].
  cbn zeta in Hc. set (t := new_tunnel now e user sub serial port q) in Hc.
  destruct Hc as (_ & Hsub & Hrange & _ & Hm & _ & Hpos & _ & Hl & Hid & Hfq & Hslot & Hkey).
  exists t.
  assert (TunnelStorage.tunnel_ttl now t = lifetime q) as Httl.
  { unfold TunnelStorage.tunnel_ttl in *. cbn [t_expires_at t new_tunnel Tunnel_new] in *.
    fold (lifetime q) in *. replace (now + secs (lifetime q) - now) with (secs (lifetime q)) in * by lia.
    rewrite num_seconds_secs in *. unfold as_u64, wrap in *.
    assert (- 2 ^ 63 ≤ lifetime q < 2 ^ 63) as Hlt.
    { unfold lifetime, as_i64, wrap. pose proof (Z.mod_pos_bound (default 3600 (q_ttl q)) (2 ^ 64)).
      case_decide; lia. }
    destruct (decide (0 ≤ lifetime q)); [by apply Z.mod_small; lia|].
    rewrite <- (Z.mod_add (lifetime q) 1) in Hpos by lia. rewrite Z.mod_small in Hpos by lia. lia. }
  split; try done.
  - split_and!; [done| |apply Hdt..]. cbn. unfold PORT_RANGE_START, PORT_RANGE_END, u16_ok in *. lia.
  - by eapply choose_subdomain_label.
  - exists m. split; [done|]. rewrite Hl. unfold put_ex.
    split; intros; by rewrite lookup_insert_ne by key_ne.
  - exists (gh_id user), (public_key key). rewrite Hl, Hkey. apply lookup_insert_eq.
Qed.

(** The edge's lookup finds the created tunnel and no other. *)
Lemma created_lookup now now' e q s s' resp t (r2 : R) o :
  created_facts now e q s s' resp t → now ≤ now' < now + secs (lifetime q) →
  (∀ id i, listed (live now (st_redis s)) id → info_at (live now (st_redis s)) id = Some i →
     i_subdomain i ≠ subdomain_from_sni (c_fqdn resp)) →
  RedisCache.get_tunnel_by_subdomain now' (subdomain_from_sni (c_fqdn resp)) (st_redis s') = (r2, Ok o) →
  o = Some (info_of t).
Proof.
  intros [] Hw Hfresh Hget. destruct cf_stored0 as (m & Hm & Hput).
  assert (subdomain_from_sni (c_fqdn resp) = t_subdomain t) as Hsub.
  { rewrite cf_fqdn0. by apply subdomain_from_sni_label, label_no_dot. }
  assert (registered (live now' (st_redis s')) (info_of t)) as Hreg.
  { eapply stored_registered; [done|done|]. by rewrite cf_ttl0. }
  apply scan_correct in Hget as [_ Ho]. rewrite Hsub in Ho, Hfresh. destruct o as [i|].
  - destruct Ho as [Hi Hi'%String.eqb_eq]. f_equal.
    eapply (stored_unique now now' _ t m _ (λ i, i_subdomain i = t_subdomain t)); [done|done|lia| |done..].
    intros id i' Hl Hia Hsame. rewrite Hm in Hl, Hia. by destruct (Hfresh id i').
  - specialize (Ho _ Hreg). cbn in Ho. by rewrite String.eqb_refl in Ho.
Qed.
End system.

(** C7: a created tunnel is reachable.  After a successful creation, until the
    tunnel expires, provided no record listed before carries its subdomain, a TLS
    connection for the returned name is routed to the returned slot.  If the
    tunnel is not protected and the slot's listener accepts, the client is spliced
    to the slot with all its bytes.  If it is protected and the listener accepts, the
    request head is read first: if it arrives in time, the grant can be looked up
    and the head can be replayed, then with a granted cookie the client is spliced
    with the head and the rest, and without one it is answered 403.  If the edge's
    lookup of the tunnel in Redis fails, the answer is 500. *)
Theorem created_tunnel_reachable `{RedisSpec R} `{Codec} `{Rcgen} `{Md5}
    cfg now now' e headers q (s s' : ApiState (R := R)) resp c (r2 : R) res
    (Hc : create_tunnel cfg now e headers q s = (s', Ok resp))
    (He : env_ok e) (Hq : u16_ok (q_port q)) (Hdt : dt_ok now ∧ dt_ok (now + secs (lifetime q)))
    (Hw : now ≤ now' < now + secs (lifetime q))
    (Hfresh : ∀ id i, listed (live now (st_redis s)) id → info_at (live now (st_redis s)) id = Some i →
       i_subdomain i ≠ subdomain_from_sni (c_fqdn resp))
    (Hconn : hello_ok c = true ∧ handshake_ok c = true ∧ EdgeRouter.sni c = Some (c_fqdn resp))
    (Hdial : dial c (c_slot resp) = EdgeRouter.Connected)
    (Hget : RedisCache.get_tunnel_by_subdomain now' (subdomain_from_sni (c_fqdn resp)) (st_redis s')
            = (r2, res)) :
  let routed := handle_router_connection now' c (st_redis s') in
  match res with
  | Err _ => routed = (r2, answer "500 Internal Server Error")
  | Ok _ =>
      if default false (q_protected q) then
        ∀ head rest r3 granted,
          read_request_head (client c) "" = (head, rest, Ok ()) → head_timeout c = false →
          authorize now' (subdomain_from_sni (c_fqdn resp)) head r2 = (r3, Ok granted) →
          replay_ok c = true →
          routed = (r3, if granted then Spliced (c_slot resp) head rest else answer "403 Forbidden")
      else routed = (r2, Spliced (c_slot resp) "" (client c))
  end.
Proof.
  apply create_tunnel_facts in Hc as [t Hfacts]; [|done..].
  destruct Hconn as (Hh & Hs & Hsni). unfold handle_router_connection. rewrite Hh, Hs, Hsni, Hget.
  cbn [negb]. destruct res as [o|err]; [|done].
  rewrite (created_lookup now now' e q s s' resp t r2 o) by done.
  destruct Hfacts. cbn [info_of i_protected i_slot]. rewrite cf_protected0, <- cf_slot0.
  destruct (default false (q_protected q)); unfold connect_slot; rewrite Hdial; [|done].
  intros head rest r3 granted -> -> -> ->. destruct granted; [|done]. by rewrite andb_false_r.
Qed.

(** The hub's side of a created tunnel: the key is accepted, the data is as it
    was, and the gate names the tunnel. *)
Lemma created_key_binds `{RedisSpec R, !RedisAvailable R} `{Codec} `{Rcgen} `{Md5} `{SshKeys}
    cfg now now' e headers q (s s' : ApiState (R := R)) resp hub key sess b
    (Hc : create_tunnel cfg now e headers q s = (s', Ok resp))
    (He : env_ok e) (Hq : u16_ok (q_port q)) (Hdt : dt_ok now ∧ dt_ok (now + secs (lifetime q)))
    (Hw : now ≤ now' < now + secs (lifetime q))
    (Hfresh : ∀ id i, listed (live now (st_redis s)) id → info_at (live now (st_redis s)) id = Some i →
       i_slot i ≠ c_slot resp)
    (Hhub : redis_auth_handler hub = Some "session" ∧ redis_pool hub = true)
    (Hid : is_valid_session_id (c_id resp) = true)
    (Hlock : is_locked_out now' b (peer_addr sess) (auth_lockout_duration hub) = false)
    (Hkey : fingerprint key = key_fingerprint (c_ssh_key resp)) :
  ∃ sess' b' r1,
    auth_publickey hub now' ("tunnel-" +:+ c_id resp) key sess b (st_redis s') = (sess', b', r1, true)
    ∧ client_certificate_serial sess' = Some (c_id resp) ∧ forward_listeners sess' = forward_listeners sess
    ∧ live now' r1 = live now' (st_redis s')
    ∧ ∀ r2 o, get_tunnel_by_slot now' (c_slot resp) r1 = (r2, Ok o) →
        slot_gate hub now' (c_slot resp) sess' r1
          = (r2, Some (default TtlOnly (q_teardown_policy q), Some (c_id resp))).
Proof.
  apply create_tunnel_facts in Hc as [t []]; [|done..].
  destruct cf_stored0 as (m & Hm & Hput). destruct cf_session0 as (user & pk & Hsess).
  destruct Hhub as [Hh Hp]. unfold auth_publickey, check_key. rewrite Hlock, Hh.
  assert (session_of_user ("tunnel-" +:+ c_id resp) = c_id resp) as -> by done.
  rewrite Hid. cbn [negb]. rewrite cf_id0.
  eapply (stored_session_runs now now' _ user ("tunnel-" +:+ uuid_to_string (t_id t)) pk _ _ key) in Hsess;
    [|by apply cf_ok0| |lia].
  2: { rewrite cf_expires0. replace (now + secs (lifetime q) - now) with (secs (lifetime q)) by lia.
       rewrite num_seconds_secs. unfold i64_ok, lifetime, as_i64, wrap.
       pose proof (Z.mod_pos_bound (default 3600 (q_ttl q)) (2 ^ 64)). case_decide; lia. }
  destruct (Hsess (st_redis s') eq_refl) as (r1 & E1 & L1). rewrite E1.
  rewrite Hkey, String.eqb_refl, cf_expires0.
  rewrite (proj2 (Z.leb_le now' (now + secs (lifetime q)))) by lia. cbn [andb].
  eexists _, _, r1. split; [reflexivity|]. split_and!; [done..|]. intros r2 o Hget. unfold slot_gate.
  rewrite Hp, Hget. cbn [client_certificate_serial]. apply scan_correct in Hget as [_ Ho].
  rewrite L1 in Ho.
  assert (registered (live now' (st_redis s')) (info_of t)) as Hreg.
  { eapply stored_registered; [done|done|]. by rewrite cf_ttl0. }
  destruct o as [i|].
  - destruct Ho as [Hi Hi'%Z.eqb_eq]. rewrite cf_slot0 in Hi', Hfresh.
    assert (i = info_of t) as ->.
    { eapply (stored_unique now now' _ t m _ (λ i, i_slot i = t_slot t)); [done|done|lia| |done..].
      intros id i' Hl Hia Hsame. rewrite Hm in Hl, Hia. by destruct (Hfresh id i'). }
    cbn [info_of i_id i_teardown_policy]. by rewrite String.eqb_refl, cf_policy0.
  - specialize (Ho _ Hreg). cbn in Ho. by rewrite cf_slot0, Z.eqb_refl in Ho.
Qed.

(** C8: the returned key opens the returned slot.  After a successful creation,
    until the tunnel expires, at a hub with the session store and a Redis pool whose
    server answers, a client that is not locked out and presents the key the API
    returned under the tunnel's user name is accepted, and the slot gate then lets
    that session bind the returned slot with the requested policy.  This needs that
    the tunnel's identifier passes the hub's check, that no record listed before
    carries the slot and that the registry's keys hold texts. *)
Theorem created_tunnel_binds `{RedisSpec R, !RedisAvailable R} `{Codec} `{Rcgen} `{Md5} `{SshKeys}
    cfg now now' e headers q (s s' : ApiState (R := R)) resp hub key sess b
    (Hc : create_tunnel cfg now e headers q s = (s', Ok resp))
    (He : env_ok e) (Hq : u16_ok (q_port q)) (Hdt : dt_ok now ∧ dt_ok (now + secs (lifetime q)))
    (Hw : now ≤ now' < now + secs (lifetime q))
    (Hfresh : ∀ id i, listed (live now (st_redis s)) id → info_at (live now (st_redis s)) id = Some i →
       i_slot i ≠ c_slot resp)
    (Htyped : registry_typed (live now' (st_redis s')))
    (Hhub : redis_auth_handler hub = Some "session" ∧ redis_pool hub = true)
    (Hid : is_valid_session_id (c_id resp) = true)
    (Hlock : is_locked_out now' b (peer_addr sess) (auth_lockout_duration hub) = false)
    (Hkey : fingerprint key = key_fingerprint (c_ssh_key resp)) :
  ∃ sess' b' r1 r2,
    auth_publickey hub now' ("tunnel-" +:+ c_id resp) key sess b (st_redis s') = (sess', b', r1, true)
    ∧ slot_gate hub now' (c_slot resp) sess' r1
        = (r2, Some (default TtlOnly (q_teardown_policy q), Some (c_id resp))).
Proof.
  destruct (created_key_binds cfg now now' e headers q s s' resp hub key sess b)
    as (sess' & b' & r1 & Ha & _ & _ & Hr1 & Hg); [done..|].
  destruct (get_tunnel_by_slot_ends now' (c_slot resp) r1) as (r2 & o & Hget); [by rewrite Hr1|].
  exists sess', b', r1, r2. split; [done|]. by eapply Hg.
Qed.

Lemma random_string_cookie idxs : str_all cookie_char (generate_random_string idxs) = true.
Proof.
  unfold generate_random_string. induction idxs as [|i idxs IH]; [done|]. cbn [omap list_omap].
  destruct (list_ascii_of_string CHARSET !! i) as [a|] eqn:Ei; [|exact IH].
  cbn [string_of_list_ascii str_all]. rewrite IH, andb_true_r.
  assert (Forall (λ a, cookie_char a = true) (list_ascii_of_string CHARSET)) as Hall
    by by repeat constructor.
  by eapply Forall_lookup in Hall.
Qed.

(** C12: a minted grant opens the edge.  When the API mints a grant, the caller
    owns the tunnel; the cookie it returns names the session cookie with a token
    that survives the edge's cookie parser; and the edge accepts a request head
    that carries the token, for the tunnel's subdomain, for 900 seconds and no
    longer. *)
Theorem minted_grant_opens_edge `{RedisSpec R, !RedisAvailable R} `{Codec} `{Rcgen} `{Md5}
    cfg now now' e tid headers (s s' : ApiState (R := R)) resp head
    (Hm : create_tunnel_session cfg now e tid headers s = (s', Ok resp)) (Hle : now ≤ now')
    (Hcookie : cookie_from_request_head (from_utf8_lossy head) SESSION_COOKIE_NAME = Some (g_token resp)) :
  ∃ user id t r2, authenticate cfg now headers = Ok user ∧ uuid_parse tid = Some id
    ∧ tunnel_at (live now (st_redis s)) id = Some t ∧ t_github_user_id t = gh_id user
    ∧ starts_with (SESSION_COOKIE_NAME +:+ "=" +:+ g_token resp +:+ ";") (g_cookie resp) = true
    ∧ str_all cookie_char (g_token resp) = true
    ∧ authorize now' (t_subdomain t) head (st_redis s') = (r2, Ok (now' <? now + secs 900)).
Proof.
  unfold create_tunnel_session in Hm.
  apply io_bind_ok in Hm as (s1 & [[user id] t] & Hown & Hm).
  apply owned_tunnel_spec in Hown as [_ (Ha & Hid & Ht & Ho)].
  apply io_bind_ok in Hm as (s2 & [] & [Hg _]%with_redis_inv & [-> [= ->]]%io_ret_inv).
  cbn [g_token g_cookie] in *.
  destruct (session_grant_roundtrip now now' _ _ _ _ _ _ Hg Hle) as [r2 Hr2].
  exists user, id, t, r2. split_and!; [done..| |apply random_string_cookie|].
  - apply starts_with_spec. unfold session_cookie. eexists. rewrite !str_app_assoc. reflexivity.
  - unfold authorize. by rewrite Hcookie.
Qed.

(** ** Examples on the concrete server *)
Module SystemDemo.
Import MemRedis BitCodec AuthDemo CADemo ApiDemo HubDemo.

Definition open_request : CreateTunnelRequest :=
  {| q_port := 3000; q_ttl := None; q_custom_subdomain := Some "app"; q_auth := None;
     q_protected := None; q_teardown_policy := Some ViewerIdle |}.
Definition made := create_tunnel default_api_config 0 env ann open_request start.
Definition made_response : CreateTunnelResponse :=
  match made.2 with Ok r => r | Err _ => response end.
Definition after : mem := st_redis made.1.

Definition viewer : Conn :=
  {| hello_ok := true; EdgeRouter.sni := Some "app.fleetingdns.run"; handshake_ok := true;
     client := [Ok "GET / HTTP/1.1"]; head_timeout := false;
     dial := λ _, EdgeRouter.Connected; replay_ok := true |}.

Lemma env_is_ok : env_ok env.
Proof. split; [repeat constructor; lia|]. split; [cbn; lia|by vm_compute]. Qed.

Lemma nothing_listed (P : string → TunnelInfo → Prop) :
  ∀ id i, listed (live 0 (st_redis start)) id → info_at (live 0 (st_redis start)) id = Some i → P id i.
Proof.
  intros id i _ Hi. assert (live 0 (st_redis start) = ∅) as E by eval_eq.
  unfold info_at, str_at in Hi. by rewrite E, lookup_empty in Hi.
Qed.

Definition looked := RedisCache.get_tunnel_by_subdomain (secs 10) "app" after.

Lemma created_tunnel_reachable_witness :
  handle_router_connection (secs 10) viewer after
    = (looked.1, Spliced 20000 "" [Ok "GET / HTTP/1.1"]).
Proof.
  apply (created_tunnel_reachable default_api_config 0 (secs 10) env ann open_request start made.1
           made_response viewer looked.1 (Ok (match looked.2 with Ok o => o | Err _ => None end))).
  - eval_eq.
  - apply env_is_ok.
  - by vm_compute.
  - by vm_compute.
  - by vm_compute.
  - apply nothing_listed.
  - split_and!; eval_eq.
  - eval_eq.
  - eval_eq.
Defined.

Definition hub_session : Session := new_session peer.
Definition issued_key : PublicKey (SshKeys := demo_keys) := "SHA256:x".

Lemma created_tunnel_binds_witness :
  ∃ sess' b' r1 r2,
    auth_publickey cfg (secs 10) ("tunnel-" +:+ c_id made_response) issued_key hub_session
      no_attempts after = (sess', b', r1, true)
    ∧ slot_gate cfg (secs 10) (c_slot made_response) sess' r1
        = (r2, Some (ViewerIdle, Some (c_id made_response))).
Proof.
  apply (created_tunnel_binds default_api_config 0 (secs 10) env ann open_request start made.1
           made_response cfg issued_key hub_session no_attempts).
  - eval_eq.
  - apply env_is_ok.
  - by vm_compute.
  - by vm_compute.
  - by vm_compute.
  - apply nothing_listed.
  - apply registry_typed_strings. eval_eq.
  - done.
  - eval_eq.
  - eval_eq.
  - eval_eq.
Defined.

Definition minted := create_tunnel_session default_api_config (secs 5) env (c_id made_response) ann made.1.
Definition grant : SessionGrantResponse :=
  match minted.2 with
  | Ok g => g
  | Err _ => {| g_token := ""; g_cookie := ""; g_fqdn := ""; g_expires_at := "" |}
  end.
Definition head : string :=
  "GET / HTTP/1.1" +:+ CRLF +:+ "Cookie: fdns_session=abc" +:+ CRLF +:+ CRLF.

Lemma minted_grant_opens_edge_witness :
  ∃ user id t r2, authenticate default_api_config (secs 5) ann = Ok user
    ∧ uuid_parse (c_id made_response) = Some id
    ∧ tunnel_at (live (secs 5) (st_redis made.1)) id = Some t ∧ t_github_user_id t = gh_id user
    ∧ starts_with (SESSION_COOKIE_NAME +:+ "=" +:+ g_token grant +:+ ";") (g_cookie grant) = true
    ∧ str_all cookie_char (g_token grant) = true
    ∧ authorize (secs 904) (t_subdomain t) head (st_redis minted.1) = (r2, Ok true).
Proof.
  apply (minted_grant_opens_edge default_api_config (secs 5) (secs 904) env (c_id made_response) ann
           made.1 minted.1 grant head).
  - eval_eq.
  - by vm_compute.
  - eval_eq.
Defined.
End SystemDemo.
