(* ===== verification/CliTunnel.v ===== *)
(** * The tunnel client

    cmd/edf-cli/src/ssh_client.rs, tunnel.rs and main.rs: the SSH client that
    holds a reverse tunnel open until it expires, the tunnel manager and the
    commands of the [edf] binary, over the machine of [CliKeys] and an SSH
    transport ([SshTransport]). *)

From S2P Require Import Prelude Serde Errors CliKeys.

(** ** The SSH transport *)

Inductive Connecting (H : Type) := ConnectOk (h : H) | ConnectErr (e : string) | ConnectTimeout.
Arguments ConnectOk {H} h.
Arguments ConnectErr {H} e.
Arguments ConnectTimeout {H}.
Inductive AuthResult := AuthSuccess | AuthFailure | AuthErr (e : string).
Inductive ChannelOpen := ChannelOpened | ChannelOpenFailure | ChannelErr (e : string).

(** russh's client: errors carry their text.  [ssh_connect] is
    [client::connect] under [tokio::time::timeout]. *)
Class SshTransport (W : Type) := {
  PrivateKey : Type;
  Handle : Type;
  decode_secret_key : string → result string PrivateKey;
  ssh_connect : string → Z → W → W * Connecting Handle;
  authenticate_publickey : Handle → string → PrivateKey → W → W * AuthResult;
  ssh_tcpip_forward : Handle → string → Z → io W string Z;
  is_closed : Handle → W → bool;
  channel_open_session : Handle → W → W * ChannelOpen;
  channel_close : Handle → W → W;
  disconnect : Handle → W → W;
}.

(** The wall clock is not set back while the client runs. *)
Class ClockSpec (W : Type) `{Clock W} `{SshTransport W} := {
  sleep_clock : ∀ d w, 0 ≤ d → utc_now w + d ≤ utc_now (sleep d w);
  open_clock : ∀ h w, utc_now w ≤ utc_now (channel_open_session h w).1;
  close_clock : ∀ h w, utc_now w ≤ utc_now (channel_close h w);
}.

(** ** The client's records *)

Record TunnelClientConfig := {
  tcc_hub_url : string;
  tcc_hub_port : Z;
  tcc_local_port : Z;
  tcc_subdomain : string;
  tcc_connection_timeout : Z;
  tcc_keep_alive_interval : Z;
}.

Definition default_client_config : TunnelClientConfig :=
  {| tcc_hub_url := "localhost"; tcc_hub_port := 2222; tcc_local_port := 8080;
     tcc_subdomain := "test"; tcc_connection_timeout := secs 30;
     tcc_keep_alive_interval := secs 60 |}.

Record SshClientHandler := {
  ch_session_id : string;
  ch_subdomain : string;
  ch_local_port : Z;
}.

(** [check_server_key]: every host key is accepted. *)
Definition check_server_key (server_public_key : string) : bool := true.

Definition local_addr (h : SshClientHandler) : string := "127.0.0.1:" +:+ pretty (ch_local_port h).

(** The task of a forwarded channel: connect to the local service, then copy
    between the channel and the connection.  The result is what each side
    received, and nothing if the local service does not accept. *)
Definition handle_forwarded_tcpip_channel {Stream : Type}
    (connect : string → result string Stream)
    (copy_bidirectional : list string → Stream → list string * list string)
    (h : SshClientHandler) (channel : list string) : option (list string * list string) :=
  match connect (local_addr h) with
  | Ok local_stream => Some (copy_bidirectional channel local_stream)
  | Err _ => None
  end.

Section client.
Context `{Hclock : Clock W} `{Hssh : SshTransport W}.

Record TunnelClient := {
  tc_config : TunnelClientConfig;
  tc_session_id : string;
  tc_handle : option Handle;
}.

Definition TunnelClient_new (config : TunnelClientConfig) (session_id : string) : TunnelClient :=
  {| tc_config := config; tc_session_id := session_id; tc_handle := None |}.

Definition set_handle (o : option Handle) (c : TunnelClient) : TunnelClient :=
  {| tc_config := tc_config c; tc_session_id := tc_session_id c; tc_handle := o |}.

(** Operations that change the client: the world and the client are the state,
    an error is the text of the [anyhow::Error]. *)
#[local] Abbreviation tun A := (io (W * TunnelClient) string A).

Definition target_addr (c : TunnelClientConfig) : string :=
  tcc_hub_url c +:+ ":" +:+ pretty (tcc_hub_port c).

Definition establish_tunnel (key_pair : PrivateKey) : tun () := λ '(w, c),
  match ssh_connect (target_addr (tc_config c)) (tcc_connection_timeout (tc_config c)) w with
  | (w1, ConnectOk handle) =>
      match authenticate_publickey handle ("tunnel-" +:+ tc_session_id c) key_pair w1 with
      | (w2, AuthSuccess) => ((w2, set_handle (Some handle) c), Ok ())
      | (w2, AuthFailure) => ((w2, c), Err "SSH public key authentication failed")
      | (w2, AuthErr e) => ((w2, c), Err ("SSH public key authentication error: " +:+ e))
      end
  | (w1, ConnectErr e) => ((w1, c), Err ("SSH connection failed: " +:+ e))
  | (w1, ConnectTimeout) => ((w1, c), Err "SSH connection timeout")
  end.

Definition request_reverse_tunnel (allocated_port : Z) : tun () := λ '(w, c),
  match tc_handle c with
  | Some handle =>
      match ssh_tcpip_forward handle "0.0.0.0" allocated_port w with
      | (w1, Ok bound_port) => ((w1, c), Ok ())
      | (w1, Err e) => ((w1, c), Err ("Failed to send tcpip-forward request: " +:+ e))
      end
  | None => ((w, c), Err "No SSH handle available")
  end.

Definition is_connected (c : TunnelClient) (w : W) : bool :=
  match tc_handle c with Some h => negb (is_closed h w) | None => false end.

Definition send_keepalive : tun () := λ '(w, c),
  match tc_handle c with
  | None => ((w, c), Err "No active SSH handle")
  | Some handle =>
      if is_closed handle w then ((w, c), Err "SSH session closed")
      else match channel_open_session handle w with
           | (w1, ChannelOpened) => ((channel_close handle w1, c), Ok ())
           | (w1, ChannelOpenFailure) => ((w1, c), Ok ())
           | (w1, ChannelErr e) => ((w1, c), Err ("keepalive failed: " +:+ e))
           end
  end.

Definition close_tunnel : tun () := λ '(w, c),
  match tc_handle c with
  | Some handle => ((disconnect handle w, set_handle None c), Ok ())
  | None => ((w, c), Ok ())
  end.

(** The body of the keep-alive loop after the test of the expiry. *)
Definition keep_round : tun () := λ '(w, c),
  let w1 := sleep (tcc_keep_alive_interval (tc_config c)) w in
  if negb (is_connected c w1) then
    ((w1, c), Err "SSH session to EdgeHub dropped (detected within one keepalive interval)")
  else
    let '(wc, r) := send_keepalive (w1, c) in
    (wc, map_err (λ e, "SSH session lost: " +:+ e) r).

(** At most [fuel] rounds: the state reached, and the result if the loop ended. *)
Fixpoint run_loop (fuel : nat) (expires_at : Z) (wc : W * TunnelClient)
    : (W * TunnelClient) * option (result string ()) :=
  match fuel with
  | O => (wc, None)
  | S fuel' =>
      if expires_at <=? utc_now wc.1 then
        let '(wc', r) := close_tunnel wc in (wc', Some r)
      else
        match keep_round wc with
        | (wc', Ok _) => run_loop fuel' expires_at wc'
        | (wc', Err e) => (wc', Some (Err e))
        end
  end.

(** The rounds that fit before the expiry, and one more for its test. *)
Definition loop_fuel (interval expires_at now : Z) : nat :=
  S (Z.to_nat ((expires_at - now + interval - 1) / interval)).

Definition run_until_expiry (expires_at : Z) (wc : W * TunnelClient)
    : (W * TunnelClient) * option (result string ()) :=
  run_loop (loop_fuel (tcc_keep_alive_interval (tc_config wc.2)) expires_at (utc_now wc.1))
    expires_at wc.

(** [select!] against Ctrl-C: the signal, if there is one, arrives after [n]
    full rounds, [d] into the next sleep, and closes the tunnel. *)
Definition hold_tunnel (expires_at : Z) (ctrl_c : option (nat * Z)) (wc : W * TunnelClient)
    : (W * TunnelClient) * option (result string ()) :=
  match ctrl_c with
  | None => run_until_expiry expires_at wc
  | Some (n, d) =>
      match run_loop n expires_at wc with
      | (wc', Some r) => (wc', Some r)
      | ((w, c), None) =>
          let '(wc', r) := close_tunnel (sleep d w, c) in (wc', Some r)
      end
  end.
End client.

(** ** The tunnel manager *)

Inductive TunnelStatus := Creating | Active | Closing | Closed | Error (e : string).

Record TunnelSession := {
  ts_id : string;
  ts_fqdn : string;
  ts_slot : Z;
  ts_pubkey : string;
  ts_cert : string;
  ts_private_key : string;
  ts_expires_at : Z;
  ts_github_id : string;
  ts_local_port : Z;
  ts_status : TunnelStatus;
}.

Definition with_status (st : TunnelStatus) (t : TunnelSession) : TunnelSession :=
  {| ts_id := ts_id t; ts_fqdn := ts_fqdn t; ts_slot := ts_slot t; ts_pubkey := ts_pubkey t;
     ts_cert := ts_cert t; ts_private_key := ts_private_key t; ts_expires_at := ts_expires_at t;
     ts_github_id := ts_github_id t; ts_local_port := ts_local_port t; ts_status := st |}.

Record TunnelManager := {
  tm_keys : SshKeyManager;
  tm_sessions : gmap string TunnelSession;
}.

(** [get_mut(id)] and an assignment of the status. *)
Definition set_session_status (id : string) (st : TunnelStatus) (t : TunnelManager) : TunnelManager :=
  {| tm_keys := tm_keys t; tm_sessions := alter (with_status st) id (tm_sessions t) |}.

Definition add_session (s : TunnelSession) (t : TunnelManager) : TunnelManager :=
  {| tm_keys := tm_keys t; tm_sessions := <[ts_id s := s]> (tm_sessions t) |}.

(** What the commands print, as far as it depends on their work. *)
Inductive Line :=
  | TunnelCreated (s : TunnelSession) (fingerprint : string)
  | TunnelReachable (fqdn : string)
  | TunnelClosedCleanly
  | ForwardDone
  | NoActiveTunnels
  | TunnelRow (s : TunnelSession)
  | ListDone
  | TunnelRemoved (id : string)
  | TunnelNotFound (id : string)
  | CloseDone (id : string)
  | KeyInfo (k : SshKeyPair) (path : string)
  | KeysFound (k : SshKeyPair) (expired : bool)
  | NoKeysFound
  | CleanupDone
  | CleanupFailed (e : string)
  | Configuration (c : CliConfig) (is_dev_build : bool)
  | Help
  | Usage.

Section manager.
Context `{Hcodec : Codec} `{Htext : !CliText}.
Context `{Hclock : Clock W} `{Hfs : FileSystem W} `{Hhttp : HttpClient W} `{Hssh : SshTransport W}.
(** [dirs::home_dir()] and the environment of the process. *)
Context (home_dir : option string) (env : gmap string string).

Definition anyhow {S A} (c : io S FE.t A) : io S string A := io_map_err FE.to_string c.

Definition TunnelManager_new : io W string TunnelManager :=
  keys ← anyhow (SshKeyManager_new home_dir env);
  mret {| tm_keys := keys; tm_sessions := ∅ |}.

(** The name of the tunnel, and the one the client shows. *)
Definition subdomain_name (k : SshKeyPair) (subdomain : option string) : string :=
  match k_subdomain k with Some s => s | None => default "test" subdomain end.
Definition shown_fqdn (k : SshKeyPair) (subdomain : option string) : string :=
  match k_fqdn k with
  | Some f => f
  | None => subdomain_name k subdomain +:+ "." +:+ default "fleetingdns.run" (env !! "EDF_PUBLIC_DOMAIN")
  end.

Definition new_session (k : SshKeyPair) (port : Z) (subdomain : option string) : TunnelSession :=
  {| ts_id := k_session_id k; ts_fqdn := shown_fqdn k subdomain; ts_slot := k_slot k;
     ts_pubkey := k_public_key k; ts_cert := ""; ts_private_key := k_private_key k;
     ts_expires_at := k_expires_at k; ts_github_id := ""; ts_local_port := port;
     ts_status := Creating |}.

Definition hub_host (hub_url : string) : string := default hub_url (head (str_split ":" hub_url)).

Definition new_client (k : SshKeyPair) (port : Z) (subdomain : option string) (hub_url : string)
    (hub_port : Z) : TunnelClient :=
  TunnelClient_new
    {| tcc_hub_url := hub_host hub_url; tcc_hub_port := hub_port; tcc_local_port := port;
       tcc_subdomain := subdomain_name k subdomain; tcc_connection_timeout := secs 30;
       tcc_keep_alive_interval := secs 60 |} (k_session_id k).

(** Hold the tunnel and record how it ended. *)
Definition hold_and_report (ctrl_c : option (nat * Z)) (session : TunnelSession)
    (wc : W * TunnelClient) (t : TunnelManager) : (W * TunnelManager) * result string (list Line) :=
  let id := ts_id session in
  let t := set_session_status id Active t in
  match hold_tunnel (ts_expires_at session) ctrl_c wc with
  | ((w', _), Some (Ok _)) =>
      ((w', set_session_status id Closed t),
       Ok [TunnelReachable (ts_fqdn session); TunnelClosedCleanly])
  | ((w', _), Some (Err e)) => ((w', set_session_status id (Error e) t), Err e)
  | ((w', _), None) => ((w', t), Err "the keep-alive loop did not end")
  end.

(** From the connection on: connect and authenticate, ask for the slot, hold the
    tunnel; the status of the session follows. *)
Definition connect_and_hold (ctrl_c : option (nat * Z)) (session : TunnelSession)
    (ssh_key : PrivateKey) (client : TunnelClient) (w : W) (t : TunnelManager)
    : (W * TunnelManager) * result string (list Line) :=
  let id := ts_id session in
  match establish_tunnel ssh_key (w, client) with
  | ((w1, c1), Err e) =>
      ((w1, set_session_status id (Error e) t), Err ("SSH connection failed: " +:+ e))
  | ((w1, c1), Ok _) =>
      match request_reverse_tunnel (ts_slot session) (w1, c1) with
      | ((w2, c2), Err e) =>
          ((w2, set_session_status id (Error e) t),
           Err ("Reverse tunnel establishment failed: " +:+ e))
      | ((w2, c2), Ok _) => hold_and_report ctrl_c session (w2, c2) t
      end
  end.

Definition forward (ctrl_c : option (nat * Z)) (port ttl : Z) (subdomain hub_url : option string)
    (hub_port : option Z) : io (W * TunnelManager) string (list Line) := λ '(w, t),
  match anyhow (get_or_request_key_pair home_dir (tm_keys t) ttl port subdomain) w with
  | (w1, Err e) => ((w1, t), Err e)
  | (w1, Ok key_pair) =>
      let session := new_session key_pair port subdomain in
      let t := add_session session t in
      let client := new_client key_pair port subdomain (default "localhost" hub_url)
                      (default 2222 hub_port) in
      match decode_secret_key (k_private_key key_pair) with
      | Err e => ((w1, t), Err ("API-issued private key failed to parse: " +:+ e))
      | Ok ssh_key =>
          let '(wt, r) := connect_and_hold ctrl_c session ssh_key client w1 t in
          (wt, lines ← r; Ok (TunnelCreated session (k_fingerprint key_pair) :: lines))
      end
  end.

(** The sessions, in the order of the map. *)
Definition list_tunnels (t : TunnelManager) : list Line :=
  if decide (tm_sessions t = ∅) then [NoActiveTunnels]
  else (λ kv, TunnelRow kv.2) <$> map_to_list (tm_sessions t).

Definition manager_close_tunnel (id : string) (t : TunnelManager) : TunnelManager * list Line :=
  match tm_sessions t !! id with
  | Some _ => ({| tm_keys := tm_keys t; tm_sessions := delete id (tm_sessions t) |}, [TunnelRemoved id])
  | None => (t, [TunnelNotFound id])
  end.

Definition get_session (id : string) (t : TunnelManager) : option TunnelSession :=
  tm_sessions t !! id.

(** The identifiers are collected first and removed one by one. *)
Definition cleanup_expired_sessions (now : Z) (t : TunnelManager) : TunnelManager :=
  let expired := filter (λ kv, ts_expires_at kv.2 < now) (map_to_list (tm_sessions t)) in
  {| tm_keys := tm_keys t; tm_sessions := foldl (λ ss id, delete id ss) (tm_sessions t) expired.*1 |}.

(** ** Commands *)

Inductive KeyCommands := Request | Status | Cleanup | Test.
Inductive Commands :=
  | Forward (port ttl : Z) (subdomain : option string)
  | Keys (command : KeyCommands)
  | List
  | Close (id : string).

(** [str::parse::<u16>]. *)
Definition parse_u16 (s : string) : option Z :=
  z ← dec_value 0 (default s (strip_prefix "+" s));
  if (s =?s "") || (s =?s "+") then None else if z <? 65536 then Some z else None.

Definition hub_port_of (hub_url : string) : Z :=
  if str_has ":" hub_url then
    default 2222 (mbind (M := option) parse_u16 (str_split ":" hub_url !! 1%nat))
  else 2222.

(** The path a key command prints. *)
Definition shown_key_path (k : SshKeyPair) : string := private_key_path (default "." home_dir) k.

Definition execute_keys (c : KeyCommands) : io W string (list Line) :=
  m ← anyhow (SshKeyManager_new home_dir env);
  match c with
  | Request =>
      k ← anyhow (request_key_pair home_dir m 1800 8080 None);
      mret [KeyInfo k (shown_key_path k)]
  | Status =>
      io_try (load_existing_key_pair home_dir m) (λ r w,
        match r with
        | Ok k => (w, Ok [KeysFound k (k_expires_at k <? utc_now w)])
        | Err (FE.NotFound _) => (w, Ok [NoKeysFound])
        | Err e => (w, Err ("Key status check failed: " +:+ debug_error e))
        end)
  | Cleanup =>
      io_try (cleanup_session home_dir m) (λ r w,
        match r with
        | Ok _ => (w, Ok [CleanupDone])
        | Err e => (w, Ok [CleanupFailed (FE.to_string e)])
        end)
  | Test =>
      k ← anyhow (test_key_storage home_dir m);
      mret [KeyInfo k (shown_key_path k)]
  end.

Definition execute_command (ctrl_c : option (nat * Z)) (command : option Commands)
    (config : CliConfig) : io W string (list Line) :=
  match command with
  | Some (Forward port ttl subdomain) =>
      if ttl <? 60 then io_fail "TTL must be at least 60 seconds"
      else if 86400 <? ttl then io_fail "TTL cannot exceed 86400 seconds (24 hours)"
      else
        t ← TunnelManager_new;
        λ w, let '((w', _), r) := forward ctrl_c port ttl subdomain (Some (cc_hub_url config))
                                    (Some (hub_port_of (cc_hub_url config))) (w, t) in
             (w', lines ← r; Ok (lines ++ [ForwardDone]))
  | Some (Keys c) => execute_keys c
  | Some List =>
      t ← TunnelManager_new; mret (list_tunnels t ++ [ListDone])
  | Some (Close id) =>
      t ← TunnelManager_new; mret ((manager_close_tunnel id t).2 ++ [CloseDone id])
  | None => mret [Usage]
  end.

End manager.

(** ** The program *)

Record Cli := {
  cli_overrides : option (option string * option string);
  cli_show_config : bool;
  cli_help : bool;
  cli_command : option Commands;
}.

(** The endpoints of the build: a debug build replaces the default ones, a
    release build insists on them. *)
Definition with_endpoints (api hub : string) (c : CliConfig) : CliConfig :=
  {| cc_api_url := api; cc_hub_url := hub; cc_key_directory := cc_key_directory c;
     cc_default_ttl := cc_default_ttl c; cc_log_level := cc_log_level c |}.

Definition build_endpoints (is_dev_build : bool) (c : CliConfig) : CliConfig :=
  if is_dev_build then
    with_endpoints
      (if cc_api_url c =?s DEFAULT_API_URL then "http://localhost:8880" else cc_api_url c)
      (if cc_hub_url c =?s DEFAULT_HUB_URL then "localhost:2222" else cc_hub_url c) c
  else
    with_endpoints
      (if negb (cc_api_url c =?s DEFAULT_API_URL) then DEFAULT_API_URL else cc_api_url c)
      (if negb (cc_hub_url c =?s DEFAULT_HUB_URL) then DEFAULT_HUB_URL else cc_hub_url c) c.

(** The options of the [dev-overrides] feature; [None] when it is not built in. *)
Definition apply_overrides (o : option (option string * option string)) (c : CliConfig) : CliConfig :=
  match o with
  | Some (api, hub) => with_endpoints (default (cc_api_url c) api) (default (cc_hub_url c) hub) c
  | None => c
  end.

Definition VALID_LOG_LEVELS : list string := ["trace"; "debug"; "info"; "warn"; "error"].

Definition validate_config (c : CliConfig) : result string () :=
  if (cc_default_ttl c <? 60) || (86400 <? cc_default_ttl c) then
    Err "Default TTL must be between 60 and 86400 seconds"
  else if negb (bool_decide (cc_log_level c ∈ VALID_LOG_LEVELS)) then
    Err ("Invalid log level '" +:+ cc_log_level c +:+ "'. Must be one of: "
         +:+ str_join ", " VALID_LOG_LEVELS)
  else Ok ().

(** The hint printed with an error: the errors of the commands are texts, never
    an [std::io::Error]. *)
Inductive Hint := AuthenticationHint | UnexpectedHint.
Definition error_hint (e : string) : Hint :=
  if str_contains "authentication" e then AuthenticationHint else UnexpectedHint.

Inductive Exit :=
  | Success (out : list Line)
  | InvalidConfig (e : string)
  | CommandFailed (e : string) (hint : Hint).

Section program.
Context `{Hcodec : Codec} `{Htext : !CliText}.
Context `{Hclock : Clock W} `{Hfs : FileSystem W} `{Hhttp : HttpClient W} `{Hssh : SshTransport W}.

Definition main_config (home_dir : option string) (is_dev_build : bool) (cli : Cli) : CliConfig :=
  apply_overrides (cli_overrides cli)
    (build_endpoints is_dev_build
       (match load_config home_dir with Ok c => c | Err _ => default_cli_config home_dir end)).

Definition main (home_dir : option string) (env : gmap string string) (is_dev_build : bool)
    (ctrl_c : option (nat * Z)) (cli : Cli) (w : W) : W * Exit :=
  let config := main_config home_dir is_dev_build cli in
  let env := <["EDF_API_URL" := cc_api_url config]> env in
  match validate_config config with
  | Err e => (w, InvalidConfig e)
  | Ok _ =>
      if cli_show_config cli then (w, Success [Configuration config is_dev_build])
      else if cli_help cli then (w, Success [Help])
      else
        match execute_command home_dir env ctrl_c (cli_command cli) config w with
        | (w', Ok out) => (w', Success out)
        | (w', Err e) => (w', CommandFailed e (error_hint e))
        end
  end.
End program.

(** ** The keep-alive loop *)

Section loop.
Context `{Hclock : Clock W} `{Hssh : SshTransport W} `{Hspec : !ClockSpec W}.
Implicit Types (w : W) (c : TunnelClient) (wc : W * TunnelClient).

(** A round that starts before the expiry and finds the session alive. *)
Definition alive_round (expires_at : Z) wc wc' : Prop :=
  utc_now wc.1 < expires_at ∧ keep_round wc = (wc', Ok ()).

Lemma keep_round_spec w c h :
  tc_handle c = Some h → 0 ≤ tcc_keep_alive_interval (tc_config c) →
  let w1 := sleep (tcc_keep_alive_interval (tc_config c)) w in
  ∃ w' r, keep_round (w, c) = ((w', c), r)
    ∧ utc_now w + tcc_keep_alive_interval (tc_config c) ≤ utc_now w'
    ∧ (is_ok r = false ↔ is_closed h w1 = true ∨ ∃ e, (channel_open_session h w1).2 = ChannelErr e).
Proof.
  intros Hh Hi w1. unfold keep_round, is_connected, send_keepalive. rewrite Hh.
  fold w1. pose proof (sleep_clock (tcc_keep_alive_interval (tc_config c)) w Hi) as Hs. fold w1 in Hs.
  destruct (is_closed h w1); cbn [negb].
  - eexists _, _. split; [done|]. split; [done|]. naive_solver.
  - pose proof (open_clock h w1) as Ho. destruct (channel_open_session h w1) as [w2 []]; cbn in *.
    + pose proof (close_clock h w2). eexists _, _. split; [done|]. split; [lia|]. naive_solver.
    + eexists _, _. split; [done|]. split; [lia|]. naive_solver.
    + eexists _, _. split; [done|]. split; [lia|]. naive_solver.
Qed.

(** Enough fuel: the loop ends, after some rounds that found the session alive,
    either at the test of the expiry or in a round that did not. *)
Lemma run_loop_spec fuel expires_at w c h :
  tc_handle c = Some h → 0 < tcc_keep_alive_interval (tc_config c) →
  expires_at - utc_now w ≤ Z.of_nat fuel * tcc_keep_alive_interval (tc_config c) →
  ∃ n wn, nsteps (alive_round expires_at) n (w, c) (wn, c)
    ∧ utc_now w + Z.of_nat n * tcc_keep_alive_interval (tc_config c) ≤ utc_now wn
    ∧ run_loop (S fuel) expires_at (w, c)
      = (if expires_at <=? utc_now wn then ((disconnect h wn, set_handle None c), Some (Ok ()))
         else let '(wc', r) := keep_round (wn, c) in (wc', Some r))
    ∧ (utc_now wn < expires_at → is_ok (keep_round (wn, c)).2 = false).
Proof.
  intros Hh Hi. revert w. induction fuel as [|fuel IH]; intros w Hf.
  - exists 0%nat, w. split; [constructor|]. split; [lia|].
    cbn [run_loop fst]. rewrite (proj2 (Z.leb_le _ _)) by lia. unfold close_tunnel. rewrite Hh.
    split; [done|lia].
  - destruct (Z.leb_spec expires_at (utc_now w)) as [Hle|Hlt].
    + exists 0%nat, w. split; [constructor|]. split; [lia|].
      cbn [run_loop fst]. rewrite (proj2 (Z.leb_le _ _)) by lia. unfold close_tunnel. rewrite Hh.
      split; [done|lia].
    + destruct (keep_round_spec w c h Hh) as (w' & r & E & Hc & _); [lia|]. destruct r as [[]|e].
      * destruct (IH w') as (n & wn & Hn & Hr & Hrun & He); [lia|].
        exists (S n), wn. split; [econstructor; [|done]; by split|]. split; [lia|]. split; [|done].
        rewrite <- Hrun. cbn [run_loop]. change (fst (w, c)) with w.
        rewrite (proj2 (Z.leb_gt _ _)) by lia. by rewrite E.
      * exists 0%nat, w. split; [constructor|]. split; [lia|].
        cbn [run_loop]. change (fst (w, c)) with w.
        rewrite (proj2 (Z.leb_gt _ _)) by lia. rewrite E. by split.
Qed.

Lemma loop_fuel_enough interval expires_at now :
  0 < interval →
  expires_at - now ≤ Z.of_nat (pred (loop_fuel interval expires_at now)) * interval.
Proof.
  intros Hi. unfold loop_fuel. cbn [pred].
  pose proof (Z.div_mod (expires_at - now + interval - 1) interval).
  pose proof (Z.mod_pos_bound (expires_at - now + interval - 1) interval Hi).
  assert ((expires_at - now + interval - 1) / interval
          ≤ Z.of_nat (Z.to_nat ((expires_at - now + interval - 1) / interval))) by lia. nia.
Qed.

(** The last round before the expiry is over by then plus one interval and what
    the keep-alive itself takes. *)
Lemma rounds_bound expires_at slack n w wn c h :
  tc_handle c = Some h → 0 ≤ tcc_keep_alive_interval (tc_config c) →
  (∀ w w', alive_round expires_at (w, c) (w', c) →
     utc_now w' ≤ utc_now w + tcc_keep_alive_interval (tc_config c) + slack) →
  nsteps (alive_round expires_at) n (w, c) (wn, c) →
  utc_now wn ≤ Z.max (utc_now w) (expires_at + tcc_keep_alive_interval (tc_config c) + slack).
Proof.
  intros Hh Hi Hs. revert w. induction n as [|n IH]; intros w Hn.
  - inversion Hn; simplify_eq. lia.
  - inversion Hn as [|? ? [w1 c1] ? Hxy Hyz]; subst.
    assert (c1 = c) as ->.
    { destruct (keep_round_spec w c h Hh Hi) as (w' & r & E & _). destruct Hxy as [_ Hk].
      rewrite E in Hk. by simplify_eq. }
    pose proof (IH _ Hyz). pose proof (Hs _ _ Hxy). destruct Hxy as [Hlt _]. cbn in Hlt. lia.
Qed.
End loop.

(** C21: the tunnel is held until it expires.  The keep-alive loop always ends.
    It ends well only at or after the expiry, at most one interval and one
    keep-alive later, with the session closed; otherwise it ends with an error
    before the expiry, in the first round that finds the session closed or whose
    keep-alive fails, every earlier round having found it alive. *)
Theorem run_until_expiry_correct `{Clock W} `{SshTransport W} `{!ClockSpec W}
    expires_at slack (w : W) c h
    (Hh : tc_handle c = Some h) (Hi : 0 < tcc_keep_alive_interval (tc_config c))
    (Hslack : ∀ w w', alive_round expires_at (w, c) (w', c) →
       utc_now w' ≤ utc_now w + tcc_keep_alive_interval (tc_config c) + slack) :
  ∃ n wn, nsteps (alive_round expires_at) n (w, c) (wn, c)
    ∧ match run_until_expiry expires_at (w, c) with
      | (wc', Some (Ok _)) =>
          expires_at ≤ utc_now wn
          ∧ utc_now wn ≤ Z.max (utc_now w) (expires_at + tcc_keep_alive_interval (tc_config c) + slack)
          ∧ wc' = (disconnect h wn, set_handle None c)
      | (wc', Some (Err e)) =>
          utc_now wn < expires_at ∧ keep_round (wn, c) = (wc', Err e)
          ∧ let w1 := sleep (tcc_keep_alive_interval (tc_config c)) wn in
            (is_closed h w1 = true ∨ ∃ e, (channel_open_session h w1).2 = ChannelErr e)
      | (_, None) => False
      end.
Proof.
  unfold run_until_expiry. cbn [fst snd].
  pose proof (loop_fuel_enough (tcc_keep_alive_interval (tc_config c)) expires_at (utc_now w) Hi) as Hf.
  destruct (loop_fuel _ _ _) as [|fuel] eqn:El; [discriminate El|]. cbn [pred] in Hf.
  destruct (run_loop_spec fuel expires_at w c h Hh Hi Hf) as (n & wn & Hn & _ & -> & Hbad).
  exists n, wn. split; [done|]. destruct (Z.leb_spec expires_at (utc_now wn)) as [Hle|Hlt].
  - split_and!; [done| |done]. by eapply rounds_bound in Hn; [|done|lia|].
  - specialize (Hbad Hlt). destruct (keep_round_spec wn c h Hh) as (w' & r & E & _ & Hiff); [lia|].
    rewrite E in Hbad |- *. cbn in Hbad. destruct r as [|e]; [done|]. split_and!; [done..|].
    by apply Hiff.
Qed.

(** ** The manager and the commands *)

Lemma foldl_delete_list {A} (ks : list string) (m : gmap string A) i :
  foldl (λ ss id, delete id ss) m ks !! i = if decide (i ∈ ks) then None else m !! i.
Proof.
  revert m. induction ks as [|k ks IH]; intros m; cbn [foldl]; [by rewrite decide_False by apply not_elem_of_nil|].
  rewrite IH. destruct (decide (i = k)) as [->|Hne].
  - rewrite lookup_delete_eq, (decide_True (P := k ∈ k :: ks)) by left. by case_decide.
  - rewrite lookup_delete_ne by congruence. repeat case_decide; set_solver.
Qed.

(** Removing the collected identifiers keeps exactly the unexpired sessions. *)
Lemma client_cleanup_correct now t :
  tm_sessions (cleanup_expired_sessions now t)
    = filter (λ kv, now ≤ ts_expires_at kv.2) (tm_sessions t).
Proof.
  apply map_eq. intros i. cbn [cleanup_expired_sessions tm_sessions]. rewrite foldl_delete_list.
  apply option_eq. intros s. rewrite map_lookup_filter_Some. cbn [snd].
  assert (i ∈ (filter (λ kv, ts_expires_at kv.2 < now) (map_to_list (tm_sessions t))).*1
          ↔ ∃ s, tm_sessions t !! i = Some s ∧ ts_expires_at s < now) as Hin.
  { rewrite list_elem_of_fmap. split.
    - intros ([k s'] & -> & [Hs Hm%elem_of_map_to_list]%list_elem_of_filter). by exists s'.
    - intros (s' & Hs & Hlt). exists (i, s'). split; [done|]. apply list_elem_of_filter.
      split; [done|]. by apply elem_of_map_to_list. }
  case_decide as Hd.
  - apply Hin in Hd as (s' & Hs & Hlt). split; [done|]. intros [E Hle]. rewrite Hs in E. simplify_eq. lia.
  - split.
    + intros E. split; [done|]. destruct (Z.le_gt_cases now (ts_expires_at s)); [done|].
      destruct Hd. apply Hin. by exists s.
    + by intros [E _].
Qed.

Section commands.
Context `{Hcodec : Codec} `{Htext : !CliText}.
Context `{Hclock : Clock W} `{Hfs : FileSystem W} `{Hhttp : HttpClient W} `{Hssh : SshTransport W}.
Context (home_dir : option string) (env : gmap string string).

(** A session that ended well is marked closed. *)
Lemma forward_closed ctrl_c port ttl sub hub hport (w w' : W) t t' out :
  forward home_dir env ctrl_c port ttl sub hub hport (w, t) = ((w', t'), Ok out) →
  ∃ k s, tm_sessions t' !! k_session_id k = Some s ∧ ts_status s = Closed
    ∧ out = [TunnelCreated (new_session env k port sub) (k_fingerprint k);
             TunnelReachable (shown_fqdn env k sub); TunnelClosedCleanly].
Proof.
  unfold forward. destruct (anyhow _ w) as [w1 [k|e]]; [|by intros [= <- <-]].
  destruct (decode_secret_key _) as [key|e]; [|by intros [= <- <-]].
  unfold connect_and_hold, hold_and_report.
  destruct (establish_tunnel _ _) as [[w2 c2] [[]|e]]; [|done].
  destruct (request_reverse_tunnel _ _) as [[w3 c3] [[]|e]]; [|done].
  destruct (hold_tunnel _ _ _) as [[w4 c4] [[[]|e]|]]; [|done..].
  intros [= <- <- <-]. exists k. cbn [tm_sessions set_session_status add_session ts_id new_session].
  rewrite !lookup_alter_eq, lookup_insert_eq. eexists. split; [done|]. done.
Qed.

(** Every command starts with an empty manager: [list] never shows a tunnel and
    [close] never finds one, yet reports success. *)
Lemma TunnelManager_new_empty (w w' : W) t :
  TunnelManager_new home_dir env w = (w', Ok t) → tm_sessions t = ∅.
Proof. unfold TunnelManager_new. intros E. inv_io E. by simplify_eq. Qed.

Lemma list_shows_nothing ctrl_c config (w w' : W) out :
  execute_command home_dir env ctrl_c (Some List) config w = (w', Ok out) →
  out = [NoActiveTunnels; ListDone].
Proof.
  cbn [execute_command]. intros E. inv_io E. apply TunnelManager_new_empty in Hio. simplify_eq.
  unfold list_tunnels. by rewrite decide_True.
Qed.

Lemma close_finds_nothing ctrl_c config id (w w' : W) out :
  execute_command home_dir env ctrl_c (Some (Close id)) config w = (w', Ok out) →
  out = [TunnelNotFound id; CloseDone id].
Proof.
  cbn [execute_command]. intros E. inv_io E. apply TunnelManager_new_empty in Hio. simplify_eq.
  unfold manager_close_tunnel. by rewrite Hio, lookup_empty.
Qed.

(** A forward ends well only if the hub's address was reached. *)
Lemma forward_reaches ctrl_c port ttl sub hub hport (w w' : W) t t' out :
  forward home_dir env ctrl_c port ttl sub hub hport (w, t) = ((w', t'), Ok out) →
  ∃ w1 handle, (ssh_connect (hub_host (default "localhost" hub) +:+ ":" +:+ pretty (default 2222 hport))
                 (secs 30) w1).2 = ConnectOk handle.
Proof.
  unfold forward. destruct (anyhow _ w) as [w1 [k|e]]; [|done].
  destruct (decode_secret_key _) as [key|e]; [|done].
  unfold connect_and_hold, establish_tunnel, target_addr.
  cbn [new_client TunnelClient_new tc_config tcc_hub_url tcc_hub_port tcc_connection_timeout].
  destruct (ssh_connect _ _ w1) as [w2 [handle|e|]] eqn:E; [|done..].
  intros _. exists w1, handle. by rewrite E.
Qed.
End commands.

(** A release build cannot reach its hub.  The hub's URL carries a scheme,
    the client splits it at the first colon, and so a release build without
    overrides connects to the host "https" on port 2222; where that host does not
    answer, no forward ends well, whatever its arguments and the API say. *)
Lemma release_forward_fails `{Codec} `{!CliText} `{Clock W} `{FileSystem W} `{HttpClient W}
    `{SshTransport W} home_dir env ctrl_c port ttl sub show help (w : W)
    (Hno : ∀ w' : W, match (ssh_connect "https:2222" (secs 30) w').2 with ConnectOk _ => False | _ => True end)
    (Hrun : show = false ∧ help = false) :
  ∃ w' e, main home_dir env false ctrl_c
    {| cli_overrides := None; cli_show_config := show; cli_help := help;
       cli_command := Some (Forward port ttl sub) |} w = (w', CommandFailed e (error_hint e)).
Proof.
  destruct Hrun as [-> ->]. unfold main. cbn [cli_overrides cli_show_config cli_help cli_command].
  change (validate_config _) with (@Ok string () ()). cbv iota zeta.
  destruct (execute_command _ _ _ _ _ w) as [w' [out|e]] eqn:E; [|by eexists _, _].
  exfalso. cbn [execute_command] in E. destruct (ttl <? 60); [done|]. destruct (86400 <? ttl); [done|].
  apply io_bind_ok in E as (w1 & t & _ & E).
  destruct (forward _ _ _ _ _ _ _ _ _) as [[w2 t2] [lines|e]] eqn:Ef; [|done].
  apply forward_reaches in Ef as (w3 & handle & Ef).
  change (hub_host _ +:+ ":" +:+ pretty _) with "https:2222" in Ef.
  specialize (Hno w3). by rewrite Ef in Hno.
Qed.

(** ** Examples *)
Module ClientDemo.
Import MemMachine KeysDemo BitCodec.

(** A hub at [localhost] that drops the session after 150 seconds. *)
#[export] Instance demo_transport : SshTransport (machine unit) := {|
  PrivateKey := string;
  Handle := unit;
  decode_secret_key := Ok;
  ssh_connect a d w := (w, if a =?s "localhost:2222" then ConnectOk () else ConnectErr "unreachable");
  authenticate_publickey h u k w := (w, AuthSuccess);
  ssh_tcpip_forward h a p w := (w, Ok p);
  is_closed h w := secs 150 <=? mc_now w;
  channel_open_session h w := (w, ChannelOpenFailure);
  channel_close h w := w;
  disconnect h w := w |}.

#[export] Instance demo_clock_spec : ClockSpec (machine unit).
Proof. split; cbn; intros; lia. Qed.

#[export] Instance no_api : HttpClient (machine unit) :=
  {| http_post r w := (w, Err "connection refused") |}.

Definition client : TunnelClient := set_handle (Some ()) (TunnelClient_new default_client_config "5").

Lemma round_is_punctual (w w' : machine unit) :
  keep_round (w, client) = ((w', client), Ok ()) → utc_now w' ≤ utc_now w + secs 60 + 0.
Proof.
  unfold keep_round, send_keepalive. destruct (is_connected _ _); [|done]. cbn [negb].
  cbn. destruct (_ <=? _); [done|]. intros [= <-]. cbn. unfold secs. lia.
Qed.

Example held_until_expiry :
  run_until_expiry (secs 100) (blank, client)
    = ((sleep (secs 60) (sleep (secs 60) blank), set_handle None client), Some (Ok ())).
Proof. eval_eq. Qed.

Lemma run_until_expiry_correct_witness :
  ∃ n wn, nsteps (alive_round (secs 100)) n (blank, client) (wn, client)
    ∧ secs 100 ≤ utc_now wn ≤ secs 160.
Proof.
  destruct (run_until_expiry_correct (secs 100) 0 blank client ()) as (n & wn & Hn & Hres).
  - reflexivity.
  - reflexivity.
  - intros w w' [_ Hk]. exact (round_is_punctual w w' Hk).
  - exists n, wn. split; [exact Hn|]. rewrite held_until_expiry in Hres.
    destruct Hres as (Hlo & Hhi & _).
    split; [exact Hlo|]. transitivity (Z.max 0 (secs 160)); [exact Hhi|unfold secs; lia].
Defined.

Example dropped_before_expiry :
  (run_until_expiry (secs 1000) (blank, client)).2
    = Some (Err "SSH session to EdgeHub dropped (detected within one keepalive interval)").
Proof. eval_eq. Qed.

Lemma release_forward_fails_witness :
  ∃ w' e, main (Some "/home/ann") ∅ false None
    {| cli_overrides := None; cli_show_config := false; cli_help := false;
       cli_command := Some (Forward 3000 1800 None) |} blank = (w', CommandFailed e (error_hint e)).
Proof.
  apply (release_forward_fails (Some "/home/ann") ∅ None 3000 1800 None false false blank).
  - intros w'. exact I.
  - split; reflexivity.
Defined.
End ClientDemo.
