(* ===== verification/ClientSystem.v ===== *)
(** * The client with the services

    The command line client run against the control API and the SSH hub: the
    network the client sees is the API's tunnel handler and the hub over one
    Redis server, and the messages between them are the JSON documents and the SSH
    requests of the sources. *)

From S2P Require Import Prelude Redis Serde Models Errors Net Auth Quota RedisCache CA Storage.
From S2P Require Import TunnelsApi SshHub EdgeRouter System CliKeys CliTunnel.

(** ** Scans that end *)

(** ** Messages *)

Section wire.
Context `{Hcodec : Codec}.

Definition request_fields : list string :=
  ["port"; "ttl"; "custom_subdomain"; "auth"; "protected"; "teardown_policy"].

(** The derived [Deserialize] of the request. *)
Definition de_CreateTunnelRequest (j : json) : option CreateTunnelRequest :=
  vs ← fields_of request_fields j;
  match vs with
  | [port; ttl; sub; auth; prot; pol] =>
      port ← de_uint 16 port; ttl ← de_option (de_uint 64) ttl; sub ← de_option de_string sub;
      auth ← de_option de_bool auth; prot ← de_option de_bool prot; pol ← de_option de_policy pol;
      Some {| q_port := port; q_ttl := ttl; q_custom_subdomain := sub; q_auth := auth;
              q_protected := prot; q_teardown_policy := pol |}
  | _ => None
  end.

(** The derived [Serialize] of the answer. *)
Definition ser_ssh_key (k : TunnelsApi.SshKeyPair) : json :=
  JObj [("private_key", JStr (private_key k)); ("public_key", JStr (public_key k));
        ("fingerprint", JStr (key_fingerprint k))].
Definition ser_credentials (o : option BasicAuthCredentials) : json :=
  match o with
  | Some b => JObj [("username", JStr (ba_username b)); ("password", JStr (ba_password b))]
  | None => JNull
  end.
Definition ser_CreateTunnelResponse (c : CreateTunnelResponse) : json :=
  JObj [("id", JStr (c_id c)); ("fqdn", JStr (c_fqdn c)); ("slot", JNum (c_slot c));
        ("tls_cert", JStr (c_tls_cert c)); ("private_key", JStr (c_private_key c));
        ("ssh_key", ser_ssh_key (c_ssh_key c)); ("expires_at", JStr (c_expires_at c));
        ("auth", ser_credentials (c_auth c))].

(** What the client asks for, as the API reads it. *)
Definition asked (ttl port : Z) (sub : option string) : CreateTunnelRequest :=
  {| q_port := port; q_ttl := Some ttl; q_custom_subdomain := sub; q_auth := None;
     q_protected := None; q_teardown_policy := None |}.

Lemma tunnel_request_decodes ttl port sub :
  u16_ok port → u64_ok ttl →
  json_from_str (json_to_string (tunnel_request ttl port sub)) ≫= de_CreateTunnelRequest
    = Some (asked ttl port sub).
Proof.
  intros Hp Ht. rewrite json_roundtrip.
  - unfold de_CreateTunnelRequest, tunnel_request.
    assert (fields_of request_fields (JObj
        (match sub with Some sub => [("custom_subdomain", JStr sub)] | None => [] end
         ++ [("port", JNum port); ("ttl", JNum ttl)]))
      = Some [Some (JNum port); Some (JNum ttl); JStr <$> sub; None; None; None]) as E
      by by destruct sub. cbn [mbind option_bind]. rewrite E. cbn [mbind option_bind].
    rewrite de_uint_ok by done. cbn [mbind option_bind de_option].
    rewrite de_uint_ok by done. by destruct sub.
  - unfold u16_ok, u64_ok in *. destruct sub; cbn; lia.
Qed.

(** The client reads back every field it keeps. *)
Lemma parse_created now ttl resp expires :
  u16_ok (c_slot resp) → parse_from_rfc3339 (c_expires_at resp) = Some expires →
  parse_tunnel_response now ttl (ser_CreateTunnelResponse resp) = Ok
    {| k_public_key := public_key (c_ssh_key resp); k_private_key := private_key (c_ssh_key resp);
       k_key_type := "ed25519"; k_fingerprint := key_fingerprint (c_ssh_key resp);
       k_created_at := now; k_expires_at := expires; k_session_id := c_id resp;
       k_slot := c_slot resp; k_fqdn := Some (c_fqdn resp); k_subdomain := None |}.
Proof.
  intros Hs He. unfold parse_tunnel_response, text_member, get_str, get_u64.
  change (value_get "ssh_key" (ser_CreateTunnelResponse resp)) with (Some (ser_ssh_key (c_ssh_key resp))).
  change (value_get "expires_at" (ser_CreateTunnelResponse resp)) with (Some (JStr (c_expires_at resp))).
  change (value_get "slot" (ser_CreateTunnelResponse resp)) with (Some (JNum (c_slot resp))).
  cbn -[as_u16]. rewrite He. unfold u16_ok in Hs.
  destruct (_ && _) eqn:Eb; [|lia]. cbn -[as_u16]. by rewrite as_u16_id.
Qed.

Lemma created_json_wf resp : u16_ok (c_slot resp) → json_wf (ser_CreateTunnelResponse resp) = true.
Proof. unfold u16_ok. intros. cbn. destruct (c_auth resp); cbn; lia. Qed.
End wire.

(** ** The network *)

Import MemMachine.

(** russh's private keys on the client: their text form and their public half. *)
Class ClientKeys `{SshKeys} := {
  SecretKey : Type;
  public_of : SecretKey → PublicKey;
  decode_openssh : string → result string SecretKey;
}.

Section network.
Context `{Hredis : RedisServer R} `{Hcodec : Codec} `{Hrcgen : Rcgen} `{Hmd5 : Md5}.
Context `{Hkeys : SshKeys} `{Hck : !ClientKeys} `{Hos : Os}.
(** The configurations of the two services, the random choices of the API, the
    text of its error bodies, the identifier of an error and the address the hub
    sees. *)
Context (cfg : ApiConfig) (hubcfg : HubConfig) (e : Env).
Context (error_text : AE.ErrorResponse → string) (error_id : uuid) (peer : SocketAddr).

Record Net := { n_api : ApiState (R := R); n_hub : Hub }.
#[local] Abbreviation world := (machine Net).

Definition LOCAL_API : string := "http://localhost:8880".
Definition LOCAL_HUB : string := "localhost:2222".

Definition header_map (l : list (string * string)) : HeaderMap :=
  list_to_map ((λ kv, (str_map to_ascii_lowercase kv.1, {| hv_to_str := Some kv.2 |})) <$> l).

(** The tunnel handler behind its JSON extractor and [IntoResponse]. *)
Definition serve_post now (req : PostRequest) (s : ApiState (R := R))
    : ApiState (R := R) * PostResponse :=
  match json_from_str (json_to_string (rq_json req)) ≫= de_CreateTunnelRequest with
  | None => (s, {| rs_status := 422; rs_body := Ok "Failed to deserialize the JSON body" |})
  | Some q =>
      match create_tunnel cfg now e (header_map (rq_headers req)) q s with
      | (s', Ok resp) =>
          (s', {| rs_status := 200; rs_body := Ok (json_to_string (ser_CreateTunnelResponse resp)) |})
      | (s', Err err) =>
          let r := AE.into_response now error_id err in
          (s', {| rs_status := r.1; rs_body := Ok (error_text r.2) |})
      end
  end.

Definition set_net (n : Net) (w : world) : world :=
  {| mc_now := mc_now w; mc_files := mc_files w;
     mc_net := n |}.
Definition set_redis (r : R) (s : ApiState (R := R)) : ApiState (R := R) :=
  {| st_redis := r; st_usage := st_usage s; st_ca := st_ca s; st_events := st_events s |}.

(** The API listens at [api_url]. *)
Definition net_http (api_url : string) : HttpClient world := {|
  http_post req w :=
    if rq_url req =?s api_url +:+ "/v1/tunnels" then
      let n := mc_net w in
      let '(s', resp) := serve_post (mc_now w) req (n_api n) in
      (set_net {| n_api := s'; n_hub := n_hub n |} w, Ok resp)
    else (w, Err "error sending request") |}.

(** The number of a new session. *)
Definition next_sid (h : Hub) : nat := S (foldr Nat.max 0%nat (elements (dom (sessions h)))).

Definition hub_authenticate (sid : nat) (user : string) (key : SecretKey) (w : world)
    : world * AuthResult :=
  let n := mc_net w in
  match sessions (n_hub n) !! sid with
  | None => (w, AuthErr "Disconnected")
  | Some s =>
      let '(s', b', r', ok) := auth_publickey hubcfg (mc_now w) user (public_of key) s
        (brute_force_protection (n_hub n)) (st_redis (n_api n)) in
      (set_net {| n_api := set_redis r' (n_api n);
                  n_hub := set_session sid s' (set_bfp b' (n_hub n)) |} w,
       if (ok : bool) then AuthSuccess else AuthFailure)
  end.

Definition hub_forward (sid : nat) (port : Z) (w : world) : world * result string Z :=
  let n := mc_net w in
  match sessions (n_hub n) !! sid with
  | None => (w, Err "Disconnected")
  | Some s =>
      let '(s', h', r', (ok, bound)) := tcpip_forward hubcfg (mc_now w) port s (n_hub n)
        (st_redis (n_api n)) in
      (set_net {| n_api := set_redis r' (n_api n); n_hub := set_session sid s' h' |} w,
       if (ok : bool) then Ok bound else Err "Request denied")
  end.

Definition hub_disconnect (sid : nat) (w : world) : world :=
  let n := mc_net w in
  match sessions (n_hub n) !! sid with
  | None => w
  | Some s =>
      let h' := drop_session s (n_hub n) in
      set_net {| n_api := n_api n;
                 n_hub := {| brute_force_protection := brute_force_protection h';
                             sessions := delete sid (sessions h'); tasks := tasks h';
                             next_task := next_task h'; edge_tunnels_open := edge_tunnels_open h' |} |} w
  end.

(** The hub opens no session channels: the keep-alive's open is refused. *)
Definition net_ssh : SshTransport world := {|
  PrivateKey := SecretKey;
  Handle := nat;
  decode_secret_key := decode_openssh;
  ssh_connect a d w :=
    if a =?s LOCAL_HUB then
      let n := mc_net w in
      let sid := next_sid (n_hub n) in
      (set_net {| n_api := n_api n;
                  n_hub := set_session sid (SshHub.new_session peer) (n_hub n) |} w, ConnectOk sid)
    else (w, ConnectErr "failed to lookup address information");
  authenticate_publickey := hub_authenticate;
  ssh_tcpip_forward sid a port w := hub_forward sid port w;
  is_closed sid w := bool_decide (sessions (n_hub (mc_net w)) !! sid = None);
  channel_open_session sid w :=
    (w, if decide (sessions (n_hub (mc_net w)) !! sid = None)
        then ChannelErr "Disconnected" else ChannelOpenFailure);
  channel_close sid w := w;
  disconnect := hub_disconnect;
|}.

Lemma net_clock_spec : ClockSpec world (H0 := net_ssh).
Proof. split; cbn; intros; lia. Qed.
End network.

(** ** The key pair of a created tunnel *)

(** File operations of the machine leave the clock and the network alone. *)
Definition same_rest {N} (w w' : machine N) : Prop := mc_now w' = mc_now w ∧ mc_net w' = mc_net w.

Lemma store_same_rest {N} `{Codec} `{!CliText} home m k (w w' : machine N) path :
  store_private_key (Some home) m k w = (w', Ok path) → same_rest w w'.
Proof.
  intros E. unfold store_private_key, io_err in E. inv_io E.
  repeat match goal with Hx : io_map_err _ _ _ = (_, Ok _) |- _ => apply io_map_err_ok in Hx end.
  injection Hio as <- <-. cbn in *. simplify_eq.
  match goal with Hx : match ?o with _ => _ end = _ |- _ => destruct o; simplify_eq end. done.
Qed.

Lemma create_tunnel_expires `{RedisServer R} `{Codec} `{Rcgen} `{Md5} cfg now e headers q
    (s s' : ApiState (R := R)) resp :
  create_tunnel cfg now e headers q s = (s', Ok resp) →
  c_expires_at resp = to_rfc3339 (now + secs (lifetime q)).
Proof.
  unfold create_tunnel. intros E.
  repeat match type of E with
  | _ = _ => apply io_bind_ok in E as (? & ? & _ & E); cbn beta zeta in E
  | (let '(_, _) := ?p in _) _ = _ => destruct p
  end.
  by apply io_ret_inv in E as [_ [= ->]].
Qed.

Section end_to_end.
Context `{Hspec : RedisSpec R} `{Hup : !RedisAvailable R}.
Context `{Hcodec : Codec} `{Htext : !CliText} `{Hrcgen : Rcgen} `{Hmd5 : Md5}.
Context `{Hkeys : SshKeys} `{Hck : !ClientKeys} `{Hos : Os}.
Context (cfg : ApiConfig) (hubcfg : HubConfig) (e : Env).
Context (error_text : AE.ErrorResponse → string) (error_id : uuid) (peer : SocketAddr).
#[local] Abbreviation world := (machine (Net (R := R))).
#[local] Instance http_net : HttpClient world := net_http cfg e error_text error_id LOCAL_API.
#[local] Instance ssh_net : SshTransport world := net_ssh hubcfg peer.

(** The only header the client sends to a local API. *)
Definition dev_headers : HeaderMap := header_map [("x-development-bypass", "true")].

(** The pair the client keeps of an answer. *)
Definition pair_of (now : Z) (resp : CreateTunnelResponse) (expires : Z) : SshKeyPair :=
  {| k_public_key := public_key (c_ssh_key resp); k_private_key := private_key (c_ssh_key resp);
     k_key_type := "ed25519"; k_fingerprint := key_fingerprint (c_ssh_key resp);
     k_created_at := now; k_expires_at := expires; k_session_id := c_id resp;
     k_slot := c_slot resp; k_fqdn := Some (c_fqdn resp); k_subdomain := None |}.

Definition local_manager (home : string) : SshKeyManager :=
  {| km_key_directory := path_join (path_join home ".edf") "keys";
     km_api_base_url := "http://localhost:8880"; km_auth_token := None |}.

Lemma client_gets_pair home ttl port sub (w : world) s' resp expires :
  mc_files w !! session_info_path (local_manager home) = None →
  u16_ok port → u64_ok ttl → u16_ok (c_slot resp) →
  parse_from_rfc3339 (c_expires_at resp) = Some expires →
  create_tunnel cfg (mc_now w) e dev_headers (asked ttl port sub) (n_api (mc_net w)) = (s', Ok resp) →
  let m := local_manager home in
  let k := pair_of (mc_now w) resp expires in
  ∃ w1, get_or_request_key_pair (Some home) m ttl port sub w = (w1, Ok k)
    ∧ mc_now w1 = mc_now w ∧ mc_net w1 = {| n_api := s'; n_hub := n_hub (mc_net w) |}
    ∧ key_stored home m k w1.
Proof.
  intros Hno Hp Ht Hs He Hc m k.
  rewrite get_or_request_fresh by by apply absent_ok.
  set (w0 := set_net {| n_api := s'; n_hub := n_hub (mc_net w) |} w).
  destruct (store_private_key_ok home m k w0) as [w1 Est].
  apply store_private_key_stored in Est as Hst. destruct Hst as (_ & Hst & _).
  apply store_same_rest in Est as Hr. destruct Hr as [Hnow Hnet].
  exists w1. split; [|by rewrite Hnow, Hnet].
  unfold request_key_pair.
  assert (http_post (tunnel_post m ttl port sub) w
    = (w0, Ok {| rs_status := 200; rs_body := Ok (json_to_string (ser_CreateTunnelResponse resp)) |}))
    as Hpost.
  { cbn [http_post http_net net_http]. change (rq_url (tunnel_post m ttl port sub) =?s _) with true.
    unfold serve_post. change (rq_json (tunnel_post m ttl port sub)) with (tunnel_request ttl port sub).
    rewrite tunnel_request_decodes by done.
    change (header_map (rq_headers (tunnel_post m ttl port sub))) with dev_headers. by rewrite Hc. }
  rewrite (io_bind_step _ _ w w0 {| rs_status := 200;
    rs_body := Ok (json_to_string (ser_CreateTunnelResponse resp)) |})
    by (unfold io_map_err; by rewrite Hpost).
  cbn [rs_status rs_body]. change (negb (status_ok 200)) with false. cbv iota.
  rewrite (io_bind_step _ _ w0 w0 (ser_CreateTunnelResponse resp)).
  2: { unfold io_lift, body_json. cbn. rewrite json_roundtrip by by apply created_json_wf. done. }
  rewrite (io_bind_step _ _ w0 w0 (mc_now w)) by done.
  rewrite (io_bind_step _ _ w0 w0 k) by (unfold io_lift; by rewrite (parse_created _ _ _ expires)).
  by rewrite (io_bind_step _ _ w0 w1 _ Est).
Qed.

(** What the client and the hub agree on once the slot is bound. *)
Definition tunnel_up (resp : CreateTunnelResponse) (sid : nat) (w : world) : Prop :=
  let h := n_hub (mc_net w) in
  (∃ s, sessions h !! sid = Some s ∧ client_certificate_serial s = Some (c_id resp)
     ∧ is_Some (forward_listeners s !! c_slot resp))
  ∧ c_slot resp ∈ bound_ports h.

(** The conditions at the hub: it checks keys in Redis, does not lock the client
    out, is in a state it can reach, and the slot is free. *)
Record hub_ready now (s' : ApiState (R := R)) (h : Hub) (resp : CreateTunnelResponse) (sk : SecretKey)
    : Prop := {
  hr_config : redis_auth_handler hubcfg = Some "session" ∧ redis_pool hubcfg = true;
  hr_id : is_valid_session_id (c_id resp) = true;
  hr_lock : is_locked_out now (brute_force_protection h) peer (auth_lockout_duration hubcfg) = false;
  hr_key : fingerprint (public_of sk) = key_fingerprint (c_ssh_key resp);
  hr_free : os_bind (bound_ports h) (c_slot resp) = Some (c_slot resp);
  hr_wf : fresh_tasks h;
  hr_typed : registry_typed (live now (st_redis s'));
}.

(** The request creates a tunnel no older record shares its slot with. *)
Record api_ready (w : world) ttl port sub (s' : ApiState (R := R)) (resp : CreateTunnelResponse)
    : Prop := {
  ar_create : create_tunnel cfg (mc_now w) e dev_headers (asked ttl port sub) (n_api (mc_net w))
              = (s', Ok resp);
  ar_env : env_ok e;
  ar_port : u16_ok port;
  ar_ttl : 60 ≤ ttl ≤ 86400;
  ar_dates : dt_ok (mc_now w) ∧ dt_ok (mc_now w + secs ttl);
  ar_fresh : ∀ id i, listed (live (mc_now w) (st_redis (n_api (mc_net w)))) id →
    info_at (live (mc_now w) (st_redis (n_api (mc_net w)))) id = Some i → i_slot i ≠ c_slot resp;
}.

Lemma lifetime_asked ttl port sub : 60 ≤ ttl ≤ 86400 → lifetime (asked ttl port sub) = ttl.
Proof. intros. unfold lifetime. cbn [asked q_ttl default]. apply as_i64_id. unfold i64_ok. lia. Qed.

Lemma api_ready_facts w ttl port sub s' resp :
  api_ready w ttl port sub s' resp →
  u16_ok (c_slot resp) ∧ as_u16 (c_slot resp) = c_slot resp
  ∧ parse_from_rfc3339 (c_expires_at resp) = Some (mc_now w + secs ttl).
Proof.
  intros [Hc He Hp Ht Hd Hf]. pose proof (lifetime_asked ttl port sub Ht) as Hl.
  pose proof Hc as Hc'.
  apply create_tunnel_facts in Hc as [t Hfacts]; [|done|done|by rewrite Hl].
  destruct Hfacts as [_ _ Hslot Hrange _ _ _ _ _ _ _ _].
  unfold PORT_RANGE_START, PORT_RANGE_END in Hrange. rewrite <- Hslot in Hrange.
  assert (u16_ok (c_slot resp)) by (unfold u16_ok; lia).
  split; [done|]. split; [by apply as_u16_id|].
  apply create_tunnel_expires in Hc' as ->. rewrite Hl. apply rfc3339_roundtrip, Hd.
Qed.

(** The connection and the forward request of a client that holds the pair. *)
Lemma client_binds ttl port sub (w w1 : world) s' resp sk c :
  api_ready w ttl port sub s' resp → hub_ready (mc_now w) s' (n_hub (mc_net w)) resp sk →
  mc_now w1 = mc_now w → mc_net w1 = {| n_api := s'; n_hub := n_hub (mc_net w) |} →
  target_addr (tc_config c) = LOCAL_HUB → tc_session_id c = c_id resp →
  let sid := next_sid (n_hub (mc_net w)) in
  ∃ w2 w3, establish_tunnel sk (w1, c) = ((w2, set_handle (Some sid) c), Ok ())
    ∧ request_reverse_tunnel (c_slot resp) (w2, set_handle (Some sid) c)
      = ((w3, set_handle (Some sid) c), Ok ())
    ∧ mc_files w3 = mc_files w1 ∧ mc_now w3 = mc_now w1 ∧ tunnel_up resp sid w3.
Proof.
  intros Ha Hh Hnow Hnet Haddr Hid sid. set (now := mc_now w) in *. set (h := n_hub (mc_net w)) in *.
  destruct (api_ready_facts _ _ _ _ _ _ Ha) as (_ & Hu16 & _).
  destruct Ha as [Hc He Hp Ht Hd Hf]. destruct Hh as [Hcfg Hvid Hlock Hkey Hfree Hwf Hty].
  pose proof (lifetime_asked ttl port sub Ht) as Hl.
  destruct (created_key_binds cfg now now e dev_headers (asked ttl port sub) (n_api (mc_net w)) s' resp
              hubcfg (public_of sk) (SshHub.new_session peer) (brute_force_protection h))
    as (sess' & b' & r1 & Hauth & Hser & Hfwd & Hr1 & Hgate); try done.
  { by rewrite Hl. }
  { rewrite Hl. unfold secs. lia. }
  destruct (get_tunnel_by_slot_ends now (c_slot resp) r1) as (r2 & o & Hget); [by rewrite Hr1|].
  specialize (Hgate r2 o Hget).
  set (h2 := set_session sid sess' (set_bfp b' (set_session sid (SshHub.new_session peer) h))).
  destruct (spawn_tasks now (c_slot resp) TtlOnly (Some (c_id resp)) (add_gauge 1 h2)) as [h3 hs] eqn:Esp.
  assert (tcpip_forward hubcfg now (c_slot resp) sess' h2 r1
    = (set_listeners sess' (<[c_slot resp := hs]> (forward_listeners sess')), h3, r2, (true, c_slot resp)))
    as Hfw.
  { unfold tcpip_forward. rewrite Hu16, Hgate. cbn [asked q_teardown_policy default].
    change (bound_ports h2) with (bound_ports h). by rewrite Hfree, Esp. }
  apply spawn_tasks_spec in Esp as (_ & _ & Hloop & _); [|exact Hwf].
  eexists (set_net {| n_api := set_redis r1 s'; n_hub := h2 |} w1),
    (set_net {| n_api := set_redis r2 s'; n_hub := set_session sid _ h3 |} w1).
  split_and!; [| |done|done|].
  - unfold establish_tunnel. rewrite Haddr, Hid. cbn [ssh_connect ssh_net net_ssh].
    change (LOCAL_HUB =?s LOCAL_HUB) with true. rewrite Hnet. cbn [n_hub n_api]. fold sid.
    cbn [authenticate_publickey ssh_net net_ssh]. unfold hub_authenticate.
    cbn [mc_net set_net n_hub n_api sessions set_session mc_now].
    rewrite lookup_insert_eq, Hnow.
    change (brute_force_protection (set_session _ _ h)) with (brute_force_protection h).
    by rewrite Hauth.
  - unfold request_reverse_tunnel. cbn [tc_handle set_handle ssh_tcpip_forward ssh_net net_ssh].
    unfold hub_forward. cbn [mc_net set_net n_hub n_api mc_now]. rewrite Hnow.
    assert (sessions h2 !! sid = Some sess') as -> by apply lookup_insert_eq.
    by rewrite (Hfw : tcpip_forward _ _ _ _ _ (st_redis (set_redis r1 s')) = _).
  - split; cbn [mc_net set_net n_hub].
    + eexists. split; [apply lookup_insert_eq|]. split; [done|]. cbn. rewrite lookup_insert_eq. by eexists.
    + apply elem_of_bound_ports. by eexists _, _.
Qed.

(** The manager of a debug build. *)
Lemma local_manager_new home env (w : world) :
  TunnelManager_new (Some home) (<["EDF_API_URL" := "http://localhost:8880"]> env) w
    = (w, Ok {| tm_keys := local_manager home; tm_sessions := ∅ |}).
Proof.
  unfold TunnelManager_new, anyhow. rewrite (io_bind_step _ _ w w (local_manager home)); [done|].
  unfold io_map_err, SshKeyManager_new, local_manager. cbn. by rewrite lookup_insert_eq.
Qed.
End end_to_end.

(** The local forward of a debug build, as far as the manager. *)
Lemma main_local_forward `{RedisSpec R, !RedisAvailable R} `{Codec} `{!CliText} `{Rcgen} `{Md5}
    `{SshKeys} `{!ClientKeys} `{Os} (http : HttpClient (machine (Net (R := R))))
    (ssh : SshTransport (machine (Net (R := R)))) home env ctrl_c port ttl sub (w : machine (Net (R := R))) :
  60 ≤ ttl ≤ 86400 →
  main (Hhttp := http) (Hssh := ssh) (Some home) env true ctrl_c
    {| cli_overrides := None; cli_show_config := false; cli_help := false;
       cli_command := Some (Forward port ttl sub) |} w
  = let '((w', _), r) := forward (Hhttp := http) (Hssh := ssh) (Some home)
        (<["EDF_API_URL" := "http://localhost:8880"]> env) ctrl_c port ttl sub
        (Some "localhost:2222") (Some 2222) (w, {| tm_keys := local_manager home; tm_sessions := ∅ |}) in
    match r with
    | Ok lines => (w', Success (lines ++ [ForwardDone]))
    | Err e => (w', CommandFailed e (error_hint e))
    end.
Proof.
  intros Httl. unfold main. change (validate_config _) with (@Ok string () ()). cbv iota zeta.
  cbn [cli_show_config cli_help cli_command execute_command].
  rewrite (proj2 (Z.ltb_ge ttl 60)), (proj2 (Z.ltb_ge 86400 ttl)) by lia. cbv iota.
  change (cc_api_url (main_config _ _ _)) with "http://localhost:8880". unfold mbind at 1, io_bind at 1.
  rewrite local_manager_new. set (t := {| tm_keys := local_manager home; tm_sessions := ∅ |}).
  change (forward _ _ _ _ _ _ _ _ _) with (forward (Hhttp := http) (Hssh := ssh) (Some home)
    (<["EDF_API_URL" := "http://localhost:8880"]> env) ctrl_c
    port ttl sub (Some "localhost:2222") (Some 2222) (w, t)).
  by destruct (forward _ _ _ _ _ _ _ _ _) as [[w' t'] [lines|err]].
Qed.


(** Without a header the production API authenticates nobody. *)
Lemma production_needs_header `{Md5} cfg now headers :
  development_mode cfg = false → headers !! "authorization" = None →
  ∃ m, authenticate cfg now headers = Err (AE.AuthenticationFailed m).
Proof.
  intros Hd Hh. unfold authenticate, extract_bearer_token_with_dev_bypass. rewrite Hd, Hh.
  cbn. by eexists.
Qed.

(** C37: a production API turns the client away.  The client has no token to send:
    the key manager it builds never carries one, so a request to an API outside
    development mode is answered with an error, no tunnel is created and no file is
    written. *)
Theorem production_refuses_client `{RedisServer R} `{Codec} `{!CliText} `{Rcgen} `{Md5}
    cfg e error_text error_id home env ttl port sub (w0 w0' w : machine (Net (R := R))) m
    (Hprod : development_mode cfg = false)
    (Hm : SshKeyManager_new home env w0 = (w0', Ok m)) :
  let http := net_http cfg e error_text error_id (km_api_base_url m) in
  ∃ msg, request_key_pair (Hhttp := http) home m ttl port sub w
         = (w, Err (FE.ExternalService ("API error: " +:+ msg))).
Proof.
  assert (km_auth_token m = None) as Htok.
  { unfold SshKeyManager_new in Hm. inv_io Hm. by simplify_eq. }
  intros http. unfold request_key_pair.
  assert (∃ status msg, status_ok status = false
    ∧ http_post (HttpClient := http) (tunnel_post m ttl port sub) w
      = (w, Ok {| rs_status := status; rs_body := Ok msg |})) as (status & msg & Hs & Hpost).
  { cbn [http_post http net_http]. change (rq_url (tunnel_post m ttl port sub)) with
      (km_api_base_url m +:+ "/v1/tunnels"). rewrite String.eqb_refl. unfold serve_post.
    assert (∀ n, set_net {| n_api := n_api (mc_net w); n_hub := n_hub (mc_net w) |} w = n → n = w) as Hw.
    { intros n <-. by destruct w as [? ? []]. }
    destruct (json_from_str _ ≫= _) as [q|].
    - destruct (production_needs_header cfg (mc_now w) (header_map (rq_headers (tunnel_post m ttl port sub))))
        as [err Herr]; [done| |].
      { unfold tunnel_post. cbn [rq_headers]. rewrite Htok. by destruct (is_local_url _). }
      unfold create_tunnel. rewrite io_lift_bind, Herr. cbn.
      eexists 401, _. split; [done|]. by rewrite (Hw _ eq_refl).
    - eexists 422, _. split; [done|]. by rewrite (Hw _ eq_refl). }
  exists msg. rewrite (io_bind_step _ _ w w _) by (unfold io_map_err; by rewrite Hpost).
  cbn [rs_status rs_body]. by rewrite Hs.
Qed.

(** ** Examples on the concrete services *)
Module ClientSystemDemo.
Import MemRedis BitCodec AuthDemo CADemo ApiDemo HubDemo.

Definition dev_config : ApiConfig :=
  let c := default_api_config in
  {| bind_address := bind_address c; github_client_id := github_client_id c;
     github_client_secret := github_client_secret c; redis_url := redis_url c;
     base_domain := base_domain c; default_tunnel_ttl := default_tunnel_ttl c;
     max_tunnel_ttl := max_tunnel_ttl c; edgehub_address := edgehub_address c;
     jwt_secret := jwt_secret c; database_url := database_url c; base_url := base_url c;
     development_mode := true |}.

#[export] Instance demo_client_keys : ClientKeys (H := demo_keys) :=
  {| SecretKey := string; public_of k := ("SHA256:x" : PublicKey (SshKeys := demo_keys));
     decode_openssh := Ok |}.

Definition issued : SecretKey (ClientKeys := demo_client_keys) := "priv".

Definition made := create_tunnel dev_config 0 env dev_headers (asked 1800 3000 (Some "app")) start.
Definition made_response : CreateTunnelResponse :=
  match made.2 with Ok r => r | Err _ => response end.

Definition laptop : machine (Net (R := mem)) :=
  {| mc_now := 0; mc_files := ∅; mc_net := {| n_api := start; n_hub := empty_hub |} |}.

Lemma laptop_api : api_ready dev_config env laptop 1800 3000 (Some "app") made.1 made_response.
Proof.
  split.
  - eval_eq.
  - apply SystemDemo.env_is_ok.
  - by vm_compute.
  - lia.
  - by vm_compute.
  - apply SystemDemo.nothing_listed.
Qed.

Lemma laptop_hub : hub_ready cfg peer 0 made.1 empty_hub made_response issued.
Proof.
  split.
  - done.
  - eval_eq.
  - eval_eq.
  - eval_eq.
  - eval_eq.
  - done.
  - apply registry_typed_strings. eval_eq.
Qed.


Lemma production_refuses_client_witness :
  ∃ msg, request_key_pair (Hhttp := net_http default_api_config env (λ r, AE.r_message r) (9%N : @uuid bit_codec)
           "https://api.edf.run") (Some "/home/ann")
         {| km_key_directory := "/home/ann/.edf/keys"; km_api_base_url := "https://api.edf.run";
            km_auth_token := None |} 1800 3000 None laptop
       = (laptop, Err (FE.ExternalService ("API error: " +:+ msg))).
Proof.
  apply (production_refuses_client default_api_config env (λ r, AE.r_message r) (9%N : @uuid bit_codec)
           (Some "/home/ann") ∅ 1800 3000 None laptop laptop laptop).
  - reflexivity.
  - reflexivity.
Defined.
End ClientSystemDemo.
