(* ===== verification/Schema.v ===== *)
(** * The database schema

    crates/migration: the two migrations, as the statements they send, and the
    migration runner; crates/models: the entities and the repositories.  The
    database server is a parameter: it executes schema statements as [ddl] says
    ([SchemaManager], [SchemaSpec]) and refuses a statement on a table or column
    that does not exist ([Planned]).  [MemSchema] is a concrete schema. *)

From S2P Require Import Prelude Serde Errors Auth RateLimit ServicePlans.

(** ** Schemas and schema statements *)

Inductive ColType := CString | CInteger | CBigInteger | CFloat | CTimestamp | CBoolean.
#[export] Instance ColType_eq_dec : EqDecision ColType.
Proof. solve_decision. Defined.

Record Column := { co_name : string; co_type : ColType; co_nullable : bool; co_primary : bool }.
Record TableDef := { td_name : string; td_cols : list Column }.

Inductive ForeignKeyAction := Cascade | Restrict | SetNull.
#[export] Instance ForeignKeyAction_eq_dec : EqDecision ForeignKeyAction.
Proof. solve_decision. Defined.

Record ForeignKey := {
  fk_name : string;
  fk_from : string * string;
  fk_to : string * string;
  fk_on_delete : ForeignKeyAction;
}.
Record IndexDef := { ix_name : string; ix_table : string; ix_col : string; ix_unique : bool }.

Record Schema := {
  sc_tables : gmap string (list Column);
  sc_indexes : gmap string IndexDef;
  sc_foreign_keys : gmap string ForeignKey;
}.
Definition no_schema : Schema := {| sc_tables := ∅; sc_indexes := ∅; sc_foreign_keys := ∅ |}.

Inductive Stmt :=
  | CreateTable (t : TableDef)
  | DropTable (name : string)
  | CreateIndex (i : IndexDef)
  | DropIndex (name table : string)
  | CreateForeignKey (f : ForeignKey)
  | DropForeignKey (name table : string).

Definition find_column (s : Schema) (t c : string) : option Column :=
  cols ← sc_tables s !! t; head (filter (λ x, co_name x = c) cols).

(** A column a foreign key may point to: primary key or uniquely indexed. *)
Definition is_unique (s : Schema) (t c : string) : bool :=
  match find_column s t c with
  | Some x => co_primary x || bool_decide (map_Exists (λ _ i, ix_table i = t ∧ ix_col i = c
                                             ∧ ix_unique i = true) (sc_indexes s))
  | None => false
  end.

(** The effect of a statement, and [None] where the server refuses it.  Creation
    of tables is [IF NOT EXISTS]; a table another table's key points to cannot be
    dropped. *)
Definition ddl (st : Stmt) (s : Schema) : option Schema :=
  match st with
  | CreateTable t =>
      match sc_tables s !! td_name t with
      | Some _ => Some s
      | None => Some {| sc_tables := <[td_name t := td_cols t]> (sc_tables s);
                        sc_indexes := sc_indexes s; sc_foreign_keys := sc_foreign_keys s |}
      end
  | DropTable n =>
      match sc_tables s !! n with
      | None => None
      | Some _ =>
          if bool_decide (map_Exists (λ _ f, (fk_to f).1 = n ∧ (fk_from f).1 ≠ n) (sc_foreign_keys s))
          then None
          else Some {| sc_tables := delete n (sc_tables s);
                       sc_indexes := filter (λ ki, ix_table ki.2 ≠ n) (sc_indexes s);
                       sc_foreign_keys := filter (λ kf, (fk_from kf.2).1 ≠ n) (sc_foreign_keys s) |}
      end
  | CreateIndex i =>
      match sc_indexes s !! ix_name i, sc_tables s !! ix_name i, find_column s (ix_table i) (ix_col i) with
      | None, None, Some _ =>
          Some {| sc_tables := sc_tables s; sc_indexes := <[ix_name i := i]> (sc_indexes s);
                  sc_foreign_keys := sc_foreign_keys s |}
      | _, _, _ => None
      end
  | DropIndex n t =>
      match sc_indexes s !! n with
      | Some _ => Some {| sc_tables := sc_tables s; sc_indexes := delete n (sc_indexes s);
                          sc_foreign_keys := sc_foreign_keys s |}
      | None => None
      end
  | CreateForeignKey f =>
      match sc_foreign_keys s !! fk_name f, find_column s (fk_from f).1 (fk_from f).2,
            find_column s (fk_to f).1 (fk_to f).2 with
      | None, Some a, Some b =>
          if bool_decide (co_type a = co_type b) && is_unique s (fk_to f).1 (fk_to f).2 then
            Some {| sc_tables := sc_tables s; sc_indexes := sc_indexes s;
                    sc_foreign_keys := <[fk_name f := f]> (sc_foreign_keys s) |}
          else None
      | _, _, _ => None
      end
  | DropForeignKey n t =>
      match sc_foreign_keys s !! n with
      | Some f => if (fk_from f).1 =?s t then
                    Some {| sc_tables := sc_tables s; sc_indexes := sc_indexes s;
                            sc_foreign_keys := delete n (sc_foreign_keys s) |}
                  else None
      | None => None
      end
  end.

Fixpoint ddl_all (l : list Stmt) (s : Schema) : option Schema :=
  match l with
  | [] => Some s
  | st :: l => s' ← ddl st s; ddl_all l s'
  end.

(** The server: a statement that succeeds has the effect of [ddl], one that fails
    none; on a database without rows every statement [ddl] accepts succeeds. *)
Class SchemaManager (D : Type) := {
  schema_of : D → Schema;
  no_rows : D → Prop;
  execute : Stmt → io D string ();
}.
Class SchemaSpec (D : Type) `{SchemaManager D} := {
  execute_ok : ∀ st d d', execute st d = (d', Ok ()) → ddl st (schema_of d) = Some (schema_of d');
  execute_err : ∀ st d d' e, execute st d = (d', Err e) → schema_of d' = schema_of d;
  execute_runs : ∀ st d s, no_rows d → ddl st (schema_of d) = Some s →
    ∃ d', execute st d = (d', Ok ()) ∧ no_rows d';
}.

(** ** The migrations *)

(** The helpers [string], [integer], ... make columns that are not null. *)
Definition col (ty : ColType) (n : string) : Column :=
  {| co_name := n; co_type := ty; co_nullable := false; co_primary := false |}.
Definition pk_col (ty : ColType) (n : string) : Column :=
  {| co_name := n; co_type := ty; co_nullable := false; co_primary := true |}.

Definition user_table : TableDef :=
  {| td_name := "user"; td_cols := [
     pk_col CString "id"; col CString "github_id";
     col CString "username"; col CString "email";
     col CString "avatar_url"; col CTimestamp "created_at"] |}.

Definition service_plan_table : TableDef :=
  {| td_name := "service_plan"; td_cols := [
     pk_col CString "id"; col CString "name";
     col CInteger "api_rate_limit"; col CInteger "tunnel_creation_limit";
     col CInteger "dns_provisioning_limit"; col CInteger "max_concurrent_tunnels";
     col CString "features_json"; col CTimestamp "created_at"] |}.

Definition pricing_table : TableDef :=
  {| td_name := "pricing"; td_cols := [
     pk_col CString "id"; col CString "service_plan_id";
     col CFloat "price"; col CString "currency";
     col CString "region"; col CTimestamp "valid_from";
     col CTimestamp "valid_to"; col CString "description"] |}.

Definition user_service_plan_table : TableDef :=
  {| td_name := "user_service_plan"; td_cols := [
     pk_col CString "id"; col CString "user_id";
     col CString "service_plan_id"; col CTimestamp "start_date";
     col CTimestamp "end_date"; col CBoolean "is_active"] |}.

Definition tunnel_table : TableDef :=
  {| td_name := "tunnel"; td_cols := [
     pk_col CString "id"; col CString "user_id";
     col CString "subdomain"; col CString "fqdn";
     col CInteger "local_port"; col CInteger "slot";
     col CString "certificate_serial"; col CString "ssh_key_pair_id";
     col CTimestamp "created_at"; col CTimestamp "expires_at";
     col CString "status"; col CBigInteger "bytes_transferred";
     col CBigInteger "request_count"] |}.

Definition ssh_key_pair_table : TableDef :=
  {| td_name := "ssh_key_pair"; td_cols := [
     pk_col CString "id"; col CString "private_key";
     col CString "public_key"; col CString "fingerprint"] |}.

Definition auth_token_table : TableDef :=
  {| td_name := "auth_token"; td_cols := [
     pk_col CString "token"; col CString "token_type";
     col CTimestamp "expires_at"; col CString "user_id"] |}.

Definition certificate_info_table : TableDef :=
  {| td_name := "certificate_info"; td_cols := [
     pk_col CString "serial"; col CString "certificate";
     col CString "private_key"; col CString "fingerprint";
     col CTimestamp "issued_at"; col CTimestamp "expires_at";
     col CString "subject"] |}.

Definition api_stats_table : TableDef :=
  {| td_name := "api_stats"; td_cols := [
     pk_col CString "id"; col CInteger "active_tunnels";
     col CInteger "tunnels_created_today"; col CBigInteger "bytes_transferred_today";
     col CInteger "uptime_seconds"; col CString "ca_stats_id"] |}.

Definition ca_stats_table : TableDef :=
  {| td_name := "ca_stats"; td_cols := [
     pk_col CString "id"; col CInteger "certificates_issued";
     col CInteger "active_certificates"; col CInteger "expired_certificates";
     col CFloat "issuance_rate"] |}.

Definition payment_info_table : TableDef :=
  {| td_name := "payment_info"; td_cols := [
     pk_col CString "id"; col CString "user_id";
     col CString "stripe_customer_id"; col CString "stripe_subscription_id";
     col CTimestamp "last_payment_date"; col CTimestamp "next_payment_date"] |}.

Definition user_usage_table : TableDef :=
  {| td_name := "user_usage"; td_cols := [
     pk_col CString "id"; col CString "user_id";
     col CTimestamp "period_start"; col CInteger "api_calls_count";
     col CInteger "tunnels_created_count"; col CInteger "dns_operations_count";
     col CInteger "active_tunnels_count"] |}.

Definition audit_log_table : TableDef :=
  {| td_name := "audit_log"; td_cols := [
     pk_col CString "id"; col CString "user_id";
     col CString "action"; col CString "resource";
     col CTimestamp "timestamp"; col CString "details_json"] |}.

Definition billing_event_table : TableDef :=
  {| td_name := "billing_event"; td_cols := [
     pk_col CString "id"; col CString "user_id";
     col CString "service_plan_id"; col CString "event_type";
     col CFloat "amount"; col CTimestamp "event_time";
     col CString "details_json"] |}.

(** m20250716_191521_create_full_serviceplan_schema. *)
Definition create_tables : list Stmt :=
  CreateTable <$>
    [user_table; service_plan_table; pricing_table; user_service_plan_table;
     tunnel_table; ssh_key_pair_table; auth_token_table; certificate_info_table;
     api_stats_table; ca_stats_table; payment_info_table; user_usage_table;
     audit_log_table; billing_event_table].
Definition drop_tables : list Stmt :=
  DropTable <$>
    ["billing_event"; "audit_log"; "user_usage"; "payment_info"; "ca_stats"; "api_stats";
     "certificate_info"; "auth_token"; "ssh_key_pair"; "tunnel"; "user_service_plan"; "pricing";
     "service_plan"; "user"].

(** m20250716_191522_add_constraints. *)
Definition add_indexes : list Stmt := [
   CreateIndex {| ix_name := "idx_service_plan_name_unique"; ix_table := "service_plan"; ix_col := "name"; ix_unique := true |};
   CreateIndex {| ix_name := "idx_user_github_id_unique"; ix_table := "user"; ix_col := "github_id"; ix_unique := true |};
   CreateIndex {| ix_name := "idx_user_email_unique"; ix_table := "user"; ix_col := "email"; ix_unique := true |};
   CreateIndex {| ix_name := "idx_tunnel_subdomain_unique"; ix_table := "tunnel"; ix_col := "subdomain"; ix_unique := true |};
   CreateIndex {| ix_name := "idx_tunnel_fqdn_unique"; ix_table := "tunnel"; ix_col := "fqdn"; ix_unique := true |};
   CreateIndex {| ix_name := "idx_ssh_key_pair_fingerprint_unique"; ix_table := "ssh_key_pair"; ix_col := "fingerprint"; ix_unique := true |};
   CreateIndex {| ix_name := "idx_certificate_info_fingerprint_unique"; ix_table := "certificate_info"; ix_col := "fingerprint"; ix_unique := true |}].
Definition add_foreign_keys : list Stmt := [
   CreateForeignKey {| fk_name := "fk_pricing_service_plan_id"; fk_from := ("pricing", "service_plan_id");
     fk_to := ("service_plan", "id"); fk_on_delete := Cascade |};
   CreateForeignKey {| fk_name := "fk_user_service_plan_user_id"; fk_from := ("user_service_plan", "user_id");
     fk_to := ("user", "id"); fk_on_delete := Cascade |};
   CreateForeignKey {| fk_name := "fk_user_service_plan_service_plan_id"; fk_from := ("user_service_plan", "service_plan_id");
     fk_to := ("service_plan", "id"); fk_on_delete := Restrict |};
   CreateForeignKey {| fk_name := "fk_tunnel_user_id"; fk_from := ("tunnel", "user_id");
     fk_to := ("user", "id"); fk_on_delete := Cascade |};
   CreateForeignKey {| fk_name := "fk_tunnel_ssh_key_pair_id"; fk_from := ("tunnel", "ssh_key_pair_id");
     fk_to := ("ssh_key_pair", "id"); fk_on_delete := SetNull |};
   CreateForeignKey {| fk_name := "fk_tunnel_certificate_serial"; fk_from := ("tunnel", "certificate_serial");
     fk_to := ("certificate_info", "serial"); fk_on_delete := SetNull |};
   CreateForeignKey {| fk_name := "fk_auth_token_user_id"; fk_from := ("auth_token", "user_id");
     fk_to := ("user", "id"); fk_on_delete := Cascade |};
   CreateForeignKey {| fk_name := "fk_payment_info_user_id"; fk_from := ("payment_info", "user_id");
     fk_to := ("user", "id"); fk_on_delete := Cascade |};
   CreateForeignKey {| fk_name := "fk_user_usage_user_id"; fk_from := ("user_usage", "user_id");
     fk_to := ("user", "id"); fk_on_delete := Cascade |};
   CreateForeignKey {| fk_name := "fk_audit_log_user_id"; fk_from := ("audit_log", "user_id");
     fk_to := ("user", "id"); fk_on_delete := Cascade |};
   CreateForeignKey {| fk_name := "fk_billing_event_user_id"; fk_from := ("billing_event", "user_id");
     fk_to := ("user", "id"); fk_on_delete := Cascade |};
   CreateForeignKey {| fk_name := "fk_billing_event_service_plan_id"; fk_from := ("billing_event", "service_plan_id");
     fk_to := ("service_plan", "id"); fk_on_delete := Cascade |};
   CreateForeignKey {| fk_name := "fk_api_stats_ca_stats_id"; fk_from := ("api_stats", "ca_stats_id");
     fk_to := ("ca_stats", "id"); fk_on_delete := Cascade |}].
Definition add_constraints : list Stmt := add_indexes ++ add_foreign_keys.

Definition drop_foreign_keys : list Stmt := [
   DropForeignKey "fk_api_stats_ca_stats_id" "api_stats";
   DropForeignKey "fk_billing_event_service_plan_id" "billing_event";
   DropForeignKey "fk_billing_event_user_id" "billing_event";
   DropForeignKey "fk_audit_log_user_id" "audit_log";
   DropForeignKey "fk_user_usage_user_id" "user_usage";
   DropForeignKey "fk_payment_info_user_id" "payment_info";
   DropForeignKey "fk_auth_token_user_id" "auth_token";
   DropForeignKey "fk_tunnel_certificate_serial" "tunnel";
   DropForeignKey "fk_tunnel_ssh_key_pair_id" "tunnel";
   DropForeignKey "fk_tunnel_user_id" "tunnel";
   DropForeignKey "fk_user_service_plan_service_plan_id" "user_service_plan";
   DropForeignKey "fk_user_service_plan_user_id" "user_service_plan";
   DropForeignKey "fk_pricing_service_plan_id" "pricing"].
Definition drop_indexes : list Stmt := [
   DropIndex "idx_certificate_info_fingerprint_unique" "certificate_info";
   DropIndex "idx_ssh_key_pair_fingerprint_unique" "ssh_key_pair";
   DropIndex "idx_tunnel_fqdn_unique" "tunnel";
   DropIndex "idx_tunnel_subdomain_unique" "tunnel";
   DropIndex "idx_user_email_unique" "user";
   DropIndex "idx_user_github_id_unique" "user";
   DropIndex "idx_service_plan_name_unique" "service_plan"].
Definition drop_constraints : list Stmt := drop_foreign_keys ++ drop_indexes.

Record Migration := { mg_up : list Stmt; mg_down : list Stmt }.
Definition migrations : list Migration :=
  [{| mg_up := create_tables; mg_down := drop_tables |};
   {| mg_up := add_constraints; mg_down := drop_constraints |}].

Section migrator.
Context `{Hdb : SchemaManager D}.

(** One migration: its statements until the first error. *)
Fixpoint run_stmts (l : list Stmt) : io D string () :=
  match l with
  | [] => mret ()
  | st :: l => _ ← execute st; run_stmts l
  end.

(** [Migrator::up] and [Migrator::down] on all migrations. *)
Definition migrate_up : io D string () := run_stmts (mjoin (mg_up <$> migrations)).
Definition migrate_down : io D string () := run_stmts (mjoin (mg_down <$> reverse migrations)).

(** The runner: connect, waiting two seconds after each failure, then the
    command.  [connect n] is the outcome of the [n]-th attempt; the result carries
    the number of failed attempts. *)
Fixpoint connect_with_retry (connect : nat → result string D) (attempt remaining : nat)
    (last_err : option string) : nat * result string D :=
  match remaining with
  | O => (0%nat, Err (default "no connection attempts made" last_err))
  | S remaining =>
      match connect attempt with
      | Ok db => (0%nat, Ok db)
      | Err e => let '(n, r) := connect_with_retry connect (S attempt) remaining (Some e) in (S n, r)
      end
  end.

Definition ATTEMPTS : nat := 30.
Definition RETRY_DELAY : Z := secs 2.

(** [fresh] and [status] are the library's; the result is the time spent waiting,
    the database reached and the outcome. *)
Definition run_migration (status fresh : io D string ()) (cmd : option string)
    (database_url : option string) (connect : string → nat → result string D)
    : Z * option D * result string () :=
  match database_url with
  | None => (0, None, Err "DATABASE_URL environment variable must be set")
  | Some url =>
      let '(n, r) := connect_with_retry (connect url) 1 ATTEMPTS None in
      let waited := Z.of_nat n * RETRY_DELAY in
      match r with
      | Err e => (waited, None, Err e)
      | Ok db =>
          let cmd := default "up" cmd in
          let '(db', out) :=
            (if cmd =?s "up" then migrate_up
             else if cmd =?s "down" then migrate_down
             else if cmd =?s "status" then status
             else if cmd =?s "fresh" then fresh
             else io_fail ("unknown command '" +:+ cmd +:+ "'; use up|down|status|fresh")) db in
          (waited, Some db', out)
      end
  end.
End migrator.

(** ** Entities *)

Inductive RustType := RUuid | RString | RI32 | RI64 | RF64 | RDateTime | RBool.
Record Field := { fd_name : string; fd_type : RustType; fd_optional : bool }.
Record EntityDef := {
  en_table : string;
  en_fields : list Field;
  en_belongs_to : list (string * string * string);
}.
Definition fld (ty : RustType) (optional : bool) (n : string) : Field :=
  {| fd_name := n; fd_type := ty; fd_optional := optional |}.

Definition api_stats_entity : EntityDef :=
  {| en_table := "api_stats"; en_fields := [
     fld RUuid false "id"; fld RI32 false "active_tunnels";
     fld RI32 false "tunnels_created_today"; fld RI64 false "bytes_transferred_today";
     fld RI64 false "uptime_seconds"; fld RUuid true "ca_stats_id";
     fld RDateTime false "created_at"];
     en_belongs_to := [("ca_stats_id", "ca_stats", "id")] |}.

Definition audit_log_entity : EntityDef :=
  {| en_table := "audit_log"; en_fields := [
     fld RUuid false "id"; fld RString true "user_id";
     fld RString false "action"; fld RString false "resource";
     fld RDateTime false "timestamp"; fld RString true "details_json";
     fld RDateTime false "created_at"];
     en_belongs_to := [("user_id", "users", "id")] |}.

Definition auth_token_entity : EntityDef :=
  {| en_table := "auth_tokens"; en_fields := [
     fld RString false "token"; fld RString false "token_type";
     fld RDateTime false "expires_at"; fld RString false "user_id";
     fld RDateTime false "created_at"];
     en_belongs_to := [("user_id", "users", "id")] |}.

Definition billing_event_entity : EntityDef :=
  {| en_table := "billing_event"; en_fields := [
     fld RUuid false "id"; fld RString false "user_id";
     fld RString false "service_plan_id"; fld RString false "event_type";
     fld RF64 false "amount"; fld RDateTime false "event_time";
     fld RString true "details_json"; fld RDateTime false "created_at"];
     en_belongs_to := [("user_id", "users", "id"); ("service_plan_id", "service_plans", "id")] |}.

Definition ca_stats_entity : EntityDef :=
  {| en_table := "ca_stats"; en_fields := [
     fld RUuid false "id"; fld RI32 false "certificates_issued";
     fld RI32 false "active_certificates"; fld RI32 false "expired_certificates";
     fld RF64 false "issuance_rate"; fld RDateTime false "created_at"];
     en_belongs_to := [] |}.

Definition certificate_info_entity : EntityDef :=
  {| en_table := "certificate_info"; en_fields := [
     fld RString false "serial"; fld RString false "certificate";
     fld RString false "private_key"; fld RString false "fingerprint";
     fld RDateTime false "issued_at"; fld RDateTime false "expires_at";
     fld RString false "subject"];
     en_belongs_to := [] |}.

Definition payment_info_entity : EntityDef :=
  {| en_table := "payment_info"; en_fields := [
     fld RUuid false "id"; fld RString false "user_id";
     fld RString true "stripe_customer_id"; fld RString true "stripe_subscription_id";
     fld RDateTime true "last_payment_date"; fld RDateTime true "next_payment_date";
     fld RDateTime false "created_at"];
     en_belongs_to := [("user_id", "users", "id")] |}.

Definition service_plan_entity : EntityDef :=
  {| en_table := "service_plans"; en_fields := [
     fld RString false "id"; fld RString false "name";
     fld RI32 false "api_rate_limit"; fld RI32 false "tunnel_creation_limit";
     fld RI32 false "dns_provisioning_limit"; fld RI32 false "max_concurrent_tunnels";
     fld RString true "features_json"; fld RDateTime false "created_at"];
     en_belongs_to := [] |}.

Definition ssh_key_pair_entity : EntityDef :=
  {| en_table := "ssh_key_pairs"; en_fields := [
     fld RUuid false "id"; fld RString false "private_key";
     fld RString false "public_key"; fld RString false "fingerprint";
     fld RDateTime false "created_at"];
     en_belongs_to := [] |}.

Definition tunnel_entity : EntityDef :=
  {| en_table := "tunnels"; en_fields := [
     fld RUuid false "id"; fld RString false "github_user_id";
     fld RString false "github_username"; fld RString false "subdomain";
     fld RString false "fqdn"; fld RI32 false "local_port";
     fld RI32 false "slot"; fld RString true "certificate_serial";
     fld RUuid true "ssh_key_pair_id"; fld RDateTime false "created_at";
     fld RDateTime false "expires_at"; fld RString false "status";
     fld RI64 false "bytes_transferred"; fld RI32 false "request_count"];
     en_belongs_to := [("github_user_id", "users", "github_user_id");
       ("certificate_serial", "certificate_info", "serial");
       ("ssh_key_pair_id", "ssh_key_pairs", "id")] |}.

Definition user_entity : EntityDef :=
  {| en_table := "users"; en_fields := [
     fld RString false "id"; fld RString false "github_user_id";
     fld RString false "login"; fld RString true "name";
     fld RString true "email"; fld RString true "avatar_url";
     fld RI32 true "public_repos"; fld RI32 true "followers";
     fld RI32 true "following"; fld RDateTime true "created_at";
     fld RDateTime true "updated_at"; fld RDateTime false "created_at_db"];
     en_belongs_to := [] |}.

Definition user_service_plan_entity : EntityDef :=
  {| en_table := "user_service_plans"; en_fields := [
     fld RUuid false "id"; fld RString false "user_id";
     fld RString false "service_plan_id"; fld RDateTime false "start_date";
     fld RDateTime true "end_date"; fld RBool false "is_active";
     fld RDateTime false "created_at"];
     en_belongs_to := [("user_id", "users", "id"); ("service_plan_id", "service_plans", "id")] |}.

Definition user_usage_entity : EntityDef :=
  {| en_table := "user_usage"; en_fields := [
     fld RUuid false "id"; fld RString false "user_id";
     fld RDateTime false "period_start"; fld RI32 false "api_calls_count";
     fld RI32 false "tunnels_created_count"; fld RI32 false "dns_operations_count";
     fld RI32 false "active_tunnels_count"; fld RDateTime false "created_at"];
     en_belongs_to := [("user_id", "users", "id")] |}.

Definition ENTITIES : list EntityDef :=
  [api_stats_entity; audit_log_entity; auth_token_entity; billing_event_entity;
     ca_stats_entity; certificate_info_entity; payment_info_entity; service_plan_entity;
     ssh_key_pair_entity; tunnel_entity; user_entity; user_service_plan_entity;
     user_usage_entity].

(** An entity's statements name its table and all its columns. *)
Definition entity_ready (s : Schema) (e : EntityDef) : bool :=
  forallb (λ f, bool_decide (is_Some (find_column s (en_table e) (fd_name f)))) (en_fields e).

(** ** The migrations are applied and reverted *)

Definition migrated : Schema :=
  default no_schema (ddl_all (mjoin (mg_up <$> migrations)) no_schema).

(** Every foreign key joins two columns of one type and points to the primary key
    of its table, indexes are on columns that exist, and every table has one
    primary key. *)
Definition key_sound (s : Schema) (f : ForeignKey) : bool :=
  match find_column s (fk_from f).1 (fk_from f).2, find_column s (fk_to f).1 (fk_to f).2 with
  | Some a, Some b => bool_decide (co_type a = co_type b) && co_primary b
  | _, _ => false
  end.
Definition schema_sound (s : Schema) : bool :=
  forallb (λ kf, key_sound s kf.2) (map_to_list (sc_foreign_keys s))
  && forallb (λ ki, bool_decide (is_Some (find_column s (ix_table ki.2) (ix_col ki.2))))
       (map_to_list (sc_indexes s))
  && forallb (λ kt, bool_decide (length (filter (λ c, co_primary c = true) kt.2) = 1%nat))
       (map_to_list (sc_tables s)).

Section migrations.
Context `{Hspec : SchemaSpec D}.

Lemma run_stmts_ok l d d' :
  run_stmts l d = (d', Ok ()) → ddl_all l (schema_of d) = Some (schema_of d').
Proof.
  revert d. induction l as [|st l IH]; intros d E; cbn [run_stmts ddl_all] in *.
  - by apply io_ret_inv in E as [-> _].
  - apply io_bind_ok in E as (d1 & [] & E1 & E). apply execute_ok in E1 as ->. cbn. by apply IH.
Qed.

Lemma run_stmts_runs l d s :
  no_rows d → ddl_all l (schema_of d) = Some s →
  ∃ d', run_stmts l d = (d', Ok ()) ∧ schema_of d' = s ∧ no_rows d'.
Proof.
  revert d. induction l as [|st l IH]; intros d Hr E; cbn [run_stmts ddl_all] in *.
  - simplify_eq. by exists d.
  - destruct (ddl st (schema_of d)) as [s1|] eqn:E1; [|done]. cbn in E.
    destruct (execute_runs _ _ _ Hr E1) as (d1 & Ex & Hr1).
    apply execute_ok in Ex as Hd. rewrite E1 in Hd. injection Hd as ->.
    destruct (IH d1 Hr1 E) as (d' & Hrun & Hs). exists d'. split; [|done].
    by rewrite (io_bind_step _ _ d d1 () Ex).
Qed.
End migrations.

(** The migrations.  On a new database all statements of the migrations
    succeed, and leave a schema whose foreign keys join columns of one type and
    point to primary keys; reverting them then succeeds as well and leaves nothing
    behind.  Whenever the migrations succeed on a new database, whatever the server
    does, the schema is that one. *)
Lemma migrations_roundtrip `{SchemaSpec D} (d : D) (Hnew : schema_of d = no_schema) :
  (no_rows d → ∃ d1 d2, migrate_up d = (d1, Ok ()) ∧ schema_of d1 = migrated
    ∧ migrate_down d1 = (d2, Ok ()) ∧ schema_of d2 = no_schema)
  ∧ schema_sound migrated = true
  ∧ ∀ d1, migrate_up d = (d1, Ok ()) → schema_of d1 = migrated.
Proof.
  assert (ddl_all (mjoin (mg_up <$> migrations)) no_schema = Some migrated) as Hup by eval_eq.
  split; [|split; [eval_eq|]].
  - intros Hr. rewrite <- Hnew in Hup.
    destruct (run_stmts_runs _ d _ Hr Hup) as (d1 & E1 & S1 & R1).
    assert (ddl_all (mjoin (mg_down <$> reverse migrations)) (schema_of d1) = Some no_schema) as Hdown
      by (rewrite S1; eval_eq).
    destruct (run_stmts_runs _ d1 _ R1 Hdown) as (d2 & E2 & S2 & _).
    exists d1, d2. exact (conj E1 (conj S1 (conj E2 S2))).
  - intros d1 E1. apply run_stmts_ok in E1. rewrite Hnew, Hup in E1. exact (eq_sym (Some_inj _ _ E1)).
Qed.

(** Two keys set a column to null that cannot be null: deleting the row they
    point to fails. *)
Lemma set_null_on_not_null :
  (filter (λ kf, fk_on_delete kf.2 = SetNull
     ∧ co_nullable <$> find_column migrated (fk_from kf.2).1 (fk_from kf.2).2 = Some false)
     (map_to_list (sc_foreign_keys migrated))).*1
  ≡ₚ ["fk_tunnel_certificate_serial"; "fk_tunnel_ssh_key_pair_id"].
Proof. apply (bool_decide_unpack _). vm_compute. exact I. Qed.

(** ** The entities on the migrated schema *)

(** Statements on an entity whose table or columns are missing fail and change
    nothing. *)
Definition fails {D E A} (c : io D E A) (d : D) : Prop := ∃ e, c d = (d, Err e).

Class Planned (D : Type) `{Database D} := {
  db_schema : D → Schema;
  plan_statements_fail : ∀ d, entity_ready (db_schema d) service_plan_entity = false →
    (∀ f, fails (plan_one f) d) ∧ fails plan_all d ∧ (∀ p, fails (plan_insert p) d)
    ∧ (∀ p, fails (plan_update p) d) ∧ (∀ k, fails (plan_delete k) d);
  asg_statements_fail : ∀ d, entity_ready (db_schema d) user_service_plan_entity = false →
    (∀ f, fails (asg_one f) d) ∧ (∀ f, fails (asg_all f) d) ∧ (∀ f, fails (asg_count f) d)
    ∧ (∀ a, fails (asg_insert a) d) ∧ (∀ a, fails (asg_update a) d);
}.

Lemma fails_bind {D E A B} (m : io D E A) (k : A → io D E B) d : fails m d → fails (m ≫= k) d.
Proof. intros [e He]. exists e. by apply io_bind_stop. Qed.

Lemma fails_lift {D E A B} (x : result E A) (k : A → io D E B) d :
  (∀ a, fails (k a) d) → fails (io_lift x ≫= k) d.
Proof.
  intros Hk. destruct x as [a|e]; [|exists e; by apply io_bind_stop].
  destruct (Hk a) as [e He]. exists e. by rewrite (io_bind_step _ _ d d a).
Qed.

Lemma fails_map_err {D E E' A} (g : E → E') (c : io D E A) d : fails c d → fails (io_map_err g c) d.
Proof. intros [e He]. exists (g e). unfold io_map_err. by rewrite He. Qed.

(** C38: the service plan endpoints on a migrated database.  The migrations name
    the tables in the singular and the entities in the plural, so on a database
    that has the schema of the migrations every service plan handler that touches
    the database answers every request with an error and changes nothing. *)
Theorem migrated_plans_unavailable `{Planned D} `{Md5} cfg now headers (d : D)
    (Hm : db_schema d = migrated) :
  (∀ pid q, fails (create_service_plan cfg now pid headers q) d)
  ∧ fails (list_service_plans cfg now headers) d
  ∧ (∀ pid, fails (get_service_plan cfg now headers pid) d)
  ∧ (∀ pid q, fails (update_service_plan cfg now headers pid q) d)
  ∧ (∀ pid, fails (delete_service_plan cfg now headers pid) d)
  ∧ (∀ id user q, fails (assign_service_plan_to_user cfg now id headers user q) d)
  ∧ fails (get_my_service_plan cfg now headers) d
  ∧ fails (get_my_service_plan_usage cfg now headers) d
  ∧ fails (get_available_service_plans cfg now headers) d
  ∧ ∀ id pid, fails (request_service_plan_change cfg now id headers pid) d.
Proof.
  destruct (plan_statements_fail d) as (Hone & Hall & _); [rewrite Hm; eval_eq|].
  destruct (asg_statements_fail d) as (Haone & _); [rewrite Hm; eval_eq|].
  split_and!; intros; apply fails_lift; intros u; unfold find_plan, my_assignment, db;
    repeat apply fails_bind; apply fails_map_err; auto.
Qed.

(** Of the thirteen entities only the certificate entity finds its table and
    columns in the migrated schema; six have no table. *)
Lemma entities_ready :
  en_table <$> filter (λ e, entity_ready migrated e = true) ENTITIES = ["certificate_info"]
  ∧ en_table <$> filter (λ e, sc_tables migrated !! en_table e = None) ENTITIES
    = ["auth_tokens"; "service_plans"; "ssh_key_pairs"; "tunnels"; "users"; "user_service_plans"].
Proof. split; eval_eq. Qed.

(** ** The runner's connection *)

(** The connection is the first attempt that succeeds; the last error is returned
    when none of [n] does. *)
Lemma connect_with_retry_correct {D} (connect : nat → result string D) k n last :
  match connect_with_retry connect k n last with
  | (i, Ok db) => (i < n)%nat ∧ connect (k + i)%nat = Ok db
                  ∧ ∀ j, (j < i)%nat → is_ok (connect (k + j)%nat) = false
  | (i, Err e) => i = n ∧ (∀ j, (j < n)%nat → is_ok (connect (k + j)%nat) = false)
                  ∧ (n = 0%nat → e = default "no connection attempts made" last)
                  ∧ (∀ m, n = S m → connect (k + m)%nat = Err e)
  end.
Proof.
  revert k last. induction n as [|n IH]; intros k last; cbn [connect_with_retry].
  - split; [done|]. split; [lia|]. split; [done|]. intros m [=].
  - destruct (connect k) as [db|e] eqn:E.
    + split; [lia|]. rewrite Nat.add_0_r. split; [done|lia].
    + specialize (IH (S k) (Some e)). destruct (connect_with_retry connect (S k) n (Some e)) as [i [db|e']].
      * destruct IH as (Hi & Hdb & Hbad). split; [lia|].
        replace (k + S i)%nat with (S k + i)%nat by lia. split; [done|].
        intros [|j] Hj; [by rewrite Nat.add_0_r, E|].
        replace (k + S j)%nat with (S k + j)%nat by lia. apply Hbad. lia.
      * destruct IH as (-> & Hbad & H0 & Hlast). split; [done|]. split; [|split; [done|]].
        -- intros [|j] Hj; [by rewrite Nat.add_0_r, E|].
           replace (k + S j)%nat with (S k + j)%nat by lia. apply Hbad. lia.
        -- intros m [= <-]. destruct n as [|n].
           ++ rewrite Nat.add_0_r, E. by rewrite (H0 eq_refl).
           ++ replace (k + S n)%nat with (S k + n)%nat by lia. by apply Hlast.
Qed.

(** ** The repositories

    Rows and conditions are untyped, their columns are those of the entity. *)

Inductive Value := VNull | VStr (s : string) | VInt (z : Z) | VTime (t : Z) | VBool (b : bool).
#[export] Instance Value_eq_dec : EqDecision Value.
Proof. solve_decision. Defined.
Definition Row : Type := gmap string Value.
Inductive Cond := Eq (c : string) (v : Value) | Gt (c : string) (v : Value).

Definition holds (r : Row) (c : Cond) : bool :=
  match c with
  | Eq c v => bool_decide (r !! c = Some v) && negb (bool_decide (v = VNull))
  | Gt c v => match r !! c, v with
              | Some (VInt x), VInt y | Some (VTime x), VTime y => y <? x
              | _, _ => false
              end
  end.

(** The statements SeaORM issues for an entity; [delete_by_id] returns the number
    of rows. *)
Class SeaOrm (D : Type) := {
  q_one : EntityDef → list Cond → io D db_error (option Row);
  q_all : EntityDef → list Cond → io D db_error (list Row);
  q_insert : EntityDef → Row → io D db_error Row;
  q_update : EntityDef → Row → io D db_error Row;
  q_delete : EntityDef → Value → io D db_error Z;
}.
Class SeaOrmSpec (D : Type) `{SeaOrm D} := {
  orm_schema : D → Schema;
  orm_rows : D → EntityDef → list Row;
  q_all_ok : ∀ e cs d d' l, q_all e cs d = (d', Ok l) →
    d' = d ∧ ∀ r, r ∈ l ↔ r ∈ orm_rows d e ∧ ∀ c, c ∈ cs → holds r c = true;
  q_refused : ∀ e d, entity_ready (orm_schema d) e = false →
    (∀ cs, fails (q_one e cs) d) ∧ (∀ cs, fails (q_all e cs) d) ∧ (∀ r, fails (q_insert e r) d)
    ∧ (∀ r, fails (q_update e r) d) ∧ (∀ v, fails (q_delete e v) d);
}.

Definition repo {D A} (c : io D db_error A) : io D FE.t A := io_map_err FE.DatabaseError c.

Module UserRepository.
Section user_repository.
Context `{SeaOrm D}.
Definition find_by_github_user_id (uid : string) : io D FE.t (option Row) :=
  repo (q_one user_entity [Eq "github_user_id" (VStr uid)]).
Definition create (user : Row) : io D FE.t Row := repo (q_insert user_entity user).
Definition update (user : Row) : io D FE.t Row := repo (q_update user_entity user).
Definition delete (id : string) : io D FE.t bool :=
  n ← repo (q_delete user_entity (VStr id)); mret (0 <? n).
End user_repository.
End UserRepository.

Module ServicePlanRepository.
Section service_plan_repository.
Context `{SeaOrm D}.
Definition find_by_id (id : string) : io D FE.t (option Row) :=
  repo (q_one service_plan_entity [Eq "id" (VStr id)]).
Definition find_all : io D FE.t (list Row) := repo (q_all service_plan_entity []).
Definition create (plan : Row) : io D FE.t Row := repo (q_insert service_plan_entity plan).
Definition update (plan : Row) : io D FE.t Row := repo (q_update service_plan_entity plan).
End service_plan_repository.
End ServicePlanRepository.

Module TunnelRepository.
Section tunnel_repository.
Context `{SeaOrm D}.
Definition find_by_id (id : string) : io D FE.t (option Row) :=
  repo (q_one tunnel_entity [Eq "id" (VStr id)]).
Definition find_by_github_user_id (uid : string) : io D FE.t (list Row) :=
  repo (q_all tunnel_entity [Eq "github_user_id" (VStr uid)]).
Definition find_active_by_github_user_id (now : Z) (uid : string) : io D FE.t (list Row) :=
  repo (q_all tunnel_entity [Eq "github_user_id" (VStr uid); Eq "status" (VStr "active");
                             Gt "expires_at" (VTime now)]).
Definition create (tunnel : Row) : io D FE.t Row := repo (q_insert tunnel_entity tunnel).
Definition update (tunnel : Row) : io D FE.t Row := repo (q_update tunnel_entity tunnel).
Definition delete (id : string) : io D FE.t bool :=
  n ← repo (q_delete tunnel_entity (VStr id)); mret (0 <? n).
End tunnel_repository.
End TunnelRepository.

(** The active tunnels of a user are those stored as active that have not
    expired. *)
Lemma find_active_correct `{SeaOrmSpec D} now uid (d d' : D) l :
  TunnelRepository.find_active_by_github_user_id now uid d = (d', Ok l) →
  d' = d ∧ ∀ r, r ∈ l ↔ r ∈ orm_rows d tunnel_entity
    ∧ r !! "github_user_id" = Some (VStr uid) ∧ r !! "status" = Some (VStr "active")
    ∧ ∃ t, r !! "expires_at" = Some (VTime t) ∧ now < t.
Proof.
  intros E%io_map_err_ok. apply q_all_ok in E as [-> Hl]. split; [done|]. intros r. rewrite Hl.
  apply and_iff_compat_l. split.
  - intros Hc. pose proof (Hc _ (list_elem_of_here _ _)) as H1.
    pose proof (Hc (Eq "status" (VStr "active")) ltac:(set_solver)) as H2.
    pose proof (Hc (Gt "expires_at" (VTime now)) ltac:(set_solver)) as H3.
    cbn [holds] in *. apply andb_true_iff in H1 as [H1%bool_decide_eq_true _].
    apply andb_true_iff in H2 as [H2%bool_decide_eq_true _]. split; [done|]. split; [done|].
    destruct (r !! "expires_at") as [[]|]; try done. exists t. split; [done|lia].
  - intros (H1 & H2 & t & H3 & Ht) c Hc.
    repeat (apply elem_of_cons in Hc as [->|Hc]); [..|by apply elem_of_nil in Hc]; cbn [holds].
    + by rewrite H1, bool_decide_true.
    + by rewrite H2, bool_decide_true.
    + rewrite H3. lia.
Qed.

(** No repository works on a migrated database. *)
Lemma repositories_unavailable `{SeaOrmSpec D} (d : D) :
  orm_schema d = migrated →
  (∀ id, fails (UserRepository.find_by_github_user_id id) d)
  ∧ fails ServicePlanRepository.find_all d
  ∧ (∀ id, fails (TunnelRepository.find_by_id id) d)
  ∧ ∀ t, fails (TunnelRepository.create t) d.
Proof.
  intros Hm. pose proof (λ e, q_refused e d) as Hr. rewrite Hm in Hr.
  split_and!; intros; apply fails_map_err, Hr; eval_eq.
Qed.

(** ** Concrete databases *)
Module MemSchema.
Import MemDb.

(** A server that holds a schema and no rows. *)
#[export] Instance mem_schema : SchemaManager Schema := {|
  schema_of s := s;
  no_rows _ := True;
  execute st s := match ddl st s with Some s' => (s', Ok ()) | None => (s, Err "refused") end;
|}.
#[export] Instance mem_schema_spec : SchemaSpec Schema.
Proof.
  split; cbn.
  - intros st d d'. destruct (ddl st d); intros [= <-]; done.
  - intros st d d' e. destruct (ddl st d); intros [= <-]; done.
  - intros st d s _ ->. by exists s.
Qed.

Section planned.
Context `{Codec}.

(** A schema over the tables of [MemDb]: statements on an entity that does not fit
    the schema are refused. *)
Definition db : Type := Schema * mem_db.
Definition checked {A} (e : EntityDef) (c : io mem_db db_error A) : io db db_error A := λ d,
  if entity_ready d.1 e then let '(m, r) := c d.2 in ((d.1, m), r) else (d, Err "no such table").

#[export] Instance schema_database : Database db := {|
  plans d := plans d.2;
  assignments d := assignments d.2;
  plan_one f := checked service_plan_entity (plan_one f);
  plan_all := checked service_plan_entity plan_all;
  asg_one f := checked user_service_plan_entity (asg_one f);
  asg_all f := checked user_service_plan_entity (asg_all f);
  asg_count f := checked user_service_plan_entity (asg_count f);
  plan_insert p := checked service_plan_entity (plan_insert p);
  plan_update p := checked service_plan_entity (plan_update p);
  plan_delete k := checked service_plan_entity (plan_delete k);
  asg_insert a := checked user_service_plan_entity (asg_insert a);
  asg_update a := checked user_service_plan_entity (asg_update a);
|}.

Lemma checked_fails {A} e (c : io mem_db db_error A) d :
  entity_ready d.1 e = false → fails (checked e c) d.
Proof. intros E. exists "no such table". unfold checked. by rewrite E. Qed.

#[export] Program Instance schema_planned : Planned db := {| db_schema d := d.1 |}.
Next Obligation. intros d E. split_and!; intros; by apply checked_fails. Qed.
Next Obligation. intros d E. split_and!; intros; by apply checked_fails. Qed.
End planned.
End MemSchema.

Module SchemaDemo.
Import MemDb MemSchema BitCodec AuthDemo ServicePlansDemo.

Lemma migrations_roundtrip_witness :
  ∃ d1 d2, migrate_up no_schema = (d1, Ok ()) ∧ schema_of d1 = migrated
    ∧ migrate_down d1 = (d2, Ok ()) ∧ schema_of d2 = no_schema.
Proof. by apply (migrations_roundtrip no_schema). Defined.

(** The handler that succeeds over the tables of the entities. *)
Lemma migrated_plans_unavailable_witness :
  fails (create_service_plan default_api_config 0 (uid 1) ann (plan_request "free" 60)) (migrated, empty_db)
  ∧ is_ok (create_service_plan default_api_config 0 (uid 1) ann (plan_request "free" 60) empty_db).2 = true.
Proof.
  split; [|by vm_compute].
  apply (migrated_plans_unavailable default_api_config 0 ann (migrated, empty_db)). reflexivity.
Defined.
End SchemaDemo.
