(* ===== verification/Compression.v ===== *)
(** * Response compression

    crates/dnsd/src/response_compression.rs: the compressor of DNS responses, its
    pattern cache and its statistics.  zstd is a parameter ([Zstd]) with what its
    format documents ([ZstdSpec]); whether a blocking task ends and the order in
    which a hash map lists its keys are arguments of the calls. *)

From S2P Require Import Prelude Float.

Record CompressionConfig := {
  enable_compression : bool;
  min_compress_size : Z;
  compression_level : Z;
  cc_enable_stats : bool;
}.
Definition default_compression : CompressionConfig :=
  {| enable_compression := false; min_compress_size := 512; compression_level := 6;
     cc_enable_stats := true |}.

Record CompressionStats := {
  total_responses : Z;
  compressed_responses : Z;
  total_original_size : Z;
  total_compressed_size : Z;
  compression_ratio : f64;
}.
Definition default_stats : CompressionStats :=
  {| total_responses := 0; compressed_responses := 0; total_original_size := 0;
     total_compressed_size := 0; compression_ratio := f64_of_Z 0 |}.

Record ResponseCompressor := {
  rc_config : CompressionConfig;
  rc_stats : CompressionStats;
  pattern_cache : gmap string string;
}.
Definition ResponseCompressor_new (config : CompressionConfig) : ResponseCompressor :=
  {| rc_config := config; rc_stats := default_stats; pattern_cache := ∅ |}.

(** ** zstd *)

Class Zstd := {
  encode_all : string → Z → result string string;
  decode_all : string → result string string;
}.

(** The first bytes of a frame, of the current and the older formats, or of a
    frame to skip. *)
Definition frame_magic (c : string) : bool :=
  match c with
  | String a (String b (String x (String y _))) =>
      in_range 30 40 a && (code b =? 181) && (code x =? 47) && (code y =? 253)
      || in_range 80 95 a && (code b =? 42) && (code x =? 77) && (code y =? 24)
  | _ => false
  end.

(** Decoding undoes encoding, and only data that begins with a frame is decoded;
    no data is decoded to no data. *)
Class ZstdSpec `{Zstd} := {
  zstd_inverse : ∀ data level c, encode_all data level = Ok c → decode_all c = Ok data;
  zstd_frames : ∀ c data, decode_all c = Ok data → c = data ∨ frame_magic c = true;
}.

Section compressor.
Context `{Hz : Zstd}.

(** A blocking task: its result, or the error of joining it. *)
Definition spawn_blocking {A} (what : string) (join_error : option string) (task : result string A)
    : result string A :=
  match join_error with
  | Some e => Err (what +:+ " task failed: " +:+ e)
  | None => map_err (λ e, what +:+ " failed: " +:+ e) task
  end.

Definition compress_data (c : ResponseCompressor) (join_error : option string) (data : string)
    : result string string :=
  spawn_blocking "Compression" join_error (encode_all data (compression_level (rc_config c))).
Definition decompress_data (join_error : option string) (data : string) : result string string :=
  spawn_blocking "Decompression" join_error (decode_all data).

Definition get_cached_compression (c : ResponseCompressor) (response : string) : option string :=
  pattern_cache c !! response.

Definition with_cache (c : ResponseCompressor) (m : gmap string string) : ResponseCompressor :=
  {| rc_config := rc_config c; rc_stats := rc_stats c; pattern_cache := m |}.
Definition with_stats (c : ResponseCompressor) (s : CompressionStats) : ResponseCompressor :=
  {| rc_config := rc_config c; rc_stats := s; pattern_cache := pattern_cache c |}.

(** A full cache loses the first hundred keys in the map's order. *)
Definition cache_compression_pattern (order : gmap string string → list string)
    (original compressed : string) (c : ResponseCompressor) : ResponseCompressor :=
  let m := pattern_cache c in
  let m := if 1000 <=? Z.of_nat (size m) then foldl (λ m k, delete k m) m (take 100 (order m)) else m in
  with_cache c (<[original := compressed]> m).

Definition update_stats (original_size compressed_size : Z) (was_compressed : bool)
    (c : ResponseCompressor) : ResponseCompressor :=
  if negb (cc_enable_stats (rc_config c)) then c
  else
    let s := rc_stats c in
    let original := as_u64 (total_original_size s + original_size) in
    let compressed := as_u64 (total_compressed_size s + compressed_size) in
    with_stats c
      {| total_responses := as_u64 (total_responses s + 1);
         compressed_responses := if was_compressed then as_u64 (compressed_responses s + 1)
                                 else compressed_responses s;
         total_original_size := original;
         total_compressed_size := compressed;
         compression_ratio := if 0 <? original then f64_div (f64_of_Z compressed) (f64_of_Z original)
                              else compression_ratio s |}.

(** [0.9], the double nearest to 9/10, which the correctly rounded quotient is. *)
Definition beneficial (compressed response : string) : bool :=
  f64_ltb (f64_div (f64_of_Z (str_len compressed)) (f64_of_Z (str_len response)))
    (f64_div (f64_of_Z 9) (f64_of_Z 10)).

Definition compress_response (join_error : option string) (order : gmap string string → list string)
    (response : string) (c : ResponseCompressor) : ResponseCompressor * result string string :=
  let plain c := (update_stats (str_len response) (str_len response) false c, Ok response) in
  if negb (enable_compression (rc_config c)) then (c, Ok response)
  else if str_len response <? min_compress_size (rc_config c) then plain c
  else
    match get_cached_compression c response with
    | Some cached => (update_stats (str_len response) (str_len cached) true c, Ok cached)
    | None =>
        match compress_data c join_error response with
        | Ok compressed =>
            if beneficial compressed response then
              (update_stats (str_len response) (str_len compressed) true
                 (cache_compression_pattern order response compressed c), Ok compressed)
            else plain c
        | Err _ => plain c
        end
    end.

Definition decompress_response (join_error : option string) (c : ResponseCompressor)
    (compressed : string) : result string string :=
  if negb (enable_compression (rc_config c)) then Ok compressed
  else match decompress_data join_error compressed with
       | Ok decompressed => Ok decompressed
       | Err _ => Ok compressed
       end.

Definition get_stats (c : ResponseCompressor) : CompressionStats := rc_stats c.
Definition reset_stats (c : ResponseCompressor) : ResponseCompressor := with_stats c default_stats.

(** ** Histories *)

Inductive CompressorCall :=
  | CallCompress (join_error : option string) (order : gmap string string → list string) (response : string)
  | CallReset.

Definition serve_call (c : ResponseCompressor) (x : CompressorCall) : ResponseCompressor :=
  match x with
  | CallCompress j o r => (compress_response j o r c).1
  | CallReset => reset_stats c
  end.

(** The order lists keys of the map. *)
Definition call_ok (x : CompressorCall) : Prop :=
  match x with
  | CallCompress _ o _ => ∀ m, o m ≡ₚ (map_to_list m).*1
  | CallReset => True
  end.

(** The cache holds encodings of its keys, at most a thousand of them. *)
Definition compressor_inv (config : CompressionConfig) (c : ResponseCompressor) : Prop :=
  rc_config c = config
  ∧ (size (pattern_cache c) ≤ 1000)%nat
  ∧ map_Forall (λ k v, decode_all v = Ok k ∧ encode_all k (compression_level config) = Ok v
                       ∧ beneficial v k = true) (pattern_cache c).
End compressor.

(** The third byte of a DNS message begins with the bit that marks responses. *)
Definition marked_response (m : string) : bool :=
  match m with String _ (String _ (String x _)) => 128 <=? code x | _ => false end.

Lemma marked_not_frame m : marked_response m = true → frame_magic m = false.
Proof.
  destruct m as [|a [|b [|x [|y m]]]]; try done. cbn. intros Hx%Z.leb_le.
  destruct (Z.eqb_spec (code x) 47), (Z.eqb_spec (code x) 77); lia.
Qed.

Section compressor_lemmas.
Context `{Hspec : ZstdSpec}.

Lemma evict_size (m : gmap string string) l :
  NoDup l → (∀ k, k ∈ l → is_Some (m !! k)) →
  (size (foldl (λ m k, delete k m) m l) + length l = size m)%nat.
Proof.
  revert m. induction l as [|k l IH]; intros m Hnd Hin; cbn; [lia|].
  apply NoDup_cons in Hnd as [Hk Hnd]. rewrite <- Nat.add_succ_comm, Nat.add_succ_l.
  rewrite IH; [|done|].
  - assert (is_Some (m !! k)) as Hk' by (apply Hin; left).
    rewrite map_size_delete_Some by done. pose proof (map_size_ne_0_lookup_2 m k Hk'). lia.
  - intros j Hj. rewrite lookup_delete_ne by set_solver. apply Hin. by right.
Qed.

Lemma evict_submap (m : gmap string string) l : foldl (λ m k, delete k m) m l ⊆ m.
Proof.
  revert m. induction l as [|k l IH]; intros m; cbn; [done|].
  etrans; [apply IH|apply delete_subseteq].
Qed.

Lemma update_stats_frame a b w c :
  rc_config (update_stats a b w c) = rc_config c
  ∧ pattern_cache (update_stats a b w c) = pattern_cache c.
Proof. unfold update_stats. by case_match. Qed.

(** The invariant depends on the configuration and the cache only. *)
Lemma inv_update_stats config a b w c :
  compressor_inv config c → compressor_inv config (update_stats a b w c).
Proof. unfold compressor_inv. by destruct (update_stats_frame a b w c) as [-> ->]. Qed.

Lemma cache_pattern_inv config order original compressed c :
  (∀ m, order m ≡ₚ (map_to_list m).*1) → compressor_inv config c →
  encode_all original (compression_level config) = Ok compressed →
  beneficial compressed original = true →
  compressor_inv config (cache_compression_pattern order original compressed c).
Proof.
  intros Ho (Hc & Hsz & Hm) He Hb. split; [done|]. unfold cache_compression_pattern. cbn [pattern_cache with_cache].
  match goal with |- context [<[original := compressed]> ?m0] => set (m := m0) end.
  assert (m ⊆ pattern_cache c ∧ (size m ≤ 999)%nat) as [Hsub Hsz'].
  { unfold m. case_match eqn:E; [|split; [done|lia]].
    split; [apply evict_submap|].
    assert (NoDup (order (pattern_cache c))) as Hnd by (rewrite Ho; apply NoDup_fst_map_to_list).
    assert (length (order (pattern_cache c)) = size (pattern_cache c)) as Hlen.
    { rewrite Ho, length_fmap. apply length_map_to_list. }
    pose proof (evict_size (pattern_cache c) (take 100 (order (pattern_cache c)))) as He1.
    rewrite length_take in He1. ospecialize (He1 _ _); [| |lia].
    - eapply sublist_NoDup; [done|apply sublist_take].
    - intros k Hk. assert (k ∈ order (pattern_cache c)) as Hk'
        by (apply elem_of_take in Hk as (i & Hi & _); by eapply list_elem_of_lookup_2).
      rewrite Ho in Hk'. apply list_elem_of_fmap in Hk' as ([k' v] & -> & Hv%elem_of_map_to_list).
      by exists v. }
  split.
  - rewrite map_size_insert. case_match; cbn; lia.
  - apply map_Forall_insert_2; [|intros k v Hk; by eapply Hm, lookup_weaken].
    split; [by eapply zstd_inverse|done].
Qed.

(** What a call returns: the response itself, or its encoding when that is
    enabled, worthwhile and kept in the cache. *)
Lemma compress_response_spec config j order response c c' out :
  (∀ m, order m ≡ₚ (map_to_list m).*1) → compressor_inv config c →
  compress_response j order response c = (c', out) →
  compressor_inv config c'
  ∧ (out = Ok response
     ∨ ∃ z, out = Ok z ∧ enable_compression config = true ∧ min_compress_size config ≤ str_len response
         ∧ encode_all response (compression_level config) = Ok z ∧ decode_all z = Ok response
         ∧ beneficial z response = true).
Proof.
  intros Ho Hinv E. pose proof Hinv as (Hc & _ & Hm). unfold compress_response in E.
  rewrite Hc in E. destruct (enable_compression config) eqn:Hen; cbn [negb] in E; [|simplify_eq; eauto].
  destruct (Z.ltb_spec (str_len response) (min_compress_size config)).
  { simplify_eq. split; [by apply inv_update_stats|eauto]. }
  unfold get_cached_compression in E. destruct (pattern_cache c !! response) as [z|] eqn:Hz.
  { simplify_eq. split; [by apply inv_update_stats|]. apply Hm in Hz as (? & ? & ?). right. eauto 10. }
  unfold compress_data, spawn_blocking in E. rewrite Hc in E.
  destruct j; [simplify_eq; split; [by apply inv_update_stats|eauto]|].
  destruct (encode_all response (compression_level config)) as [z|e] eqn:He; cbn in E;
    [|simplify_eq; split; [by apply inv_update_stats|eauto]].
  destruct (beneficial z response) eqn:Hb; simplify_eq; [|split; [by apply inv_update_stats|eauto]].
  split; [by apply inv_update_stats, cache_pattern_inv|]. right. exists z.
  split_and!; eauto. by eapply zstd_inverse.
Qed.

Lemma compressor_new_inv config : compressor_inv config (ResponseCompressor_new config).
Proof. split; [done|]. split; [cbn; rewrite map_size_empty; lia|apply map_Forall_empty]. Qed.

Lemma compressor_history config calls :
  Forall call_ok calls → compressor_inv config (foldl serve_call (ResponseCompressor_new config) calls).
Proof.
  generalize (compressor_new_inv config). generalize (ResponseCompressor_new config).
  induction calls as [|x calls IH]; intros c Hc Hok; cbn; [done|].
  apply Forall_cons in Hok as [Hx Hok]. apply IH; [|done].
  destruct x as [j o r|]; cbn; [|done].
  destruct (compress_response j o r c) as [c' out] eqn:E. by eapply compress_response_spec in E as [? _].
Qed.

Lemma decompress_frame config c z response :
  rc_config c = config → enable_compression config = true → decode_all z = Ok response →
  decompress_response None c z = Ok response.
Proof. intros Hc He Hz. unfold decompress_response. rewrite Hc, He. cbn. by rewrite Hz. Qed.

Lemma decompress_plain c response :
  marked_response response = true → decompress_response None c response = Ok response.
Proof.
  intros Hm. unfold decompress_response. destruct (enable_compression _); cbn; [|done].
  destruct (decode_all response) as [d|e] eqn:E; cbn; [|done].
  apply zstd_frames in E as [->|E]; [done|]. by rewrite marked_not_frame in E.
Qed.
End compressor_lemmas.

(** Compression is transparent.  After any calls, compressing a DNS response
    gives bytes that every compressor of the same configuration decompresses to the
    response, although nothing marks what is compressed: bytes that were left as
    they are begin like a response, and no frame does.  The bytes differ from the
    response only when compression is enabled, the response is large enough and the
    encoding is shorter than nine tenths of it; the cache never exceeds a thousand
    entries. *)
Lemma compression_transparent `{ZstdSpec} config calls j order response
    (Hcalls : Forall call_ok calls) (Horder : ∀ m, order m ≡ₚ (map_to_list m).*1)
    (Hresp : marked_response response = true) :
  let c := foldl serve_call (ResponseCompressor_new config) calls in
  ∃ c' bytes, compress_response j order response c = (c', Ok bytes)
    ∧ (size (pattern_cache c') ≤ 1000)%nat
    ∧ (∀ d, rc_config d = config → decompress_response None d bytes = Ok response)
    ∧ (bytes = response ∨ enable_compression config = true
         ∧ min_compress_size config ≤ str_len response ∧ beneficial bytes response = true).
Proof.
  intros c. destruct (compress_response j order response c) as [c' out] eqn:E.
  apply (compress_response_spec config) in E as [(_ & Hsz & _) Hout]; [|done|by apply compressor_history].
  destruct Hout as [->|(z & -> & Hen & Hmin & _ & Hz & Hb)]; eexists c', _; split_and!; eauto.
  - intros d _. by apply decompress_plain.
  - intros d Hd. by eapply decompress_frame.
Qed.

(** ** Run-length coding as a compression *)
Module RunLength.

Fixpoint repeated (a : ascii) (n : nat) : string :=
  match n with O => "" | S n => String a (repeated a n) end.
Fixpoint rle (s : string) : string :=
  match s with
  | "" => ""
  | String a s' =>
      match rle s' with
      | String n (String b r) =>
          if decide (a = b ∧ code n < 255) then String (ascii_of_N (Z.to_N (code n + 1))) (String b r)
          else String (ascii_of_N 1) (String a (String n (String b r)))
      | _ => String (ascii_of_N 1) (String a "")
      end
  end.
Fixpoint unrle (s : string) : string :=
  match s with
  | String n (String b r) => repeated b (Z.to_nat (code n)) +:+ unrle r
  | _ => ""
  end.

Lemma unrle_rle s : unrle (rle s) = s.
Proof.
  induction s as [|a s IH]; [done|]. cbn [rle].
  destruct (rle s) as [|n [|b r]]; [by rewrite <- IH|by rewrite <- IH|].
  pose proof (code_range n). case_decide as Hd.
  - destruct Hd as [-> Hn]. rewrite <- IH. cbn [unrle].
    rewrite code_ascii_of_N by lia.
    replace (Z.to_nat (code n + 1)) with (S (Z.to_nat (code n))) by lia. done.
  - rewrite <- IH. done.
Qed.

Definition magic : string :=
  String (ascii_of_N 40) (String (ascii_of_N 181) (String (ascii_of_N 47) (String (ascii_of_N 253) ""))).

#[export] Instance run_length : Zstd := {|
  encode_all data _ := Ok (magic +:+ rle data);
  decode_all c := match strip_prefix magic c with Some r => Ok (unrle r) | None => Err "unknown frame" end;
|}.
#[export] Instance run_length_spec : ZstdSpec.
Proof.
  split.
  - intros data level c E. injection E as <-. cbn [decode_all run_length].
    by rewrite strip_prefix_app, unrle_rle.
  - intros c data. cbn [decode_all run_length]. destruct (strip_prefix magic c) as [r|] eqn:E; [|done].
    intros _. right. apply strip_prefix_Some in E as ->. done.
Qed.

Definition enabled : CompressionConfig :=
  {| enable_compression := true; min_compress_size := 8; compression_level := 6; cc_enable_stats := true |}.
Definition keys (m : gmap string string) : list string := (map_to_list m).*1.
(** A response with a long run, one without, and a short one. *)
Definition long_response : string := "id" +:+ String (ascii_of_N 128) (repeated "000" 60).
Definition mixed_response : string := "id" +:+ String (ascii_of_N 129) "abcdefgh".
Definition served : list CompressorCall :=
  [CallCompress None keys mixed_response; CallCompress (Some "cancelled") keys long_response;
   CallReset; CallCompress None keys long_response].

Lemma compression_transparent_witness :
  let c := foldl serve_call (ResponseCompressor_new enabled) served in
  (∃ c' bytes, compress_response None keys long_response c = (c', Ok bytes)
    ∧ decompress_response None c bytes = Ok long_response)
  ∧ res_ok (compress_response None keys long_response c).2 ≠ Some long_response
  ∧ (size (pattern_cache c) = 1)%nat.
Proof.
  intros c. split; [|split; [by vm_compute|by vm_compute]].
  destruct (compression_transparent enabled served None keys long_response)
    as (c' & bytes & E & _ & Hd & _).
  - unfold served. rewrite !Forall_cons, Forall_nil. split_and!; try done; intros m; reflexivity.
  - intros m. reflexivity.
  - by vm_compute.
  - exists c', bytes. split; [exact E|]. apply Hd. by vm_compute.
Defined.

(** A query is not marked: one that begins like a frame does not survive. *)
Example query_not_transparent :
  decompress_response None (ResponseCompressor_new enabled) (magic +:+ "") = Ok "".
Proof. by vm_compute. Qed.
End RunLength.
