(* ===== verification/DnsServer.v ===== *)
(** * The DNS server

    crates/dnsd/src/lib.rs over [DnsHandler]: the UDP loop with its buffer of 512
    bytes, with and without the shutdown signal, and the server's configuration.
    What the socket and the signal deliver is a list of events; changes of Redis by
    other processes and the purges of the cache's background task are events too. *)

From S2P Require Import Prelude Redis Serde Models Errors Net Float Metrics RedisCache DnsHandler Auth RateLimit CA Config Ddos Dnssec.

(** ** The configuration *)

Record DnsServerConfig := {
  ds_addr : SocketAddr;
  ds_ddos_config : DdosConfig;
  ds_enable_ddos_protection : bool;
  ds_dnssec_config : DnssecConfig;
  ds_performance_config : PerformanceConfig;
}.

(** [Config::default]; [None] is a panic, of loading the settings or of a Redis
    address that is not one ([redis_manager]). *)
Definition default_server_config (env : Env) (redis_manager : string → result string ())
    : option DnsServerConfig :=
  c ← CommonConfig.from_env env;
  _ ← res_ok (redis_manager (CommonConfig.redis_url (CommonConfig.redis c)));
  Some {| ds_addr := CommonConfig.dns_addr c;
          ds_ddos_config := default_ddos_config;
          ds_enable_ddos_protection := CommonConfig.enable_ddos_protection (CommonConfig.dns c);
          ds_dnssec_config := default_dnssec_config;
          ds_performance_config := default_performance |}.

(** ** The loop *)

Section udp.
Context `{Hredis : RedisServer R} `{Hh : Hickory} `{Hc : TtlCache C} `{Hhash : Hasher}.

(** [Received now elapsed d peer ok]: a datagram from [peer]; the response takes
    [elapsed] to compute and the attempt to send it ends with [ok]. *)
Inductive UdpEvent :=
  | Received (now elapsed : Z) (datagram : string) (peer : SocketAddr) (send_ok : bool)
  | ReceiveFailed
  | CachePurged (now : Z)
  | RedisChanged (r : R)
  | ShutdownSignalled.

Record UdpState := {
  us_dns : DnsState (C := C);
  us_redis : R;
  (** The attempts to send, the latest first. *)
  us_sent : list (SocketAddr * string * bool);
}.

Definition BUFFER : nat := 512.
(** [recv_from]: what does not fit the buffer is lost. *)
Definition received (datagram : string) : string := String.substring 0 BUFFER datagram.

Definition DnsHandler_new (cfg : PerformanceConfig) : DnsState (C := C) :=
  {| d_cache := cache_empty; d_metrics := MetricsManager_new (cfg_max_response_time_ms cfg) |}.

(** One turn of the loop. *)
Definition udp_step (cfg : PerformanceConfig) (e : UdpEvent) (s : UdpState) : UdpState :=
  match e with
  | Received now elapsed datagram peer send_ok =>
      let '(d, r, resp) := handle_packet cfg now elapsed (received datagram) (us_dns s) (us_redis s) in
      {| us_dns := d; us_redis := r; us_sent := (peer, resp, send_ok) :: us_sent s |}
  | CachePurged now =>
      {| us_dns := {| d_cache := cache_purge now (d_cache (us_dns s)); d_metrics := d_metrics (us_dns s) |};
         us_redis := us_redis s; us_sent := us_sent s |}
  | RedisChanged r => {| us_dns := us_dns s; us_redis := r; us_sent := us_sent s |}
  | ReceiveFailed | ShutdownSignalled => s
  end.

(** [serve_with_shutdown]; the flag says that the loop has ended. *)
Fixpoint serve_with_shutdown (cfg : PerformanceConfig) (events : list UdpEvent) (s : UdpState)
    : UdpState * bool :=
  match events with
  | [] => (s, false)
  | ShutdownSignalled :: _ => (s, true)
  | e :: events => serve_with_shutdown cfg events (udp_step cfg e s)
  end.

(** [serve]: its own shutdown channel is never written, so the loop does not end. *)
Fixpoint serve (cfg : PerformanceConfig) (events : list UdpEvent) (s : UdpState) : UdpState :=
  match events with
  | [] => s
  | e :: events => serve cfg events (udp_step cfg e s)
  end.

Definition udp_start (cfg : DnsServerConfig) (r : R) : UdpState :=
  {| us_dns := DnsHandler_new (ds_performance_config cfg); us_redis := r; us_sent := [] |}.

(** ** What is sent *)

Definition before_shutdown (events : list UdpEvent) : list UdpEvent :=
  (fix go l := match l with
               | [] | ShutdownSignalled :: _ => []
               | e :: l => e :: go l
               end) events.

Definition datagram_of (e : UdpEvent) : option (SocketAddr * string * bool) :=
  match e with Received _ _ d p ok => Some (p, received d, ok) | _ => None end.
Definition datagrams (events : list UdpEvent) : list (SocketAddr * string * bool) :=
  omap datagram_of events.

Definition is_shutdown (e : UdpEvent) : bool := match e with ShutdownSignalled => true | _ => false end.

(** Times do not decrease. *)
Definition event_time (e : UdpEvent) : option Z :=
  match e with Received t _ _ _ _ | CachePurged t => Some t | _ => None end.
Fixpoint ordered (now : Z) (events : list UdpEvent) : Prop :=
  match events with
  | [] => True
  | e :: events =>
      match event_time e with
      | Some t => now ≤ t ∧ ordered t events
      | None => ordered now events
      end
  end.

Lemma serve_with_shutdown_serve cfg events s :
  (serve_with_shutdown cfg events s).1 = serve cfg (before_shutdown events) s.
Proof.
  revert s. induction events as [|e events IH]; intros s; [done|].
  destruct e; cbn [serve_with_shutdown before_shutdown serve]; try apply IH. done.
Qed.

Lemma serve_stops cfg events s :
  (serve_with_shutdown cfg events s).2 = existsb is_shutdown events.
Proof.
  revert s. induction events as [|e events IH]; intros s; [done|].
  destruct e; cbn [serve_with_shutdown existsb is_shutdown orb]; try apply IH. done.
Qed.

Lemma datagrams_before d events :
  d ∈ datagrams (before_shutdown events) → d ∈ datagrams events.
Proof.
  induction events as [|e events IH]; [done|]. intros Hd.
  destruct e; cbn in *; [|by apply IH..|by apply elem_of_nil in Hd].
  apply elem_of_cons in Hd as [->|Hd]; [left|right; by apply IH].
Qed.

(** From [now] on, everything the cache returns for a packet of [ps] answers it. *)
Definition cache_proper (ps : list string) (now : Z) (c : C) : Prop :=
  ∀ p t v, p ∈ ps → now ≤ t → get_cached_response t p c = Some v → proper_response p v.

Lemma handle_packet_proper cfg ps now now' elapsed p d r d' r' resp :
  (∀ m, is_Some (to_vec m)) →
  (∀ p q, p ∈ ps → q ∈ ps → hash64 p = hash64 q → p = q) →
  p ∈ ps → now ≤ now' → cache_proper ps now (d_cache d) →
  handle_packet cfg now' elapsed p d r = (d', r', resp) →
  proper_response p resp ∧ cache_proper ps now' (d_cache d').
Proof.
  intros Htot Hinj Hp Hle Hcp E. unfold handle_packet in E.
  destruct (get_cached_response now' p (d_cache d)) as [v|] eqn:Ev.
  - simplify_eq. cbn. split; [by eapply Hcp|]. intros q t w Hq Ht Hw. eapply Hcp; [done| |done]. lia.
  - pose proof (dns_always_answers now' p r Htot) as Ha.
    destruct (process_dns_query now' p r) as [r1 resp1]. simplify_eq. cbn in *. split; [done|].
    intros q t w Hq Ht. unfold get_cached_response, cache_response.
    destruct (decide (generate_cache_key q = generate_cache_key p)) as [Hk|Hk].
    + rewrite Hk, cache_get_insert. case_match; intros; simplify_eq.
      by rewrite (Hinj q p).
    + rewrite cache_get_insert_ne by done. intros Hw. eapply Hcp; [done| |done]. lia.
Qed.

Definition answered (d out : SocketAddr * string * bool) : Prop :=
  out.1.1 = d.1.1 ∧ out.2 = d.2 ∧ proper_response d.1.2 out.1.2.

Lemma serve_answers cfg ps events now s :
  (∀ m, is_Some (to_vec m)) →
  (∀ p q, p ∈ ps → q ∈ ps → hash64 p = hash64 q → p = q) →
  (∀ d, d ∈ datagrams events → d.1.2 ∈ ps) →
  ordered now events → cache_proper ps now (d_cache (us_dns s)) →
  ∃ outs, us_sent (serve cfg events s) = reverse outs ++ us_sent s
    ∧ Forall2 answered (datagrams events) outs.
Proof.
  intros Htot Hinj. revert now s. induction events as [|e events IH]; intros now s Hps Hord Hcp.
  { exists []. split; [done|constructor]. }
  assert (∀ now', now ≤ now' → cache_proper ps now' (d_cache (us_dns s))) as Hlater.
  { intros now' Hle p t v Hp Ht Hv. eapply Hcp; [done| |done]. lia. }
  destruct e as [t elapsed d peer ok| |t|r'|]; cbn [serve].
  - destruct Hord as [Ht Hord]. cbn [udp_step].
    destruct (handle_packet cfg t elapsed (received d) (us_dns s) (us_redis s)) as [[d' r'] resp] eqn:E.
    eapply (handle_packet_proper cfg ps now t) in E as [Hresp Hcp']; try done;
      [|apply (Hps (peer, received d, ok)); left].
    edestruct (IH t {| us_dns := d'; us_redis := r'; us_sent := (peer, resp, ok) :: us_sent s |})
      as (outs & Hs & Hall); [|exact Hord|exact Hcp'|].
    { intros d0 Hd0. apply Hps. by right. }
    exists ((peer, resp, ok) :: outs). split; [|by constructor].
    rewrite Hs. cbn [us_sent]. by rewrite reverse_cons, <- (assoc_L (++)).
  - by apply (IH now).
  - destruct Hord as [Ht Hord]. apply (IH t (udp_step cfg (CachePurged t) s)); [done|done|].
    intros p t' v Hp Ht' Hv. unfold get_cached_response in Hv. cbn in Hv.
    rewrite cache_get_purge in Hv by done. eapply Hlater; [exact Ht|done|exact Ht'|done].
  - by apply (IH now (udp_step cfg (RedisChanged r') s)).
  - by apply (IH now).
Qed.
End udp.

(** C15: every datagram is answered once.  Whatever the packets, whatever Redis and
    other processes do and whenever the cache is purged, the loop sends, for every
    datagram received before the shutdown signal and in their order, one response
    to its sender: a response message for the first 512 bytes, with the query's id
    and operation, FORMERR for bytes that are not a query.  This holds as long as
    no two of the packets have the same hash, which is the key of the cache, time
    does not run backwards and the library encodes every response. *)
Theorem udp_answers_each `{RedisServer R} `{Hickory} `{TtlCache C} `{Hasher}
    (cfg : DnsServerConfig) events (r : R) now
    (Htot : ∀ m, is_Some (to_vec m)) (Hord : ordered now (before_shutdown events))
    (Hinj : ∀ d d', d ∈ datagrams events → d' ∈ datagrams events →
       hash64 d.1.2 = hash64 d'.1.2 → d.1.2 = d'.1.2) :
  let s := serve_with_shutdown (C := C) (ds_performance_config cfg) events (udp_start cfg r) in
  Forall2 answered (datagrams (before_shutdown events)) (reverse (us_sent s.1))
  ∧ s.2 = existsb is_shutdown events.
Proof.
  intros s. split.
  - unfold s. rewrite serve_with_shutdown_serve.
    destruct (serve_answers (C := C) (ds_performance_config cfg) ((λ d, d.1.2) <$> datagrams events)
                (before_shutdown events) now (udp_start cfg r)) as (outs & Hs & Hall).
    + done.
    + intros p q (d & -> & Hd)%list_elem_of_fmap (d' & -> & Hd')%list_elem_of_fmap. by apply Hinj.
    + intros d Hd. apply list_elem_of_fmap. exists d. split; [done|]. by eapply datagrams_before.
    + done.
    + intros p t v _ _. unfold get_cached_response. cbn. by rewrite cache_get_empty.
    + rewrite Hs. cbn. by rewrite app_nil_r, reverse_involutive.
  - apply serve_stops.
Qed.

(** ** Examples *)
Module DnsServerDemo.
Import MemRedis BitCodec DnsDemo.

Definition peer (p : Z) : SocketAddr := {| sa_ip := V4 (Ipv4 192 0 2 1); sa_port := p |}.
(** The codec of [DnsDemo] with a short form of its query. *)
#[export, refine] Instance short_hickory : Hickory := {|
  DnsHandler.Name := string; DnsHandler.name_to_string := λ n, n;
  from_vec := λ s, match from_vec (Hickory := demo_hickory) s with
                   | Some m => Some m
                   | None => if s =?s "query" then Some message else None
                   end;
  to_vec := to_vec (Hickory := demo_hickory);
|}.
Proof. intros m v E. by rewrite (to_from_vec (Hickory := demo_hickory) m v E). Defined.

(** Two queries that fit the buffer, bytes that are not a message, and a query of
    1674 bytes, which is cut. *)
Definition events : list (UdpEvent (R := mem)) :=
  [Received 0 1000 "query" (peer 1000) true; Received 5 1000 "junk" (peer 1001) false;
   RedisChanged ∅; CachePurged (secs 30); ReceiveFailed;
   Received (secs 40) 1000 packet (peer 1002) true; Received (secs 41) 1000 "query" (peer 1003) true;
   ShutdownSignalled;
   Received (secs 50) 1000 packet (peer 1003) true].
Definition server : DnsServerConfig :=
  {| ds_addr := peer 6353; ds_ddos_config := default_ddos_config; ds_enable_ddos_protection := true;
     ds_dnssec_config := default_dnssec_config; ds_performance_config := default_performance |}.

Lemma udp_answers_each_witness :
  let s := serve_with_shutdown (C := gmap string (string * Z)) default_performance events
             (udp_start server redis) in
  Forall2 answered (datagrams (before_shutdown events)) (reverse (us_sent s.1))
  ∧ s.2 = true ∧ length (us_sent s.1) = 4%nat.
Proof.
  intros s. destruct (udp_answers_each (C := gmap string (string * Z)) server events redis 0) as [Ha Hs].
  - intros m. apply to_vec_total.
  - cbn. unfold secs. lia.
  - intros d d' Hd Hd'. cbn in Hd, Hd'.
    repeat (apply elem_of_cons in Hd as [->|Hd]); try (by apply elem_of_nil in Hd);
    repeat (apply elem_of_cons in Hd' as [->|Hd']); try (by apply elem_of_nil in Hd');
      by vm_compute.
  - split; [exact Ha|]. split; [exact Hs|eval_eq].
Defined.
End DnsServerDemo.
