(* ===== verification/EdgeStart.v ===== *)
(** * Start-up of the edge and its keys

    cmd/edgehub-bin/src/main.rs ([run] up to serving), [SshServer::new] and the host
    key of crates/edgehub/src/ssh_server.rs, crates/common/src/tls.rs, and the files
    of the certificate authority in crates/edf-ca/src/ca.rs.  The file system is the
    one of the client ([FileSystem]); random bytes and the outcomes of connections
    are arguments, the TLS and SSH key libraries are parameters. *)

From S2P Require Import Prelude Redis Serde Models Errors Net Float RedisCache SshHub EdgeRouter Auth RateLimit CA Config CliKeys.

(** ** TLS configurations *)

Class Rustls := {
  ServerConfig : Type;
  (** [generate_simple_self_signed]: the PEM and DER certificate and the key. *)
  generate_simple_self_signed : string → list string → result string (string * string * string);
  with_single_cert : list string → string → result string ServerConfig;
  set_alpn : list string → ServerConfig → ServerConfig;
  (** The certificates and the first key of a PEM text. *)
  pemfile_certs : string → result string (list string);
  pemfile_private_key : string → result string (option string);
}.

Section tls.
Context `{Hrustls : Rustls}.

Definition server_config_from_parts (cert_chain : list string) (key_der : string) (alpn : list string)
    : result string ServerConfig :=
  config ← with_single_cert cert_chain key_der; Ok (set_alpn alpn config).

Definition generate_self_signed_config (rnd : string) (alpn sans : list string)
    : result string (ServerConfig * string) :=
  '(cert_pem, cert_der, key_der) ← generate_simple_self_signed rnd sans;
  config ← server_config_from_parts [cert_der] key_der alpn;
  Ok (config, cert_pem).

Definition generate_tls_config (rnd : string) (alpn : list string) : result string (ServerConfig * string) :=
  generate_self_signed_config rnd alpn ["tls.local"].

Definition wildcard_sans (base_domain : string) : list string :=
  ["*." +:+ base_domain; base_domain; "localhost"].
Definition generate_wildcard_tls_config (rnd : string) (alpn : list string) (base_domain : string)
    : result string (ServerConfig * string) :=
  generate_self_signed_config rnd alpn (wildcard_sans base_domain).

(** [read] is [std::fs::read]. *)
Definition load_tls_config_from_files (read : string → result string string)
    (cert_path key_path : string) (alpn : list string) : result string ServerConfig :=
  cert_bytes ← map_err (λ e, "Failed to read TLS cert " +:+ cert_path +:+ ": " +:+ e) (read cert_path);
  key_bytes ← map_err (λ e, "Failed to read TLS key " +:+ key_path +:+ ": " +:+ e) (read key_path);
  cert_chain ← map_err (λ e, "Failed to parse TLS cert PEM: " +:+ e) (pemfile_certs cert_bytes);
  match cert_chain with
  | [] => Err ("No certificates found in " +:+ cert_path)
  | _ =>
      key ← map_err (λ e, "Failed to parse TLS key PEM: " +:+ e) (pemfile_private_key key_bytes);
      key_der ← ok_or key ("No private key found in " +:+ key_path);
      server_config_from_parts cert_chain key_der alpn
  end.
End tls.

(** ** The host key of the SSH server *)

Class HostKeys := {
  HostKey : Type;
  (** [PrivateKey::random] from random bytes. *)
  host_key_random : string → result string HostKey;
  host_to_openssh : HostKey → result string string;
  decode_secret_key : string → result string HostKey;
}.
(** A key is decoded from its own encoding. *)
Class HostKeysSpec `{HostKeys} := {
  host_key_codec : ∀ k t, host_to_openssh k = Ok t → decode_secret_key t = Ok k;
}.

Section host_key.
Context `{Hfs : FileSystem W} `{Hhk : HostKeys}.

(** [context]: the message that is shown replaces the cause. *)
Definition with_context {A} (msg : string) (x : result string A) : io W string A :=
  io_lift (map_err (λ _, msg) x).

Definition load_or_generate_host_key (path : option string) (rnd : string) : io W string HostKey := λ w,
  match path with
  | Some key_path =>
      if path_exists w key_path then
        (key_data ← with_context "Failed to read host key file" (read_to_string w key_path);
         with_context "Failed to decode host key" (decode_secret_key key_data)) w
      else
        (key ← with_context "Failed to generate host key" (host_key_random rnd);
         encoded ← with_context "Failed to encode host key" (host_to_openssh key);
         _ ← io_map_err (λ _, "Failed to write host key") (fs_write key_path encoded);
         mret key) w
  | None => with_context "Failed to generate ephemeral host key" (host_key_random rnd) w
  end.
End host_key.

(** ** The SSH server and the hub *)

Record SshConfig := {
  sc_bind_addr : SocketAddr;
  sc_host_key_path : option string;
  sc_public_domain : string;
  sc_ca_config : option CaConfig;
  sc_require_client_certificates : bool;
  sc_certificate_pinning_enabled : bool;
  sc_max_auth_attempts : Z;
  sc_auth_lockout_duration : Z;
  sc_redis_url : option string;
  sc_redis_auth_enabled : bool;
  sc_redis_key_prefix : string;
  sc_insecure_accept_all_keys : bool;
}.
Definition any_addr (port : Z) : SocketAddr := {| sa_ip := V4 (Ipv4 0 0 0 0); sa_port := port |}.
Definition default_ssh_config : SshConfig :=
  {| sc_bind_addr := any_addr 443; sc_host_key_path := None; sc_public_domain := "fleetingdns.run";
     sc_ca_config := Some default_ca_config; sc_require_client_certificates := true;
     sc_certificate_pinning_enabled := true; sc_max_auth_attempts := 3;
     sc_auth_lockout_duration := secs 300; sc_redis_url := None; sc_redis_auth_enabled := false;
     sc_redis_key_prefix := "session"; sc_insecure_accept_all_keys := false |}.

(** The outcomes of connecting, by address. *)
Record EdgeServices := {
  es_new_pool : string → result string ();
  es_auth_handler : string → string → result string ();
  es_hub_pool : string → result string ();
  es_ca : CaConfig → result string ();
}.

Section ssh_server.
Context `{Hfs : FileSystem W} `{Hhk : HostKeys}.

(** The state the handlers run on is [new_config] of the outcomes. *)
Definition SshServer_new (sv : EdgeServices) (rnd : string) (config : SshConfig)
    : io W string (HostKey * HubConfig) :=
  host_key ← load_or_generate_host_key (sc_host_key_path config) rnd;
  _ ← match sc_ca_config config with
      | Some ca => with_context "Failed to initialize certificate authority" (es_ca sv ca)
      | None => mret ()
      end;
  let reach f := match sc_redis_url config with Some url => is_ok (f url) | None => false end in
  mret (host_key,
        new_config (sc_redis_url config) (sc_redis_auth_enabled config) (sc_redis_key_prefix config)
          (reach (λ url, es_auth_handler sv url (sc_redis_key_prefix config)))
          (reach (es_hub_pool sv)) (sc_insecure_accept_all_keys config)
          (sc_max_auth_attempts config) (sc_auth_lockout_duration config)).
End ssh_server.

Record EdgeArgs := {
  ea_ssh_addr : SocketAddr;
  ea_https_addr : SocketAddr;
  ea_ssh_host_key : option string;
  ea_public_domain : string;
  ea_redis : string;
  ea_tls_cert : option string;
  ea_tls_key : option string;
  ea_control_socket : option string;
  ea_shutdown_timeout : Z;
}.
(** The defaults of the command line. *)
Definition default_edge_args : EdgeArgs :=
  {| ea_ssh_addr := any_addr 2222; ea_https_addr := any_addr 8443; ea_ssh_host_key := None;
     ea_public_domain := "fleetingdns.run"; ea_redis := "redis://127.0.0.1:6379";
     ea_tls_cert := None; ea_tls_key := None; ea_control_socket := None; ea_shutdown_timeout := 30 |}.

Definition insecure_flag (env : Env) : bool :=
  match env "FDNS_INSECURE_ACCEPT_ALL_KEYS" with
  | Some v => (v =?s "1") || eq_ignore_ascii_case v "true"
  | None => false
  end.

Definition ssh_config_of (env : Env) (args : EdgeArgs) : SshConfig :=
  let d := default_ssh_config in
  {| sc_bind_addr := ea_ssh_addr args; sc_host_key_path := ea_ssh_host_key args;
     sc_public_domain := ea_public_domain args; sc_ca_config := None;
     sc_require_client_certificates := false; sc_certificate_pinning_enabled := false;
     sc_max_auth_attempts := sc_max_auth_attempts d;
     sc_auth_lockout_duration := sc_auth_lockout_duration d;
     sc_redis_url := Some (ea_redis args); sc_redis_auth_enabled := true;
     sc_redis_key_prefix := sc_redis_key_prefix d;
     sc_insecure_accept_all_keys := insecure_flag env |}.

Definition ALPN : list string := ["http/1.1"; "h2"].

Section edge.
Context `{Hfs : FileSystem W} `{Hhk : HostKeys} `{Hrustls : Rustls}.

Definition https_config (read : W → string → result string string) (rnd : string) (args : EdgeArgs)
    : io W string ServerConfig := λ w,
  match ea_tls_cert args, ea_tls_key args with
  | Some cert, Some key => io_lift (load_tls_config_from_files (read w) cert key ALPN) w
  | None, None =>
      io_lift ('(config, _) ← generate_wildcard_tls_config rnd ALPN (ea_public_domain args); Ok config) w
  | _, _ => io_fail "--tls-cert and --tls-key must be provided together" w
  end.

Record Edge := { eg_tls : ServerConfig; eg_host_key : HostKey; eg_hub : HubConfig; eg_redis : string }.

(** [run] from the TLS configuration up to serving; the coordinator started before
    is [edge_start] of [Services]. *)
Definition edge_run (sv : EdgeServices) (read : W → string → result string string) (env : Env)
    (tls_rnd key_rnd : string) (args : EdgeArgs) : io W string Edge :=
  tls ← https_config read tls_rnd args;
  _ ← io_lift (es_new_pool sv (ea_redis args));
  '(host_key, hub) ← SshServer_new sv key_rnd (ssh_config_of env args);
  mret {| eg_tls := tls; eg_host_key := host_key; eg_hub := hub; eg_redis := ea_redis args |}.
End edge.

(** ** The certificate authority's own certificate *)

(** The parameters [generate_ca_certificate] sets. *)
Record CaParams := {
  ca_distinguished_name : list (DnType * string);
  ca_is_ca : bool;
  ca_key_usages : list KeyUsage;
  ca_not_before : Z;
  ca_not_after : Z;
}.
(** [Certificate::from_params] with a key pair made from random bytes. *)
Class CaRcgen `{Rcgen} := { ca_from_params : string → CaParams → result string Certificate }.

Section ca_files.
Context `{Hfs : FileSystem W} `{Hca : CaRcgen}.

Definition generate_ca_certificate (now : Z) (rnd : string) (config : CaConfig) : result FE.t Certificate :=
  gen_failed (ca_from_params rnd
    {| ca_distinguished_name := [(CommonName, ca_name config); (OrganizationName, organization config);
                                 (OrganizationalUnitName, organizational_unit config)];
       ca_is_ca := true; ca_key_usages := [CertSign; CrlSign];
       ca_not_before := now; ca_not_after := now + secs (3650 * 86400) |}).

(** The paths are not used. *)
Definition load_ca_certificate (now : Z) (rnd : string) (cert_path key_path : string)
    : result FE.t Certificate :=
  generate_ca_certificate now rnd default_ca_config.

Definition save_ca_certificate (cert : Certificate) (cert_path key_path : string) : io W FE.t () :=
  cert_pem ← io_lift (gen_failed (serialize_pem cert));
  _ ← io_map_err FE.Io (fs_write cert_path cert_pem);
  io_map_err FE.Io (fs_write key_path (key_pair_pem cert)).

Definition load_or_generate_ca_certificate (now : Z) (rnd : string) (config : CaConfig)
    : io W FE.t Certificate := λ w,
  let generate :=
    cert ← io_lift (generate_ca_certificate now rnd config);
    match ca_cert_path config, ca_key_path config with
    | Some cert_path, Some key_path => _ ← save_ca_certificate cert cert_path key_path; mret cert
    | _, _ => mret cert
    end in
  match ca_cert_path config, ca_key_path config with
  | Some cert_path, Some key_path =>
      if path_exists w cert_path && path_exists w key_path
      then io_lift (load_ca_certificate now rnd cert_path key_path) w
      else generate w
  | _, _ => generate w
  end.
End ca_files.

(** The first start stores the certificate and its key; a later start that finds
    both files makes a new certificate from the default configuration. *)
Lemma ca_restart_forgets `{FsSpec W} `{CaRcgen} config cert_path key_path
    now now' rnd rnd' (w w1 w2 : W) cert :
  ca_cert_path config = Some cert_path → ca_key_path config = Some key_path →
  names_file cert_path → names_file key_path → file_name cert_path ≠ file_name key_path →
  path_exists w cert_path && path_exists w key_path = false →
  load_or_generate_ca_certificate now rnd config w = (w1, Ok cert) →
  fs_file w2 cert_path = fs_file w1 cert_path → fs_file w2 key_path = fs_file w1 key_path →
  (∃ pem, serialize_pem cert = Ok pem ∧ f_text <$> fs_file w1 cert_path = Some pem)
  ∧ f_text <$> fs_file w1 key_path = Some (key_pair_pem cert)
  ∧ load_or_generate_ca_certificate now' rnd' config w2
    = (w2, generate_ca_certificate now' rnd' default_ca_config).
Proof.
  intros Hcp Hkp Hn1 Hn2 Hne Hex E K1 K2. unfold load_or_generate_ca_certificate in *.
  rewrite Hcp, Hkp in *. rewrite Hex in E.
  apply io_bind_ok in E as (wa & c & Ea & E). injection Ea as <- Hgen.
  apply io_bind_ok in E as (wb & [] & Es & E). apply io_ret_inv in E as [-> [= <-]].
  unfold save_ca_certificate in Es.
  apply io_bind_ok in Es as (wc & pem & Ec & Es). injection Ec as <- Hpem.
  apply io_bind_ok in Es as (wd & [] & Ed & Es). apply io_map_err_ok in Ed. apply io_map_err_ok in Es.
  apply write_file in Es as Hk. apply write_file in Ed as Hc.
  pose proof (write_frame wd key_path cert_path (key_pair_pem cert) Hn2 Hn1 (not_eq_sym Hne)) as Hfr.
  rewrite Es in Hfr. cbn in Hfr. rewrite <- Hfr in Hc.
  split; [|split; [done|]].
  - exists pem. split; [|done]. unfold gen_failed in Hpem. by destruct (serialize_pem cert); simplify_eq/=.
  - destruct (fs_file wb cert_path) as [f1|] eqn:F1; [|done]. destruct (fs_file wb key_path) as [f2|] eqn:F2; [|done].
    by rewrite (exists_file _ _ _ K1), (exists_file _ _ _ K2).
Qed.

(** ** The host key *)

(** The host key survives restarts.  The key a start returns for a path is
    returned by every later start, as long as the file is as that start left it. *)
Lemma host_key_stable `{FsSpec W, !FsAvailable W} `{HostKeysSpec} path rnd rnd' (w w1 w2 : W) k :
  load_or_generate_host_key (Some path) rnd w = (w1, Ok k) →
  fs_file w2 path = fs_file w1 path →
  load_or_generate_host_key (Some path) rnd' w2 = (w2, Ok k).
Proof.
  intros E K. assert (∃ f, fs_file w1 path = Some f ∧ decode_secret_key (f_text f) = Ok k) as (f & Hf & Hd).
  { unfold load_or_generate_host_key in E. destruct (path_exists w path).
    - apply io_bind_ok in E as (wa & t & Ea & E). unfold with_context, io_lift in *.
      destruct (read_to_string w path) as [t'|] eqn:Er; [|done]. injection Ea as <- <-.
      apply read_file in Er as (f & Hf & <-). exists f.
      destruct (decode_secret_key (f_text f)) eqn:Ed; simplify_eq/=; done.
    - apply io_bind_ok in E as (wa & key & Ea & E). injection Ea as <- Hrnd.
      apply io_bind_ok in E as (wb & t & Eb & E). injection Eb as <- Henc.
      apply io_bind_ok in E as (wc & [] & Ec & E). apply io_ret_inv in E as [-> [= <-]].
      apply io_map_err_ok in Ec. apply write_file in Ec.
      destruct (fs_file wc path) as [f|] eqn:Ef; [|done]. exists f. split; [done|].
      destruct (host_to_openssh k) as [t'|] eqn:Eo; simplify_eq/=. by apply host_key_codec. }
  unfold load_or_generate_host_key. rewrite Hf in K.
  rewrite (exists_file _ _ _ K). unfold with_context. rewrite (read_ok _ _ _ K).
  rewrite (io_bind_step _ _ w2 w2 (f_text f)) by done. by rewrite Hd.
Qed.

(** ** What a started hub accepts *)

Lemma edge_run_hub `{FileSystem W} `{HostKeys} `{Rustls} sv read env tls_rnd key_rnd args (w w' : W) edge :
  edge_run sv read env tls_rnd key_rnd args w = (w', Ok edge) →
  eg_hub edge = new_config (Some (ea_redis args)) true "session"
    (is_ok (es_auth_handler sv (ea_redis args) "session")) (is_ok (es_hub_pool sv (ea_redis args)))
    (insecure_flag env) 3 (secs 300)
  ∧ is_ok (es_new_pool sv (ea_redis args)) = true.
Proof.
  intros E. apply io_bind_ok in E as (w1 & tls & _ & E). apply io_bind_ok in E as (w2 & [] & Ep & E).
  apply io_bind_ok in E as (w3 & [host_key hub] & En & E). apply io_ret_inv in E as [-> [= ->]].
  apply io_bind_ok in En as (w4 & k & _ & En). apply io_bind_ok in En as (w5 & [] & _ & En).
  apply io_ret_inv in En as [_ [= -> ->]]. split; [done|]. by injection Ep as _ ->.
Qed.

(** C5: the hub is closed unless told otherwise.  However the start of the edge
    goes, with whatever connections failing, a hub started without the insecure
    flag accepts a key only if its session handler was reached at the start, the
    peer is not locked out, and Redis holds an unexpired session record under the
    session id of the user name with the key's fingerprint; without the handler it
    accepts nobody. *)
Theorem edge_fail_closed `{FileSystem W} `{HostKeys} `{Rustls} `{RedisSpec R} `{Codec} `{SshKeys}
    sv read env tls_rnd key_rnd args (w w' : W) edge now user key s b (r r' : R) s' b' ok
    (Hrun : edge_run sv read env tls_rnd key_rnd args w = (w', Ok edge))
    (Hflag : insecure_flag env = false)
    (Hauth : auth_publickey (eg_hub edge) now user key s b r = (s', b', r', ok)) :
  if ok then
    is_ok (es_auth_handler sv (ea_redis args) "session") = true
    ∧ is_locked_out now b (peer_addr s) (secs 300) = false
    ∧ is_valid_session_id (session_of_user user) = true
    ∧ (∃ d, session_at (live now r) (session_key "session" (session_of_user user)) = Some d
         ∧ now ≤ s_expires_at d ∧ s_fingerprint d = fingerprint key)
    ∧ client_certificate_serial s' = Some (session_of_user user)
  else s' = s.
Proof.
  apply edge_run_hub in Hrun as [Hhub _]. rewrite Hflag in Hhub.
  destruct (is_ok (es_auth_handler sv (ea_redis args) "session")) eqn:Hh.
  - eapply (auth_publickey_spec _ "session") in Hauth as [_ Ha]; [|by rewrite Hhub].
    destruct ok; [|done]. rewrite Hhub in Ha. split; [done|]. exact Ha.
  - pose proof (auth_publickey_no_backend (eg_hub edge) now user key s b r) as Hno.
    rewrite Hauth, Hhub in Hno. specialize (Hno eq_refl eq_refl). cbn in Hno. subst ok.
    unfold auth_publickey in Hauth. repeat case_match; by simplify_eq.
Qed.

(** The slot gate is not closed: a hub that could not make its pool lets every
    session have every free slot. *)
Lemma slot_gate_open_without_pool `{RedisServer R} `{Codec} `{SshKeys} `{Os}
    (cfg : HubConfig) now port s h (r : R) bound :
  redis_pool cfg = false → os_bind (bound_ports h) (as_u16 port) = Some bound →
  (tcpip_forward cfg now port s h r).2 = (true, bound).
Proof.
  intros Hp Hb. unfold tcpip_forward, slot_gate. rewrite Hp, Hb.
  by destruct (spawn_tasks _ _ _ _ _).
Qed.

(** ** The wildcard certificate *)

(** A name matches itself; a wildcard stands for one label. *)
Definition san_matches (pattern name : string) : bool :=
  eq_ignore_ascii_case pattern name
  || match strip_prefix "*." pattern, str_split_once "." name with
     | Some base, Some (label, rest) => negb (label =?s "") && eq_ignore_ascii_case base rest
     | _, _ => false
     end.

Lemma eq_ignore_ascii_case_refl s : eq_ignore_ascii_case s s = true.
Proof. unfold eq_ignore_ascii_case. apply String.eqb_refl. Qed.

(** Every tunnel name of the domain is covered by the wildcard and routed by its
    subdomain. *)
Lemma wildcard_covers sub base :
  sub ≠ "" → str_has "." sub = false →
  existsb (λ san, san_matches san (sub +:+ String "." base)) (wildcard_sans base) = true
  ∧ subdomain_from_sni (sub +:+ String "." base) = sub.
Proof.
  intros Hne Hdot. split.
  - cbn [existsb wildcard_sans]. unfold san_matches at 1. rewrite strip_prefix_app, str_split_once_app by done.
    rewrite eq_ignore_ascii_case_refl. destruct (String.eqb_spec sub ""); [done|]. by rewrite orb_true_r.
  - unfold subdomain_from_sni. by rewrite str_split_app.
Qed.

(** A configuration loaded from files has a certificate and a key. *)
Lemma load_tls_ok `{Rustls} read cert_path key_path alpn config :
  load_tls_config_from_files read cert_path key_path alpn = Ok config →
  ∃ cert_bytes key_bytes chain key, read cert_path = Ok cert_bytes ∧ read key_path = Ok key_bytes
    ∧ pemfile_certs cert_bytes = Ok chain ∧ chain ≠ [] ∧ pemfile_private_key key_bytes = Ok (Some key).
Proof.
  unfold load_tls_config_from_files. intros E.
  destruct (read cert_path) as [cb|]; [cbn in E|done]. destruct (read key_path) as [kb|]; [cbn in E|done].
  destruct (pemfile_certs cb) as [chain|] eqn:Ec; [cbn in E|done]. destruct chain as [|c chain]; [done|].
  destruct (pemfile_private_key kb) as [[key|]|] eqn:Ek; cbn in E; try done.
  exists cb, kb, (c :: chain), key. done.
Qed.

(** ** Examples *)
Module EdgeStartDemo.
Import MemRedis BitCodec MemMachine HubDemo.

#[export] Instance toy_rustls : Rustls := {|
  ServerConfig := list string * string * list string;
  generate_simple_self_signed rnd sans := Ok (str_join "," sans, str_join "," sans, rnd);
  with_single_cert chain key := Ok (chain, key, []);
  set_alpn alpn c := (c.1, alpn);
  pemfile_certs t := Ok [t];
  pemfile_private_key t := Ok (Some t);
|}.
#[export] Instance toy_host_keys : HostKeys := {|
  HostKey := string; host_key_random := Ok; host_to_openssh := Ok; decode_secret_key := Ok |}.
#[export] Instance toy_host_keys_spec : HostKeysSpec.
Proof. split. by intros k t [= <-]. Qed.

Definition reached : EdgeServices :=
  {| es_new_pool _ := Ok (); es_auth_handler _ _ := Ok (); es_hub_pool _ := Err "refused";
     es_ca _ := Ok () |}.
Definition blank : machine () := {| mc_now := 0; mc_files := ∅; mc_net := () |}.
Definition args : EdgeArgs :=
  {| ea_ssh_addr := any_addr 2222; ea_https_addr := any_addr 8443; ea_ssh_host_key := Some "/etc/host_key";
     ea_public_domain := "fleetingdns.run"; ea_redis := "redis://127.0.0.1:6379";
     ea_tls_cert := None; ea_tls_key := None; ea_control_socket := None; ea_shutdown_timeout := 30 |}.
Definition env : Env := λ k, if k =?s "FDNS_INSECURE_ACCEPT_ALL_KEYS" then Some "no" else None.
Definition reading (w : machine ()) (p : string) := read_to_string w p.
Definition started := edge_run reached reading env "tls" "host" args blank.
Definition hub : HubConfig := new_config (Some "redis://127.0.0.1:6379") true "session" true false false 3 (secs 300).
Definition edge : Edge :=
  {| eg_tls := ([str_join "," (wildcard_sans "fleetingdns.run")], "tls", ALPN); eg_host_key := "host";
     eg_hub := hub; eg_redis := "redis://127.0.0.1:6379" |}.
Definition decision := auth_publickey hub 0 user key fresh no_attempts redis.

Lemma edge_fail_closed_witness :
  decision.2 = true
  ∧ ∃ d, session_at (live 0 redis) (session_key "session" (session_of_user user)) = Some d
      ∧ 0 ≤ s_expires_at d ∧ s_fingerprint d = fingerprint key.
Proof.
  split; [by vm_compute|].
  apply (edge_fail_closed reached reading env "tls" "host" args blank started.1 edge 0 user key
           fresh no_attempts redis decision.1.2 decision.1.1.1 decision.1.1.2 true).
  - eval_eq.
  - reflexivity.
  - eval_eq.
Defined.

(** The key made by the first start is read by the second. *)
Example host_key_kept :
  (load_or_generate_host_key (Some "/etc/host_key") "other" started.1).2 = Ok "host".
Proof. by vm_compute. Qed.
End EdgeStartDemo.
