(* ===== verification/CaBatch.v ===== *)
(** * Batched issuance

    crates/edf-ca/src/batch_operations.rs over [CA]: the queue of pending
    operations, the batches sent to the background task and what that task does
    with them, and its statistics.  The time, the randomness and the serial number
    of an issuance belong to the operation; the receiver of an answer is a number. *)

From S2P Require Import Prelude Redis Serde Models Errors Float CA.

Record BatchConfig := {
  max_batch_size : Z;
  max_batch_wait_ms : Z;
  max_processing_time_ms : Z;
  bc_enable_stats : bool;
}.
Definition default_batch_config : BatchConfig :=
  {| max_batch_size := 10; max_batch_wait_ms := 100; max_processing_time_ms := 500;
     bc_enable_stats := true |}.

Record BatchStats := {
  total_batches : Z;
  total_operations : Z;
  avg_batch_size : f64;
  avg_processing_time_ms : f64;
  successful_operations : Z;
  failed_operations : Z;
}.
Definition default_batch_stats : BatchStats :=
  {| total_batches := 0; total_operations := 0; avg_batch_size := f64_of_Z 0;
     avg_processing_time_ms := f64_of_Z 0; successful_operations := 0; failed_operations := 0 |}.

Section batch.
Context `{Hredis : RedisServer R} `{Hcodec : Codec} `{Hrcgen : Rcgen}.

(** [po_now], [po_entropy] and [po_serial] are what the issuance will draw. *)
Record PendingOperation := {
  po_request : IssuanceRequest;
  po_reply : nat;
  po_now : Z;
  po_entropy : string;
  po_serial : uuid;
}.
(** An answer that reached its receiver, in order. *)
Definition Answer : Type := nat * result FE.t IssuanceResponse.

Record CertificateBatchProcessor := {
  bp_config : BatchConfig;
  pending_operations : list PendingOperation;
  (** The channel of batches, and whether the background task still receives. *)
  bp_channel : list (list PendingOperation);
  bp_receiving : bool;
  bp_stats : BatchStats;
}.

Definition BatchProcessor_new (cfg : BatchConfig) : CertificateBatchProcessor :=
  {| bp_config := cfg; pending_operations := []; bp_channel := []; bp_receiving := true;
     bp_stats := default_batch_stats |}.

(** An operation is processed at once. *)
Definition submit_operation (op : PendingOperation) (ca : CertificateAuthority) (r : R)
    : CertificateAuthority * R * result FE.t IssuanceResponse :=
  issue_certificate (po_now op) (po_entropy op) (po_serial op) (po_request op) ca r.

Definition with_queue (p : CertificateBatchProcessor) pending channel : CertificateBatchProcessor :=
  {| bp_config := bp_config p; pending_operations := pending; bp_channel := channel;
     bp_receiving := bp_receiving p; bp_stats := bp_stats p |}.

(** The operations are taken from the queue before the batch is sent. *)
Definition process_batch (p : CertificateBatchProcessor) : CertificateBatchProcessor * result FE.t () :=
  match pending_operations p with
  | [] => (p, Ok ())
  | pending =>
      let batch_size := Nat.min (length pending) (Z.to_nat (max_batch_size (bp_config p))) in
      let operations := take batch_size pending in
      if bp_receiving p
      then (with_queue p (drop batch_size pending) (bp_channel p ++ [operations]), Ok ())
      else (with_queue p (drop batch_size pending) (bp_channel p),
            Err (FE.InternalError "Batch processing failed"))
  end.

(** One operation of the background task: its answer is sent where [listening] says
    that the receiver is still there. *)
Definition process_operation (listening : nat → bool) (st : CertificateAuthority * R * list Answer)
    (op : PendingOperation) : CertificateAuthority * R * list Answer :=
  let '(ca, r, answers) := st in
  let '(ca, r, res) :=
    issue_certificate (po_now op) (po_entropy op) (po_serial op) (po_request op) ca r in
  (ca, r, if listening (po_reply op) then answers ++ [(po_reply op, res)] else answers).

Definition issued_ok (st : CertificateAuthority * R) (op : PendingOperation)
    : CertificateAuthority * R * bool :=
  let '(ca, r, res) :=
    issue_certificate (po_now op) (po_entropy op) (po_serial op) (po_request op) st.1 st.2 in
  (ca, r, is_ok res).

(** The number of operations of a batch that succeed. *)
Fixpoint successes (st : CertificateAuthority * R) (ops : list PendingOperation) : Z :=
  match ops with
  | [] => 0
  | op :: ops => let '(ca, r, ok) := issued_ok st op in (if ok then 1 else 0) + successes (ca, r) ops
  end.

Definition record_batch (size successful processing_ms : Z) (s : BatchStats) : BatchStats :=
  let batches := as_u64 (total_batches s + 1) in
  let operations := as_u64 (total_operations s + size) in
  {| total_batches := batches;
     total_operations := operations;
     successful_operations := as_u64 (successful_operations s + successful);
     failed_operations := as_u64 (failed_operations s + (size - successful));
     avg_batch_size := if 0 <? batches then f64_div (f64_of_Z operations) (f64_of_Z batches)
                       else avg_batch_size s;
     avg_processing_time_ms := if 0 <? batches then f64_div (f64_of_Z processing_ms) (f64_of_Z batches)
                               else avg_processing_time_ms s |}.

(** The background task receives one batch; [elapsed] is the time it takes. *)
Definition background_step (listening : nat → bool) (elapsed : Z) (p : CertificateBatchProcessor)
    (st : CertificateAuthority * R * list Answer)
    : CertificateBatchProcessor * (CertificateAuthority * R * list Answer) :=
  match bp_channel p with
  | [] => (p, st)
  | ops :: channel =>
      let size := Z.of_nat (length ops) in
      ({| bp_config := bp_config p; pending_operations := pending_operations p; bp_channel := channel;
          bp_receiving := bp_receiving p;
          bp_stats := record_batch size (successes st.1 ops) (as_millis elapsed) (bp_stats p) |},
       foldl (process_operation listening) st ops)
  end.

Definition get_batch_stats (p : CertificateBatchProcessor) : BatchStats := bp_stats p.
Definition reset_batch_stats (p : CertificateBatchProcessor) : CertificateBatchProcessor :=
  {| bp_config := bp_config p; pending_operations := pending_operations p; bp_channel := bp_channel p;
     bp_receiving := bp_receiving p; bp_stats := default_batch_stats |}.

(** ** Schedules *)

(** The task that owns the queue sends a batch; the background task handles one. *)
Inductive BatchStep := SendBatch | RunBatch (elapsed : Z).

Definition World : Type := CertificateAuthority * R * list Answer.
Definition batch_step (listening : nat → bool) (x : CertificateBatchProcessor * World) (b : BatchStep)
    : CertificateBatchProcessor * World :=
  match b with
  | SendBatch => ((process_batch x.1).1, x.2)
  | RunBatch elapsed => background_step listening elapsed x.1 x.2
  end.
Definition run_schedule (listening : nat → bool) : list BatchStep → _ → CertificateBatchProcessor * World :=
  λ steps x, foldl (batch_step listening) x steps.

Definition queued (cfg : BatchConfig) (ops : list PendingOperation) : CertificateBatchProcessor :=
  with_queue (BatchProcessor_new cfg) ops [].
Definition idle (p : CertificateBatchProcessor) : Prop := pending_operations p = [] ∧ bp_channel p = [].

(** What is still to be done, in the order in which it will be. *)
Definition backlog (p : CertificateBatchProcessor) : list PendingOperation :=
  mjoin (bp_channel p) ++ pending_operations p.

Lemma process_batch_open p :
  bp_receiving p = true →
  bp_receiving (process_batch p).1 = true ∧ bp_config (process_batch p).1 = bp_config p
  ∧ bp_stats (process_batch p).1 = bp_stats p ∧ backlog (process_batch p).1 = backlog p.
Proof.
  intros Hr. unfold process_batch. destruct (pending_operations p) as [|op l] eqn:E; [done|].
  rewrite Hr. unfold backlog. cbn [fst with_queue bp_channel pending_operations bp_receiving bp_config bp_stats].
  split_and!; try done. rewrite E, join_app, <- (assoc_L (++)). cbn [mjoin list_join].
  by rewrite app_nil_r, take_drop.
Qed.

Lemma background_step_done listening elapsed p (st : World) p' st' :
  background_step listening elapsed p st = (p', st') →
  bp_receiving p' = bp_receiving p ∧ bp_config p' = bp_config p
  ∧ foldl (process_operation listening) st' (backlog p') = foldl (process_operation listening) st (backlog p).
Proof.
  unfold background_step, backlog. destruct (bp_channel p) as [|ops ch] eqn:E; intros [= <- <-].
  - by rewrite E.
  - cbn. split_and!; [done|done|]. by rewrite !foldl_app.
Qed.

Lemma run_schedule_backlog listening steps p (st : World) :
  bp_receiving p = true →
  let x := run_schedule listening steps (p, st) in
  foldl (process_operation listening) x.2 (backlog x.1) = foldl (process_operation listening) st (backlog p).
Proof.
  revert p st. induction steps as [|b steps IH]; intros p st Hr; [done|].
  destruct b as [|elapsed]; cbn [run_schedule foldl batch_step fst snd].
  - apply process_batch_open in Hr as (Hr' & _ & _ & Hb). rewrite <- Hb. by apply IH.
  - destruct (background_step listening elapsed p st) as [p' st'] eqn:E.
    apply background_step_done in E as (Hr' & _ & <-). apply IH. by rewrite Hr'.
Qed.

(** The answers of a list of operations, one for each receiver that listens. *)
Lemma process_operations_answers listening ops ca r answers :
  (foldl (process_operation listening) (ca, r, answers) ops).2.*1
  = answers.*1 ++ filter (λ n, listening n = true) (po_reply <$> ops).
Proof.
  revert ca r answers. induction ops as [|op ops IH]; intros; cbn [foldl fmap list_fmap].
  - by rewrite app_nil_r.
  - unfold process_operation at 2. destruct (issue_certificate _ _ _ _ ca r) as [[ca' r'] res].
    rewrite IH, filter_cons. destruct (listening (po_reply op)) eqn:El.
    + rewrite decide_True by done. by rewrite fmap_app, <- (assoc_L (++)).
    + rewrite decide_False by congruence. done.
Qed.

(** One round empties [max_batch_size] places of the queue. *)
Definition round (elapsed : Z) : list BatchStep := [SendBatch; RunBatch elapsed].

Lemma round_progress listening elapsed p (st : World) :
  bp_receiving p = true → bp_channel p = [] → 0 < max_batch_size (bp_config p) →
  let x := run_schedule listening (round elapsed) (p, st) in
  bp_receiving x.1 = true ∧ bp_channel x.1 = [] ∧ bp_config x.1 = bp_config p
  ∧ pending_operations x.1 = drop (Z.to_nat (max_batch_size (bp_config p))) (pending_operations p).
Proof.
  intros Hr Hch Hm. cbn. unfold process_batch. destruct (pending_operations p) as [|op l] eqn:E.
  - cbn. unfold background_step. rewrite Hch. cbn. rewrite E. by rewrite drop_nil.
  - rewrite Hr. unfold background_step. cbn [fst bp_channel with_queue]. rewrite Hch. cbn [app fst snd].
    cbn [bp_receiving bp_channel bp_config pending_operations with_queue]. split_and!; try done.
    destruct (Nat.min_spec (length (op :: l)) (Z.to_nat (max_batch_size (bp_config p)))) as [[Hlt ->]|[_ ->]];
      [|done].
    by rewrite !drop_ge by lia.
Qed.

Fixpoint rounds (elapsed : Z) (n : nat) : list BatchStep :=
  match n with O => [] | S n => round elapsed ++ rounds elapsed n end.

Lemma rounds_idle listening elapsed n p (st : World) :
  bp_receiving p = true → bp_channel p = [] → 0 < max_batch_size (bp_config p) →
  (length (pending_operations p) ≤ n)%nat → idle (run_schedule listening (rounds elapsed n) (p, st)).1.
Proof.
  revert p st. induction n as [|n IH]; intros p st Hr Hch Hm Hlen.
  - split; [|done]. cbn. destruct (pending_operations p); [done|cbn in Hlen; lia].
  - unfold run_schedule. cbn [rounds]. rewrite foldl_app.
    destruct (foldl _ (p, st) (round elapsed)) as [p1 st1] eqn:E.
    pose proof (round_progress listening elapsed p st Hr Hch Hm) as Hp.
    unfold run_schedule in Hp. rewrite E in Hp. cbn zeta in Hp. destruct Hp as (Hr1 & Hc1 & Hcfg & Hpend).
    cbn in Hr1, Hc1, Hcfg, Hpend. apply IH; [done|done|by rewrite Hcfg|].
    rewrite Hpend, length_drop. lia.
Qed.
End batch.

(** Batching is transparent.  However the sending and the processing of
    batches interleave, once the queue and the channel are empty the authority,
    the store and the answers are those of issuing the queued operations one after
    the other in their order, and every receiver that still listens has got exactly
    one answer; with a positive batch size, as many rounds as there are operations
    empty them. *)
Lemma batching_transparent `{RedisServer R} `{Codec} `{Rcgen} cfg listening ops steps
    (ca : CertificateAuthority) (r : R) :
  let x := run_schedule listening steps (queued cfg ops, (ca, r, [])) in
  (idle x.1 →
     x.2 = foldl (process_operation listening) (ca, r, []) ops
     ∧ x.2.2.*1 = filter (λ n, listening n = true) (po_reply <$> ops))
  ∧ (0 < max_batch_size cfg → ∀ elapsed,
       idle (run_schedule listening (rounds elapsed (length ops)) (queued cfg ops, (ca, r, []))).1).
Proof.
  intros x. split.
  - intros [Hp Hc]. assert (backlog x.1 = []) as Hnone by (unfold backlog; by rewrite Hp, Hc).
    pose proof (run_schedule_backlog listening steps (queued cfg ops) (ca, r, []) eq_refl) as Hb.
    cbn zeta in Hb. change (run_schedule listening steps _) with x in Hb. rewrite Hnone in Hb.
    cbn [foldl] in Hb. rewrite Hb. split; [done|].
    change (backlog (queued cfg ops)) with ops. by rewrite process_operations_answers.
  - intros Hm elapsed. by apply rounds_idle.
Qed.

(** ** Examples *)
Module CaBatchDemo.
Import MemRedis BitCodec CADemo.

Definition op (n : nat) (client : string) : PendingOperation :=
  {| po_request := IssuanceRequest_new "req" "host" client; po_reply := n; po_now := 0;
     po_entropy := "key"; po_serial := N.of_nat n : @uuid bit_codec |}.
(** The second request has no client and is refused; the third receiver is gone. *)
Definition ops : list PendingOperation := [op 1 "a"; op 2 ""; op 3 "b"; op 4 "c"].
Definition cfg : BatchConfig :=
  {| max_batch_size := 3; max_batch_wait_ms := 100; max_processing_time_ms := 500; bc_enable_stats := true |}.
Definition ran := run_schedule (λ n, negb (n =? 3)%nat) [SendBatch; SendBatch; RunBatch 7; RunBatch 9]
  (queued cfg ops, (authority, (∅ : mem), [])).

Example batches_run :
  ran.2.2.*1 = [1; 2; 4]%nat ∧ (is_ok <$> ran.2.2.*2) = [true; false; true]
  ∧ total_operations (bp_stats ran.1) = 4 ∧ successful_operations (bp_stats ran.1) = 3.
Proof. by vm_compute. Qed.
End CaBatchDemo.
