(* ===== verification/Interleaving.v ===== *)
(** * Interleaved requests

    The API serves requests concurrently: between two commands of one request the
    commands of others run.  This file cuts three operations at their commands and
    locks: the port allocator and the registration of a tunnel of [Storage]
    (crates/backendapi/src/storage.rs), and the quota check of [Quota]
    (crates/backendapi/src/quota_enforcement.rs).  The pieces compose to the
    operations themselves, and are then interleaved. *)

From S2P Require Import Prelude Redis Serde Models Errors Net Float RedisCache Quota Storage.
Import TunnelStorage.

(** ** Port allocation *)

(** A request in the allocator: the attempts left and the next port, or the port
    it returned with the end of its reservation. *)
Inductive Alloc :=
  | Probing (id : string) (ttl : Z) (attempts : nat) (port : Z)
  | Returned (port until : Z)
  | AllocFailed.

Section ports.
Context `{Hredis : RedisServer R}.

(** The clock, Redis and the requests. *)
Record World := { w_now : Z; w_redis : R; w_allocs : gmap nat Alloc }.

(** One step: a request starts, a request sends its next command, time passes, or
    some other command runs, none of which touches a reservation ([release_port] is
    called by no service). *)
Inductive port_step : World → World → Prop :=
  | PStart now r m i id ttl start :
      m !! i = None →
      port_step {| w_now := now; w_redis := r; w_allocs := m |}
        {| w_now := now; w_redis := r; w_allocs := <[i := Probing id ttl (Z.to_nat MAX_ATTEMPTS) start]> m |}
  | PClaimed now r r' m i id ttl n port x :
      m !! i = Some (Probing id ttl (S n) port) →
      r_set_nx_ex now (port_key port) id ttl r = (r', Ok (Some x)) →
      port_step {| w_now := now; w_redis := r; w_allocs := m |}
        {| w_now := now; w_redis := r'; w_allocs := <[i := Returned port (now + secs ttl)]> m |}
  | PTaken now r r' m i id ttl n port :
      m !! i = Some (Probing id ttl (S n) port) →
      r_set_nx_ex now (port_key port) id ttl r = (r', Ok None) →
      port_step {| w_now := now; w_redis := r; w_allocs := m |}
        {| w_now := now; w_redis := r'; w_allocs := <[i := Probing id ttl n (next_port port)]> m |}
  | PError now r r' m i id ttl n port e :
      m !! i = Some (Probing id ttl (S n) port) →
      r_set_nx_ex now (port_key port) id ttl r = (r', Err e) →
      port_step {| w_now := now; w_redis := r; w_allocs := m |}
        {| w_now := now; w_redis := r'; w_allocs := <[i := AllocFailed]> m |}
  | PExhausted now r m i id ttl port :
      m !! i = Some (Probing id ttl O port) →
      port_step {| w_now := now; w_redis := r; w_allocs := m |}
        {| w_now := now; w_redis := r; w_allocs := <[i := AllocFailed]> m |}
  | PTime now now' r m :
      now ≤ now' →
      port_step {| w_now := now; w_redis := r; w_allocs := m |}
        {| w_now := now'; w_redis := r; w_allocs := m |}
  | POther now r r' m :
      (∀ p, live now r' !! port_key p = live now r !! port_key p) →
      port_step {| w_now := now; w_redis := r; w_allocs := m |}
        {| w_now := now; w_redis := r'; w_allocs := m |}.

(** Every reservation that has not ended is in Redis, and is held once. *)
Definition ports_inv (w : World) : Prop :=
  (∀ i p u, w_allocs w !! i = Some (Returned p u) → w_now w < u →
     ∃ e, live (w_now w) (w_redis w) !! port_key p = Some e ∧ re_expires e = Some u)
  ∧ (∀ i j p u v, i ≠ j → w_allocs w !! i = Some (Returned p u) →
       w_allocs w !! j = Some (Returned p v) → u ≤ w_now w ∨ v ≤ w_now w).

Definition reachable (w : World) : Prop :=
  ∃ now r, rtc port_step {| w_now := now; w_redis := r; w_allocs := ∅ |} w.
End ports.

Section port_lemmas.
Context `{RedisSpec R}.

(** Redis keeps the reservations and no request returns. *)
Lemma inv_frame now (r r' : R) (m m' : gmap nat Alloc) :
  (∀ p, is_Some (live now r !! port_key p) → live now r' !! port_key p = live now r !! port_key p) →
  (∀ i p u, m' !! i = Some (Returned p u) → m !! i = Some (Returned p u)) →
  ports_inv {| w_now := now; w_redis := r; w_allocs := m |} →
  ports_inv {| w_now := now; w_redis := r'; w_allocs := m' |}.
Proof.
  intros Hr Hm [H1 H2]. split; cbn in *.
  - intros i p u Hi%Hm Hu. destruct (H1 i p u Hi Hu) as (e & He & Hx). exists e. by rewrite Hr.
  - intros i j p u v Hij Hi%Hm Hj%Hm. by eapply H2.
Qed.

(** A conditional set keeps what is there, whatever it replies. *)
Lemma set_nx_keeps now k v ttl (r r' : R) res :
  r_set_nx_ex now k v ttl r = (r', res) →
  ∀ k', is_Some (live now r !! k') → live now r' !! k' = live now r !! k'.
Proof.
  intros E k' [e He]. destruct (set_nx_ex_writes now k v ttl) as [Hok Herr].
  assert (live now r' = live now r ∨ live now r' = match live now r !! k with
    Some _ => live now r | None => put_ex now k v ttl (live now r) end) as [->| ->]; [|done|].
  { destruct res as [o|x]; [right; by eapply Hok|]. by eapply Herr. }
  destruct (live now r !! k) eqn:Ek; [done|]. unfold put_ex. rewrite lookup_insert_ne by congruence. done.
Qed.

Lemma insert_not_returned (m : gmap nat Alloc) i a :
  (∀ p u, a ≠ Returned p u) →
  ∀ j p u, <[i := a]> m !! j = Some (Returned p u) → m !! j = Some (Returned p u).
Proof. intros Ha j p u [[-> E]|[_ E]]%lookup_insert_Some; [by destruct (Ha p u)|done]. Qed.

(** A successful claim: the port was free, so its other reservations have ended. *)
Lemma claim_inv now (r r' : R) m i id ttl port x :
  r_set_nx_ex now (port_key port) id ttl r = (r', Ok (Some x)) →
  ports_inv {| w_now := now; w_redis := r; w_allocs := m |} →
  ports_inv {| w_now := now; w_redis := r'; w_allocs := <[i := Returned port (now + secs ttl)]> m |}.
Proof.
  intros E [H1 H2]. pose proof (set_nx_ex_reply _ _ _ _ _ _ _ E) as [_ [Hfree _]].
  specialize (Hfree ltac:(by eexists)).
  pose proof (proj1 (set_nx_ex_writes now (port_key port) id ttl) _ _ _ E) as Hl.
  cbn beta in Hl. rewrite Hfree in Hl.
  assert (∀ j u, m !! j = Some (Returned port u) → u ≤ now) as Hended.
  { intros j u Hj. destruct (decide (u ≤ now)); [done|]. cbn in H1.
    destruct (H1 j port u Hj ltac:(lia)) as (e & He & _). congruence. }
  split; cbn in *.
  - intros j p u [[-> [= <- <-]]|[Hne Hj]]%lookup_insert_Some Hu.
    + eexists. split; [rewrite Hl; apply lookup_insert_eq|done].
    + destruct (H1 j p u Hj Hu) as (e & He & Hx). exists e. split; [|done].
      rewrite Hl. unfold put_ex. rewrite lookup_insert_ne by congruence. done.
  - intros j k p u v Hjk Hj Hk. apply lookup_insert_Some in Hj as [[-> Ej]|[_ Hj]];
      apply lookup_insert_Some in Hk as [[-> Ek]|[_ Hk]]; simplify_eq.
    + right. by eapply Hended.
    + left. by eapply Hended.
    + by eapply H2.
Qed.

Lemma time_inv now now' (r : R) m :
  now ≤ now' → ports_inv {| w_now := now; w_redis := r; w_allocs := m |} →
  ports_inv {| w_now := now'; w_redis := r; w_allocs := m |}.
Proof.
  intros Hle [H1 H2]. split; cbn in *.
  - intros i p u Hi Hu. destruct (H1 i p u Hi ltac:(lia)) as ([v t] & He & Hx). cbn in Hx. subst t.
    exists (REntry v (Some u)). split; [|done].
    rewrite (live_later now now' r _ _ _ Hle He). unfold entry_live. cbn.
    by destruct (Z.ltb_spec now' u); [|lia].
  - intros i j p u v Hij Hi Hj. destruct (H2 i j p u v Hij Hi Hj); lia.
Qed.

Lemma port_step_inv (w w' : World (R := R)) : port_step w w' → ports_inv w → ports_inv w'.
Proof.
  intros Hs. destruct Hs as [now r m i id ttl start Hi|now r r' m i id ttl n port x Hi E
    |now r r' m i id ttl n port Hi E|now r r' m i id ttl n port e Hi E|now r m i id ttl port Hi|now now' r m Hle
    |now r r' m Hr].
  - apply inv_frame; [done|by apply insert_not_returned].
  - by eapply claim_inv.
  - apply inv_frame; [intros p; by eapply set_nx_keeps|by apply insert_not_returned].
  - apply inv_frame; [intros p; by eapply set_nx_keeps|by apply insert_not_returned].
  - apply inv_frame; [done|by apply insert_not_returned].
  - by apply time_inv.
  - by apply inv_frame.
Qed.

Lemma reachable_ports_inv (w : World (R := R)) : reachable w → ports_inv w.
Proof.
  intros (now & r & Hs).
  assert (ports_inv {| w_now := now; w_redis := r; w_allocs := ∅ |}) as Hinit
    by (split; cbn; intros *; by rewrite lookup_empty).
  induction Hs; eauto using port_step_inv.
Qed.

(** Without the others the steps of a request are the loop of [try_ports]. *)
Definition alloc_outcome (now ttl : Z) (res : result AE.t Z) : Alloc :=
  match res with Ok p => Returned p (now + secs ttl) | Err _ => AllocFailed end.

Lemma solo_steps `{Codec} now id ttl n port (r r' : R) res m i :
  try_ports now id ttl n port r = (r', res) → m !! i = Some (Probing id ttl n port) →
  rtc port_step {| w_now := now; w_redis := r; w_allocs := m |}
    {| w_now := now; w_redis := r'; w_allocs := <[i := alloc_outcome now ttl res]> m |}.
Proof.
  revert port r m. induction n as [|n IH]; intros port r m E Hi; cbn [try_ports] in E.
  { unfold io_fail in E. simplify_eq. by eapply rtc_once, PExhausted. }
  unfold mbind, io_bind, storage, io_map_err in E.
  destruct (r_set_nx_ex now (port_key port) id ttl r) as [r1 [[x|]|e]] eqn:E1; cbn in E.
  - apply io_ret_inv in E as [-> ->]. by eapply rtc_once, PClaimed.
  - eapply rtc_l; [by eapply PTaken|].
    rewrite <- (insert_insert_eq m i (alloc_outcome now ttl res) (Probing id ttl n (next_port port))).
    eapply IH; [exact E|]. by rewrite lookup_insert_eq.
  - simplify_eq. by eapply rtc_once, PError.
Qed.
End port_lemmas.

(** C18: concurrent port allocation.  In every interleaving of any number of
    allocations, at the granularity of Redis commands and with time passing and
    other commands running in between, a port is never held by two requests whose
    reservations both last; a request that returns a port finds its reservation in
    Redis until it ends; and a request that runs without interruption does what
    [allocate_port]'s loop does. *)
Theorem concurrent_ports_exclusive `{RedisSpec R} `{Codec} (w : World (R := R)) (Hw : reachable w) :
  (∀ i j p u v, i ≠ j → w_allocs w !! i = Some (Returned p u) →
     w_allocs w !! j = Some (Returned p v) → u ≤ w_now w ∨ v ≤ w_now w)
  ∧ (∀ i p u, w_allocs w !! i = Some (Returned p u) → w_now w < u →
       is_Some (live (w_now w) (w_redis w) !! port_key p))
  ∧ (∀ i id ttl n port r' res, w_allocs w !! i = Some (Probing id ttl n port) →
       try_ports (w_now w) id ttl n port (w_redis w) = (r', res) →
       reachable {| w_now := w_now w; w_redis := r';
                    w_allocs := <[i := alloc_outcome (w_now w) ttl res]> (w_allocs w) |}).
Proof.
  pose proof (reachable_ports_inv w Hw) as [Hkept Honce]. split; [exact Honce|]. split.
  - intros i p u Hi Hu. destruct (Hkept i p u Hi Hu) as (e & He & _). by exists e.
  - intros i id ttl n port r' res Hi E. destruct Hw as (now0 & r0 & Hs). exists now0, r0.
    etrans; [exact Hs|]. destruct w. by eapply solo_steps.
Qed.

(** ** Registration of tunnels

    [store_tunnel] reads the user's lookup, changes it and writes it back.  Cut at
    the read: *)
Section registration.
Context `{Hredis : RedisServer R} `{Hcodec : Codec}.

(** Up to the read of the lookup. *)
Definition store_begin (now : Z) (t : Tunnel) : io R AE.t (option string) :=
  _ ← get_connection;
  _ ← storage "Failed to store tunnel data in Redis"
        (r_set_ex now (tunnel_key (uuid_to_string (t_id t))) (json_to_string (ser_Tunnel t))
           (tunnel_ttl now t));
  storage "Failed to get existing user tunnel lookup"
    (r_get now (tunnel_lookup_key (t_github_user_id t))).

(** From the write of the lookup, with what was read. *)
Definition store_finish (now : Z) (ip : option string) (t : Tunnel) (existing : option string) : io R AE.t () :=
  let lookup :=
    add_tunnel (lookup_or_new (t_github_user_id t) (t_github_username t) existing)
      (uuid_to_string (t_id t)) in
  _ ← storage "Failed to store user tunnel lookup in Redis"
        (r_set now (tunnel_lookup_key (t_github_user_id t))
           (json_to_string (ser_UserTunnelLookup lookup)));
  _ ← claim_subdomain now t (tunnel_ttl now t);
  storage "Failed to create DNS slot mapping"
    (r_set_ex now (dns_slot_key (t_fqdn t)) (edge_ip ip) (tunnel_ttl now t)).

Lemma store_tunnel_cut now ip t (r : R) :
  store_tunnel now ip t r = (existing ← store_begin now t; store_finish now ip t existing) r.
Proof.
  unfold store_tunnel, store_begin, store_finish, mbind, io_bind.
  destruct (get_connection r) as [r0 [[]|e]]; [|done].
  destruct (storage "Failed to store tunnel data in Redis" _ r0) as [r1 [[]|e]]; [|done]. done.
Qed.
End registration.

Section registration_lemmas.
Context `{Hspec : RedisSpec R} `{Hcodec : Codec}.
Implicit Types (m : gmap string rentry) (t : Tunnel).

(** The user's lookup after a write from what was read. *)
Definition put_lookup t (existing : option string) m : gmap string rentry :=
  <[tunnel_lookup_key (t_github_user_id t) :=
      REntry (RString (json_to_string (ser_UserTunnelLookup
        (add_tunnel (lookup_or_new (t_github_user_id t) (t_github_username t) existing)
           (uuid_to_string (t_id t)))))) None]> m.

Definition put_begin (now : Z) t m : gmap string rentry :=
  put_ex now (tunnel_key (uuid_to_string (t_id t))) (json_to_string (ser_Tunnel t)) (tunnel_ttl now t) m.
Definition put_finish (now : Z) ip t existing m : gmap string rentry :=
  put_slot now ip t (put_claim now t (put_lookup t existing m)).

Lemma store_begin_effect now t (r r' : R) existing :
  store_begin now t r = (r', Ok existing) →
  live now r' = put_begin now t (live now r)
  ∧ existing = str_at (live now r) (tunnel_lookup_key (t_github_user_id t)).
Proof.
  unfold store_begin, get_connection, storage. intros Hr.
  apply io_bind_ok in Hr as (r0 & [] & H0%io_map_err_ok & Hr).
  apply io_bind_ok in Hr as (r1 & [] & H1%io_map_err_ok & Hr%io_map_err_ok).
  apply connect_spec with (now := now) in H0.
  apply (proj1 (set_ex_writes now _ _ _)) in H1. apply get_ok_at in Hr as [-> Hr].
  rewrite Hr, H1, H0. split; [done|]. apply str_at_ext. unfold put_ex. by map_keys.
Qed.

(** The claim was free or one's own. *)
Definition claimable m t : Prop :=
  m !! subdomain_key (t_subdomain t) = None
  ∨ holder m (t_subdomain t) = Some (uuid_to_string (t_id t)).

Lemma store_finish_effect now ip t existing (r r' : R) :
  store_finish now ip t existing r = (r', Ok ()) →
  live now r' = put_finish now ip t existing (live now r)
  ∧ 0 < tunnel_ttl now t < 2 ^ 63 ∧ claimable (live now r) t.
Proof.
  unfold store_finish. intros Hr.
  apply io_bind_ok in Hr as (r1 & [] & H1%io_map_err_ok & Hr).
  apply io_bind_ok in Hr as (r2 & [] & Hc & Hr%io_map_err_ok).
  pose proof (set_ex_positive _ _ _ _ _ _ Hr) as Hpos.
  apply (proj1 (set_ex_writes now _ _ _)) in Hr. apply (proj1 (set_writes now _ _)) in H1.
  fold (put_lookup t existing (live now r)) in H1.
  assert (live now r1 !! subdomain_key (t_subdomain t)
          = live now r !! subdomain_key (t_subdomain t)) as Hsub
    by (rewrite H1; unfold put_lookup; by map_keys).
  unfold put_finish, put_slot, put_claim. rewrite <- H1, Hsub.
  apply claim_subdomain_spec in Hc as [[Hn Hl2]|[Hh Hl2]].
  - rewrite <- Hsub, Hn. split; [congruence|]. split; [done|]. left. congruence.
  - unfold holder in Hh. rewrite (str_at_ext _ _ _ Hsub) in Hh.
    split; [|split; [done|by right]].
    unfold str_at in Hh. destruct (live now r !! _) eqn:E; [|done]. congruence.
Qed.

Lemma put_finish_lookup now ip t existing m :
  put_finish now ip t existing m !! tunnel_lookup_key (t_github_user_id t)
  = put_lookup t existing m !! tunnel_lookup_key (t_github_user_id t).
Proof.
  unfold put_finish, put_slot, put_claim, put_lookup, put_ex, expire_map. map_keys.
  repeat case_match; try case_decide; by map_keys.
Qed.

Lemma put_finish_other now ip t existing m k :
  k ≠ tunnel_lookup_key (t_github_user_id t) → k ≠ subdomain_key (t_subdomain t) →
  k ≠ dns_slot_key (t_fqdn t) → put_finish now ip t existing m !! k = m !! k.
Proof.
  intros. unfold put_finish, put_slot, put_claim, put_lookup, put_ex, expire_map.
  repeat case_match; try case_decide; by map_keys.
Qed.

Lemma put_finish_claim now ip t existing m :
  0 < tunnel_ttl now t < 2 ^ 63 → claimable m t →
  holder (put_finish now ip t existing m) (t_subdomain t) = Some (uuid_to_string (t_id t)).
Proof.
  intros Hpos Hh. unfold holder, str_at, put_finish, put_slot, put_ex at 1. map_keys.
  unfold put_claim, put_lookup. map_keys. unfold claimable, holder, str_at in Hh.
  destruct (m !! subdomain_key (t_subdomain t)) as [[[s|s] e]|] eqn:E;
    [..|unfold put_ex; by map_keys]; destruct Hh as [Hh|Hh]; simplify_eq.
  unfold expire_map. map_keys. rewrite E, as_i64_id by (unfold i64_ok; lia).
  case_decide; [lia|]. by map_keys.
Qed.

(** What a lookup made from stored data lists. *)
Lemma updated_lists t m id :
  id ∈ l_tunnels (add_tunnel (lookup_or_new (t_github_user_id t) (t_github_username t)
      (str_at m (tunnel_lookup_key (t_github_user_id t)))) (uuid_to_string (t_id t))) →
  id = uuid_to_string (t_id t) ∨ listed m id.
Proof.
  intros [->|Hid]%add_tunnel_in; [by left|right]. unfold lookup_or_new in Hid.
  fold (lookup_at m (tunnel_lookup_key (t_github_user_id t))) in Hid.
  destruct (lookup_at m _) as [l|] eqn:El; cbn in Hid; [|by apply not_elem_of_nil in Hid].
  by exists (t_github_user_id t), l.
Qed.

Lemma put_lookup_at t existing m :
  lookup_at (put_lookup t existing m) (tunnel_lookup_key (t_github_user_id t))
  = Some (add_tunnel (lookup_or_new (t_github_user_id t) (t_github_username t) existing)
            (uuid_to_string (t_id t))).
Proof.
  unfold lookup_at, str_at, put_lookup. map_keys. cbn.
  by rewrite from_str_to_string, de_ser_lookup by apply lookup_json_wf.
Qed.
End registration_lemmas.

(** Two registrations of one user, each reading the lookup before the other writes
    it. *)
Section race.
Context `{Hspec : RedisSpec R} `{Hcodec : Codec}.
Context (now : Z) (ip1 ip2 : option string) (t1 t2 : Tunnel) (r r1 r2 r3 r4 : R) (e1 e2 : option string).
Context (Huser : t_github_user_id t1 = t_github_user_id t2) (Hid : t_id t1 ≠ t_id t2).
Context (Hb1 : store_begin now t1 r = (r1, Ok e1)) (Hb2 : store_begin now t2 r1 = (r2, Ok e2)).
Context (Hf1 : store_finish now ip1 t1 e1 r2 = (r3, Ok ())) (Hf2 : store_finish now ip2 t2 e2 r3 = (r4, Ok ())).

Lemma race_data :
  live now r4 = put_finish now ip2 t2 (str_at (live now r) (tunnel_lookup_key (t_github_user_id t2)))
    (put_finish now ip1 t1 e1 (put_begin now t2 (put_begin now t1 (live now r))))
  ∧ 0 < tunnel_ttl now t1 < 2 ^ 63 ∧ 0 < tunnel_ttl now t2 < 2 ^ 63
  ∧ claimable (live now r2) t1 ∧ claimable (live now r3) t2.
Proof.
  apply store_begin_effect in Hb1 as [L1 _], Hb2 as [L2 ->].
  apply store_finish_effect in Hf1 as (L3 & Hp1 & Hc1), Hf2 as (L4 & Hp2 & Hc2).
  rewrite L4, L3, L2, L1. repeat split; try lia; try congruence; try done.
  f_equal. apply str_at_ext. unfold put_begin, put_ex. by map_keys.
Qed.

Lemma race_ids : uuid_to_string (t_id t1) ≠ uuid_to_string (t_id t2).
Proof. by intros ?%uuid_to_string_inj. Qed.

(** The comment of [store_tunnel]: two creates that race cannot both own the key. *)
Lemma race_claims :
  t_subdomain t1 ≠ t_subdomain t2
  ∧ holder (live now r4) (t_subdomain t1) = Some (uuid_to_string (t_id t1))
  ∧ holder (live now r4) (t_subdomain t2) = Some (uuid_to_string (t_id t2)).
Proof.
  destruct race_data as (L4 & Hp1 & Hp2 & Hc1 & Hc2). pose proof race_ids as Hne.
  apply store_finish_effect in Hf1 as (L3 & _ & _), Hf2 as (L4' & _ & _).
  pose proof (put_finish_claim now ip1 t1 e1 _ Hp1 Hc1) as Hh1. rewrite <- L3 in Hh1.
  assert (t_subdomain t1 ≠ t_subdomain t2) as Hs.
  { intros E. rewrite E in Hh1. destruct Hc2 as [Hn|Hn]; [|congruence].
    unfold holder, str_at in Hh1. by rewrite Hn in Hh1. }
  split; [done|]. rewrite L4'. split; [|by apply put_finish_claim].
  rewrite <- Hh1. apply str_at_ext, put_finish_other; [key_ne| |key_ne].
  intros E. by apply str_app_inj_l in E.
Qed.

Lemma race_records id :
  live now r4 !! tunnel_key id = put_begin now t2 (put_begin now t1 (live now r)) !! tunnel_key id.
Proof. destruct race_data as (-> & _). rewrite !put_finish_other by key_ne. done. Qed.

(** The lookup is the one of the second request. *)
Lemma race_listed id :
  listed (live now r4) id → id = uuid_to_string (t_id t2) ∨ listed (live now r) id.
Proof.
  destruct race_data as (-> & _). intros (user & l & Hl & Hin).
  destruct (decide (tunnel_lookup_key user = tunnel_lookup_key (t_github_user_id t2))) as [E|Hne].
  - rewrite E in Hl. unfold lookup_at in Hl.
    erewrite (str_at_ext _ (put_lookup _ _ _)) in Hl by apply put_finish_lookup.
    match type of Hl with str_at ?m ?k ≫= _ = _ => fold (lookup_at m k) in Hl end.
    rewrite put_lookup_at in Hl. simplify_eq. by apply updated_lists in Hin.
  - right. exists user, l. split; [|done]. rewrite <- Hl. unfold lookup_at. f_equal. apply str_at_ext.
    rewrite !put_finish_other by (try key_ne; congruence). unfold put_begin, put_ex. by map_keys.
Qed.

Lemma race_listed_second : listed (live now r4) (uuid_to_string (t_id t2)).
Proof.
  destruct race_data as (-> & _). eexists (t_github_user_id t2), _. split.
  - unfold lookup_at. erewrite (str_at_ext _ (put_lookup _ _ _)) by apply put_finish_lookup. apply put_lookup_at.
  - apply add_tunnel_in. by left.
Qed.

Lemma race_info id :
  tunnel_ok t1 → tunnel_ok t2 →
  info_at (live now r4) id =
    if decide (id = uuid_to_string (t_id t2)) then Some (info_of t2)
    else if decide (id = uuid_to_string (t_id t1)) then Some (info_of t1) else info_at (live now r) id.
Proof.
  intros Ho1 Ho2. unfold info_at, str_at. rewrite race_records. unfold put_begin, put_ex.
  repeat case_decide; subst; [map_keys..|].
  - cbn. by rewrite from_str_to_string, de_TunnelInfo_ser_Tunnel by auto using tunnel_json_wf.
  - rewrite lookup_insert_ne by (intros ?%str_app_inj_l; congruence). map_keys.
    cbn. by rewrite from_str_to_string, de_TunnelInfo_ser_Tunnel by auto using tunnel_json_wf.
  - by rewrite !lookup_insert_ne by (intros ?%str_app_inj_l; congruence).
Qed.
End race.

(** One after the other, a registration keeps what is listed. *)
Lemma put_tunnel_keeps_listed `{Codec} now ip t m id :
  listed m id → listed (put_tunnel now ip t m) id.
Proof.
  intros (user & l & Hl & Hin).
  destruct (decide (tunnel_lookup_key user = tunnel_lookup_key (t_github_user_id t))) as [E|Hne].
  - rewrite E in Hl. exists (t_github_user_id t), (updated_lookup m t). split.
    + unfold lookup_at, str_at. rewrite put_tunnel_lookup. cbn.
      by rewrite from_str_to_string, de_ser_lookup by apply lookup_json_wf.
    + apply add_tunnel_in. right. unfold lookup_or_new.
      fold (lookup_at m (tunnel_lookup_key (t_github_user_id t))). by rewrite Hl.
  - exists user, l. split; [|done]. rewrite <- Hl. unfold lookup_at. f_equal.
    apply str_at_ext, put_tunnel_other; [key_ne|done|key_ne..].
Qed.

(** C19: concurrent registrations.  When two registrations of one user both read the
    user's lookup before either writes it and both succeed, each holds its own
    subdomain, which differ, and both records are stored; but the lookup that stays
    is the second one's: the first tunnel, reported as created, is listed nowhere
    and the edge does not find it.  One after the other, both would be listed. *)
Theorem concurrent_registration `{RedisSpec R} `{Codec} now ip1 ip2 t1 t2 (r r1 r2 r3 r4 r5 : R) e1 e2 o
    (Huser : t_github_user_id t1 = t_github_user_id t2) (Hid : t_id t1 ≠ t_id t2)
    (Ho1 : tunnel_ok t1) (Ho2 : tunnel_ok t2)
    (Hnew : ∀ id, listed (live now r) id → id ≠ uuid_to_string (t_id t1)
       ∧ ∀ i, info_at (live now r) id = Some i → i_subdomain i ≠ t_subdomain t1)
    (Hb1 : store_begin now t1 r = (r1, Ok e1)) (Hb2 : store_begin now t2 r1 = (r2, Ok e2))
    (Hf1 : store_finish now ip1 t1 e1 r2 = (r3, Ok ())) (Hf2 : store_finish now ip2 t2 e2 r3 = (r4, Ok ()))
    (Hget : RedisCache.get_tunnel_by_subdomain now (t_subdomain t1) r4 = (r5, Ok o)) :
  t_subdomain t1 ≠ t_subdomain t2
  ∧ holder (live now r4) (t_subdomain t1) = Some (uuid_to_string (t_id t1))
  ∧ holder (live now r4) (t_subdomain t2) = Some (uuid_to_string (t_id t2))
  ∧ info_at (live now r4) (uuid_to_string (t_id t1)) = Some (info_of t1)
  ∧ registered (live now r4) (info_of t2)
  ∧ ¬ listed (live now r4) (uuid_to_string (t_id t1)) ∧ o = None
  ∧ (∀ ra rb, store_tunnel now ip1 t1 r = (ra, Ok ()) → store_tunnel now ip2 t2 ra = (rb, Ok ()) →
       registered (live now rb) (info_of t2) ∧ listed (live now rb) (uuid_to_string (t_id t1))).
Proof.
  pose proof (race_ids t1 t2 Hid) as Hne.
  pose proof (λ id, race_info now ip1 ip2 t1 t2 r r1 r2 r3 r4 e1 e2 Hb1 Hb2 Hf1 Hf2 id Ho1 Ho2) as Hinfo.
  pose proof (race_listed now ip1 ip2 t1 t2 r r1 r2 r3 r4 e1 e2 Huser Hb1 Hb2 Hf1 Hf2) as Hlst.
  destruct (race_claims now ip1 ip2 t1 t2 r r1 r2 r3 r4 e1 e2 Hid Hb1 Hb2 Hf1 Hf2) as (Hs & Hh1 & Hh2).
  repeat (split; [done|]). split; [|split; [|split; [|split]]].
  - by rewrite Hinfo, decide_False, decide_True by congruence.
  - exists (uuid_to_string (t_id t2)). split; [|by rewrite Hinfo, decide_True].
    by eapply (race_listed_second now ip1 ip2 t1 t2 r r1 r2 r3 r4 e1 e2).
  - intros [?|Hl]%Hlst; [done|]. by destruct (Hnew _ Hl).
  - destruct o as [i|]; [|done]. apply scan_correct in Hget as [_ [(id & Hl & Hi) Hp%String.eqb_eq]].
    rewrite Hinfo in Hi. apply Hlst in Hl as [->|Hl].
    + rewrite decide_True in Hi by done. by simplify_eq.
    + destruct (Hnew _ Hl) as [Hn Hfree]. rewrite (decide_False _ _ Hn) in Hi.
      case_decide; simplify_eq. by destruct (Hfree _ Hi).
  - intros ra rb (Ea & _ & _)%store_tunnel_effect (Eb & Hpos & _)%store_tunnel_effect. split.
    + eapply (stored_registered now now ip2 t2); [done|by rewrite Eb|].
      split; [lia|]. unfold secs. lia.
    + rewrite Eb, Ea. apply put_tunnel_keeps_listed. eexists (t_github_user_id t1), _. split.
      * unfold lookup_at, str_at. rewrite put_tunnel_lookup. cbn.
        by rewrite from_str_to_string, de_ser_lookup by apply lookup_json_wf.
      * apply add_tunnel_in. by left.
Qed.

(** ** Quotas

    The middleware checks a quota and then records the usage, and recording reads
    the counters, changes them and writes them back; the lock of the cache is held
    only for each read and each write. *)

(** A request between two uses of the lock. *)
Inductive QuotaReq :=
  | QCheck
  | QCheckFill (fresh : UserUsage)
  | QRecord
  | QRecordFill (fresh : UserUsage)
  | QWrite (read : UserUsage)
  | QDone (granted : bool).

Definition within (q : QuotaType) (user : string) (u : UserUsage) : bool :=
  as_i64 (usage_of q u + 1) <=? limit_of q (get_quota_limits user).

Definition quota_checked (q : QuotaType) (user : string) (u : UserUsage) : QuotaReq :=
  if within q user u then QRecord else QDone false.

(** One use of the lock by a request for a unit. *)
Definition quota_step (now : Z) (q : QuotaType) (user : string) (s : QuotaReq) (c : UsageCache)
    : QuotaReq * UsageCache :=
  match s with
  | QCheck => (match c !! user with
               | Some u => quota_checked q user u
               | None => QCheckFill (fresh_usage now user)
               end, c)
  | QCheckFill u => (quota_checked q user u, <[user := u]> c)
  | QRecord => (match c !! user with
                | Some u => QWrite u
                | None => QRecordFill (fresh_usage now user)
                end, c)
  | QRecordFill u => (QWrite u, <[user := u]> c)
  | QWrite u => (QDone true, <[user := add_usage q 1 now u]> c)
  | QDone b => (QDone b, c)
  end.

Fixpoint quota_steps (now : Z) (q : QuotaType) (user : string) (n : nat) (s : QuotaReq) (c : UsageCache)
    : QuotaReq * UsageCache :=
  match n with
  | O => (s, c)
  | S n => let '(s, c) := quota_step now q user s c in quota_steps now q user n s c
  end.

Lemma check_quota_within now q user c c' u c'' res :
  get_user_usage now user c = (c', u) → check_quota now user q 1 c = (c'', res) →
  c'' = c' ∧ allowed res = within q user u.
Proof. intros E. unfold check_quota, within. rewrite E. by destruct (_ <=? _); intros [= <- <-]. Qed.

(** Alone, at most four uses of the lock are the whole of [enforce]. *)
Lemma quota_solo now q user c :
  quota_steps now q user 4 QCheck c
  = (QDone (allowed (enforce q 1 now user c).2), (enforce q 1 now user c).1).
Proof.
  unfold enforce. destruct (get_user_usage now user c) as [c1 u] eqn:Eu.
  destruct (check_quota now user q 1 c) as [c2 res] eqn:Ec.
  destruct (check_quota_within _ _ _ _ _ _ _ _ Eu Ec) as [-> Ha]. cbn [fst snd]. rewrite Ha. clear Ec.
  unfold get_user_usage in Eu. destruct (c !! user) as [v|] eqn:E; simplify_eq.
  - cbn. rewrite E. unfold quota_checked. destruct (within q user u); [|done].
    cbn. rewrite E. cbn. unfold record_usage, get_user_usage. by rewrite E.
  - cbn. rewrite E. cbn. unfold quota_checked. destruct (within q user _); [|done].
    cbn. rewrite lookup_insert_eq. cbn. unfold record_usage, get_user_usage. by rewrite lookup_insert_eq.
Qed.

(** As many requests as the limit leaves are granted. *)
Lemma run_ops_grants now k user n c :
  let q := unit_type k in
  0 ≤ used q user c → used q user c + Z.of_nat n ≤ quota_limit q →
  (run_ops (replicate n (now, Request k, user)) c).2 = replicate n (Some true).
Proof.
  intros q. revert c. induction n as [|n IH]; intros c H0 Hn; [done|]. cbn [replicate run_ops run_op].
  rewrite enforce_unit_enforce. fold q. unfold enforce. destruct (check_quota now user q 1 c) as [c1 res] eqn:E.
  pose proof (quota_limit_range q) as Hl.
  apply check_quota_spec in E as [Hk Ha]; [|lia]. rewrite bool_decide_eq_true_2 in Ha by lia.
  cbn [fst snd]. rewrite Ha. destruct (run_ops _ _) as [c2 rs] eqn:E2. cbn [snd]. f_equal.
  assert (used q user (record_usage now user q 1 c1) = used q user c + 1) as Hu.
  { rewrite record_usage_used, decide_True by done. rewrite Hk. apply as_i64_id. unfold i64_ok. lia. }
  specialize (IH (record_usage now user q 1 c1)). rewrite E2 in IH. apply IH; rewrite Hu; lia.
Qed.

(** A write forgets what was recorded since its read: with two requests of one user
    at a time, twice the limit is granted before the counter reaches the limit. *)
Lemma quota_overrun now k user :
  let q := unit_type k in
  let n := Z.to_nat (quota_limit q) in
  ∃ u c1, quota_steps now q user 3 QCheck ∅ = (QWrite u, c1)
  ∧ let c2 := (run_ops (replicate n (now, Request k, user)) c1).1 in
    let c3 := (quota_step now q user (QWrite u) c2).2 in
    (run_ops (replicate n (now, Request k, user)) c1).2 = replicate n (Some true)
  ∧ (quota_step now q user (QWrite u) c2).1 = QDone true
  ∧ used q user c3 = 1
  ∧ (run_ops (replicate (n - 1) (now, Request k, user)) c3).2 = replicate (n - 1) (Some true).
Proof.
  intros q n. pose proof (quota_limit_range q) as Hl. exists (fresh_usage now user), (<[user := fresh_usage now user]> ∅).
  assert (quota_checked q user (fresh_usage now user) = QRecord) as Hc by by destruct k.
  split; [unfold quota_steps, quota_step; by rewrite lookup_empty, Hc, lookup_insert_eq|]. cbv zeta.
  assert (∀ c, used q user (quota_step now q user (QWrite (fresh_usage now user)) c).2 = 1) as Hw
    by (intros c; unfold used; cbn; rewrite lookup_insert_eq; by destruct k).
  split; [|split; [done|split; [apply Hw|]]]; apply run_ops_grants; fold q; rewrite ?Hw.
  - unfold used. rewrite lookup_insert_eq. by destruct k.
  - unfold used. rewrite lookup_insert_eq. destruct k; cbn in *; lia.
  - lia.
  - lia.
Qed.

(** ** Examples on the concrete server *)
Module InterleavingDemo.
Import MemRedis BitCodec CacheDemo StorageDemo.

(** Two requests start at one port; the second is told it is taken. *)
Definition start (id : string) : Alloc := Probing id 60 (Z.to_nat MAX_ATTEMPTS) 10000.
Definition left : nat := Nat.pred (Z.to_nat MAX_ATTEMPTS).
Definition claim (p : Z) (id : string) (r : mem) : mem := (r_set_nx_ex 0 (port_key p) id 60 r).1.
Definition both : World (R := mem) :=
  {| w_now := 0; w_redis := claim 10001 "b" (claim 10000 "b" (claim 10000 "a" empty));
     w_allocs := <[1%nat := Returned 10001 (0 + secs 60)]>
       (<[1%nat := Probing "b" 60 left (next_port 10000)]>
         (<[0%nat := Returned 10000 (0 + secs 60)]> (<[1%nat := start "b"]> (<[0%nat := start "a"]> ∅)))) |}.

Lemma both_reachable : reachable both.
Proof.
  exists 0, empty.
  eapply rtc_l; [apply (PStart 0 empty ∅ 0 "a" 60 10000); by vm_compute|].
  eapply rtc_l; [apply (PStart 0 empty _ 1 "b" 60 10000); by vm_compute|].
  eapply rtc_l; [apply (PClaimed 0 empty (claim 10000 "a" empty) _ 0 "a" 60 left 10000 "OK"); by vm_compute|].
  eapply rtc_l; [apply (PTaken 0 _ (claim 10000 "b" (claim 10000 "a" empty)) _ 1 "b" 60 left 10000); by vm_compute|].
  eapply rtc_l; [apply (PClaimed 0 _ (w_redis both) _ 1 "b" 60 (Nat.pred left) 10001 "OK"); by vm_compute|].
  apply rtc_refl.
Qed.

Lemma concurrent_ports_exclusive_witness :
  is_Some (live 0 (w_redis both) !! port_key 10000) ∧ is_Some (live 0 (w_redis both) !! port_key 10001).
Proof.
  split.
  - apply (proj1 (proj2 (concurrent_ports_exclusive both both_reachable)) 0%nat 10000 (secs 60)); by vm_compute.
  - apply (proj1 (proj2 (concurrent_ports_exclusive both both_reachable)) 1%nat 10001 (secs 60)); by vm_compute.
Defined.

(** Two tunnels of Ann's. *)
Definition second : Tunnel := Tunnel_new 0 6%N "7" "ann" "web" "fdns.run" 3000 20001 "s2" 60.
Definition s1 : mem := (store_begin 0 tunnel empty).1.
Definition s2 : mem := (store_begin 0 second s1).1.
Definition s3 : mem := (store_finish 0 None tunnel None s2).1.
Definition s4 : mem := (store_finish 0 None second None s3).1.

Lemma concurrent_registration_witness :
  holder (live 0 s4) "app" = Some (uuid_to_string 5%N) ∧ ¬ listed (live 0 s4) (uuid_to_string 5%N)
  ∧ match (RedisCache.get_tunnel_by_subdomain 0 "app" s4).2 with Ok o => o | Err _ => None end = None.
Proof.
  destruct (concurrent_registration 0 None None tunnel second empty s1 s2 s3 s4
    (RedisCache.get_tunnel_by_subdomain 0 "app" s4).1 None None
    match (RedisCache.get_tunnel_by_subdomain 0 "app" s4).2 with Ok o => o | Err _ => None end)
    as (_ & Hh & _ & _ & _ & Hl & Ho & _).
  - reflexivity.
  - discriminate.
  - apply tunnel_is_ok.
  - vm_compute. repeat split; congruence.
  - intros id (user & l & Hl & _). discriminate Hl.
  - eval_eq.
  - eval_eq.
  - eval_eq.
  - eval_eq.
  - eval_eq.
  - exact (conj Hh (conj Hl Ho)).
Defined.
End InterleavingDemo.
