(* ===== verification/ControlSocket.v ===== *)
(** * The control socket's file

    crates/common/src/shutdown.rs: the socket file a daemon binds when it starts, the
    accept loop behind it, and the destructor of the coordinator, which runs for every
    clone; and the main function of cmd/fleetingdns-ctl.

    The machine keeps which listener a socket file leads to.  A listener whose file is
    gone still accepts, but nobody can reach it; a file whose listener is gone refuses
    connections.  What the file system answers is part of the events. *)

From S2P Require Import Prelude Serde Shutdown.

(** ** The machine *)

(** The accept loop of a control socket and the coordinator it shares with its
    daemon. *)
Record Task := { tk_coord : GracefulShutdown; tk_accepting : bool }.

Record Machine := {
  (** The socket files, with the task that listens behind each. *)
  sockets : gmap string nat;
  tasks : gmap nat Task;
  next_task : nat;
}.

Definition boot : Machine := {| sockets := ∅; tasks := ∅; next_task := 0 |}.

Definition unlink (path : string) (m : Machine) : Machine :=
  {| sockets := delete path (sockets m); tasks := tasks m; next_task := next_task m |}.
Definition with_task (t : nat) (f : Task → Task) (m : Machine) : Machine :=
  {| sockets := sockets m; tasks := alter f t (tasks m); next_task := next_task m |}.
Definition stop_task (tk : Task) : Task := {| tk_coord := tk_coord tk; tk_accepting := false |}.

(** [Path::parent] is [None] for the empty path and for the root. *)
Definition has_parent (path : string) : bool := negb (str_all (λ c, Ascii.eqb c "/") path).

(** How the steps of a start end. *)
Record StartOutcome := { mkdir_ok : bool; remove_ok : bool; bind_ok : bool }.

Definition start_control_socket (o : StartOutcome) (g : GracefulShutdown) (m : Machine)
    : Machine * result string nat :=
  let path := control_socket_path (config g) in
  if has_parent path && negb (mkdir_ok o) then (m, Err "create_dir_all")
  else
    let m := if remove_ok o then unlink path m else m in
    (** [bind] refuses a path that exists. *)
    if bind_ok o && bool_decide (sockets m !! path = None) then
      ({| sockets := <[path := next_task m]> (sockets m);
          tasks := <[next_task m := {| tk_coord := g; tk_accepting := true |}]> (tasks m);
          next_task := S (next_task m) |}, Ok (next_task m))
    else (m, Err "bind").

(** [start]: the signal handlers, which may not be installed, and the socket. *)
Definition start (handlers_ok : bool) (o : StartOutcome) (g : GracefulShutdown) (m : Machine)
    : Machine * result string nat :=
  if handlers_ok then start_control_socket o g m else (m, Err "signal").

(** [drop], of the coordinator or of a clone: only the one that was started has the
    handle of the task. *)
Definition drop_coordinator (unlinked : bool) (path : string) (control_handle : option nat) (m : Machine)
    : Machine :=
  let m := if unlinked then unlink path m else m in
  match control_handle with
  | Some t => with_task t stop_task m
  | None => m
  end.

(** [UnixStream::connect]. *)
Definition connect (path : string) (m : Machine) : option nat :=
  t ← sockets m !! path;
  tk ← tasks m !! t;
  if tk_accepting tk then Some t else None.

(** ** The client *)

Section ctl.
Context `{Codec}.

Record Cli := { cli_socket : option string; cli_component : string; cli_command : Commands }.

Definition socket_of (env : Env) (cli : Cli) : string :=
  default (get_default_socket_path env (cli_component cli)) (cli_socket cli).

(** The daemon's end of a connection to a task. *)
Definition serve_control (now : Z) (line : string) (t : nat) (m : Machine) : Machine :=
  with_task t (λ tk, {| tk_coord := (handle_control_connection now line (tk_coord tk)).1;
                        tk_accepting := tk_accepting tk |}) m.

(** [main]: the text printed, or the error with which it exits. *)
Definition ctl_main (now : Z) (env : Env) (cli : Cli) (m : Machine) : Machine * result string string :=
  match connect (socket_of env cli) m with
  | None => (m, Err "connect")
  | Some t =>
      let line := json_to_string (ser_ControlCommand (control_command (cli_command cli))) +:+ NEWLINE in
      let daemon l := tk ← tasks m !! t; daemon_socket now (tk_coord tk) l in
      (serve_control now line t m,
       match execute_command daemon (cli_command cli) with
       | Ok r => Ok (print_response r)
       | Err e => Err e
       end)
  end.

(** ** Histories *)

Inductive SocketEvent :=
  | Started (handlers_ok : bool) (o : StartOutcome) (g : GracefulShutdown)
  | CoordinatorDropped (unlinked : bool) (path : string) (control_handle : option nat)
  | AcceptFailed (t : nat)
  | DaemonEvent (t : nat) (now : Z) (e : daemon_event)
  | Ctl (now : Z) (env : Env) (cli : Cli).

Definition socket_step (m : Machine) (e : SocketEvent) : Machine :=
  match e with
  | Started h o g => (start h o g m).1
  | CoordinatorDropped u path t => drop_coordinator u path t m
  | AcceptFailed t => with_task t stop_task m
  | DaemonEvent t now e =>
      with_task t (λ tk, {| tk_coord := daemon_step (tk_coord tk) (now, e);
                            tk_accepting := tk_accepting tk |}) m
  | Ctl now env cli => (ctl_main now env cli m).1
  end.

Definition socket_run (h : list SocketEvent) (m : Machine) : Machine := foldl socket_step m h.

(** An event that leaves the connection from a path to a task alone. *)
Definition leaves (path : string) (t : nat) (e : SocketEvent) : Prop :=
  match e with
  | Started h o g =>
      control_socket_path (config g) = path →
      h = false ∨ has_parent path && negb (mkdir_ok o) = true ∨ remove_ok o = false
  | CoordinatorDropped u path' t' => (u = true → path' ≠ path) ∧ t' ≠ Some t
  | AcceptFailed t' => t' ≠ t
  | DaemonEvent _ _ _ | Ctl _ _ _ => True
  end.

(** The task a path was bound to last and that has been left alone since. *)
Definition served_by (h : list SocketEvent) (path : string) (t : nat) : Prop :=
  ∃ h1 o g h2, h = h1 ++ Started true o g :: h2 ∧ control_socket_path (config g) = path
    ∧ (start true o g (socket_run h1 boot)).2 = Ok t
    ∧ Forall (leaves path t) h2.
End ctl.

Section connect_lemmas.
Context `{Codec}.

(** Task numbers are used once. *)
Definition machine_ok (m : Machine) : Prop :=
  (∀ t, is_Some (tasks m !! t) → (t < next_task m)%nat)
  ∧ (∀ path t, sockets m !! path = Some t → (t < next_task m)%nat).

Lemma connect_Some path m t :
  connect path m = Some t ↔
  sockets m !! path = Some t ∧ ∃ tk, tasks m !! t = Some tk ∧ tk_accepting tk = true.
Proof.
  unfold connect. destruct (sockets m !! path) as [t'|]; cbn; [|naive_solver].
  destruct (tasks m !! t') as [tk|] eqn:E; cbn; [|naive_solver congruence].
  destruct (tk_accepting tk) eqn:Ea; naive_solver congruence.
Qed.

(** A task that goes on accepting is reached as before. *)
Lemma connect_with_task path t t0 f m :
  connect path (with_task t0 f m) = Some t ↔
  sockets m !! path = Some t
  ∧ ∃ tk, tasks m !! t = Some tk ∧ tk_accepting (if decide (t = t0) then f tk else tk) = true.
Proof.
  rewrite connect_Some. cbn [with_task sockets tasks].
  destruct (decide (t = t0)) as [->|Hne].
  - rewrite lookup_alter_eq. destruct (tasks m !! t0); naive_solver.
  - rewrite lookup_alter_ne by done. done.
Qed.

Lemma connect_keep path t t0 f m :
  (∀ tk, tk_accepting (f tk) = tk_accepting tk) →
  connect path (with_task t0 f m) = Some t ↔ connect path m = Some t.
Proof.
  intros Hf. rewrite connect_with_task, connect_Some. repeat setoid_rewrite Hf.
  split; intros [? (tk & ? & Ha)]; (split; [done|]); exists tk; (split; [done|]);
    case_decide; by rewrite ?Hf in *.
Qed.

Lemma connect_stop path t t0 m :
  connect path (with_task t0 stop_task m) = Some t ↔ connect path m = Some t ∧ t ≠ t0.
Proof.
  rewrite connect_with_task, connect_Some. split.
  - intros (? & tk & ? & Ha). case_decide; [done|]. eauto.
  - intros [(? & tk & ? & Ha) ?]. split; [done|]. exists tk. rewrite decide_False by done. done.
Qed.

Lemma connect_unlink path path' t m :
  connect path (unlink path' m) = Some t ↔ connect path m = Some t ∧ path' ≠ path.
Proof.
  rewrite !connect_Some. cbn [unlink sockets tasks]. rewrite lookup_delete_Some. naive_solver.
Qed.

(** A start: the cases in which nothing is bound, and a bound socket. *)
Lemma start_cases h o g m m' res :
  machine_ok m → start h o g m = (m', res) →
  let path := control_socket_path (config g) in
  let m1 := if remove_ok o then unlink path m else m in
  (h = false ∨ has_parent path && negb (mkdir_ok o) = true) ∧ m' = m ∧ (∀ t, res ≠ Ok t)
  ∨ h = true ∧ has_parent path && negb (mkdir_ok o) = false
    ∧ (m' = m1 ∧ (∀ t, res ≠ Ok t)
       ∨ sockets m1 !! path = None ∧ res = Ok (next_task m)
         ∧ m' = {| sockets := <[path := next_task m]> (sockets m1);
                   tasks := <[next_task m := {| tk_coord := g; tk_accepting := true |}]> (tasks m);
                   next_task := S (next_task m) |}).
Proof.
  intros Hok. unfold start, start_control_socket. destruct h; [|intros [= <- <-]; left; auto].
  destruct (has_parent _ && _) eqn:Eh; [intros [= <- <-]; left; naive_solver|]. cbv zeta.
  set (m1 := if remove_ok o then _ else _).
  assert (next_task m1 = next_task m ∧ tasks m1 = tasks m) as [-> ->] by (unfold m1; by case_match).
  destruct (bind_ok o); cbn [andb].
  - case_bool_decide; intros [= <- <-]; right; naive_solver.
  - intros [= <- <-]. right. naive_solver.
Qed.

Lemma socket_step_ok m e : machine_ok m → machine_ok (socket_step m e).
Proof.
  assert (∀ m t0 f, machine_ok m → machine_ok (with_task t0 f m)) as Hw.
  { intros m0 t0 f [H1 H2]. split; [|done]. intros t. cbn. rewrite lookup_alter.
    case_decide; [|apply H1]. subst. rewrite fmap_is_Some. apply H1. }
  assert (∀ m path, machine_ok m → machine_ok (unlink path m)) as Hu.
  { intros m0 path [H1 H2]. split; [done|]. cbn. intros path' t [_ Ht]%lookup_delete_Some. by eapply H2. }
  intros Hok. destruct e as [h o g|u path t|t|t now e|now env cli]; cbn [socket_step]; auto.
  - destruct (start h o g m) as [m' res] eqn:E. cbn [fst].
    apply start_cases in E as [(_ & -> & _)|(_ & _ & [[-> _]|(_ & _ & ->)])]; [done|case_match; auto| |done].
    assert (machine_ok (if remove_ok o then unlink (control_socket_path (config g)) m else m)) as [_ H2]
      by (case_match; auto). destruct Hok as [H1 _].
    split; cbn.
    + intros t. rewrite lookup_insert_is_Some. intros [<-|[_ Ht%H1]]; lia.
    + intros path t [[_ <-]|[_ Ht%H2]]%lookup_insert_Some; [lia|]. by case_match; cbn in Ht; lia.
  - unfold drop_coordinator. destruct u, t; auto.
  - unfold ctl_main. case_match; [by apply Hw|done].
Qed.
Lemma socket_run_ok h : machine_ok (socket_run h boot).
Proof.
  unfold socket_run. induction h as [|e h IH] using rev_ind.
  - split; intros *; cbn; rewrite lookup_empty; [by intros []|done].
  - rewrite foldl_app. by apply socket_step_ok.
Qed.
End connect_lemmas.

Section reach.
Context `{Codec}.

(** A path leads to a task after a start when it did and was left alone, or when the
    start bound it. *)
Lemma connect_started h o g m path t :
  machine_ok m →
  connect path (start h o g m).1 = Some t ↔
  connect path m = Some t ∧ leaves path t (Started h o g)
  ∨ h = true ∧ control_socket_path (config g) = path ∧ (start h o g m).2 = Ok t.
Proof.
  intros Hok. destruct (start h o g m) as [m' res] eqn:E. cbn [fst snd leaves].
  apply start_cases in E as [(Hc & -> & Hres)|(-> & Hp & [[-> Hres]|(Hfree & -> & ->)])]; [..|done].
  - split; [intros Hm; left; split; [done|]|naive_solver].
    intros <-. destruct Hc as [->|Hc]; [by left|]. right. by left.
  - split.
    + intros Hm. left. destruct (remove_ok o); [|naive_solver].
      apply connect_unlink in Hm as [? ?]. naive_solver.
    + intros [[Hm Hl]|(_ & _ & E)]; [|by destruct (Hres t)].
      destruct (remove_ok o); [|done]. apply connect_unlink. split; [done|].
      intros <-. rewrite Hp in Hl. destruct (Hl eq_refl) as [?|[?|?]]; done.
  - assert (connect path m = Some t → (t < next_task m)%nat) as Hlt.
    { intros (_ & tk & ? & _)%connect_Some. apply (proj1 Hok). by eexists. }
    rewrite connect_Some. cbn [sockets tasks].
    destruct (decide (control_socket_path (config g) = path)) as [<-|Hne].
    + rewrite lookup_insert_eq. split.
      * intros ([= <-] & _). by right.
      * intros [[Hm Hl]|(_ & _ & [= <-])].
        -- exfalso. rewrite Hp in Hl. apply connect_Some in Hm as [Hs _].
           destruct (Hl eq_refl) as [?|[?|Hr]]; [done..|]. by rewrite Hr, Hs in Hfree.
        -- split; [done|]. rewrite lookup_insert_eq. by eexists.
    + rewrite lookup_insert_ne by done.
      assert (sockets (if remove_ok o then unlink (control_socket_path (config g)) m else m) !! path
              = sockets m !! path) as ->
        by (case_match; cbn; by rewrite ?lookup_delete_ne by done).
      split.
      * intros (Hs & tk & Ht & Ha). left. split; [|done]. apply connect_Some. split; [done|].
        destruct (decide (t = next_task m)) as [->|Hn].
        -- apply (proj2 Hok) in Hs. lia.
        -- rewrite lookup_insert_ne in Ht by done. eauto.
      * intros [[Hm _]|(_ & ? & _)]; [|done]. pose proof (Hlt Hm) as Hl.
        apply connect_Some in Hm as (Hs & tk & Ht & Ha). split; [done|].
        rewrite lookup_insert_ne by lia. eauto.
Qed.

Lemma connect_step m e path t :
  machine_ok m →
  connect path (socket_step m e) = Some t ↔
  connect path m = Some t ∧ leaves path t e
  ∨ ∃ o g, e = Started true o g ∧ control_socket_path (config g) = path ∧ (start true o g m).2 = Ok t.
Proof.
  intros Hok. destruct e as [h o g|u path' t'|t'|t' now e|now env cli]; cbn [socket_step leaves].
  - rewrite connect_started by done. cbn [leaves]. naive_solver.
  - unfold drop_coordinator. destruct t' as [t'|].
    + rewrite connect_stop. destruct u; rewrite ?connect_unlink; naive_solver congruence.
    + destruct u; rewrite ?connect_unlink; naive_solver congruence.
  - rewrite connect_stop. naive_solver congruence.
  - rewrite connect_keep by done. naive_solver.
  - unfold ctl_main. destruct (connect (socket_of env cli) m); [|naive_solver].
    cbn [fst]. unfold serve_control. rewrite connect_keep by done. naive_solver.
Qed.

Lemma connect_run h path t : connect path (socket_run h boot) = Some t ↔ served_by h path t.
Proof.
  unfold socket_run.
  rewrite (foldl_last_made socket_step machine_ok (λ m t, connect path m = Some t) (λ e t, leaves path t e)
    (λ m e t, ∃ o g, e = Started true o g ∧ control_socket_path (config g) = path ∧ (start true o g m).2 = Ok t)).
  - split; [|intros (h1 & o & g & h2 & ?); naive_solver].
    intros (h1 & e & h2 & -> & (o & g & -> & Hp & Hs) & Hl). by exists h1, o, g, h2.
  - apply (socket_run_ok []).
  - apply socket_step_ok.
  - done.
  - intros m e t' Hok. by apply connect_step.
Qed.
End reach.

(** The client prints what the daemon answers, and the daemon has executed it. *)
Lemma ctl_main_answer `{JsonLines} now env cli m t tk
    (Hc : connect (socket_of env cli) m = Some t) (Ht : tasks m !! t = Some tk)
    (Hup : duration_ok (duration_since now (start_time (tk_coord tk))))
    (Hn : u64_ok (active_connections (tk_coord tk))) :
  let '(g, r) := handle_command now (control_command (cli_command cli)) (tk_coord tk) in
  (ctl_main now env cli m).2 = Ok (print_response r)
  ∧ tasks (ctl_main now env cli m).1 !! t = Some {| tk_coord := g; tk_accepting := tk_accepting tk |}.
Proof.
  pose proof (control_roundtrip now (cli_command cli) (tk_coord tk) Hup Hn) as Hr. cbn zeta in Hr.
  destruct (handle_command now _ _) as [g r]. destruct Hr as [Hg Hr].
  unfold ctl_main. rewrite Hc. cbn [fst snd]. split.
  - rewrite Ht. cbn [mbind option_bind]. change (λ l, daemon_socket now (tk_coord tk) l) with (daemon_socket now (tk_coord tk)).
    by rewrite Hr.
  - unfold serve_control. cbn. by rewrite lookup_alter_eq, Ht, <- Hg.
Qed.

(** C39: the control socket.  After any history of starts, drops, failures, commands
    and events of any daemons on a machine, a path leads to a daemon exactly when that
    daemon bound it and since then no start has removed the file, no coordinator with
    that path, a clone included, has been dropped with the file removed, and the
    daemon's accept loop has not ended.  Then, and only then, the control client gets
    an answer: the one the daemon computes from its own state, with the command
    executed. *)
Theorem control_socket_served `{JsonLines} h path now env cli
    (Hpath : socket_of env cli = path) :
  let m := socket_run h boot in
  (∀ t, served_by h path t ↔ connect path m = Some t)
  ∧ ((¬ ∃ t, served_by h path t) → ctl_main now env cli m = (m, Err "connect"))
  ∧ (∀ t tk, served_by h path t → tasks m !! t = Some tk →
       duration_ok (duration_since now (start_time (tk_coord tk))) →
       u64_ok (active_connections (tk_coord tk)) →
       let '(g, r) := handle_command now (control_command (cli_command cli)) (tk_coord tk) in
       (ctl_main now env cli m).2 = Ok (print_response r)
       ∧ tasks (ctl_main now env cli m).1 !! t
         = Some {| tk_coord := g; tk_accepting := tk_accepting tk |}).
Proof.
  intros m. split; [|split].
  - intros t. symmetry. apply connect_run.
  - intros Hno. unfold ctl_main. rewrite Hpath.
    destruct (connect path m) as [t|] eqn:E; [|done]. destruct Hno. exists t. by apply connect_run.
  - intros t tk Hs%connect_run Ht Hup Hn. apply ctl_main_answer; [by rewrite Hpath|done..].
Qed.

(** Dropping a clone cuts the daemon off while it still serves. *)
Lemma clone_drop_cuts_off `{Codec} h path t :
  served_by h path t →
  connect path (socket_run (h ++ [CoordinatorDropped true path None]) boot) = None
  ∧ ∃ tk, tasks (socket_run (h ++ [CoordinatorDropped true path None]) boot) !! t = Some tk
      ∧ tk_accepting tk = true.
Proof.
  intros Hs%connect_run. unfold socket_run. rewrite foldl_app. fold (socket_run h boot).
  cbn [foldl socket_step drop_coordinator]. split.
  - unfold connect. cbn. by rewrite lookup_delete_eq.
  - by apply connect_Some in Hs as [_ Hs].
Qed.

(** ** Examples *)
Module ControlSocketDemo.
Import BitCodec ShutdownDemo.

Definition fine : StartOutcome := {| mkdir_ok := true; remove_ok := true; bind_ok := true |}.
Definition sock : string := control_socket_path (config g0).
Definition cli : Cli := {| cli_socket := None; cli_component := "dnsd"; cli_command := CmdPing |}.

(** A daemon, a second one that takes the path over, and the end of the first, which
    removes the file of the second. *)
Definition history : list SocketEvent :=
  [Started true fine g0; DaemonEvent 0 5 ConnectionStarted; Started true fine g0].

Lemma control_socket_served_witness :
  connect sock (socket_run history boot) = Some 1%nat
  ∧ (∃ s, (ctl_main (secs 90) env cli (socket_run history boot)).2 = Ok s)
  ∧ (ctl_main (secs 90) env cli (socket_run (history ++ [CoordinatorDropped true sock (Some 0%nat)]) boot)).2
    = Err "connect".
Proof.
  assert (served_by history sock 1) as Hs.
  { exists [Started true fine g0; DaemonEvent 0 5 ConnectionStarted], fine, g0, []. by repeat split. }
  destruct (control_socket_served history sock (secs 90) env cli eq_refl) as (Hc & _ & Ha).
  destruct (control_socket_served (history ++ [CoordinatorDropped true sock (Some 0%nat)]) sock (secs 90)
    env cli eq_refl) as (Hc' & Hno & _).
  split; [by apply Hc|]. split.
  - specialize (Ha 1%nat {| tk_coord := g0; tk_accepting := true |} Hs eq_refl ltac:(done) ltac:(done)).
    destruct (handle_command _ _ _) as [g r]. destruct Ha as [Ha _]. eauto.
  - rewrite Hno; [done|]. intros [t Ht%Hc']. by vm_compute in Ht.
Defined.
End ControlSocketDemo.
