(* ===== verification/Services.v ===== *)
(** * Service binaries

    cmd/slot-setter: the tool that writes a slot; cmd/dnsd-bin: the DNS daemon, from its
    arguments to its end; the start of cmd/edgehub-bin around [EdgeStart]; and the accept loops of the TCP listeners, of the hub
    (crates/edgehub/src/ssh_server.rs, [run]), of the edge's router
    (cmd/edgehub-bin/src/main.rs, [serve_https_router]) and of DNS over TLS
    (crates/dnsd/src/lib.rs, [dot::serve]), which hand each connection to a modelled
    handler.  The argument parser and the telemetry are outcomes; the daemon is built
    without the [dot] feature, which only adds an unused certificate. *)

From S2P Require Import Prelude Redis Serde Models Errors Net Float Metrics RedisCache Storage DnsHandler Auth RateLimit CA Config Ddos Dnssec DnsServer SshHub EdgeRouter CliKeys EdgeStart.
From S2P Require Import Shutdown ControlSocket.

(** ** slot-setter *)

Record SlotArgs := { sa_slot : string; sa_slot_ip : Ipv4Addr; sa_ttl : Z; sa_redis : string }.

Definition DEFAULT_SLOT_TTL : Z := 1800.
Definition DEFAULT_SLOT_REDIS : string := "redis://127.0.0.1:6379".

(** [new_pool] of an address succeeds or not. *)
Definition slot_setter_run `{RedisServer R} (new_pool : string → result string ()) (now : Z)
    (args : SlotArgs) (r : R) : R * result string () :=
  match new_pool (sa_redis args) with
  | Err e => (r, Err e)
  | Ok _ =>
      let '(r, res) := set_slot now (sa_slot args) (sa_slot_ip args) (sa_ttl args) r in
      (r, match res with Ok _ => Ok () | Err e => Err (FE.to_string e) end)
  end.

(** The data after a run. *)
Lemma slot_setter_data `{RedisSpec R} new_pool now args (r r1 : R) :
  slot_setter_run new_pool now args r = (r1, Ok ()) →
  live now r1 = put_ex now (sa_slot args) (ipv4_to_string (sa_slot_ip args)) (sa_ttl args) (live now r).
Proof.
  unfold slot_setter_run. destruct (new_pool _); [|done].
  destruct (set_slot _ _ _ _ r) as [r' [[]|e]] eqn:E; [|done]. intros [= <-].
  unfold set_slot, pool_get, query in E.
  apply io_bind_ok in E as (r0 & [] & Hc%io_map_err_ok & E%io_map_err_ok).
  apply connect_spec with (now := now) in Hc.
  by rewrite (proj1 (set_ex_writes now _ _ _) _ _ _ E), Hc.
Qed.

(** The record of a name after a run of the tool. *)
Lemma slot_setter_record `{RedisSpec R} new_pool now now' args (r r1 : R) key :
  slot_setter_run new_pool now args r = (r1, Ok ()) → now ≤ now' →
  live now' r1 !! key =
    if decide (key = sa_slot args) then
      if now' <? now + secs (sa_ttl args)
      then Some (REntry (RString (ipv4_to_string (sa_slot_ip args))) (Some (now + secs (sa_ttl args))))
      else None
    else live now' r !! key.
Proof.
  intros E%slot_setter_data Hle. case_decide as Hk.
  - subst. assert (live now r1 !! sa_slot args = Some (REntry (RString (ipv4_to_string (sa_slot_ip args)))
      (Some (now + secs (sa_ttl args))))) as Hl by (rewrite E; apply lookup_insert_eq).
    by apply (live_later now now') in Hl; [|done].
  - apply (live_same_later now); [done|]. rewrite E. unfold put_ex. by rewrite lookup_insert_ne by done.
Qed.

(** The slot tool and the resolver.  After a successful run, a query is answered
    with the address it was given, until the time to live is over, when the argument is
    the record key of the name, [slot:] followed by the name; for every argument that
    does not begin with [slot:], as in the documentation's example, the answer to every
    query stays what it was. *)
Lemma slot_setter_answer `{RedisSpec R, !RedisAvailable R} `{Hickory} new_pool now now' args (r r1 : R)
    packet message q qs
    (Hrun : slot_setter_run new_pool now args r = (r1, Ok ())) (Hle : now ≤ now')
    (Hip : ipv4_ok (sa_slot_ip args)) (Htot : ∀ m, is_Some (to_vec m))
    (Hm : from_vec packet = Some message) (Hty : msg_type message = Query)
    (Hq : queries message = q :: qs) (Hname : name_to_string (q_name q) ≠ "")
    (Hkey : get_reply (live now' r !!
              dns_slot_key (trim_end_matches "." (name_to_string (q_name q)))) ≠ None) :
  let key := dns_slot_key (trim_end_matches "." (name_to_string (q_name q))) in
  let response := from_vec (process_dns_query now' packet r1).2 in
  (sa_slot args = key → q_type q = TypeA → ∃ m, response = Some m ∧ msg_id m = msg_id message
     ∧ if now' <? now + secs (sa_ttl args)
       then response_code m = NoError
            ∧ answers m = [{| rec_name := q_name q; rec_ttl := 300; rec_data := RDataA (sa_slot_ip args) |}]
       else response_code m = NXDomain ∧ answers m = [])
  ∧ (starts_with "slot:" (sa_slot args) = false →
     response = from_vec (process_dns_query now' packet r).2).
Proof.
  cbv zeta. set (key := dns_slot_key _) in *.
  pose proof (slot_setter_record new_pool now now' args r r1 key Hrun Hle) as Hl.
  assert (sa_slot args = key ∨ live now' r1 !! key = live now' r !! key) as Hor.
  { rewrite Hl. case_decide; auto. }
  assert (get_reply (live now' r1 !! key) ≠ None) as Hkey'.
  { rewrite Hl. case_decide; [|done]. by case_match. }
  rewrite (dns_answer_correct now' packet message q qs r1) by done. fold key. split.
  - intros E Hta. eexists. split; [done|]. unfold str_at. rewrite Hl, decide_True by done.
    unfold answer_message. destruct (_ <? _); [|done]. by rewrite Hta, ipv4_roundtrip.
  - intros Hs. destruct Hor as [E|E]; [by rewrite E in Hs|].
    rewrite (dns_answer_correct now' packet message q qs r) by done. fold key.
    unfold str_at. by rewrite E.
Qed.

(** ** dnsd-bin *)

Record DnsdArgs := { da_addr : SocketAddr; da_control_socket : option string; da_shutdown_timeout : Z }.
Definition default_dnsd_args : DnsdArgs :=
  {| da_addr := {| sa_ip := V4 (Ipv4 0 0 0 0); sa_port := 6353 |};
     da_control_socket := None; da_shutdown_timeout := 30 |}.

(** The coordinator of a daemon, from its arguments. *)
Definition coordinator_of (now : Z) (env : Env) (component : string) (control_socket : option string)
    (shutdown_timeout : Z) : GracefulShutdown :=
  match control_socket with
  | Some path =>
      let d := default_shutdown_config env in
      with_config now
        {| control_socket_path := path; graceful_timeout := secs shutdown_timeout;
           immediate_timeout := immediate_timeout d; force_timeout := force_timeout d;
           component_name := component |}
  | None => GracefulShutdown_new now env component
  end.
Definition dnsd_coordinator (now : Z) (env : Env) (args : DnsdArgs) : GracefulShutdown :=
  coordinator_of now env "dnsd" (da_control_socket args) (da_shutdown_timeout args).

Definition dnsd_config (args : DnsdArgs) : DnsServerConfig :=
  {| ds_addr := da_addr args; ds_ddos_config := default_ddos_config; ds_enable_ddos_protection := true;
     ds_dnssec_config := default_dnssec_config; ds_performance_config := default_performance |}.

(** How the start goes. *)
Record DnsdOutcomes := {
  do_telemetry : result string ();
  do_handlers : bool;
  do_socket : StartOutcome;
  do_pool : string → result string ();
  do_unlinked : bool;
}.

Definition dnsd_redis_url (env : Env) : string := default "redis://127.0.0.1:6379" (env_var env "REDIS_URL").

(** The coordinator is started and the rest of the start follows: the control task
    and what was built, or the error, after the coordinator has been dropped. *)
Definition coordinated {A} (handlers : bool) (socket : StartOutcome) (unlinked : bool)
    (g : GracefulShutdown) (rest : result string A) (m : Machine) : Machine * result string (nat * A) :=
  let path := control_socket_path (config g) in
  match start handlers socket g m with
  | (m, Err e) => (drop_coordinator unlinked path None m, Err e)
  | (m, Ok t) =>
      match rest with
      | Err e => (drop_coordinator unlinked path (Some t) m, Err e)
      | Ok a => (m, Ok (t, a))
      end
  end.

(** [main] up to the call of the server. *)
Definition dnsd_start (now : Z) (env : Env) (args : DnsdArgs) (o : DnsdOutcomes) (m : Machine)
    : Machine * result string (nat * ()) :=
  match do_telemetry o with
  | Err e => (m, Err ("Failed to initialize telemetry: " +:+ e))
  | Ok _ => coordinated (do_handlers o) (do_socket o) (do_unlinked o) (dnsd_coordinator now env args)
              (do_pool o (dnsd_redis_url env)) m
  end.

(** The edge: its coordinator, and [run] up to serving with the outcome of [edge_run]. *)
Definition edge_coordinator (now : Z) (env : Env) (args : EdgeArgs) : GracefulShutdown :=
  coordinator_of now env "edgehub" (ea_control_socket args) (ea_shutdown_timeout args).
Definition edge_start {A} (now : Z) (env : Env) (args : EdgeArgs) (handlers : bool) (socket : StartOutcome)
    (unlinked : bool) (built : result string A) (m : Machine) : Machine * result string (nat * A) :=
  coordinated handlers socket unlinked (edge_coordinator now env args) built m.

(** [main] after the server has returned: the clone given to the server is dropped, the
    daemon waits and is dropped.  The machine while it waits, the wait, and the machine
    afterwards. *)
Definition dnsd_finish (unlinked : bool) (active : Z → Z) (now : Z) (t : nat) (g : GracefulShutdown) (m : Machine)
    : Machine * (Z * bool) * Machine :=
  let path := control_socket_path (config g) in
  let waiting := drop_coordinator unlinked path None m in
  let '(at_, drained, _) := wait_for_shutdown active now g in
  (waiting, (at_, drained), drop_coordinator unlinked path (Some t) waiting).

(** A start that succeeds leaves the daemon reachable; one that fails leaves no file it
    could remove, and the task it started stopped. *)
Lemma coordinated_spec {A} handlers socket unlinked g (rest : result string A) m m' res :
  machine_ok m → coordinated handlers socket unlinked g rest m = (m', res) →
  let path := control_socket_path (config g) in
  match res with
  | Ok (t, a) => rest = Ok a ∧ connect path m' = Some t
  | Err _ => unlinked = false ∨ connect path m' = None
  end.
Proof.
  intros Hok. unfold coordinated. set (path := control_socket_path (config g)).
  pose proof (connect_started handlers socket g m path) as Hcs.
  assert (∀ m0 h, unlinked = true → connect path (drop_coordinator unlinked path h m0) = None) as Hd.
  { intros m0 h ->. apply eq_None_not_Some. intros [t Ht]. unfold drop_coordinator in Ht.
    destruct h; [apply connect_stop in Ht as [Ht _]|]; by apply connect_unlink in Ht as [_ ?]. }
  destruct (start _ _ g m) as [m1 [t|e]] eqn:E; cbn [fst snd] in Hcs.
  - destruct rest as [a|e]; intros [= <- <-].
    + split; [done|]. apply Hcs; [done|]. right. split; [|done]. unfold start in E. by destruct handlers.
    + destruct unlinked; [right; exact (Hd m1 (Some t) eq_refl)|by left].
  - intros [= <- <-]. destruct unlinked; [right; exact (Hd m1 None eq_refl)|by left].
Qed.

Lemma dnsd_start_spec now env args o m m' res :
  machine_ok m → dnsd_start now env args o m = (m', res) →
  let path := control_socket_path (config (dnsd_coordinator now env args)) in
  match res with
  | Ok (t, _) => connect path m' = Some t
  | Err _ => m' = m ∨ do_unlinked o = false ∨ connect path m' = None
  end.
Proof.
  intros Hok. unfold dnsd_start. destruct (do_telemetry o) as [[]|e]; [|intros [= <- <-]; by left].
  intros Hc%coordinated_spec; [|done]. destruct res as [[t []]|e]; [by destruct Hc|by right].
Qed.

Lemma edge_start_spec {A} now env args handlers socket unlinked (built : result string A) m m' res :
  machine_ok m → edge_start now env args handlers socket unlinked built m = (m', res) →
  let path := control_socket_path (config (edge_coordinator now env args)) in
  match res with
  | Ok (t, a) => built = Ok a ∧ connect path m' = Some t
  | Err _ => unlinked = false ∨ connect path m' = None
  end.
Proof. by intros ? ?%coordinated_spec. Qed.

(** The end of the daemon: while it waits, the control client is refused, though the
    task still accepts; the wait is over within the force timeout, whatever was asked
    for; at the end the task is stopped. *)
Lemma dnsd_finish_spec `{Codec} active now0 now t cfg evs m tk (Hf : 0 ≤ force_timeout cfg)
    (Ht : tasks m !! t = Some tk) :
  let g := daemon_run (with_config now0 cfg) evs in
  let '(waiting, (at_, drained), after) := dnsd_finish true active now t g m in
  connect (control_socket_path cfg) waiting = None ∧ tasks waiting !! t = Some tk
  ∧ now ≤ at_ ≤ now + force_timeout cfg
  ∧ tasks after !! t = Some (stop_task tk).
Proof.
  cbv zeta. unfold dnsd_finish.
  destruct (daemon_run_state (with_config now0 cfg) evs) as [_ Hc]. cbn in Hc. rewrite Hc.
  destruct (external_shutdown_forced cfg now0 now evs active Hf) as [_ Hw].
  destruct (wait_for_shutdown active now _) as [[at_ drained] g']. unfold drop_coordinator.
  split_and!; [|done|lia|lia|].
  - unfold connect. cbn. by rewrite lookup_delete_eq.
  - cbn. by rewrite lookup_alter_eq, Ht.
Qed.

(** ** Accept loops *)

Inductive AcceptEvent (C : Type) :=
  | Accepted (c : C)
  | AcceptError (e : string)
  | StopSignalled.
Arguments Accepted {C} c.
Arguments AcceptError {C} e.
Arguments StopSignalled {C}.

(** The loops with a stop signal: an error is logged, a signal or a closed channel ends
    the loop.  The connections handed over, and whether the loop has ended. *)
Fixpoint accept_loop {C} (events : list (AcceptEvent C)) : list C * bool :=
  match events with
  | [] => ([], false)
  | Accepted c :: events => let '(cs, ended) := accept_loop events in (c :: cs, ended)
  | AcceptError _ :: events => accept_loop events
  | StopSignalled :: _ => ([], true)
  end.

(** [SshServer::run]: a session for every connection. *)
Definition SshServer_run (bind_ok : bool) (events : list (AcceptEvent SocketAddr))
    : result string (list Session * bool) :=
  if bind_ok then let '(cs, ended) := accept_loop events in Ok (new_session <$> cs, ended)
  else Err "Failed to bind SSH server".

(** [serve_https_router]. *)
Definition serve_https_router (bind_ok : bool) (events : list (AcceptEvent Conn))
    : result string (list Conn * bool) :=
  if bind_ok then Ok (accept_loop events) else Err "bind".

(** [dot::serve] has no stop signal, and an error ends it.  The connections handed
    over, and the error; a connection is its input when the handshake succeeded. *)
Fixpoint dot_accept (events : list (AcceptEvent (option string))) : list string * option string :=
  match events with
  | [] => ([], None)
  | Accepted c :: events =>
      let '(cs, e) := dot_accept events in (option_list c ++ cs, e)
  | AcceptError e :: _ => ([], Some e)
  | StopSignalled :: events => dot_accept events
  end.

Definition connections {C} (events : list (AcceptEvent C)) : list C :=
  omap (λ e, match e with Accepted c => Some c | _ => None end) events.
Definition is_stop {C} (e : AcceptEvent C) : bool := match e with StopSignalled => true | _ => false end.
Definition is_accept_error {C} (e : AcceptEvent C) : bool := match e with AcceptError _ => true | _ => false end.

(** Every connection before the signal gets its handler, whatever fails in between. *)
Lemma accept_loop_all {C} (before after : list (AcceptEvent C)) :
  forallb (λ e, negb (is_stop e)) before = true →
  accept_loop (before ++ StopSignalled :: after) = (connections before, true)
  ∧ accept_loop before = (connections before, false).
Proof.
  unfold connections. induction before as [|[c|e|] before IH]; cbn; [done| | |done].
  - intros [-> ->]%IH. done.
  - intros [-> ->]%IH. done.
Qed.

(** DNS over TLS stops serving at the first error of [accept]. *)
Lemma dot_accept_stops before e after :
  forallb (λ e, negb (is_accept_error e)) before = true →
  dot_accept (before ++ AcceptError e :: after) = (omap id (connections before), Some e).
Proof.
  unfold connections. induction before as [|[[c|]|e'|] before IH]; cbn; [done|..|done|]; intros ->%IH; done.
Qed.

(** ** Examples *)
Module ServicesDemo.
Import MemRedis BitCodec DnsDemo.

Definition slot_args (slot : string) : SlotArgs :=
  {| sa_slot := slot; sa_slot_ip := Ipv4 1 2 3 4; sa_ttl := 600; sa_redis := DEFAULT_SLOT_REDIS |}.
Definition set (slot : string) : mem := (slot_setter_run (λ _, Ok ()) 0 (slot_args slot) redis).1.
Definition reply (now : Z) (r : mem) := from_vec (Hickory := demo_hickory) (process_dns_query now packet r).2.

Lemma slot_setter_answer_witness :
  (∃ m, reply (secs 5) (set "slot:app.fdns.run") = Some m ∧ response_code m = NoError)
  ∧ reply (secs 5) (set "demo") = reply (secs 5) redis.
Proof.
  split.
  - destruct (slot_setter_answer (λ _, Ok ()) 0 (secs 5) (slot_args "slot:app.fdns.run") redis
      (set "slot:app.fdns.run") packet message query []) as [Ha _].
    + eval_eq.
    + unfold secs. lia.
    + by vm_compute.
    + intros m. apply to_vec_total.
    + eval_eq.
    + done.
    + done.
    + done.
    + by vm_compute.
    + destruct (Ha eq_refl eq_refl) as (m & Hm & _ & Hc). exists m. split; [exact Hm|].
      assert ((secs 5 <? 0 + secs (sa_ttl (slot_args "slot:app.fdns.run"))) = true) as Ht by (by vm_compute).
      rewrite Ht in Hc. exact (proj1 Hc).
  - destruct (slot_setter_answer (λ _, Ok ()) 0 (secs 5) (slot_args "demo") redis (set "demo") packet message
      query []) as [_ Hn].
    + eval_eq.
    + unfold secs. lia.
    + by vm_compute.
    + intros m. apply to_vec_total.
    + eval_eq.
    + done.
    + done.
    + done.
    + by vm_compute.
    + by apply Hn.
Defined.
End ServicesDemo.
