(* ===== verification/TestService.v ===== *)
(** * The test service and its client

    crates/test-service: a small HTTP service behind a tunnel, with a login that issues
    session tokens (src/main.rs), and the client that checks it (src/bin/test_client.rs).
    Tokens and session numbers are random UUIDs, given as arguments.  The permissive
    CORS layer and the texts printed by the client are left out. *)

From S2P Require Import Prelude Redis Serde Models Errors Net Float Auth RateLimit CA Config.

Module TestService.

(** ** Data *)

Record LoginRequest := { username : string; password : string }.
Record LoginResponse := { access_token : string; token_type : string; expires_in : Z }.
Record HealthResponse := { h_status : string; h_timestamp : Z; h_service : string }.
Record StatusResponse :=
  { st_status : string; active_sessions : Z; st_timestamp : Z; st_service : string }.
Record HelloResponse := {
  hl_message : string; hl_authenticated : bool; hl_session_id : option string;
  hl_timestamp : Z; hl_service : string;
}.
Record PublicResponse :=
  { p_message : string; p_authenticated : bool; p_timestamp : Z; p_service : string }.
Record LogoutResponse := { lo_message : string }.

Record SessionData := {
  sd_username : string;
  sd_session_id : string;
  sd_authenticated_at : Z;
  sd_expires_at : Z;
}.
Abbreviation Sessions := (gmap string SessionData).

Definition SERVICE : string := "fleetingdns-test-service".
Definition UNAUTHORIZED : Z := 401.
Definition HOUR : Z := secs 3600.

(** ** Handlers *)

Definition extract_token (headers : HeaderMap) : result Z string :=
  auth_header ← ok_or (v ← headers !! "authorization"; hv_to_str v) UNAUTHORIZED;
  ok_or (strip_prefix "Bearer " auth_header) UNAUTHORIZED.

Definition health_check (now : Z) : HealthResponse :=
  {| h_status := "healthy"; h_timestamp := now; h_service := SERVICE |}.
Definition public_endpoint (now : Z) : PublicResponse :=
  {| p_message := "This is a public endpoint"; p_authenticated := false; p_timestamp := now;
     p_service := SERVICE |}.
Definition api_test (now : Z) : HelloResponse :=
  {| hl_message := "Hello from FleetingDNS Test Service!"; hl_authenticated := false;
     hl_session_id := None; hl_timestamp := now; hl_service := SERVICE |}.
Definition status_endpoint (now : Z) (ss : Sessions) : StatusResponse :=
  {| st_status := "running"; active_sessions := Z.of_nat (size ss); st_timestamp := now;
     st_service := SERVICE |}.

Definition credentials_ok (p : LoginRequest) : bool :=
  (username p =?s "testuser") && (password p =?s "testpass").

Definition login (now : Z) (token session_id : string) (payload : LoginRequest) (ss : Sessions)
    : Sessions * result Z LoginResponse :=
  if credentials_ok payload then
    (<[token := {| sd_username := username payload; sd_session_id := session_id;
                   sd_authenticated_at := now; sd_expires_at := now + HOUR |}]> ss,
     Ok {| access_token := token; token_type := "bearer"; expires_in := 3600 |})
  else (ss, Err UNAUTHORIZED).

Definition logout (headers : HeaderMap) (ss : Sessions) : Sessions * result Z LogoutResponse :=
  match extract_token headers with
  | Err e => (ss, Err e)
  | Ok token => (delete token ss, Ok {| lo_message := "Logged out successfully" |})
  end.

Definition hello_authenticated (now : Z) (headers : HeaderMap) (ss : Sessions) : result Z HelloResponse :=
  token ← extract_token headers;
  session ← ok_or (ss !! token) UNAUTHORIZED;
  if sd_expires_at session <? now then Err UNAUTHORIZED
  else Ok {| hl_message := "Hello, " +:+ sd_username session +:+ "!"; hl_authenticated := true;
             hl_session_id := Some (sd_session_id session); hl_timestamp := now; hl_service := SERVICE |}.

(** ** The router *)

(** axum's test for a JSON content type. *)
Class AxumJson := {
  json_mime : string → bool;
  json_mime_plain : json_mime "application/json" = true;
}.

Section http.
Context `{Codec} `{AxumJson}.

Record HttpRequest := { q_method : string; q_path : string; q_headers : HeaderMap; q_body : string }.
Record HttpResponse := { a_status : Z; a_body : string }.

Definition ser_opt_str (o : option string) : json := match o with Some s => JStr s | None => JNull end.
Definition ser_HealthResponse (r : HealthResponse) : json :=
  JObj [("status", JStr (h_status r)); ("timestamp", JStr (dt_to_string (h_timestamp r)));
        ("service", JStr (h_service r))].
Definition ser_StatusResponse (r : StatusResponse) : json :=
  JObj [("status", JStr (st_status r)); ("active_sessions", JNum (active_sessions r));
        ("timestamp", JStr (dt_to_string (st_timestamp r))); ("service", JStr (st_service r))].
Definition ser_HelloResponse (r : HelloResponse) : json :=
  JObj [("message", JStr (hl_message r)); ("authenticated", JBool (hl_authenticated r));
        ("session_id", ser_opt_str (hl_session_id r));
        ("timestamp", JStr (dt_to_string (hl_timestamp r))); ("service", JStr (hl_service r))].
Definition ser_PublicResponse (r : PublicResponse) : json :=
  JObj [("message", JStr (p_message r)); ("authenticated", JBool (p_authenticated r));
        ("timestamp", JStr (dt_to_string (p_timestamp r))); ("service", JStr (p_service r))].
Definition ser_LoginResponse (r : LoginResponse) : json :=
  JObj [("access_token", JStr (access_token r)); ("token_type", JStr (token_type r));
        ("expires_in", JNum (expires_in r))].
Definition ser_LogoutResponse (r : LogoutResponse) : json := JObj [("message", JStr (lo_message r))].

Definition login_fields : list string := ["username"; "password"].
Definition de_LoginRequest (j : json) : option LoginRequest :=
  fs ← fields_of login_fields j;
  match fs with
  | [u; p] => u ← de_string u; p ← de_string p; Some {| username := u; password := p |}
  | _ => None
  end.

Definition respond (j : json) : HttpResponse := {| a_status := 200; a_body := json_to_string j |}.
Definition refuse (status : Z) : HttpResponse := {| a_status := status; a_body := "" |}.
Definition of_result {A} (ser : A → json) (r : result Z A) : HttpResponse :=
  match r with Ok a => respond (ser a) | Err status => refuse status end.

(** axum's [Json]: the content type, the syntax, the fields. *)
Definition json_body (q : HttpRequest) : result Z LoginRequest :=
  if match q_headers q !! "content-type" with
     | Some v => default false (json_mime <$> hv_to_str v)
     | None => false
     end
  then j ← ok_or (json_from_str (q_body q)) 400; ok_or (de_LoginRequest j) 422
  else Err 415.

Definition ROUTES : list (string * string) :=
  [("/", "GET"); ("/public", "GET"); ("/status", "GET"); ("/api/test", "GET"); ("/login", "POST");
   ("/logout", "POST"); ("/hello", "GET")].

(** A request, with the random numbers a login would draw. *)
Definition serve (now : Z) (ids : string * string) (q : HttpRequest) (ss : Sessions)
    : Sessions * HttpResponse :=
  match list_find (λ r, r.1 = q_path q) ROUTES with
  | None => (ss, refuse 404)
  | Some (i, (_, method)) =>
      if decide (method = q_method q) then
        match i with
        | 0%nat => (ss, respond (ser_HealthResponse (health_check now)))
        | 1%nat => (ss, respond (ser_PublicResponse (public_endpoint now)))
        | 2%nat => (ss, respond (ser_StatusResponse (status_endpoint now ss)))
        | 3%nat => (ss, respond (ser_HelloResponse (api_test now)))
        | 4%nat =>
            match json_body q with
            | Err status => (ss, refuse status)
            | Ok payload =>
                let '(ss, r) := login now ids.1 ids.2 payload ss in (ss, of_result ser_LoginResponse r)
            end
        | 5%nat => let '(ss, r) := logout (q_headers q) ss in (ss, of_result ser_LogoutResponse r)
        | _ => (ss, of_result ser_HelloResponse (hello_authenticated now (q_headers q) ss))
        end
      else (ss, refuse 405)
  end.

(** [main]: the address to listen on. *)
Definition bind_target (env : Env) : string * Z :=
  let parts := str_split ":" (default "0.0.0.0:8001" (env "SERVICE_BIND_ADDRESS")) in
  (default "0.0.0.0" (head parts),
   default 8001 (res_ok (parse_uint 16 (default "8001" (parts !! 1%nat))))).

(** ** Histories *)

Abbreviation Event := (Z * (string * string) * HttpRequest)%type.

Definition service_step (ss : Sessions) (e : Event) : Sessions := (serve e.1.1 e.1.2 e.2 ss).1.
Definition service_run (h : list Event) : Sessions := foldl service_step ∅ h.

(** A login with the right password, and the token a logout gives up. *)
Definition logs_in (q : HttpRequest) : bool :=
  bool_decide (q_path q = "/login" ∧ q_method q = "POST")
  && match json_body q with Ok p => credentials_ok p | Err _ => false end.
Definition logs_out (q : HttpRequest) : option string :=
  if decide (q_path q = "/logout" ∧ q_method q = "POST") then res_ok (extract_token (q_headers q)) else None.

Definition issued (e : Event) : SessionData :=
  {| sd_username := "testuser"; sd_session_id := e.1.2.2; sd_authenticated_at := e.1.1;
     sd_expires_at := e.1.1 + HOUR |}.

Lemma service_step_spec ss e :
  service_step ss e =
    if logs_in e.2 then <[e.1.2.1 := issued e]> ss
    else match logs_out e.2 with Some token => delete token ss | None => ss end.
Proof.
  destruct e as [[now [tok sid]] q]. unfold service_step, serve, logs_in, logs_out. cbn [fst snd].
  destruct (decide (q_path q = "/login")) as [Hp|Hl].
  { rewrite Hp. change (list_find _ ROUTES) with (Some (4%nat, ("/login", "POST"))). cbv iota beta.
    destruct (decide ("POST" = q_method q)) as [<-|Hm].
    - rewrite bool_decide_eq_true_2, decide_False by naive_solver. cbn [andb].
      destruct (json_body q) as [pl|e]; [|done]. unfold login. destruct (credentials_ok pl) eqn:E; [|done].
      cbn. unfold issued. unfold credentials_ok in E.
      apply andb_true_iff in E as [->%String.eqb_eq _]. done.
    - rewrite bool_decide_eq_false_2, decide_False by naive_solver. done. }
  destruct (decide (q_path q = "/logout")) as [Hp|Ho].
  { rewrite Hp. change (list_find _ ROUTES) with (Some (5%nat, ("/logout", "POST"))). cbv iota beta.
    rewrite bool_decide_eq_false_2 by naive_solver. cbn [andb].
    destruct (decide ("POST" = q_method q)) as [<-|Hm].
    - rewrite decide_True by done. unfold logout. by destruct (extract_token (q_headers q)).
    - rewrite decide_False by naive_solver. done. }
  rewrite bool_decide_eq_false_2, decide_False by naive_solver. cbn [andb].
  destruct (list_find _ ROUTES) as [[i [r m]]|] eqn:E; [|done].
  apply list_find_Some in E as (Hi & Hr & _). cbn in Hr. subst r. case_decide; [|done].
  do 7 (destruct i as [|i]; [by simplify_eq/=|]). by destruct i.
Qed.

(** An event that leaves a token alone. *)
Definition leaves_token (token : string) (e : Event) : Prop :=
  if logs_in e.2 then e.1.2.1 ≠ token else logs_out e.2 ≠ Some token.

(** The session of a token is the last login's that drew it, unless it was given up. *)
Lemma session_iff h token sd :
  service_run h !! token = Some sd ↔
  ∃ h1 e h2, h = h1 ++ e :: h2 ∧ (logs_in e.2 = true ∧ e.1.2.1 = token ∧ issued e = sd)
    ∧ Forall (leaves_token token) h2.
Proof.
  unfold service_run.
  rewrite (foldl_last_made service_step (λ _, True) (λ ss sd, ss !! token = Some sd)
    (λ e _, leaves_token token e) (λ _ e sd, logs_in e.2 = true ∧ e.1.2.1 = token ∧ issued e = sd)); try done.
  intros ss e sd' _. rewrite service_step_spec. unfold leaves_token. destruct (logs_in e.2).
  - rewrite lookup_insert_Some. naive_solver.
  - destruct (logs_out e.2) as [t|]; [rewrite lookup_delete_Some|]; naive_solver congruence.
Qed.

Definition hello_request (token : string) : HttpRequest :=
  {| q_method := "GET"; q_path := "/hello";
     q_headers := {[ "authorization" := {| hv_to_str := Some ("Bearer " +:+ token) |} ]}; q_body := "" |}.

Lemma hello_serve now ids token ss :
  serve now ids (hello_request token) ss =
    (ss, match ss !! token with
         | Some sd => if sd_expires_at sd <? now then refuse UNAUTHORIZED
                      else respond (ser_HelloResponse
                        {| hl_message := "Hello, " +:+ sd_username sd +:+ "!"; hl_authenticated := true;
                           hl_session_id := Some (sd_session_id sd); hl_timestamp := now; hl_service := SERVICE |})
         | None => refuse UNAUTHORIZED
         end).
Proof.
  unfold serve. change (list_find _ ROUTES) with (Some (6%nat, ("/hello", "GET"))). cbv iota beta.
  rewrite decide_True by done. unfold hello_authenticated.
  assert (extract_token (q_headers (hello_request token)) = Ok token) as -> by reflexivity.
  cbn -[ser_HelloResponse]. destruct (ss !! token) as [sd|]; [|done].
  cbn -[ser_HelloResponse]. by destruct (_ <? _).
Qed.

(** ** The client *)

Section client.
Context {W : Type} (send : HttpRequest → io W string HttpResponse).

Definition is_success (status : Z) : bool := (200 <=? status) && (status <? 300).
Definition bearer (token : string) : HeaderMap := {[ "authorization" := {| hv_to_str := Some ("Bearer " +:+ token) |} ]}.
Definition plain (method path : string) (headers : HeaderMap) : HttpRequest :=
  {| q_method := method; q_path := path; q_headers := headers; q_body := "" |}.

(** The common shape of the checks: the status and a body that is JSON. *)
Definition check (q : HttpRequest) : io W string bool :=
  resp ← send q;
  if is_success (a_status resp) then
    _ ← io_lift (ok_or (json_from_str (a_body resp)) "json"); mret true
  else mret false.

Definition test_health_endpoint : io W string bool := check (plain "GET" "/" ∅).
Definition test_public_endpoint : io W string bool := check (plain "GET" "/public" ∅).
Definition test_status_endpoint : io W string bool := check (plain "GET" "/status" ∅).
Definition test_authenticated_hello (token : string) : io W string bool :=
  check (plain "GET" "/hello" (bearer token)).
Definition test_logout (token : string) : io W string bool := check (plain "POST" "/logout" (bearer token)).

(** [data[name].as_str().unwrap_or("")]: the last member of that name. *)
Definition str_member (name : string) (j : json) : string :=
  match j with
  | JObj m => match list_find (λ kv, kv.1 = name) (reverse m) with
              | Some (_, (_, JStr s)) => s
              | _ => ""
              end
  | _ => ""
  end.

Definition login_data : json := JObj [("username", JStr "testuser"); ("password", JStr "testpass")].
Definition test_login : io W string (bool * string) :=
  resp ← send {| q_method := "POST"; q_path := "/login";
                 q_headers := {[ "content-type" := {| hv_to_str := Some "application/json" |} ]};
                 q_body := json_to_string login_data |};
  if is_success (a_status resp) then
    data ← io_lift (ok_or (json_from_str (a_body resp)) "json");
    mret (true, str_member "access_token" data)
  else mret (false, "").

Definition passed (b : bool) : Z := if b then 1 else 0.

Definition client_main : io W string () :=
  b1 ← test_health_endpoint;
  b2 ← test_public_endpoint;
  b3 ← test_status_endpoint;
  '(b4, token) ← test_login;
  b5 ← (if (b4 : bool) then test_authenticated_hello token else mret false);
  b6 ← (if (b4 : bool) then test_logout token else mret false);
  if passed b1 + passed b2 + passed b3 + passed b4 + passed b5 + passed b6 =? 6 then mret ()
  else io_fail "Some tests failed".
End client.

(** The service at the other end; request [k] is served at [clock k] with the numbers
    [ids k]. *)
Definition to_service (clock : nat → Z) (ids : nat → string * string) (q : HttpRequest)
    : io (nat * Sessions) string HttpResponse := λ '(k, ss),
  let '(ss, a) := serve (clock k) (ids k) q ss in ((S k, ss), Ok a).
End http.
End TestService.

Import TestService.
Section client_run.
Context `{Codec} `{AxumJson} (clock : nat → Z) (ids : nat → string * string).

(** A check succeeds on a successful answer with a document. *)
Lemma check_ok q k ss ss' j :
  serve (clock k) (ids k) q ss = (ss', respond j) → json_wf j = true →
  check (to_service clock ids) q (k, ss) = ((S k, ss'), Ok true).
Proof.
  intros E Hj. unfold check, mbind, io_bind, to_service. rewrite E. cbn.
  by rewrite json_roundtrip.
Qed.

Lemma test_login_ok k ss :
  test_login (to_service clock ids) (k, ss) =
  ((S k, <[(ids k).1 := {| sd_username := "testuser"; sd_session_id := (ids k).2;
             sd_authenticated_at := clock k; sd_expires_at := clock k + HOUR |}]> ss),
   Ok (true, (ids k).1)).
Proof.
  unfold test_login, mbind, io_bind, to_service.
  set (q := {| q_method := "POST"; q_path := "/login" |}).
  assert (json_body q = Ok {| username := "testuser"; password := "testpass" |}) as Hq.
  { unfold json_body.
    assert (q_headers q !! "content-type" = Some {| hv_to_str := Some "application/json" |}) as -> by reflexivity.
    cbn [hv_to_str fmap option_fmap option_map default from_option].
    rewrite json_mime_plain. cbn [q_body q]. by rewrite json_roundtrip. }
  unfold serve. change (list_find _ ROUTES) with (Some (4%nat, ("/login", "POST"))). cbv iota beta.
  rewrite decide_True by done. rewrite Hq. unfold login. cbn [credentials_ok username password].
  cbn -[json_to_string json_from_str ser_LoginResponse]. by rewrite json_roundtrip.
Qed.
End client_run.

(** The client's checks all pass against the service, whatever the state it finds and
    however long they take, if the greeting comes within an hour of the login; they
    leave no session behind. *)
Lemma test_client_passes `{Codec} `{AxumJson} clock ids ss
    (Hhour : clock 4%nat ≤ clock 3%nat + HOUR) (Hsize : Z.of_nat (size ss) < 2 ^ 64) :
  client_main (to_service clock ids) (0%nat, ss) = ((6%nat, delete (ids 3%nat).1 ss), Ok ()).
Proof.
  unfold client_main.
  assert (serve (clock 0%nat) (ids 0%nat) (plain "GET" "/" ∅) ss
    = (ss, respond (ser_HealthResponse (health_check (clock 0%nat))))) as E0 by reflexivity.
  assert (serve (clock 1%nat) (ids 1%nat) (plain "GET" "/public" ∅) ss
    = (ss, respond (ser_PublicResponse (public_endpoint (clock 1%nat))))) as E1 by reflexivity.
  assert (serve (clock 2%nat) (ids 2%nat) (plain "GET" "/status" ∅) ss
    = (ss, respond (ser_StatusResponse (status_endpoint (clock 2%nat) ss)))) as E2 by reflexivity.
  erewrite io_bind_step; [|by apply (check_ok clock ids _ _ _ _ _ E0)].
  erewrite io_bind_step; [|by apply (check_ok clock ids _ _ _ _ _ E1)].
  erewrite io_bind_step; [|apply (check_ok clock ids _ _ _ _ _ E2)].
  2: { cbn. rewrite !andb_true_r. apply andb_true_iff. split; [apply Z.leb_le|apply Z.ltb_lt]; lia. }
  erewrite io_bind_step; [|apply test_login_ok]. cbv iota beta.
  set (ss1 := <[_ := _]> ss).
  pose proof (hello_serve (clock 4%nat) (ids 4%nat) (ids 3%nat).1 ss1) as E4.
  assert (ss1 !! (ids 3%nat).1 = _) as Hl by apply lookup_insert_eq. rewrite Hl in E4.
  cbn [sd_expires_at sd_username sd_session_id] in E4.
  destruct (Z.ltb_spec (clock 3%nat + HOUR) (clock 4%nat)); [lia|].
  erewrite io_bind_step; [|by apply (check_ok clock ids _ _ _ _ _ E4)].
  assert (serve (clock 5%nat) (ids 5%nat) (plain "POST" "/logout" (bearer (ids 3%nat).1)) ss1
    = (delete (ids 3%nat).1 ss1, respond (ser_LogoutResponse {| lo_message := "Logged out successfully" |}))) as E5
    by reflexivity.
  erewrite io_bind_step; [|by apply (check_ok clock ids _ _ _ _ _ E5)].
  assert (delete (ids 3%nat).1 ss1 = delete (ids 3%nat).1 ss) as -> by apply delete_insert_eq. done.
Qed.

(** Sessions of the test service.  After any history of requests, a greeting with a
    token is authenticated exactly when some login with the right password drew that
    token, no later request logged it out (or drew it again), and at most an hour has
    passed since; it then names the user and the session of that login.  Otherwise it
    is refused as unauthorized; in neither case are the sessions changed. *)
Lemma test_sessions_exact `{Codec} `{AxumJson} h now ids token :
  let '(ss, answer) := serve now ids (hello_request token) (service_run h) in
  ss = service_run h
  ∧ (answer = refuse UNAUTHORIZED ∨
     ∃ h1 e h2, h = h1 ++ e :: h2 ∧ logs_in e.2 = true ∧ e.1.2.1 = token
       ∧ Forall (leaves_token token) h2 ∧ now ≤ e.1.1 + HOUR
       ∧ answer = respond (ser_HelloResponse
           {| hl_message := "Hello, testuser!"; hl_authenticated := true; hl_session_id := Some e.1.2.2;
              hl_timestamp := now; hl_service := SERVICE |}))
  ∧ (∀ h1 e h2, h = h1 ++ e :: h2 → logs_in e.2 = true → e.1.2.1 = token →
       Forall (leaves_token token) h2 → now ≤ e.1.1 + HOUR → a_status answer = 200).
Proof.
  rewrite hello_serve. split; [done|]. split.
  - destruct (service_run h !! token) as [sd|] eqn:E; [|by left].
    apply session_iff in E as (h1 & e & h2 & -> & (Hin & Ht & <-) & Hl).
    cbn [sd_expires_at issued]. destruct (Z.ltb_spec (e.1.1 + HOUR) now); [by left|right].
    by exists h1, e, h2.
  - intros h1 e h2 -> Hin Ht Hl Hn.
    assert (service_run (h1 ++ e :: h2) !! token = Some (issued e)) as -> by (apply session_iff; eauto 10).
    cbn [sd_expires_at issued]. by destruct (Z.ltb_spec (e.1.1 + HOUR) now); [lia|].
Qed.

(** A session leaves the table only by a logout: expired sessions stay, and are counted
    as active. *)
Lemma expired_sessions_stay `{Codec} `{AxumJson} h now now' ids ids' token sd :
  service_run h !! token = Some sd → sd_expires_at sd < now →
  (serve now ids (hello_request token) (service_run h)).2 = refuse UNAUTHORIZED
  ∧ service_run (h ++ [(now, ids, hello_request token)]) !! token = Some sd
  ∧ (serve now' ids' (plain "GET" "/status" ∅) (service_run h)).2
    = respond (ser_StatusResponse (status_endpoint now' (service_run h))).
Proof.
  intros Hs Hx. split; [|split; [|done]].
  - rewrite hello_serve. cbn [snd]. rewrite Hs. by destruct (Z.ltb_spec (sd_expires_at sd) now); [|lia].
  - unfold service_run. rewrite foldl_app. cbn [foldl]. unfold service_step. cbn [fst snd].
    by rewrite hello_serve.
Qed.

(** ** Examples *)
Module TestServiceDemo.
Import BitCodec.

#[export] Instance demo_json : AxumJson :=
  {| json_mime s := s =?s "application/json"; json_mime_plain := eq_refl |}.

Definition clock (k : nat) : Z := secs (Z.of_nat k).
Definition ids (k : nat) : string * string := ("t", "s").

Lemma client_run_example :
  client_main (to_service clock ids) (0%nat, ∅) = ((6%nat, ∅), Ok ()).
Proof. apply test_client_passes; by vm_compute. Qed.
End TestServiceDemo.
