(* ===== verification/CertManager.v ===== *)
(** * The certificate manager of DNS over TLS

    crates/common/src/cert_manager.rs, which no crate declares as a module: the
    configuration with its two directories, the stored certificate, the renewal and the
    background task.  The file system is that of [CliKeys], the TLS library that of
    [EdgeStart]; the certificate generator, the X.509 parser, the PEM readers of keys and
    the digest are parameters.  The texts of the libraries' errors are shown as they
    come. *)

From S2P Require Import Prelude Redis Serde Models Errors Net Float RedisCache SshHub EdgeRouter Auth RateLimit CA Config CliKeys EdgeStart.

Module CertManager.

(** ** Configuration *)

Record CertManagerConfig := {
  acme_directory_url : string;
  acme_contact_email : string;
  domains : list string;
  cert_storage_path : string;
  renewal_threshold_days : Z;
  renewal_check_interval : Z;
  enable_certificate_pinning : bool;
  pinned_spki_fingerprints : list string;
  tls_session_timeout : Z;
  enable_session_resumption : bool;
}.

Definition PRODUCTION_URL : string := "https://acme-v02.api.letsencrypt.org/directory".
Definition STAGING_URL : string := "https://acme-staging-v02.api.letsencrypt.org/directory".

Definition set_url (url : string) (c : CertManagerConfig) : CertManagerConfig :=
  {| acme_directory_url := url; acme_contact_email := acme_contact_email c; domains := domains c;
     cert_storage_path := cert_storage_path c; renewal_threshold_days := renewal_threshold_days c;
     renewal_check_interval := renewal_check_interval c;
     enable_certificate_pinning := enable_certificate_pinning c;
     pinned_spki_fingerprints := pinned_spki_fingerprints c;
     tls_session_timeout := tls_session_timeout c;
     enable_session_resumption := enable_session_resumption c |}.

Definition default_cert_config : CertManagerConfig :=
  {| acme_directory_url := STAGING_URL; acme_contact_email := "admin@fleetingdns.run";
     domains := ["fleetingdns.run"]; cert_storage_path := "/etc/fleetingdns/certs";
     renewal_threshold_days := 30; renewal_check_interval := secs 3600;
     enable_certificate_pinning := true; pinned_spki_fingerprints := [];
     tls_session_timeout := secs 86400; enable_session_resumption := true |}.
Definition production : CertManagerConfig := set_url PRODUCTION_URL default_cert_config.
Definition staging : CertManagerConfig := default_cert_config.

(** [str::contains]. *)
Fixpoint str_contains (needle s : string) : bool :=
  starts_with needle s || match s with "" => false | String _ s => str_contains needle s end.

Definition is_production (c : CertManagerConfig) : bool :=
  str_contains "acme-v02.api.letsencrypt.org" (acme_directory_url c).
Definition is_staging (c : CertManagerConfig) : bool :=
  str_contains "acme-staging-v02.api.letsencrypt.org" (acme_directory_url c).
Definition use_production : CertManagerConfig → CertManagerConfig := set_url PRODUCTION_URL.
Definition use_staging : CertManagerConfig → CertManagerConfig := set_url STAGING_URL.

(** ** Certificates *)

Inductive CertificateSource := Acme (directory_url : string) | SelfSigned | Manual (path : string).

Record CertificateInfo := {
  ci_id : string;
  ci_subject : string;
  ci_issuer : string;
  ci_serial_number : string;
  ci_not_before : Z;
  ci_not_after : Z;
  ci_fingerprint : string;
  ci_spki_fingerprint : string;
  ci_domains : list string;
  ci_source : CertificateSource;
  ci_last_renewal_attempt : option Z;
  ci_next_renewal_scheduled : Z;
}.

(** A parsed certificate: the serial number in hexadecimal, the names, the seconds of
    its validity and the raw public key. *)
Record X509 := {
  x_serial : string;
  x_subject : string;
  x_issuer : string;
  x_not_before : Z;
  x_not_after : Z;
  x_spki : string;
}.

Class CertLib := {
  (** [generate_simple_self_signed]: the certificate in PEM and DER, the key in PEM. *)
  self_signed : string → list string → result string (string * string * string);
  x509_from_der : string → result string X509;
  sha256_hex : string → string;
  pkcs8_private_keys : string → result string (list string);
  (** The keys of a PKCS #1 text, as the bytes of [secret_pkcs1_der]. *)
  rsa_private_keys : string → result string (list string);
  (** [DateTime::from_timestamp]. *)
  from_timestamp : Z → option Z;
}.

Section json.
Context `{Codec}.

Definition ser_source (s : CertificateSource) : json :=
  match s with
  | Acme url => JObj [("Acme", JObj [("directory_url", JStr url)])]
  | SelfSigned => JStr "SelfSigned"
  | Manual path => JObj [("Manual", JObj [("path", JStr path)])]
  end.
(** A unit variant may also be written as a member with the value [null]. *)
Definition de_source (o : option json) : option CertificateSource :=
  match o with
  | Some (JStr s) | Some (JObj [(s, JNull)]) => if s =?s "SelfSigned" then Some SelfSigned else None
  | Some (JObj [(tag, v)]) =>
      if tag =?s "Acme" then
        fs ← fields_of ["directory_url"] v;
        match fs with [u] => Acme <$> de_string u | _ => None end
      else if tag =?s "Manual" then
        fs ← fields_of ["path"] v; match fs with [p] => Manual <$> de_string p | _ => None end
      else None
  | _ => None
  end.

Definition info_fields : list string :=
  ["id"; "subject"; "issuer"; "serial_number"; "not_before"; "not_after"; "fingerprint";
   "spki_fingerprint"; "domains"; "source"; "last_renewal_attempt"; "next_renewal_scheduled"].
Definition ser_dt (t : Z) : json := JStr (dt_to_string t).
Definition ser_CertificateInfo (i : CertificateInfo) : json :=
  JObj (zip info_fields
    [JStr (ci_id i); JStr (ci_subject i); JStr (ci_issuer i); JStr (ci_serial_number i);
     ser_dt (ci_not_before i); ser_dt (ci_not_after i); JStr (ci_fingerprint i);
     JStr (ci_spki_fingerprint i); JArr (JStr <$> ci_domains i); ser_source (ci_source i);
     match ci_last_renewal_attempt i with Some t => ser_dt t | None => JNull end;
     ser_dt (ci_next_renewal_scheduled i)]).
Definition de_CertificateInfo (j : json) : option CertificateInfo :=
  fs ← fields_of info_fields j;
  match fs with
  | [id; su; iss; sn; nb; na; fp; sp; ds; so; la; nx] =>
      id ← de_string id; su ← de_string su; iss ← de_string iss; sn ← de_string sn;
      nb ← de_datetime nb; na ← de_datetime na; fp ← de_string fp; sp ← de_string sp;
      ds ← de_strings ds; so ← de_source so; la ← de_option de_datetime la; nx ← de_datetime nx;
      Some {| ci_id := id; ci_subject := su; ci_issuer := iss; ci_serial_number := sn;
              ci_not_before := nb; ci_not_after := na; ci_fingerprint := fp;
              ci_spki_fingerprint := sp; ci_domains := ds; ci_source := so;
              ci_last_renewal_attempt := la; ci_next_renewal_scheduled := nx |}
  | _ => None
  end.

(** The times a file can hold. *)
Definition info_ok (i : CertificateInfo) : Prop :=
  dt_ok (ci_not_before i) ∧ dt_ok (ci_not_after i) ∧ dt_ok (ci_next_renewal_scheduled i)
  ∧ match ci_last_renewal_attempt i with Some t => dt_ok t | None => True end.

Lemma de_ser_source s : de_source (Some (ser_source s)) = Some s.
Proof. by destruct s. Qed.

Lemma de_strings_JStr l : de_strings (Some (JArr (JStr <$> l))) = Some l.
Proof.
  cbn. induction l as [|a l IH]; [done|]. cbn in *. by rewrite IH.
Qed.

Lemma de_ser_CertificateInfo i : info_ok i → de_CertificateInfo (ser_CertificateInfo i) = Some i.
Proof.
  destruct i as [id su iss sn nb na fp sp ds so la nx]. intros (Hb & Ha & Hn & Hl). cbn in Hb, Ha, Hn, Hl.
  unfold de_CertificateInfo, ser_CertificateInfo.
  rewrite fields_of_zip by (done || by apply (bool_decide_unpack _)).
  cbn -[de_source de_strings ser_source]. rewrite !dt_roundtrip by done. cbn -[de_source de_strings ser_source].
  rewrite de_strings_JStr, de_ser_source. cbn. destruct la as [t|]; [|done].
  cbn. unfold de_datetime. cbn. by rewrite dt_roundtrip.
Qed.

Lemma info_json_wf i : json_wf (ser_CertificateInfo i) = true.
Proof.
  assert (∀ l, forallb json_wf (JStr <$> l) = true) as Hl by (induction l; done).
  destruct i as [? ? ? ? ? ? ? ? ds so la ?]. cbn. rewrite Hl. by destruct so, la.
Qed.
End json.

(** ** The manager *)

Section manager.
Context `{Hfs : FileSystem W} `{Htext : CliText} `{Hrustls : Rustls} `{Hlib : CertLib}.

Record CertificateManager := {
  cm_config : CertManagerConfig;
  cm_current : option CertificateInfo;
  cm_server : option ServerConfig;
  cm_cache : gmap string CertificateInfo;
  (** The renewal task has been started. *)
  cm_task : bool;
}.
#[local] Abbreviation app A := (io (W * CertificateManager) string A).

Definition on_fs {A} (c : io W string A) : app A := λ '(w, m),
  let '(w, res) := c w in ((w, m), res).
Definition read_fs (path : string) : app string := on_fs (λ w, (w, read_to_string w path)).
Definition get_config : app CertManagerConfig := λ '(w, m), ((w, m), Ok (cm_config m)).

Definition stored (m : CertManagerConfig) (name : string) : string := path_join (cert_storage_path m) name.
Definition cert_file := "cert.pem".
Definition key_file := "key.pem".
Definition info_file := "cert_info.json".

(** [new]: the storage directory is made. *)
Definition CertificateManager_new (config : CertManagerConfig) : io W string CertificateManager :=
  _ ← create_dir_all (cert_storage_path config);
  mret {| cm_config := config; cm_current := None; cm_server := None; cm_cache := ∅; cm_task := false |}.

Definition calculate_spki_fingerprint (cert_der : string) : result string string :=
  cert ← map_err (λ e, "Failed to parse certificate: " +:+ e) (x509_from_der cert_der);
  Ok (sha256_hex (x_spki cert)).

Definition validate_certificate_pinning (c : CertManagerConfig) (cert_der : string) : result string bool :=
  if enable_certificate_pinning c then
    fp ← calculate_spki_fingerprint cert_der; Ok (bool_decide (fp ∈ pinned_spki_fingerprints c))
  else Ok true.

Definition days (d : Z) : Z := secs (d * 86400).
Definition is_certificate_valid (now : Z) (c : CertManagerConfig) (i : CertificateInfo) : bool :=
  now + days (renewal_threshold_days c) <? ci_not_after i.

(** [extract_domains_from_certificate] returns the configured domains. *)
Definition extract_certificate_info (now : Z) (id : string) (c : CertManagerConfig) (cert_der : string)
    (source : CertificateSource) : result string CertificateInfo :=
  cert ← map_err (λ e, "Failed to parse certificate: " +:+ e) (x509_from_der cert_der);
  spki ← calculate_spki_fingerprint cert_der;
  let not_before := default now (from_timestamp (x_not_before cert)) in
  let not_after := default now (from_timestamp (x_not_after cert)) in
  Ok {| ci_id := id; ci_subject := x_subject cert; ci_issuer := x_issuer cert;
        ci_serial_number := x_serial cert; ci_not_before := not_before; ci_not_after := not_after;
        ci_fingerprint := sha256_hex cert_der; ci_spki_fingerprint := spki;
        ci_domains := domains c; ci_source := source; ci_last_renewal_attempt := None;
        ci_next_renewal_scheduled := not_after - days (renewal_threshold_days c) |}.

Definition parse_pem_certificate (cert_pem : string) : result string string :=
  certs ← map_err (λ e, "Failed to parse PEM certificate: " +:+ e) (pemfile_certs cert_pem);
  ok_or (head certs) "No certificates found in PEM data".

(** The bytes of a PKCS #1 key are passed on as PKCS #8. *)
Definition parse_pem_private_key (key_pem : string) : result string string :=
  match pkcs8_private_keys key_pem with
  | Ok (key :: _) => Ok key
  | _ => match rsa_private_keys key_pem with
         | Ok (key :: _) => Ok key
         | _ => Err "Failed to parse private key"
         end
  end.

Definition set_certificate (i : CertificateInfo) (config : ServerConfig) : app () := λ '(w, m),
  ((w, {| cm_config := cm_config m; cm_current := Some i; cm_server := Some config;
          cm_cache := <[ci_id i := i]> (cm_cache m); cm_task := cm_task m |}), Ok ()).

Definition load_certificate_from_info (i : CertificateInfo) : app () :=
  c ← get_config;
  cert_pem ← read_fs (stored c cert_file);
  key_pem ← read_fs (stored c key_file);
  cert_der ← io_lift (parse_pem_certificate cert_pem);
  key_der ← io_lift (parse_pem_private_key key_pem);
  config ← io_lift (map_err (λ e, "Failed to create TLS config: " +:+ e) (with_single_cert [cert_der] key_der));
  set_certificate i (set_alpn ["dot"] config).

Definition generate_self_signed_certificate (now : Z) (rnd id : string) : app () :=
  c ← get_config;
  '(cert_pem, cert_der, key_pem) ←
    io_lift (map_err (λ e, "Failed to generate certificate: " +:+ e) (self_signed rnd (domains c)));
  cert_info ← io_lift (extract_certificate_info now id c cert_der SelfSigned);
  _ ← on_fs (fs_write (stored c cert_file) cert_pem);
  _ ← on_fs (fs_write (stored c key_file) key_pem);
  _ ← on_fs (fs_write (stored c info_file) (json_pretty (ser_CertificateInfo cert_info)));
  load_certificate_from_info cert_info.

(** A placeholder: no ACME server is asked. *)
Definition acquire_acme_certificate := generate_self_signed_certificate.
Definition force_renewal := acquire_acme_certificate.

Definition load_stored_certificate : app CertificateInfo :=
  c ← get_config;
  data ← read_fs (stored c info_file);
  io_lift (ok_or (from_str de_CertificateInfo data) (serde_error data)).

Definition ensure_valid_certificate (now : Z) (rnd id : string) : app () :=
  c ← get_config;
  io_try load_stored_certificate (λ res,
    match res with
    | Ok i => if is_certificate_valid now c i then load_certificate_from_info i
              else acquire_acme_certificate now rnd id
    | Err _ => acquire_acme_certificate now rnd id
    end).

(** [check_and_renew_certificate] of the manager, which nothing calls. *)
Definition check_and_renew_certificate (now : Z) (rnd id : string) : app () := λ '(w, m),
  match cm_current m with
  | Some i => if is_certificate_valid now (cm_config m) i then ((w, m), Ok ())
              else acquire_acme_certificate now rnd id (w, m)
  | None => acquire_acme_certificate now rnd id (w, m)
  end.

(** The one of the background task. *)
Definition task_check_and_renew_certificate : app () := mret ().

Definition start_renewal_task : app () := λ '(w, m),
  ((w, {| cm_config := cm_config m; cm_current := cm_current m; cm_server := cm_server m;
          cm_cache := cm_cache m; cm_task := true |}), Ok ()).

Definition start (now : Z) (rnd id : string) : app () :=
  _ ← ensure_valid_certificate now rnd id; start_renewal_task.

(** The task after some ticks of its interval; an error is logged. *)
Fixpoint renewal_task (ticks : nat) (s : W * CertificateManager) : W * CertificateManager :=
  match ticks with
  | O => s
  | S n => renewal_task n (task_check_and_renew_certificate s).1
  end.

Definition get_server_config (m : CertificateManager) : option ServerConfig := cm_server m.
Definition get_certificate_info (m : CertificateManager) : option CertificateInfo := cm_current m.

Record CertificateStatistics := {
  cs_current_certificate : option CertificateInfo;
  cs_cached_certificates : Z;
  cs_acme_directory_url : string;
  cs_domains : list string;
  cs_certificate_pinning_enabled : bool;
  cs_session_resumption_enabled : bool;
}.
Definition get_statistics (m : CertificateManager) : CertificateStatistics :=
  {| cs_current_certificate := cm_current m; cs_cached_certificates := Z.of_nat (size (cm_cache m));
     cs_acme_directory_url := acme_directory_url (cm_config m); cs_domains := domains (cm_config m);
     cs_certificate_pinning_enabled := enable_certificate_pinning (cm_config m);
     cs_session_resumption_enabled := enable_session_resumption (cm_config m) |}.
End manager.
#[global] Arguments stored : simpl never.
End CertManager.

Import CertManager.

Section manager_lemmas.
Context `{Hspec : FsSpec W} `{Htext : CliText} `{Hrustls : Rustls} `{Hlib : CertLib}.
Implicit Types (w : W) (m : CertificateManager).

Lemma stored_name c n : str_has "/" n = false → file_name (stored c n) = n.
Proof. apply file_name_join. Qed.

(** The text of a file of the store. *)
Definition text w c (n : string) : option string := f_text <$> fs_file w (stored c n).

Lemma on_fs_ok {A} (c : io W string A) w m s a :
  on_fs c (w, m) = (s, Ok a) → ∃ w', s = (w', m) ∧ c w = (w', Ok a).
Proof. unfold on_fs. destruct (c w) as [w' res]. intros [= <- ->]. eauto. Qed.

Lemma write_text c n n' t w w' :
  n ∈ [cert_file; key_file; info_file] → n' ∈ [cert_file; key_file; info_file] →
  fs_write (stored c n) t w = (w', Ok ()) →
  text w' c n' = if decide (n' = n) then Some t else text w c n'.
Proof.
  intros Hn Hn' E. unfold text.
  assert (∀ n, n ∈ [cert_file; key_file; info_file] →
    file_name (stored c n) = n ∧ names_file (stored c n)) as Hnm.
  { intros x Hx. assert (file_name (stored c x) = x) as Ex
      by (apply stored_name; set_unfold in Hx; by destruct Hx as [->|[->|[->|[]]]]).
    split; [done|]. unfold names_file. rewrite Ex. set_unfold in Hx.
    destruct Hx as [->|[->|[->|[]]]]; by apply (bool_decide_unpack _). }
  destruct (Hnm n Hn) as [En Nn], (Hnm n' Hn') as [En' Nn']. case_decide as Hd.
  - subst. by eapply write_file.
  - pose proof (write_frame w (stored c n) (stored c n') t Nn Nn' ltac:(congruence)) as Hf.
    rewrite E in Hf. cbn in Hf. by rewrite Hf.
Qed.

(** What loading does, from the texts it reads. *)
Definition server_from (cert_pem key_pem : string) : result string ServerConfig :=
  cert_der ← parse_pem_certificate cert_pem;
  key_der ← parse_pem_private_key key_pem;
  config ← map_err (λ e, "Failed to create TLS config: " +:+ e) (with_single_cert [cert_der] key_der);
  Ok (set_alpn ["dot"] config).

Definition with_certificate (i : CertificateInfo) (config : ServerConfig) m : CertificateManager :=
  {| cm_config := cm_config m; cm_current := Some i; cm_server := Some config;
     cm_cache := <[ci_id i := i]> (cm_cache m); cm_task := cm_task m |}.

Lemma load_from_info_eq i w m cert_pem key_pem :
  read_to_string w (stored (cm_config m) cert_file) = Ok cert_pem →
  read_to_string w (stored (cm_config m) key_file) = Ok key_pem →
  load_certificate_from_info i (w, m) =
    match server_from cert_pem key_pem with
    | Ok config => ((w, with_certificate i config m), Ok ())
    | Err e => ((w, m), Err e)
    end.
Proof.
  intros Hc Hk. unfold load_certificate_from_info, get_config, read_fs, on_fs, mbind, io_bind, server_from.
  cbn. rewrite Hc. cbn. rewrite Hk. cbn.
  destruct (parse_pem_certificate cert_pem) as [cd|]; [|done]. cbn.
  destruct (parse_pem_private_key key_pem) as [kd|]; [|done]. cbn.
  by destruct (with_single_cert [cd] kd).
Qed.

Lemma load_from_info_ok i w m s :
  load_certificate_from_info i (w, m) = (s, Ok ()) →
  ∃ cert_pem key_pem config, text w (cm_config m) cert_file = Some cert_pem
    ∧ text w (cm_config m) key_file = Some key_pem
    ∧ server_from cert_pem key_pem = Ok config ∧ s = (w, with_certificate i config m).
Proof.
  intros E. assert (∃ a b, read_to_string w (stored (cm_config m) cert_file) = Ok a
    ∧ read_to_string w (stored (cm_config m) key_file) = Ok b) as (a & b & Ha & Hb).
  { unfold load_certificate_from_info, get_config, read_fs, on_fs, mbind, io_bind in E. cbn in E.
    destruct (read_to_string w (stored (cm_config m) cert_file)); [cbn in E|done].
    destruct (read_to_string w (stored (cm_config m) key_file)); [eauto|done]. }
  rewrite (load_from_info_eq i w m a b Ha Hb) in E.
  destruct (server_from a b) as [config|] eqn:Es; [|done]. injection E as <-.
  apply read_file in Ha as (f & Hf & <-), Hb as (g & Hg & <-).
  exists (f_text f), (f_text g), config. unfold text. by rewrite Hf, Hg.
Qed.

(** A certificate that was generated is in the files and in use. *)
Lemma generate_ok now rnd id w m w1 m1 :
  generate_self_signed_certificate now rnd id (w, m) = ((w1, m1), Ok ()) →
  ∃ i cert_pem key_pem config, m1 = with_certificate i config m
    ∧ server_from cert_pem key_pem = Ok config
    ∧ text w1 (cm_config m) cert_file = Some cert_pem ∧ text w1 (cm_config m) key_file = Some key_pem
    ∧ text w1 (cm_config m) info_file = Some (json_pretty (ser_CertificateInfo i)).
Proof.
  unfold generate_self_signed_certificate. intros E.
  erewrite io_bind_step in E by done. set (c := cm_config m) in *.
  apply io_bind_ok in E as (s0 & [[cp cd] kp] & Hs0 & E). apply io_lift_inv in Hs0 as [-> Hs0].
  apply io_bind_ok in E as (s1 & i & Hs1 & E). apply io_lift_inv in Hs1 as [-> Hs1].
  apply io_bind_ok in E as (s2 & [] & Hs2 & E). apply on_fs_ok in Hs2 as (w2 & -> & Hs2).
  apply io_bind_ok in E as (s3 & [] & Hs3 & E). apply on_fs_ok in Hs3 as (w3 & -> & Hs3).
  apply io_bind_ok in E as (s4 & [] & Hs4 & E). apply on_fs_ok in Hs4 as (w4 & -> & Hs4).
  apply load_from_info_ok in E as (a & b & config & Ha & Hb & Hs & [= -> ->]).
  exists i, a, b, config. split_and!; try done.
  eapply (write_text c info_file info_file) in Hs4; [|set_solver..].
  fold c. by rewrite Hs4, decide_True.
Qed.
End manager_lemmas.

(** Files that were written are read by a disk that works. *)
Lemma read_text `{FsAvailable W} (w : W) c n t :
  text w c n = Some t → read_to_string w (stored c n) = Ok t.
Proof.
  unfold text. destruct (fs_file w (stored c n)) as [f|] eqn:E; [|done]. intros [= <-]. by apply read_ok.
Qed.

(** A restart keeps the certificate.  After a certificate has been made, a manager
    that starts on the same files finds it: as long as it is not within the threshold of
    its expiry, the new manager serves the same certificate with the same TLS
    configuration, without making another and without touching a file, whatever random
    numbers it would have used. *)
Lemma cert_restart_keeps `{FsSpec W, !FsAvailable W} `{CliText} `{Rustls} `{CertLib}
    now now' rnd rnd' id id' (w w1 : W) m m1 m' i
    (Hgen : generate_self_signed_certificate now rnd id (w, m) = ((w1, m1), Ok ()))
    (Hcfg : cm_config m' = cm_config m) (Hi : cm_current m1 = Some i) (Hok : info_ok i)
    (Hvalid : is_certificate_valid now' (cm_config m) i = true) :
  ∃ m2, start now' rnd' id' (w1, m') = ((w1, m2), Ok ())
    ∧ cm_current m2 = Some i ∧ cm_server m2 = cm_server m1 ∧ is_Some (cm_server m2)
    ∧ cm_task m2 = true.
Proof.
  apply generate_ok in Hgen as (i' & cp & kp & config & -> & Hs & Hc & Hk & Hj).
  injection Hi as ->. rewrite <- Hcfg in *.
  apply read_text in Hc, Hk, Hj.
  exists {| cm_config := cm_config m'; cm_current := Some i; cm_server := Some config;
            cm_cache := <[ci_id i := i]> (cm_cache m'); cm_task := true |}.
  split; [|by eauto].
  assert (ensure_valid_certificate now' rnd' id' (w1, m') = ((w1, with_certificate i config m'), Ok ())) as He.
  { unfold ensure_valid_certificate. erewrite io_bind_step by done. unfold io_try.
    assert (load_stored_certificate (w1, m') = ((w1, m'), Ok i)) as ->.
    { unfold load_stored_certificate, read_fs, on_fs. erewrite io_bind_step by done.
      unfold mbind, io_bind. rewrite Hj. cbn -[de_CertificateInfo]. unfold from_str.
      rewrite json_pretty_roundtrip by apply info_json_wf. cbn -[de_CertificateInfo ser_CertificateInfo].
      by rewrite de_ser_CertificateInfo. }
    rewrite Hvalid, (load_from_info_eq i w1 m' cp kp), Hs by done. done. }
  unfold start. by erewrite io_bind_step by exact He.
Qed.

(** The background task never renews: after any number of ticks the manager serves what
    it served, however long the certificate has expired. *)
Lemma task_never_renews `{FileSystem W} `{CliText} `{Rustls} `{CertLib} ticks (s : W * CertificateManager) :
  renewal_task ticks s = s.
Proof. revert s. induction ticks as [|n IH]; intros s; [done|]. apply IH. Qed.

(** The manager's own check, which is not called, would. *)
Lemma check_renews `{FileSystem W} `{CliText} `{Rustls} `{CertLib} now rnd id (w : W) m i :
  cm_current m = Some i →
  check_and_renew_certificate now rnd id (w, m) =
    if is_certificate_valid now (cm_config m) i then ((w, m), Ok ())
    else generate_self_signed_certificate now rnd id (w, m).
Proof. intros E. unfold check_and_renew_certificate. by rewrite E. Qed.

(** The default configuration pins certificates and has no pin: it accepts none. *)
Lemma default_pins_nothing `{CertLib} der : validate_certificate_pinning default_cert_config der ≠ Ok true.
Proof.
  unfold validate_certificate_pinning. cbn. unfold calculate_spki_fingerprint.
  by destruct (x509_from_der der).
Qed.

(** The two directories are told apart, and the default is the staging one. *)
Lemma endpoints c :
  is_production (use_production c) = true ∧ is_staging (use_production c) = false
  ∧ is_production (use_staging c) = false ∧ is_staging (use_staging c) = true
  ∧ is_staging default_cert_config = true.
Proof. done. Qed.

(** ** Examples *)
Module CertManagerDemo.
Import BitCodec MemMachine EdgeStartDemo.

#[export] Instance toy_certs : CertLib := {|
  self_signed rnd sans := Ok (str_join "," sans, str_join "," sans, rnd);
  x509_from_der der := Ok {| x_serial := "01"; x_subject := der; x_issuer := der; x_not_before := 0;
                             x_not_after := 90 * 86400; x_spki := der |};
  sha256_hex s := s; pkcs8_private_keys t := Ok [t]; rsa_private_keys t := Ok [];
  from_timestamp t := Some (secs t) |}.

Definition manager : CertificateManager :=
  {| cm_config := default_cert_config; cm_current := None; cm_server := None; cm_cache := ∅; cm_task := false |}.
Definition made := generate_self_signed_certificate 0 "key" "1" (blank, manager).
Definition info : CertificateInfo :=
  {| ci_id := "1"; ci_subject := "fleetingdns.run"; ci_issuer := "fleetingdns.run"; ci_serial_number := "01";
     ci_not_before := 0; ci_not_after := days 90; ci_fingerprint := "fleetingdns.run";
     ci_spki_fingerprint := "fleetingdns.run"; ci_domains := ["fleetingdns.run"]; ci_source := SelfSigned;
     ci_last_renewal_attempt := None; ci_next_renewal_scheduled := days 60 |}.

Lemma cert_restart_keeps_witness :
  ∃ m2, start (days 59) "other" "2" (made.1.1, manager) = ((made.1.1, m2), Ok ())
    ∧ cm_current m2 = Some info ∧ cm_server m2 = cm_server made.1.2 ∧ is_Some (cm_server m2)
    ∧ cm_task m2 = true.
Proof.
  apply (cert_restart_keeps 0 (days 59) "key" "other" "1" "2" blank made.1.1 manager made.1.2 manager info).
  - eval_eq.
  - reflexivity.
  - eval_eq.
  - vm_compute. repeat split; congruence.
  - by vm_compute.
Defined.
End CertManagerDemo.
