(* ===== verification/DotEnhanced.v ===== *)
(** * The enhanced DNS-over-TLS server

    crates/dnsd/src/dot_enhanced.rs, which the crate does not declare as a module: the
    limits per address, the table of connections, the query loop, the background tasks
    and the accept loops, over the certificate manager of [CertManager] and the limiter of
    [Ddos].  The packet handler it calls ([udp::handle_packet]) is not in the repository
    and is a parameter.  A connection's identifier, the text of its address, is the
    address itself; metrics are left out. *)

From S2P Require Import Prelude Redis Serde Models Errors Net Float Metrics RedisCache Storage DnsHandler SshHub EdgeRouter Auth RateLimit CA Config CliKeys EdgeStart CertManager.
From S2P Require Import Ddos.

Module DotEnhanced.

Record DotServerConfig := {
  dot_max_connections_per_ip : Z;
  connection_timeout : Z;
  keep_alive_timeout : Z;
  rate_limit_qps : Z;
  rate_limit_burst : Z;
  enable_mtls : bool;
  enable_connection_pooling : bool;
  max_query_size : Z;
  tls_buffer_size : Z;
  enable_metrics : bool;
  ddos_config : DdosConfig;
  enable_ddos_protection : bool;
}.
Definition default_dot_config : DotServerConfig :=
  {| dot_max_connections_per_ip := 10; connection_timeout := secs 30; keep_alive_timeout := secs 300;
     rate_limit_qps := 100; rate_limit_burst := 200; enable_mtls := false;
     enable_connection_pooling := true; max_query_size := 4096; tls_buffer_size := 8192;
     enable_metrics := true; ddos_config := default_ddos_config; enable_ddos_protection := true |}.

Record ConnectionInfo := {
  peer_addr : SocketAddr;
  established_at : Z;
  queries_processed : Z;
  bytes_received : Z;
  bytes_sent : Z;
  last_activity : Z;
}.
Record IpRateLimit := { connection_count : Z; last_query : Z; query_count_in_window : Z }.
Definition default_rate_limit (now : Z) : IpRateLimit :=
  {| connection_count := 0; last_query := now; query_count_in_window := 0 |}.

Section server.
Context `{Hrustls : Rustls}.

Record EnhancedDotServer := {
  dot_config : DotServerConfig;
  current_tls_config : option ServerConfig;
  active_connections : gmap SocketAddr ConnectionInfo;
  ip_rate_limits : gmap IpAddr IpRateLimit;
  ddos_protection : DdosProtection;
}.
Implicit Types (s : EnhancedDotServer).

Definition EnhancedDotServer_new (config : DotServerConfig) : EnhancedDotServer :=
  {| dot_config := config; current_tls_config := None; active_connections := ∅; ip_rate_limits := ∅;
     ddos_protection := DdosProtection_new (ddos_config config) |}.

Definition set_tls (c : option ServerConfig) s : EnhancedDotServer :=
  {| dot_config := dot_config s; current_tls_config := c; active_connections := active_connections s;
     ip_rate_limits := ip_rate_limits s; ddos_protection := ddos_protection s |}.
Definition set_connections (m : gmap SocketAddr ConnectionInfo) s : EnhancedDotServer :=
  {| dot_config := dot_config s; current_tls_config := current_tls_config s; active_connections := m;
     ip_rate_limits := ip_rate_limits s; ddos_protection := ddos_protection s |}.
Definition set_limits (m : gmap IpAddr IpRateLimit) s : EnhancedDotServer :=
  {| dot_config := dot_config s; current_tls_config := current_tls_config s;
     active_connections := active_connections s; ip_rate_limits := m;
     ddos_protection := ddos_protection s |}.
Definition set_ddos (d : DdosProtection) s : EnhancedDotServer :=
  {| dot_config := dot_config s; current_tls_config := current_tls_config s;
     active_connections := active_connections s; ip_rate_limits := ip_rate_limits s;
     ddos_protection := d |}.

(** The entry is made, and reset in place, also when the answer is no. *)
Definition check_rate_limit_and_connections (now : Z) (ip : IpAddr) s : EnhancedDotServer * bool :=
  let l := default (default_rate_limit now) (ip_rate_limits s !! ip) in
  let put l := set_limits (<[ip := l]> (ip_rate_limits s)) s in
  if dot_max_connections_per_ip (dot_config s) <=? connection_count l then (put l, false)
  else
    let l := if secs 1 <? duration_since now (last_query l)
             then {| connection_count := connection_count l; last_query := now; query_count_in_window := 0 |}
             else l in
    if rate_limit_qps (dot_config s) <=? query_count_in_window l then (put l, false)
    else (put {| connection_count := as_u32 (connection_count l + 1); last_query := last_query l;
                 query_count_in_window := as_u32 (query_count_in_window l + 1) |}, true).

Definition close_ddos (ip : IpAddr) s : EnhancedDotServer :=
  if enable_ddos_protection (dot_config s) then set_ddos (connection_closed ip (ddos_protection s)) s else s.

Inductive Verdict := RejectedDdos | RejectedRate | NoTlsConfig | Established.
#[export] Instance Verdict_eq_dec : EqDecision Verdict.
Proof. solve_decision. Defined.

Definition handle_new_connection (now : Z) (peer : SocketAddr) s : EnhancedDotServer * Verdict :=
  let ip := sa_ip peer in
  let '(s, refused) :=
    if enable_ddos_protection (dot_config s) then
      let '(d, res) := check_connection_limit now ip (ddos_protection s) in
      (set_ddos d s, match res with Err _ => true | Ok _ => false end)
    else (s, false) in
  if refused : bool then (s, RejectedDdos)
  else
    let '(s, ok) := check_rate_limit_and_connections now ip s in
    if ok : bool then
      match current_tls_config s with
      | None => (close_ddos ip s, NoTlsConfig)
      | Some _ =>
          (set_connections (<[peer := {| peer_addr := peer; established_at := now; queries_processed := 0;
                                         bytes_received := 0; bytes_sent := 0; last_activity := now |}]>
                              (active_connections s)) s, Established)
      end
    else (close_ddos ip s, RejectedRate).

(** [EnhancedDotServerTask]: the task of a connection neither reads nor writes it. *)
Definition task_handle_connection : result string () := Ok ().
Definition task_cleanup_connection (id : SocketAddr) s : EnhancedDotServer :=
  set_connections (delete id (active_connections s)) s.

(** The server's own cleanup, which nothing calls. *)
Definition cleanup_connection (id : SocketAddr) s : EnhancedDotServer :=
  match active_connections s !! id with
  | Some c => close_ddos (sa_ip (peer_addr c)) (set_connections (delete id (active_connections s)) s)
  | None => s
  end.

Definition update_connection_stats (now : Z) (id : SocketAddr) (queries received sent : Z) s
    : EnhancedDotServer :=
  set_connections (alter (λ c, {| peer_addr := peer_addr c; established_at := established_at c;
                                  queries_processed := queries; bytes_received := received;
                                  bytes_sent := sent; last_activity := now |}) id (active_connections s)) s.

Definition shutdown_connections s : EnhancedDotServer :=
  let s' := if enable_ddos_protection (dot_config s)
            then set_ddos (map_fold (λ _ c d, connection_closed (sa_ip (peer_addr c)) d) (ddos_protection s)
                             (active_connections s)) s
            else s in
  set_connections ∅ s'.

(** *** Background tasks *)

(** [update_tls_configuration] and the rotation monitor: [c] is the certificate
    manager's configuration. *)
Definition update_tls_configuration (c : option ServerConfig) s : EnhancedDotServer :=
  match c with Some _ => set_tls c s | None => s end.

Definition IDLE : Z := secs 600.
Definition connection_cleanup (now : Z) s : EnhancedDotServer :=
  set_connections (filter (λ kv, duration_since now (last_activity kv.2) < IDLE) (active_connections s)) s.

Definition get_active_connection_count s : Z := Z.of_nat (size (active_connections s)).
Definition collect_metrics s : Z * Z :=
  (get_active_connection_count s,
   map_fold (λ _ c n, as_u64 (n + queries_processed c)) 0 (active_connections s)).

(** ** Histories *)

Inductive DotEvent :=
  | DotAccepted (now : Z) (peer : SocketAddr)
  | DotAcceptFailed
  | DotShutdown
  (** The task of a connection has ended. *)
  | DotTaskEnded (id : SocketAddr)
  | DotCleanupTick (now : Z)
  | DotRotationTick (c : option ServerConfig).

Definition dot_step (e : DotEvent) s : EnhancedDotServer * list (IpAddr * Verdict) :=
  match e with
  | DotAccepted now peer => let '(s, v) := handle_new_connection now peer s in (s, [(sa_ip peer, v)])
  | DotTaskEnded id => (task_cleanup_connection id s, [])
  | DotCleanupTick now => (connection_cleanup now s, [])
  | DotRotationTick c => (update_tls_configuration c s, [])
  | DotAcceptFailed | DotShutdown => (s, [])
  end.

(** [start_with_shutdown]: the verdicts, and whether the loop has ended. *)
Fixpoint dot_loop (events : list DotEvent) s : EnhancedDotServer * list (IpAddr * Verdict) * bool :=
  match events with
  | [] => (s, [], false)
  | (DotAcceptFailed | DotShutdown) :: _ => (shutdown_connections s, [], true)
  | e :: events =>
      let '(s, out) := dot_step e s in
      let '(s, log, ended) := dot_loop events s in (s, out ++ log, ended)
  end.
(** [tls] is the certificate manager's configuration when the server starts. *)
Definition start_with_shutdown (bind_ok : bool) (config : DotServerConfig) (tls : option ServerConfig)
    (events : list DotEvent) : result string (EnhancedDotServer * list (IpAddr * Verdict) * bool) :=
  let s := update_tls_configuration tls (EnhancedDotServer_new config) in
  if bind_ok then Ok (dot_loop events s) else Err "bind".
Definition serve_with_shutdown (bind_ok : bool) := start_with_shutdown bind_ok default_dot_config.

(** The loop of [run_server] has no signal and leaves the connections when it ends. *)
Fixpoint run_loop (events : list DotEvent) s : EnhancedDotServer * list (IpAddr * Verdict) * bool :=
  match events with
  | [] => (s, [], false)
  | DotAcceptFailed :: _ => (s, [], true)
  | e :: events =>
      let '(s, out) := dot_step e s in
      let '(s, log, ended) := run_loop events s in (s, out ++ log, ended)
  end.
Definition run_server (bind_ok : bool) (events : list DotEvent) s
    : result string (EnhancedDotServer * list (IpAddr * Verdict) * bool) :=
  if bind_ok then Ok (run_loop events s) else Err "bind".
Definition start (bind_ok : bool) (config : DotServerConfig) (tls : option ServerConfig) (events : list DotEvent) :=
  run_server bind_ok events (update_tls_configuration tls (EnhancedDotServer_new config)).
Definition serve (bind_ok : bool) := start bind_ok default_dot_config.

(** ** The query loop *)

Section queries.
Context {S : Type} (handle : string → S → S * result string string) (clock : Z → Z) (id : SocketAddr).

Record Counters := { query_count : Z; total_bytes_received : Z; total_bytes_sent : Z }.

(** The input ends with the connection or a keep-alive timeout; [budget] is the number
    of responses that can still be written.  The fuel is the length of the input, which
    every turn shortens. *)
Fixpoint handle_dns_queries (fuel : nat) (budget : option nat) (input : string) (n : Counters) (st : S) s
    : S * EnhancedDotServer * string :=
  match fuel, input with
  | Datatypes.S fuel, String hi (String lo rest) =>
      let len := 256 * code hi + code lo in
      if (len =? 0) || (max_query_size (dot_config s) <? len) then (st, s, "")
      else if enable_ddos_protection (dot_config s)
              && match check_request_size len (ddos_protection s) with Err _ => true | Ok _ => false end
      then (st, s, "")
      else
        match take_exact (Z.to_nat len) rest with
        | None => (st, s, "")
        | Some (query, rest) =>
            let received := as_u64 (total_bytes_received n + len + 2) in
            match handle query st with
            | (st, Err _) => (st, s, "")
            | (st, Ok response) =>
                match budget with
                | Some O => (st, s, "")
                | _ =>
                    let n := {| query_count := as_u64 (query_count n + 1); total_bytes_received := received;
                                total_bytes_sent := as_u64 (total_bytes_sent n + str_len response + 2) |} in
                    let s := update_connection_stats (clock (query_count n)) id (query_count n)
                               (total_bytes_received n) (total_bytes_sent n) s in
                    let '(st, s, out) := handle_dns_queries fuel (pred <$> budget) rest n st s in
                    (st, s, be16 (str_len response) +:+ response +:+ out)
                end
            end
        end
  | _, _ => (st, s, "")
  end.
End queries.
End server.
End DotEnhanced.

Import DotEnhanced.

Section limits.
Context `{Hrustls : Rustls}.
Implicit Types (s : EnhancedDotServer).

Definition count_of (ip : IpAddr) s : Z :=
  match ip_rate_limits s !! ip with Some l => connection_count l | None => 0 end.
Definition established (ip : IpAddr) (log : list (IpAddr * Verdict)) : Z :=
  Z.of_nat (length (filter (λ o, o = (ip, Established)) log)).

Definition u32_limit (c : DotServerConfig) : Prop := 0 ≤ dot_max_connections_per_ip c < 2 ^ 32.
Definition counts_ok s : Prop :=
  u32_limit (dot_config s) ∧ ∀ ip, 0 ≤ count_of ip s ≤ dot_max_connections_per_ip (dot_config s).

(** A check raises the count of its address by one, to at most the limit, or leaves it. *)
Lemma check_counts now ip s s' ok :
  counts_ok s → check_rate_limit_and_connections now ip s = (s', ok) →
  dot_config s' = dot_config s ∧ counts_ok s'
  ∧ ∀ ip', count_of ip' s' = count_of ip' s + if decide (ip' = ip ∧ ok = true) then 1 else 0.
Proof.
  intros [Hu Hc] E. unfold check_rate_limit_and_connections in E.
  set (l := default (default_rate_limit now) (ip_rate_limits s !! ip)) in *.
  assert (connection_count l = count_of ip s) as Hl by (unfold l, count_of; by destruct (_ !! ip)).
  assert (∀ l' ip', count_of ip' (set_limits (<[ip := l']> (ip_rate_limits s)) s)
    = if decide (ip' = ip) then connection_count l' else count_of ip' s) as Hput.
  { intros l' ip'. unfold count_of. cbn. case_decide; [subst; by rewrite lookup_insert_eq|].
    by rewrite lookup_insert_ne. }
  assert (dot_config s' = dot_config s ∧ (ok = true → count_of ip s < dot_max_connections_per_ip (dot_config s))
    ∧ ∀ ip', count_of ip' s' = count_of ip' s + if decide (ip' = ip ∧ ok = true) then 1 else 0)
    as (Hcfg & Hlt & Hn).
  { specialize (Hc ip). unfold u32_limit in Hu.
    destruct (Z.leb_spec (dot_max_connections_per_ip (dot_config s)) (connection_count l)).
    - injection E as <- <-. split; [done|]. split; [done|]. intros ip'. rewrite Hput, Hl.
      repeat case_decide; naive_solver lia.
    - set (l2 := if secs 1 <? _ then _ else _) in E.
      assert (connection_count l2 = connection_count l) as Hl2 by (unfold l2; by destruct (secs 1 <? _)).
      destruct (_ <=? query_count_in_window l2); injection E as <- <-;
        (split; [done|]); (split; [lia || done|]); intros ip'; rewrite Hput; cbn [connection_count];
        rewrite ?Hl2, ?Hl, ?as_u32_id by (unfold u32_ok; lia); repeat case_decide; naive_solver lia. }
  split; [done|]. split; [|done]. split; [by rewrite Hcfg|]. intros ip'. rewrite Hcfg, Hn.
  specialize (Hc ip'). destruct (decide (ip' = ip ∧ ok = true)) as [[-> Hd]|_]; [specialize (Hlt Hd)|]; lia.
Qed.

Lemma counts_frame s s' :
  dot_config s' = dot_config s → ip_rate_limits s' = ip_rate_limits s → counts_ok s →
  counts_ok s' ∧ ∀ ip, count_of ip s' = count_of ip s.
Proof. unfold counts_ok, count_of. intros -> ->. done. Qed.

Lemma close_ddos_same ip s :
  dot_config (close_ddos ip s) = dot_config s ∧ ip_rate_limits (close_ddos ip s) = ip_rate_limits s.
Proof. unfold close_ddos. by case_match. Qed.

(** A connection that is taken has been counted. *)
Lemma new_connection_counts now peer s s' v :
  counts_ok s → handle_new_connection now peer s = (s', v) →
  counts_ok s' ∧ dot_config s' = dot_config s
  ∧ ∀ ip, count_of ip s + (if decide ((sa_ip peer, v) = (ip, Established)) then 1 else 0) ≤ count_of ip s'.
Proof.
  intros Hok E. unfold handle_new_connection in E.
  set (s0 := if enable_ddos_protection (dot_config s) then _ else _) in E.
  assert (dot_config s0.1 = dot_config s ∧ ip_rate_limits s0.1 = ip_rate_limits s) as [Hc0 Hl0].
  { unfold s0. destruct (enable_ddos_protection (dot_config s)); [|done].
    by destruct (check_connection_limit _ _ _). }
  destruct s0 as [s1 refused]. cbn [fst] in Hc0, Hl0.
  destruct (counts_frame s s1 Hc0 Hl0 Hok) as [Hok1 Hn1]. destruct refused.
  { injection E as <- <-. split; [done|]. split; [done|]. intros ip. rewrite Hn1. case_decide; [done|lia]. }
  destruct (check_rate_limit_and_connections now (sa_ip peer) s1) as [s2 ok] eqn:E2.
  apply check_counts in E2 as (Hc2 & Hok2 & Hn2); [|done].
  assert (∀ ip, count_of ip s + (if decide (ip = sa_ip peer ∧ ok = true) then 1 else 0) ≤ count_of ip s2) as Hle
    by (intros ip; rewrite Hn2, Hn1; lia).
  assert (∀ s3 ip, s3 = close_ddos (sa_ip peer) s2 → counts_ok s3 ∧ dot_config s3 = dot_config s2
    ∧ count_of ip s3 = count_of ip s2) as Hclose.
  { intros s3 ip ->. destruct (close_ddos_same (sa_ip peer) s2) as [Hc Hl].
    destruct (counts_frame s2 _ Hc Hl Hok2) as [? ?]. done. }
  destruct ok; [destruct (current_tls_config s2)|]; injection E as <- <-.
  - split; [done|]. split; [cbn; congruence|]. intros ip. specialize (Hle ip).
    change (count_of ip (set_connections _ s2)) with (count_of ip s2).
    repeat case_decide; naive_solver lia.
  - destruct (Hclose _ (sa_ip peer) eq_refl) as (? & ? & _). split; [done|]. split; [congruence|].
    intros ip. destruct (Hclose _ ip eq_refl) as (_ & _ & ->). specialize (Hle ip).
    repeat case_decide; naive_solver lia.
  - destruct (Hclose _ (sa_ip peer) eq_refl) as (? & ? & _). split; [done|]. split; [congruence|].
    intros ip. destruct (Hclose _ ip eq_refl) as (_ & _ & ->). specialize (Hle ip).
    repeat case_decide; naive_solver lia.
Qed.

Lemma dot_step_counts e s s' out :
  counts_ok s → dot_step e s = (s', out) →
  counts_ok s' ∧ dot_config s' = dot_config s ∧ ∀ ip, count_of ip s + established ip out ≤ count_of ip s'.
Proof.
  intros Hok. unfold established. destruct e as [now peer| | |id|now|c]; cbn [dot_step].
  - destruct (handle_new_connection now peer s) as [s1 v] eqn:E. intros [= <- <-].
    apply new_connection_counts in E as (? & ? & Hn); [|done]. split; [done|]. split; [done|].
    intros ip. specialize (Hn ip). cbn [filter list_filter]. by case_decide.
  - intros [= <- <-]. cbn. split; [done|]. split; [done|]. lia.
  - intros [= <- <-]. cbn. split; [done|]. split; [done|]. lia.
  - intros [= <- <-]. cbn. split; [done|]. split; [done|]. intros. cbn. unfold count_of. cbn. lia.
  - intros [= <- <-]. cbn. split; [done|]. split; [done|]. intros. unfold count_of. cbn. lia.
  - intros [= <- <-]. cbn. destruct c; (split; [done|]); (split; [done|]); intros; unfold count_of; cbn; lia.
Qed.

Lemma dot_loop_counts events s s' log ended :
  counts_ok s → dot_loop events s = (s', log, ended) →
  ∀ ip, count_of ip s + established ip log ≤ dot_max_connections_per_ip (dot_config s).
Proof.
  assert (∀ ip, established ip [] = 0) as Hnil by done.
  revert s s' log ended. induction events as [|e events IH]; intros s s' log ended Hok E ip.
  { injection E as <- <- <-. rewrite Hnil. pose proof (proj2 Hok ip). lia. }
  assert (log = [] ∨ ∃ s1 out log1, dot_step e s = (s1, out) ∧ dot_loop events s1 = (s', log1, ended)
    ∧ log = out ++ log1) as [->|(s1 & out & log1 & E1 & E2 & ->)].
  { destruct e; cbn [dot_loop] in E; try (injection E as <- <- <-; by left);
      right; destruct (dot_step _ s) as [s1 out]; destruct (dot_loop events s1) as [[s2 log1] e1] eqn:E2;
      injection E as <- <- <-; eauto 10. }
  - rewrite Hnil. pose proof (proj2 Hok ip). lia.
  - apply dot_step_counts in E1 as (Hok1 & Hc1 & Hn1); [|done].
    specialize (IH _ _ _ _ Hok1 E2 ip). rewrite Hc1 in IH. specialize (Hn1 ip).
    unfold established in *. rewrite filter_app, length_app. lia.
Qed.
End limits.

(** The budget of an address.  However long the server runs, whatever connections
    end, whatever the background tasks clean up and however the certificate changes, it
    takes at most [max_connections_per_ip] connections of an address in its whole life:
    nothing ever lowers the count, so the address is refused from then on. *)
Lemma dot_connection_budget `{Rustls} bind_ok config tls events ip s' log ended
    (Hu : 0 ≤ dot_max_connections_per_ip config < 2 ^ 32)
    (Hs : start_with_shutdown bind_ok config tls events = Ok (s', log, ended)) :
  established ip log ≤ dot_max_connections_per_ip config.
Proof.
  unfold start_with_shutdown in Hs. destruct bind_ok; [injection Hs as E|done].
  revert E.
  set (s0 := update_tls_configuration tls (EnhancedDotServer_new config)).
  assert (dot_config s0 = config ∧ ip_rate_limits s0 = ∅) as [Hc Hl] by (unfold s0; by destruct tls).
  assert (counts_ok s0) as Hok.
  { split; [unfold u32_limit; by rewrite Hc|]. intros ip'. unfold count_of. rewrite Hl, lookup_empty, Hc. lia. }
  intros E. pose proof (dot_loop_counts _ _ _ _ _ Hok E ip) as Hn. rewrite Hc in Hn.
  pose proof (proj2 Hok ip). lia.
Qed.

(** The query loop answers a stream of well-sized queries packet by packet. *)
Lemma dot_queries_frames `{Rustls} {S} (h : string → S → S * string) clock id packets fuel n st s :
  Forall (λ p, 0 < str_len p ≤ max_query_size (dot_config s) ∧ u16_ok (str_len p)
            ∧ str_len p ≤ max_request_size (config (ddos_protection s))) packets →
  (String.length (foldr (λ p o, frame p +:+ o) "" packets) ≤ fuel)%nat →
  let '(st', _, out) := handle_dns_queries (λ p st, let '(st, r) := h p st in (st, Ok r)) clock id fuel None
      (foldr (λ p o, frame p +:+ o) "" packets) n st s in
  (st', out) = answer_all h packets st.
Proof.
  intros Hp. revert fuel n st s Hp.
  induction packets as [|p ps IH]; intros fuel n st s Hp Hf; [by destruct fuel|].
  apply Forall_cons in Hp as [(Hlen & Hu & Hmax) Hp].
  cbn [foldr] in *. set (rest := foldr (λ p o, frame p +:+ o) "" ps) in *.
  destruct (frame_bytes p rest Hu) as (hi & lo & E & Hn & Ht).
  rewrite E in *. destruct fuel as [|fuel]; [cbn in Hf; lia|].
  cbn [handle_dns_queries]. rewrite Hn.
  destruct (Z.eqb_spec (str_len p) 0); [lia|]. cbn [orb].
  destruct (Z.ltb_spec (max_query_size (dot_config s)) (str_len p)); [lia|].
  assert (check_request_size (str_len p) (ddos_protection s) = Ok ()) as ->
    by (unfold check_request_size; by destruct (Z.ltb_spec (max_request_size (config (ddos_protection s))) (str_len p)); [lia|]).
  rewrite andb_false_r, Ht. cbn [answer_all]. destruct (h p st) as [st' resp].
  cbn [fmap option_fmap option_map].
  match goal with |- context [handle_dns_queries ?hd _ _ fuel None rest ?n ?st ?s] =>
    pose proof (IH fuel n st s) as IH'; destruct (handle_dns_queries hd clock id fuel None rest n st s)
      as [[st2 s2] out] end.
  rewrite <- IH'; [|done|].
  - unfold frame. by rewrite str_app_assoc.
  - assert (str_len (p +:+ rest) = str_len p + str_len rest) as Hl by apply str_len_app.
    unfold str_len in *. cbn in Hf. lia.
Qed.

(** ** Examples *)
Module DotEnhancedDemo.
Import EdgeStartDemo.

Definition host : IpAddr := V4 (Ipv4 192 0 2 7).
Definition peer (p : Z) : SocketAddr := {| sa_ip := host; sa_port := p |}.
(** A connection every ten seconds, each ended before the next. *)
Definition visits : list (DotEvent (Hrustls := toy_rustls)) :=
  k ← seqZ 0 12; [DotAccepted (secs (10 * k)) (peer (1000 + k)); DotTaskEnded (peer (1000 + k))].
Definition lax : DotServerConfig :=
  {| dot_max_connections_per_ip := 10; connection_timeout := secs 30; keep_alive_timeout := secs 300;
     rate_limit_qps := 100; rate_limit_burst := 200; enable_mtls := false; enable_connection_pooling := true;
     max_query_size := 4096; tls_buffer_size := 8192; enable_metrics := true;
     ddos_config := default_ddos_config; enable_ddos_protection := false |}.
Definition tls0 : option (@ServerConfig toy_rustls) := Some (["cert"], "key", ["dot"]).
Definition served := dot_loop visits (update_tls_configuration tls0 (EnhancedDotServer_new lax)).

Lemma dot_connection_budget_witness :
  established host served.1.2 ≤ 10 ∧ established host served.1.2 = 10
  ∧ last served.1.2 = Some (host, RejectedRate) ∧ active_connections served.1.1 = ∅.
Proof.
  assert (0 ≤ dot_max_connections_per_ip lax < 2 ^ 32) as Hu by (by vm_compute).
  split; [|split_and!; by vm_compute].
  refine (dot_connection_budget true lax tls0 visits host served.1.1 served.1.2 served.2 Hu _).
  unfold start_with_shutdown.
  change (@Ok string _ served = Ok (served.1.1, served.1.2, served.2)). by destruct served as [[s log] e].
Defined.
End DotEnhancedDemo.
