(* ===== verification/Metering.v ===== *)
(** * Usage metering

    crates/common/src/billing.rs: the meters, and what the handlers of [TunnelsApi]
    tell them (crates/backendapi/src/handlers/tunnels.rs).  The events of one tunnel are
    followed through creations and deletions of any users, failing at any command, while
    time passes and the other services run. *)

From S2P Require Import Prelude Redis Serde Models Errors Quota RedisCache CA Auth Storage TunnelsApi.

(** ** The meters *)

Definition event_tunnel_id (e : UsageEvent) : string :=
  match e with TunnelOpened tunnel_id _ _ | TunnelClosed tunnel_id _ _ _ => tunnel_id end.
Definition event_user_id (e : UsageEvent) : string :=
  match e with TunnelOpened _ user_id _ | TunnelClosed _ user_id _ _ => user_id end.

Class UsageMeter (M : Type) := { record : UsageEvent → M → M }.

Inductive NoopMeter := Noop.
#[export] Instance noop_meter : UsageMeter NoopMeter := {| record _ m := m |}.

Record CollectingMeter := { cm_events : list UsageEvent }.
Definition CollectingMeter_new : CollectingMeter := {| cm_events := [] |}.
#[export] Instance collecting_meter : UsageMeter CollectingMeter :=
  {| record e m := {| cm_events := cm_events m ++ [e] |} |}.
Definition meter_len (m : CollectingMeter) : Z := Z.of_nat (length (cm_events m)).
Definition meter_is_empty (m : CollectingMeter) : bool := meter_len m =? 0.

(** The state of the API's meter after the events it was told. *)
Definition metered {M} `{UsageMeter M} (m : M) (events : list UsageEvent) : M :=
  foldl (flip record) m events.

Lemma metered_collecting m events : cm_events (metered m events) = cm_events m ++ events.
Proof.
  revert m. induction events as [|e events IH]; intros m; [by rewrite app_nil_r|].
  change (metered m (e :: events)) with (metered (record e m) events). rewrite IH. cbn. by rewrite <- (assoc_L (++)).
Qed.

Lemma metered_noop events : metered Noop events = Noop.
Proof. by destruct (metered Noop events). Qed.

(** ** Computations that leave keys alone *)

(** Only keys of [K] change, whatever the computation returns. *)
Definition touches `{RedisServer R} (now : Z) (K : string → Prop) {E A} (c : io R E A) : Prop :=
  ∀ r r' res, c r = (r', res) → ∀ k, ¬ K k → live now r' !! k = live now r !! k.

Lemma io_bind_cases {S E A B} (c : io S E A) (f : A → io S E B) s s' res :
  (c ≫= f) s = (s', res) →
  (∃ e, c s = (s', Err e) ∧ res = Err e) ∨ ∃ s1 a, c s = (s1, Ok a) ∧ f a s1 = (s', res).
Proof.
  unfold mbind, io_bind. destruct (c s) as [s1 [a|e]]; [eauto|]. intros [= <- <-]. eauto.
Qed.

Section touches.
Context `{Hspec : RedisSpec R}.
Implicit Types (now : Z) (K : string → Prop).

Lemma touches_reads {E A} now K (c : io R E A) : reads now c → touches now K c.
Proof. intros Hc r r' res E1 k _. by rewrite (Hc _ _ _ E1). Qed.

Lemma touches_bind {E A B} now K (c : io R E A) (f : A → io R E B) :
  touches now K c → (∀ a, touches now K (f a)) → touches now K (c ≫= f).
Proof.
  intros Hc Hf r r' res [(e & E1 & _)|(r1 & a & E1 & E2)]%io_bind_cases k Hk; [by eapply Hc|].
  rewrite (Hf _ _ _ _ E2 k Hk). by eapply Hc.
Qed.

Lemma touches_storage {A} now K msg (c : io R redis_error A) :
  touches now K c → touches now K (TunnelStorage.storage msg c).
Proof.
  intros Hc r r' res. unfold TunnelStorage.storage, io_map_err. destruct (c r) as [r1 x] eqn:E1.
  intros [= <- _]. by apply (Hc _ _ _ E1).
Qed.

(** A command that writes one key. *)
Lemma touches_writes {E A} now K (c : io R E A) f k0 :
  writes now c f → K k0 → (∀ m k, k ≠ k0 → f m !! k = m !! k) → touches now K c.
Proof.
  intros [Hok Herr] Hk0 Hf r r' [a|e] E1 k Hk; assert (k ≠ k0) by congruence.
  - rewrite (Hok _ _ _ E1). by apply Hf.
  - destruct (Herr _ _ _ E1) as [-> | ->]; [done|]. by apply Hf.
Qed.

Lemma touches_set_ex now K k v ttl : K k → touches now K (r_set_ex now k v ttl).
Proof.
  intros Hk. eapply touches_writes; [apply set_ex_writes|done|].
  intros m k' Hne. by apply lookup_insert_ne.
Qed.
Lemma touches_set now K k v : K k → touches now K (r_set now k v).
Proof.
  intros Hk. eapply touches_writes; [apply set_writes|done|].
  intros m k' Hne. by apply lookup_insert_ne.
Qed.
Lemma touches_set_nx_ex now K k v ttl : K k → touches now K (r_set_nx_ex now k v ttl).
Proof.
  intros Hk. eapply touches_writes; [apply set_nx_ex_writes|done|].
  intros m k' Hne. cbn. case_match; [done|]. by apply lookup_insert_ne.
Qed.
Lemma touches_expire now K k ttl : K k → touches now K (r_expire now k ttl).
Proof.
  intros Hk. eapply touches_writes; [apply expire_writes|done|].
  intros m k' Hne. unfold expire_map. case_match; [|done].
  case_decide; [by apply lookup_delete_ne|by apply lookup_insert_ne].
Qed.
Lemma touches_del now K k : K k → touches now K (r_del now k).
Proof.
  intros Hk. eapply touches_writes; [apply del_writes|done|].
  intros m k' Hne. by apply lookup_delete_ne.
Qed.
End touches.

Create HintDb touches.
#[export] Hint Resolve touches_storage touches_set_ex touches_set touches_set_nx_ex touches_expire
  touches_del : touches.
#[export] Hint Extern 4 (touches _ _ _) => apply touches_reads; eauto 4 with redis : touches.

(** ** What the handlers do to records and events *)

Section handlers.
Context `{Hspec : RedisSpec R} `{Hcodec : Codec} `{Hrcgen : Rcgen} `{Hmd5 : Md5}.
Implicit Types (now : Z) (s : ApiState (R := R)).
Import TunnelStorage.

Definition records now s (id : uuid) : option Tunnel := tunnel_at (live now (st_redis s)) id.

(** No event is recorded and no record of a tunnel changes. *)
Definition quiet now s s' : Prop :=
  st_events s' = st_events s
  ∧ ∀ id, live now (st_redis s') !! tunnel_key id = live now (st_redis s) !! tunnel_key id.

#[export] Instance quiet_preorder now : PreOrder (quiet now).
Proof. split; [done|]. intros s1 s2 s3 [E1 H1] [E2 H2]. split; [congruence|]. intros id. by rewrite H2. Qed.

Lemma quiet_records now s s' id : quiet now s s' → records now s' id = records now s id.
Proof. intros [_ Hl]. unfold records, tunnel_at. by rewrite (str_at_ext _ _ _ (Hl _)). Qed.

(** No key of [K] is that of a tunnel record. *)
Definition foreign (K : string → Prop) : Prop := ∀ id, ¬ K (tunnel_key id).

Lemma with_redis_quiet {A} now K (c : io R AE.t A) s s' res :
  touches now K c → foreign K → with_redis c s = (s', res) → quiet now s s'.
Proof.
  intros Hc HK (E & _ & _ & Hev)%with_redis_inv. split; [done|]. intros id. by apply (Hc _ _ _ E).
Qed.

Lemma with_usage_quiet {A} now (f : gmap string UserUsage → gmap string UserUsage * A) s s' res :
  with_usage f s = (s', res) → quiet now s s'.
Proof. unfold with_usage. destruct (f _) as [u a]. by intros [= <- <-]. Qed.

Lemma try_ports_touches now id ttl n port :
  touches now (λ k, ∃ p, k = port_key p) (try_ports (R := R) now id ttl n port).
Proof.
  revert port. induction n as [|n IH]; intros port; cbn [try_ports]; [eauto with touches|].
  apply touches_bind; [eauto with touches|]. intros [x|]; [eauto with touches|apply IH].
Qed.

Lemma port_keys_foreign : foreign (λ k, ∃ p, k = port_key p).
Proof. intros id [p E]. revert E. key_ne. Qed.
#[local] Hint Resolve port_keys_foreign : touches.

Lemma issue_and_allocate_quiet now e user s s' res :
  issue_and_allocate now e user s = (s', res) → quiet now s s'.
Proof.
  unfold issue_and_allocate. intros [(err & H1 & _)|(s1 & x & H1 & Hr)]%io_bind_cases.
  { unfold with_ca in H1. destruct (issue_client_certificate _ _ _ _ _ _) as [[ca r1] y]. done. }
  assert (quiet now s s1) as Hq.
  { unfold with_ca in H1. destruct (issue_client_certificate _ _ _ _ _ _) as [[ca r1] y] eqn:Ei.
    injection H1 as <- <-. split; [done|]. intros id. cbn. eapply issue_frame; [done|].
    intros sn. key_ne. }
  etrans; [exact Hq|]. clear Hq H1.
  apply io_bind_cases in Hr as [(err & [= <- _] & _)|(s2 & cert & [= <- _] & Hr)]; [done|].
  apply io_bind_cases in Hr as [(err & H2 & _)|(s3 & port & H2 & [-> _]%io_ret_inv)];
    (eapply with_redis_quiet; [|apply port_keys_foreign|exact H2]);
    apply touches_bind; eauto using try_ports_touches with touches.
Qed.

(** The keys a registration writes after the record of its tunnel. *)
Definition after_record (k : string) : Prop :=
  (∃ u, k = tunnel_lookup_key u) ∨ (∃ sub, k = subdomain_key sub) ∨ (∃ f, k = dns_slot_key f).

Lemma after_record_foreign : foreign after_record.
Proof. by intros id [[x E]|[[x E]|[x E]]]; revert E; key_ne. Qed.

Lemma claim_subdomain_touches now t ttl : touches now after_record (claim_subdomain (R := R) now t ttl).
Proof.
  unfold claim_subdomain. assert (after_record (subdomain_key (t_subdomain t))) by (unfold after_record; eauto).
  apply touches_bind; [eauto with touches|]. intros [x|]; [eauto with touches|].
  apply touches_bind; [eauto with touches|]. intros h. case_decide; eauto with touches.
Qed.

(** A registration changes its own record only, and succeeds only when it wrote it. *)
Lemma store_tunnel_own now ip t (r r' : R) res :
  store_tunnel now ip t r = (r', res) →
  (∀ id, id ≠ uuid_to_string (t_id t) → live now r' !! tunnel_key id = live now r !! tunnel_key id)
  ∧ (is_ok res = false ∧ live now r' !! tunnel_key (uuid_to_string (t_id t))
                         = live now r !! tunnel_key (uuid_to_string (t_id t))
     ∨ str_at (live now r') (tunnel_key (uuid_to_string (t_id t))) = Some (json_to_string (ser_Tunnel t))).
Proof.
  unfold store_tunnel. intros [(e & H1 & ->)|(r1 & [] & H1 & Hr)]%io_bind_cases.
  { unfold get_connection, storage in H1. apply io_map_err_err in H1 as [e' H1].
    apply connect_spec with (now := now) in H1. rewrite H1. auto. }
  apply io_map_err_ok, connect_spec with (now := now) in H1.
  apply io_bind_cases in Hr as [(e & H2 & ->)|(r2 & [] & H2 & Hr)].
  - apply io_map_err_err in H2 as [e' H2].
    destruct (proj2 (set_ex_writes now _ _ _) _ _ _ H2) as [H3|H3]; rewrite H1 in H3;
      unfold str_at; rewrite H3; [by auto|].
    unfold put_ex. rewrite lookup_insert_eq. split; [|auto].
    intros id Hne. apply lookup_insert_ne. by intros E%str_app_inj_l.
  - apply io_map_err_ok, (proj1 (set_ex_writes now _ _ _)) in H2. rewrite H1 in H2.
    assert (∀ id, live now r' !! tunnel_key id = live now r2 !! tunnel_key id) as Hk.
    { match type of Hr with ?c _ = _ => assert (touches now after_record c) as Ht end.
      - assert (∀ u, after_record (tunnel_lookup_key u)) by (unfold after_record; eauto).
        assert (∀ f, after_record (dns_slot_key f)) by (unfold after_record; eauto).
        apply touches_bind; [eauto with touches|]. intros ex.
        apply touches_bind; [eauto with touches|]. intros [].
        apply touches_bind; [apply claim_subdomain_touches|]. intros []. eauto with touches.
      - intros id. apply (Ht _ _ _ Hr), after_record_foreign. }
    unfold str_at. rewrite !Hk, H2. unfold put_ex. rewrite lookup_insert_eq. split; [|auto].
    intros id Hne. rewrite Hk, H2. unfold put_ex. apply lookup_insert_ne. by intros E%str_app_inj_l.
Qed.

Lemma store_ssh_session_quiet now id user pk fp exp s s' res :
  with_redis (store_ssh_session now id user pk fp exp) s = (s', res) → quiet now s s'.
Proof.
  apply (with_redis_quiet now (λ k, k = "session:" +:+ id)).
  - unfold store_ssh_session. apply touches_bind; [eauto with touches|]. intros [].
    by apply touches_storage, touches_set_ex.
  - intros id'. key_ne.
Qed.

Lemma is_subdomain_available_quiet now sub s s' res :
  with_redis (is_subdomain_available now sub) s = (s', res) → quiet now s s'.
Proof.
  apply (with_redis_quiet now (λ _, False)); [|by intros id []].
  apply touches_reads, is_subdomain_available_reads.
Qed.

(** The part of a creation before the tunnel is stored is quiet, and so is the part
    after the event. *)
Lemma create_tunnel_stages cfg now e headers q s s' res :
  create_tunnel cfg now e headers q s = (s', res) →
  (quiet now s s' ∧ is_ok res = false)
  ∨ ∃ user sub serial port s1 s2 r2, let t := new_tunnel now e user sub serial port q in
      authenticate cfg now headers = Ok user
      ∧ quiet now s s1
      ∧ (PORT_RANGE_START ≤ e_start_port e < PORT_RANGE_END → PORT_RANGE_START ≤ port ≤ PORT_RANGE_END)
      ∧ with_redis (store_tunnel now (e_edge_public_ip e) t) s1 = (s2, r2)
      ∧ (is_ok r2 = false ∧ s' = s2 ∧ is_ok res = false
         ∨ is_ok r2 = true
           ∧ quiet now (record_event (TunnelOpened (uuid_to_string (e_tunnel_id e)) (gh_id user) now) s2).1 s').
Proof.
  unfold create_tunnel. rewrite io_lift_bind.
  destruct (authenticate cfg now headers) as [user|]; [|intros [= <- <-]; by left].
  rewrite io_lift_bind. destruct (check_requested_ttl cfg q) as [[]|]; [|intros [= <- <-]; by left].
  intros [(err & H1%(with_usage_quiet now) & ->)|(s0 & can & H1%(with_usage_quiet now) & Hr)]%io_bind_cases;
    [by left|].
  rewrite io_lift_bind in Hr. destruct can; [|injection Hr as <- <-; by left].
  rewrite io_lift_bind in Hr. destruct (choose_subdomain e q) as [sub|]; [|injection Hr as <- <-; by left].
  apply io_bind_cases in Hr as [(err & H2%is_subdomain_available_quiet & ->)
                               |(s1 & av & H2%is_subdomain_available_quiet & Hr)];
    [left; split; [by etrans|done]|].
  rewrite io_lift_bind in Hr. destruct av; [|injection Hr as <- <-; left; split; [by etrans|done]].
  apply io_bind_cases in Hr as [(err & H3%issue_and_allocate_quiet & ->)|(s2 & [cert port] & H3 & Hr)];
    [left; split; [by do 2 (etrans; [done|])|done]|].
  right. pose proof (issue_and_allocate_quiet _ _ _ _ _ _ H3) as Hq3. cbn zeta in Hr.
  exists user, sub, (cm_serial_number (ec_metadata cert)), port, s2. cbn zeta.
  apply io_bind_cases in Hr as [(err & H4 & ->)|(s3 & [] & H4 & Hr)].
  - exists s', (Err err). split_and!; [done|by do 2 (etrans; [done|])| |done|by left].
    intros Hst. by apply (issue_and_allocate_ok _ _ _ _ _ _ _ H3 Hst).
  - exists s3, (Ok ()). split_and!; [done|by do 2 (etrans; [done|])| |done|right; split; [done|]].
    { intros Hst. by apply (issue_and_allocate_ok _ _ _ _ _ _ _ H3 Hst). }
    apply io_bind_cases in Hr as [(err & H5 & _)|(s4 & [] & H5 & Hr)]; [done|].
    injection H5 as <-. change (t_id (new_tunnel _ _ _ _ _ _ _)) with (e_tunnel_id e) in Hr |- *.
    cbn [fst record_event]. rewrite io_lift_bind in Hr.
    destruct (generate_ssh_key_pair e) as [key|]; [|by injection Hr as <- <-].
    apply io_bind_cases in Hr as [(err & H6%store_ssh_session_quiet & _)|(s5 & [] & H6%store_ssh_session_quiet & Hr)];
      [done|]. by injection Hr as <- <-.
Qed.

(** What the code can put into the record of a request. *)
Definition request_ok now (e : Env) (q : CreateTunnelRequest) : Prop :=
  u16_ok (q_port q) ∧ PORT_RANGE_START ≤ e_start_port e < PORT_RANGE_END
  ∧ dt_ok now ∧ dt_ok (now + secs (as_i64 (default 3600 (q_ttl q)))).

Lemma create_tunnel_meter cfg now e headers q s s' res :
  create_tunnel cfg now e headers q s = (s', res) → request_ok now e q →
  let id := e_tunnel_id e in
  (∀ id', id' ≠ id → records now s' id' = records now s id')
  ∧ (records now s' id = records now s id ∧ st_events s' = st_events s ∧ is_ok res = false
     ∨ ∃ t, records now s' id = Some t ∧ t_id t = id
         ∧ (st_events s' = st_events s ∧ is_ok res = false
            ∨ st_events s' = st_events s ++ [TunnelOpened (uuid_to_string id) (t_github_user_id t) now])).
Proof.
  intros [[Hq Hres]|Hst]%create_tunnel_stages (Hp & Hstart & Hdt) id.
  { split; [|left]; repeat split; auto using quiet_records. apply Hq. }
  destruct Hst as (user & sub & serial & port & s1 & s2 & r2 & Hst). cbn zeta in Hst.
  set (t := new_tunnel now e user sub serial port q) in Hst.
  destruct Hst as (_ & Hq1 & Hrange & (Hr & _ & _ & Hev)%with_redis_inv & Hend).
  apply store_tunnel_own in Hr as [Hother Hown]. change (t_id t) with id in Hother, Hown.
  assert (tunnel_ok t) as Hok.
  { specialize (Hrange Hstart). split_and!; [done| |apply Hdt..].
    cbn. unfold PORT_RANGE_START, PORT_RANGE_END, u16_ok in *. lia. }
  assert (∀ id', id' ≠ id → records now s2 id' = records now s id') as Hother2.
  { intros id' Hne. rewrite <- (quiet_records now s s1) by done. unfold records, tunnel_at.
    rewrite (str_at_ext _ (live now (st_redis s1))); [done|]. apply Hother.
    by intros E%uuid_to_string_inj. }
  assert (is_ok r2 = false ∧ records now s2 id = records now s id ∨ records now s2 id = Some t) as Hown2.
  { destruct Hown as [[Hf Hl]|Hl]; [left; split; [done|]|right]; unfold records, tunnel_at in *.
    - rewrite (str_at_ext _ _ _ Hl). by apply (quiet_records now s s1).
    - rewrite Hl. cbn. by rewrite from_str_to_string, de_ser_Tunnel by auto using tunnel_json_wf. }
  destruct Hq1 as [Hev1 _].
  destruct Hend as [(Hf & -> & Hres)|(Hok2 & Hq2)].
  - split; [done|]. destruct Hown2 as [[_ Hl]|Hl]; [left|right].
    + split_and!; [done|congruence|done].
    + exists t. split_and!; [done|done|left]. split; [congruence|done].
  - destruct Hown2 as [[Hf _]|Hl]; [congruence|]. split.
    + intros id' Hne. rewrite (quiet_records _ _ _ _ Hq2). by apply Hother2.
    + right. exists t. split_and!; [|done|right].
      * rewrite (quiet_records _ _ _ _ Hq2). exact Hl.
      * destruct Hq2 as [-> _]. cbn. by rewrite Hev, Hev1.
Qed.

(** A deletion only removes records, and tells the meter only about the one it has
    removed. *)
Lemma storage_delete_shrinks now id (r r' : R) res id' :
  TunnelStorage.delete_tunnel now id r = (r', res) →
  live now r' !! tunnel_key id' = live now r !! tunnel_key id' ∨ live now r' !! tunnel_key id' = None.
Proof.
  unfold TunnelStorage.delete_tunnel.
  intros [(e & H1 & _)|(r1 & o & H1 & Hr)]%io_bind_cases; apply get_tunnel_reads in H1; rewrite <- H1; [by left|].
  destruct o as [t|]; [|apply io_ret_inv in Hr as [-> _]; by left].
  apply io_bind_cases in Hr as [(e & [e' H2]%io_map_err_err & _)|(r2 & [] & H2%io_map_err_ok & Hr)];
    apply connect_spec with (now := now) in H2; rewrite <- H2; [by left|].
  apply io_bind_cases in Hr as [(e & [e' H3]%io_map_err_err & _)|(r3 & [] & H3%io_map_err_ok & Hr)].
  - apply (proj2 (del_writes now _)) in H3 as [-> | ->]; [by left|]. rewrite lookup_delete. case_decide; auto.
  - apply (proj1 (del_writes now _)) in H3.
    match type of Hr with ?c _ = _ => assert (touches now after_record c) as Ht end.
    + assert (∀ u, after_record (tunnel_lookup_key u)) by (unfold after_record; eauto).
      assert (∀ f, after_record (dns_slot_key f)) by (unfold after_record; eauto).
      assert (∀ f, after_record (subdomain_key f)) by (unfold after_record; eauto).
      repeat (apply touches_bind; [eauto with touches|intros ?]). case_match; [|eauto with touches].
      apply touches_bind; eauto with touches.
    + rewrite (Ht _ _ _ Hr) by apply after_record_foreign. rewrite H3, lookup_delete. case_decide; auto.
Qed.

Lemma delete_tunnel_meter cfg now tid headers s s' res :
  TunnelsApi.delete_tunnel cfg now tid headers s = (s', res) →
  (∀ id t, records now s' id = Some t → records now s id = Some t)
  ∧ (st_events s' = st_events s
     ∨ ∃ id t, records now s id = Some t ∧ records now s' id = None
         ∧ st_events s' = st_events s
             ++ [TunnelClosed (uuid_to_string (t_id t)) (t_github_user_id t) now UserRequested]).
Proof.
  unfold TunnelsApi.delete_tunnel. intros [(e & [(Hl & _ & _ & Hev) _]%owned_tunnel_spec & ->)
                               |(s1 & [[user id] t] & [(Hl & _ & _ & Hev) Hown]%owned_tunnel_spec & Hr)]%io_bind_cases.
  { unfold records. rewrite Hl. auto. }
  destruct Hown as (_ & _ & Ht & Ho).
  assert (∀ c s2 res2, with_redis (TunnelStorage.delete_tunnel now id) s1 = (s2, res2) →
            c = s2 → ∀ id' t', records now c id' = Some t' → records now s id' = Some t') as Hsh.
  { intros c s2 res2 (H2 & _ & _ & _)%with_redis_inv -> id' t'. unfold records, tunnel_at. rewrite <- Hl.
    destruct (storage_delete_shrinks _ _ _ _ _ (uuid_to_string id') H2) as [E|E].
    - by rewrite (str_at_ext _ _ _ E).
    - unfold str_at. by rewrite E. }
  apply io_bind_cases in Hr as [(e & H2 & ->)|(s2 & b & H2 & Hr)].
  { split; [by eapply Hsh|]. left. apply with_redis_inv in H2 as (_ & _ & _ & ->). done. }
  pose proof (Hsh _ _ _ H2 eq_refl) as Hsh2. apply with_redis_inv in H2 as (H2 & _ & _ & Hev2).
  apply delete_tunnel_effect in H2. rewrite Hl, Ht in H2. destruct H2 as [-> Hgone].
  unfold mbind, io_bind, record_event in Hr. cbn in Hr. injection Hr as <- <-. split; [done|right].
  exists id, t. split_and!; [done| |cbn; by rewrite Hev2, Hev, Ho].
  unfold records, tunnel_at, str_at. cbn. rewrite Hgone.
  assert (delete_map id t (live now (st_redis s)) !! tunnel_key (uuid_to_string id) = None) as ->; [|done].
  unfold delete_map, drop_tunnel_map. destruct (lookup_at _ _); by map_keys.
Qed.
End handlers.

(** ** Histories *)

(** The events of one tunnel. *)
Definition events_of (id : string) (events : list UsageEvent) : list UsageEvent :=
  filter (λ e, event_tunnel_id e = id) events.

(** What a tunnel may be billed for: nothing, an open interval, a closed one, or, when
    its creation failed, a close alone. *)
Inductive billed (now : Z) (id : string) (failed : Prop) : list UsageEvent → Prop :=
  | billed_none : billed now id failed []
  | billed_open u a : a ≤ now → billed now id failed [TunnelOpened id u a]
  | billed_interval u a c : a ≤ c → c ≤ now →
      billed now id failed [TunnelOpened id u a; TunnelClosed id u c UserRequested]
  | billed_close u c : failed → c ≤ now → billed now id failed [TunnelClosed id u c UserRequested].

Section history.
Context `{Hspec : RedisSpec R} `{Hcodec : Codec} `{Hrcgen : Rcgen} `{Hmd5 : Md5}.
Context (cfg : ApiConfig).

(** [w_created] and [w_failed]: the identifiers of the creations that were answered
    with a tunnel and with an error. *)
Record World := {
  w_now : Z;
  w_api : ApiState (R := R);
  w_created : list uuid;
  w_failed : list uuid;
}.

(** The identifier a creation draws was never drawn before.  Everything but creations
    and deletions, time included, can only end the records of tunnels. *)
Inductive meter_step : World → World → Prop :=
  | step_create w e headers q s' res :
      request_ok (w_now w) e q →
      e_tunnel_id e ∉ w_created w → e_tunnel_id e ∉ w_failed w →
      create_tunnel cfg (w_now w) e headers q (w_api w) = (s', res) →
      meter_step w {| w_now := w_now w; w_api := s';
                      w_created := if is_ok res then e_tunnel_id e :: w_created w else w_created w;
                      w_failed := if is_ok res then w_failed w else e_tunnel_id e :: w_failed w |}
  | step_delete w tid headers s' res :
      delete_tunnel cfg (w_now w) tid headers (w_api w) = (s', res) →
      meter_step w {| w_now := w_now w; w_api := s'; w_created := w_created w; w_failed := w_failed w |}
  | step_other w now s' :
      w_now w ≤ now → st_events s' = st_events (w_api w) →
      (∀ id t, records now s' id = Some t → records (w_now w) (w_api w) id = Some t) →
      meter_step w {| w_now := now; w_api := s'; w_created := w_created w; w_failed := w_failed w |}.

(** A deployment without tunnels whose meter was told nothing. *)
Definition initial (w : World) : Prop :=
  w_created w = [] ∧ w_failed w = [] ∧ st_events (w_api w) = []
  ∧ ∀ id, records (w_now w) (w_api w) id = None.
Definition reachable (w : World) : Prop := ∃ w0, initial w0 ∧ rtc meter_step w0 w.

Definition tunnel_inv (w : World) (id : uuid) : Prop :=
  let evs := events_of (uuid_to_string id) (st_events (w_api w)) in
  billed (w_now w) (uuid_to_string id) (id ∈ w_failed w) evs
  ∧ (id ∈ w_created w → ∃ u a rest, evs = TunnelOpened (uuid_to_string id) u a :: rest)
  ∧ (id ∉ w_created w → id ∉ w_failed w → evs = [] ∧ records (w_now w) (w_api w) id = None)
  ∧ ∀ t, records (w_now w) (w_api w) id = Some t →
      t_id t = id ∧ (evs = [] ∧ id ∈ w_failed w
                     ∨ ∃ a, a ≤ w_now w ∧ evs = [TunnelOpened (uuid_to_string id) (t_github_user_id t) a]).
Definition meter_inv (w : World) : Prop := ∀ id, tunnel_inv w id.

Lemma billed_mono now now' id (F F' : Prop) evs :
  now ≤ now' → (F → F') → billed now id F evs → billed now' id F' evs.
Proof. intros Hle HF []; constructor; (tauto || lia). Qed.

Lemma events_of_snoc id evs e :
  events_of id (evs ++ [e]) = events_of id evs ++ if decide (event_tunnel_id e = id) then [e] else [].
Proof. unfold events_of. by rewrite filter_app. Qed.

(** A step that tells the meter nothing about a tunnel and keeps or ends its record. *)
Lemma tunnel_inv_frame w w' id :
  w_now w ≤ w_now w' → (id ∈ w_created w' ↔ id ∈ w_created w) → (id ∈ w_failed w' ↔ id ∈ w_failed w) →
  events_of (uuid_to_string id) (st_events (w_api w')) = events_of (uuid_to_string id) (st_events (w_api w)) →
  (∀ t, records (w_now w') (w_api w') id = Some t → records (w_now w) (w_api w) id = Some t) →
  tunnel_inv w id → tunnel_inv w' id.
Proof.
  unfold tunnel_inv. intros Hle Hc Hf -> Hr (Hb & Hcr & Hfresh & Hrec). split_and!.
  - eapply billed_mono; [done|apply Hf|done].
  - by rewrite Hc.
  - rewrite Hc, Hf. intros H1 H2. destruct (Hfresh H1 H2) as [-> Hn]. split; [done|].
    destruct (records (w_now w') _ id) as [t|]; [|done]. specialize (Hr t eq_refl). congruence.
  - intros t Ht. destruct (Hrec t (Hr t Ht)) as (? & [?|(a & ? & ?)]); split; try done; [left; by rewrite Hf|].
    right. exists a. split; [lia|done].
Qed.

Lemma create_step_inv w e headers q s' res :
  request_ok (w_now w) e q → e_tunnel_id e ∉ w_created w → e_tunnel_id e ∉ w_failed w →
  create_tunnel cfg (w_now w) e headers q (w_api w) = (s', res) → meter_inv w →
  meter_inv {| w_now := w_now w; w_api := s';
               w_created := if is_ok res then e_tunnel_id e :: w_created w else w_created w;
               w_failed := if is_ok res then w_failed w else e_tunnel_id e :: w_failed w |}.
Proof.
  intros Hq Hc Hf Hr Hinv id. apply create_tunnel_meter in Hr as [Hother Hown]; [|done].
  destruct (decide (id = e_tunnel_id e)) as [->|Hne].
  - destruct (Hinv (e_tunnel_id e)) as (_ & _ & Hfresh & _). destruct (Hfresh Hc Hf) as [Hev Hrec].
    destruct Hown as [(Hr' & Hev' & Hres)|(t & Hr' & Hid & [[Hev' Hres]|Hev'])]; unfold tunnel_inv; cbn;
      rewrite Hev', ?events_of_snoc, Hev, Hr'; try rewrite Hres; cbn.
    + rewrite Hrec. split_and!; [constructor|done|done|done].
    + split; [apply billed_none|]. split; [done|]. split; [intros _ []; by apply elem_of_cons; left|].
      intros t' [= <-]. split; [done|left]. split; [done|]. by apply elem_of_cons; left.
    + rewrite decide_True by done. split_and!.
      * by constructor.
      * intros _. eauto.
      * destruct (is_ok res); rewrite !elem_of_cons; tauto.
      * intros t' [= <-]. split; [done|right]. by exists (w_now w).
  - eapply (tunnel_inv_frame w); [cbn; lia| | | | |apply Hinv]; cbn.
    1, 2: destruct (is_ok res); rewrite ?elem_of_cons; naive_solver.
    + destruct Hown as [(_ & Hev & _)|(t & _ & _ & [[Hev _]|Hev])]; rewrite Hev; try done.
      rewrite events_of_snoc, decide_False, app_nil_r; [done|]. cbn.
      by intros E%uuid_to_string_inj.
    + intros t. by rewrite Hother.
Qed.

Lemma delete_step_inv w tid headers s' res :
  delete_tunnel cfg (w_now w) tid headers (w_api w) = (s', res) → meter_inv w →
  meter_inv {| w_now := w_now w; w_api := s'; w_created := w_created w; w_failed := w_failed w |}.
Proof.
  intros [Hsh Hev]%delete_tunnel_meter Hinv id.
  destruct Hev as [Hev|(id0 & t & Ht & Hgone & Hev)].
  { eapply (tunnel_inv_frame w); [cbn; lia|done|done| |apply Hsh|apply Hinv]. cbn. by rewrite Hev. }
  destruct (Hinv id0) as (_ & Hcr & Hfresh & Hrec). destruct (Hrec t Ht) as [<- Hone].
  destruct (decide (id = t_id t)) as [->|Hne].
  - unfold tunnel_inv. cbn. rewrite Hev, events_of_snoc, Hgone. cbn. rewrite decide_True by done.
    split_and!; [| | |done].
    + destruct Hone as [[-> Hf]|(a & Ha & ->)]; by constructor.
    + intros Hc. destruct (Hcr Hc) as (u & a & rest & ->). by eexists _, _, _.
    + intros H1 H2. destruct (Hfresh H1 H2). congruence.
  - eapply (tunnel_inv_frame w); [cbn; lia|done|done| |apply Hsh|apply Hinv]. cbn.
    rewrite Hev, events_of_snoc, decide_False, app_nil_r; [done|]. cbn. by intros E%uuid_to_string_inj.
Qed.

Lemma meter_step_inv w w' : meter_step w w' → meter_inv w → meter_inv w'.
Proof.
  intros [w0 e headers q s' res Hq Hc Hf Hr|w0 tid headers s' res Hr|w0 now s' Hle Hev Hsh] Hinv.
  - by eapply create_step_inv.
  - by eapply delete_step_inv.
  - intros id. eapply (tunnel_inv_frame w0); [done|done|done| |apply Hsh|apply Hinv]. cbn. by rewrite Hev.
Qed.

Lemma reachable_meter_inv w : reachable w → meter_inv w.
Proof.
  intros (w0 & (Hc & Hf & Hev & Hrec) & Hsteps).
  assert (meter_inv w0) as Hinv.
  { intros id. unfold tunnel_inv. rewrite Hc, Hf, Hev, Hrec. cbn. split_and!; try done; [constructor|].
    by intros ?%elem_of_nil. }
  clear Hc Hf Hev Hrec. induction Hsteps; eauto using meter_step_inv.
Qed.
End history.

(** The handlers that show tunnels and mint grants are steps of the third kind. *)
Lemma other_handlers_quiet `{RedisSpec R} `{Codec} `{Rcgen} `{Md5} cfg now e tid headers (s s' : ApiState (R := R)) :
  (∀ res, get_tunnel cfg now tid headers s = (s', res) → quiet now s s')
  ∧ (∀ res, create_tunnel_session cfg now e tid headers s = (s', res) → quiet now s s').
Proof.
  assert (∀ denied s' res, owned_tunnel cfg now tid denied headers s = (s', res) → quiet now s s') as Ho.
  { intros denied s1 res [(Hl & _ & _ & Hev) _]%owned_tunnel_spec. split; [done|]. intros id. by rewrite Hl. }
  split; intros res [(err & E1%Ho & _)|(s1 & [[user id] t] & E1%Ho & Hr)]%io_bind_cases; try done.
  - by injection Hr as <- <-.
  - etrans; [exact E1|].
    assert (∀ s2 res2, with_redis (TunnelStorage.store_session_grant now (t_subdomain t)
              (generate_random_string (e_token e)) (gh_id user) SESSION_GRANT_TTL_SECONDS) s1 = (s2, res2) →
              quiet now s1 s2) as Hg.
    { intros s2 res2. apply (with_redis_quiet now (λ k, ∃ a b, k = session_grant_key a b)).
      - unfold TunnelStorage.store_session_grant. apply touches_bind; [eauto with touches|]. intros [].
        apply touches_storage, touches_set_ex. eauto.
      - intros id' (a & b & E). revert E. key_ne. }
    apply io_bind_cases in Hr as [(err & E2%Hg & _)|(s2 & [] & E2%Hg & Hr)]; [done|]. by injection Hr as <- <-.
Qed.

(** C33: what a tunnel is billed for.  Whatever users create and delete, at whatever
    command a request fails, and whatever time and the other services end in between, a
    meter that keeps its events has about one tunnel nothing, its opening, or its opening
    and one later closing by the same user; a closing alone only when the creation of the
    tunnel was answered with an error.  A tunnel whose creation was answered is opened in
    the meter, and while its record lasts it is open, for its owner. *)
Theorem metered_intervals `{RedisSpec R} `{Codec} `{Rcgen} `{Md5} cfg (w : World (R := R)) id
    (Hw : reachable cfg w) :
  let evs := events_of (uuid_to_string id)
               (cm_events (metered CollectingMeter_new (st_events (w_api w)))) in
  billed (w_now w) (uuid_to_string id) (id ∈ w_failed w) evs
  ∧ (id ∈ w_created w → ∃ u a rest, evs = TunnelOpened (uuid_to_string id) u a :: rest)
  ∧ ∀ t, records (w_now w) (w_api w) id = Some t → id ∈ w_created w →
      ∃ a, a ≤ w_now w ∧ evs = [TunnelOpened (uuid_to_string id) (t_github_user_id t) a].
Proof.
  cbn zeta. rewrite metered_collecting. cbn [CollectingMeter_new cm_events app].
  destruct (reachable_meter_inv cfg w Hw id) as (Hb & Hc & _ & Hr). split_and!; [done|done|].
  intros t Ht Hin. destruct (Hr t Ht) as [_ [[Hnil _]|Hone]]; [|done].
  destruct (Hc Hin) as (u & a & rest & E). congruence.
Qed.

(** ** Examples *)
Module MeteringDemo.
Import MemRedis BitCodec AuthDemo CADemo ApiDemo.

Definition world (now : Z) (s : ApiState (R := mem)) (created failed : list (@uuid bit_codec)) : World :=
  {| w_now := now; w_api := s; w_created := created; w_failed := failed |}.

(** A tunnel lives for ten seconds and is deleted by its owner. *)
Definition deleted := delete_tunnel default_api_config (secs 10) tid ann ApiDemo.created.1.
Definition w0 : World := world 0 start [] [].
Definition w1 : World := world 0 ApiDemo.created.1 [e_tunnel_id env] [].
Definition w2 : World := world (secs 10) ApiDemo.created.1 [e_tunnel_id env] [].
Definition w3 : World := world (secs 10) deleted.1 [e_tunnel_id env] [].

Lemma metered_intervals_witness :
  events_of tid (st_events (w_api w3)) = [TunnelOpened tid "42" 0; TunnelClosed tid "42" (secs 10) UserRequested]
  ∧ ∃ u a rest, events_of tid (cm_events (metered CollectingMeter_new (st_events (w_api w3))))
                = TunnelOpened tid u a :: rest.
Proof.
  split; [eval_eq|].
  refine (proj1 (proj2 (metered_intervals default_api_config w3 (e_tunnel_id env) _)) _).
  2: { by apply elem_of_cons; left. }
  exists w0. split.
  - by split_and!.
  - eapply rtc_l; [|eapply rtc_l; [|eapply rtc_l; [|apply rtc_refl]]].
    + refine (step_create default_api_config w0 env ann request ApiDemo.created.1 (Ok response) _ _ _ _).
      * by vm_compute.
      * by intros ?%elem_of_nil.
      * by intros ?%elem_of_nil.
      * eval_eq.
    + refine (step_other default_api_config w1 (secs 10) ApiDemo.created.1 _ eq_refl _); [by vm_compute|].
      assert (0 ≤ secs 10) as Ht by (unfold secs; lia).
      intros id t. unfold records, tunnel_at, w1, world. cbn [w_now w_api].
      destruct (str_at (live (secs 10) _) _) as [x|] eqn:E; [|done].
      by rewrite (str_at_later 0 (secs 10) _ _ _ Ht E).
    + refine (step_delete default_api_config w2 tid ann deleted.1 deleted.2 (surjective_pairing deleted)).
Defined.

(** The opening is recorded before the session is stored: a creation that then fails is
    metered. *)
Definition no_key : Env :=
  {| e_tunnel_id := e_tunnel_id env; e_request_id := e_request_id env; e_serial := e_serial env;
     e_entropy := e_entropy env; e_start_port := e_start_port env; e_subdomain := e_subdomain env;
     e_keypair := Err "no entropy"; e_username := e_username env; e_password := e_password env;
     e_token := e_token env; e_edge_public_ip := e_edge_public_ip env |}.
Definition keyless := create_tunnel default_api_config 0 no_key ann request start.
Example failed_creation_metered :
  is_ok keyless.2 = false ∧ st_events keyless.1 = [TunnelOpened tid "42" 0].
Proof. by vm_compute. Qed.

(** A claim without a record, as of a tunnel whose record was lost, lets a creation fail
    after it has listed its own record; deleting that records a closing alone. *)
Definition stale : ApiState (R := mem) :=
  {| st_redis := (r_set_ex 0 (subdomain_key "app") (uuid_to_string (9%N : @uuid bit_codec)) 3600 (∅ : mem)).1;
     st_usage := ∅; st_ca := authority; st_events := [] |}.
Definition conflicted := create_tunnel default_api_config 0 env ann request stale.
Definition tidied := delete_tunnel default_api_config (secs 5) tid ann conflicted.1.
Example close_without_open :
  is_ok conflicted.2 = false ∧ is_ok tidied.2 = true
  ∧ st_events tidied.1 = [TunnelClosed tid "42" (secs 5) UserRequested].
Proof. by vm_compute. Qed.
End MeteringDemo.
