(* ===== verification/SignerMonitor.v ===== *)
(** * Validators and monitors of the DNSSEC signer

    crates/dnsd/src/sign.rs: [DnssecValidator] and [DnssecMonitor] as objects a program
    holds, which share validators, over the functions of [Dnssec], and the documents of
    the monitoring functions.  A validator is a cell with its statistics; a program
    can reach it only when [create_validator] gave it the handle. *)

From S2P Require Import Prelude Serde Float Dnssec.

Module SignerMonitor.

(** [DnssecMonitor]: the validator is shared. *)
Record Monitor := { mo_validator : nat; mo_config : AlertConfig; mo_history : list Alert }.

(** The cells, the handles the program has been given and the next free cell. *)
Record Cells := {
  validators : gmap nat ValidationStats;
  held : gset nat;
  monitors : gmap nat Monitor;
  next : nat;
}.
Definition no_cells : Cells := {| validators := ∅; held := ∅; monitors := ∅; next := 0 |}.

(** [DnssecValidator::new]: a cell nobody holds yet. *)
Definition DnssecValidator_new (c : Cells) : Cells * nat :=
  ({| validators := <[next c := default_stats]> (validators c); held := held c;
      monitors := monitors c; next := S (next c) |}, next c).
Definition hold (v : nat) (c : Cells) : Cells :=
  {| validators := validators c; held := {[v]} ∪ held c; monitors := monitors c; next := next c |}.
Definition create_validator (c : Cells) : Cells := let '(c, v) := DnssecValidator_new c in hold v c.

Definition Monitor_new (v : nat) (cfg : AlertConfig) (c : Cells) : Cells :=
  {| validators := validators c; held := held c;
     monitors := <[next c := {| mo_validator := v; mo_config := cfg; mo_history := [] |}]> (monitors c);
     next := S (next c) |}.
Definition create_monitor (cfg : AlertConfig) (c : Cells) : Cells :=
  let '(c, v) := DnssecValidator_new c in Monitor_new v cfg c.

Definition get_validation_stats (v : nat) (c : Cells) : ValidationStats := default default_stats (validators c !! v).
Definition set_stats (v : nat) (f : ValidationStats → ValidationStats) (c : Cells) : Cells :=
  {| validators := alter f v (validators c); held := held c; monitors := monitors c; next := next c |}.
Definition reset_validation_stats (v : nat) : Cells → Cells := set_stats v (λ _, default_stats).

(** The monitor as [Dnssec] has it, with the statistics of its validator. *)
Definition view (mo : Monitor) (c : Cells) : DnssecMonitor :=
  {| validator_stats := get_validation_stats (mo_validator mo) c; alert_config := mo_config mo;
     alert_history := mo_history mo |}.
Definition set_alerts (i : nat) (h : list Alert) (c : Cells) : Cells :=
  {| validators := validators c; held := held c;
     monitors := alter (λ mo, {| mo_validator := mo_validator mo; mo_config := mo_config mo; mo_history := h |})
                   i (monitors c);
     next := next c |}.

Definition get_all_alerts (mo : Monitor) : list Alert := mo_history mo.

(** ** The documents *)

Record MonitoringStats := {
  ms_validation_stats : ValidationStats;
  ms_alert_config : AlertConfig;
  ms_recent_alerts_count : Z;
  ms_total_alerts : Z;
  ms_high_failure_rate : Z;
  ms_slow_validation : Z;
  ms_key_rotation_needed : Z;
}.
Definition count_type (t : AlertType) (alerts : list Alert) : Z :=
  Z.of_nat (length (filter (λ a, alert_type a = t) alerts)).
Definition get_monitoring_stats (now : Z) (mo : Monitor) (c : Cells) : MonitoringStats :=
  let recent := get_recent_alerts now (secs 3600) (view mo c) in
  {| ms_validation_stats := get_validation_stats (mo_validator mo) c;
     ms_alert_config := mo_config mo;
     ms_recent_alerts_count := Z.of_nat (length recent);
     ms_total_alerts := Z.of_nat (length (mo_history mo));
     ms_high_failure_rate := count_type HighFailureRate recent;
     ms_slow_validation := count_type SlowValidation recent;
     ms_key_rotation_needed := count_type KeyRotationNeeded recent |}.

Section signer.
Context `{Hhmac : Hmac} `{Hrecords : Records}.

Record MonitoringInfo := {
  mi_key_statistics : gmap string json;
  mi_needs_rotation : bool;
  mi_config : DnssecConfig;
  mi_status : string;
}.
Definition get_monitoring_info (now : Z) (s : ProductionDnssecSigner) : MonitoringInfo :=
  {| mi_key_statistics := get_statistics now s; mi_needs_rotation := needs_rotation now (key_manager s);
     mi_config := signer_config s; mi_status := "operational" |}.

(** ** Programs *)

Context (show2 : f64 → string).

(** What a program can do with the handles it has; the keys of the signer, which
    change with time, are those of the moment. *)
Inductive MonitorCall :=
  | CallCreateValidator
  | CallCreateMonitor (cfg : AlertConfig)
  | CallMonitorNew (v : nat) (cfg : AlertConfig)
  | CallValidate (v : nat) (now elapsed : Z) (m : DnssecKeyManager) (r : RRSIG) (rrset : string)
      (a : DnssecAlgorithm)
  | CallReset (v : nat)
  | CallCheckAlerts (i : nat) (now : Z)
  | CallClearHistory (i : nat).

Definition if_held (v : nat) (f : Cells → Cells) (c : Cells) : Cells :=
  if bool_decide (v ∈ held c) then f c else c.

Definition monitor_call (c : Cells) (k : MonitorCall) : Cells :=
  match k with
  | CallCreateValidator => create_validator c
  | CallCreateMonitor cfg => create_monitor cfg c
  | CallMonitorNew v cfg => if_held v (Monitor_new v cfg) c
  | CallValidate v now elapsed m r rrset a =>
      if_held v (set_stats v (λ st, (validate_rrsig now elapsed m r rrset a st).1)) c
  | CallReset v => if_held v (reset_validation_stats v) c
  | CallCheckAlerts i now =>
      match monitors c !! i with
      | Some mo => set_alerts i (alert_history (check_alerts show2 now (view mo c)).1) c
      | None => c
      end
  | CallClearHistory i => set_alerts i [] c
  end.
Definition monitor_run (ks : list MonitorCall) : Cells := foldl monitor_call no_cells ks.
End signer.
End SignerMonitor.
Import SignerMonitor.

(** ** The monitor a signer creates *)

Section lemmas.
Context `{Hhmac : Hmac} `{Hrecords : Records} (show2 : f64 → string).
Implicit Types (c : Cells).

(** A monitor on a validator nobody holds has nothing to see. *)
Definition blind (i v : nat) (cfg : AlertConfig) (c : Cells) : Prop :=
  monitors c !! i = Some {| mo_validator := v; mo_config := cfg; mo_history := [] |}
  ∧ validators c !! v = Some default_stats ∧ (v ∉ held c) ∧ (v < next c)%nat ∧ (i < next c)%nat.

(** Zero of zero validations is not a number, and no rate above any threshold. *)
Lemma no_validations_no_alerts now (m : DnssecMonitor) :
  validator_stats m = default_stats → 0 ≤ max_avg_validation_time_us (alert_config m) →
  current_alerts show2 now m = [].
Proof.
  intros Hst Hmax. unfold current_alerts. rewrite Hst.
  assert (f64_gtb (failure_rate default_stats) (max_failure_rate (alert_config m)) = false) as ->
    by (change (failure_rate default_stats) with SpecFloat.S754_nan;
        by destruct (max_failure_rate (alert_config m))).
  rewrite andb_false_r. cbn [average_validation_time_us default_stats].
  by destruct (Z.ltb_spec (max_avg_validation_time_us (alert_config m)) 0); [lia|].
Qed.

Lemma blind_alerts now i v cfg c :
  0 ≤ max_avg_validation_time_us cfg → blind i v cfg c →
  current_alerts show2 now (view {| mo_validator := v; mo_config := cfg; mo_history := [] |} c) = [].
Proof.
  intros Hmax (_ & Hv & _). apply no_validations_no_alerts; [|done].
  cbn. unfold get_validation_stats. cbn. by rewrite Hv.
Qed.

Lemma blind_new_validator i v cfg c : blind i v cfg c → blind i v cfg (DnssecValidator_new c).1.
Proof.
  intros (Hm & Hv & Hh & Hlt & Hi). split_and!; cbn; try done; [|lia..].
  by rewrite lookup_insert_ne by lia.
Qed.

Lemma blind_monitor_new i v cfg c v' cfg' : blind i v cfg c → blind i v cfg (Monitor_new v' cfg' c).
Proof.
  intros (Hm & Hv & Hh & Hlt & Hi). split_and!; cbn; try done; [|lia..].
  by rewrite lookup_insert_ne by lia.
Qed.

Lemma blind_set_stats i v cfg c v' f : v' ≠ v → blind i v cfg c → blind i v cfg (set_stats v' f c).
Proof.
  intros Hne (Hm & Hv & Hh & Hlt & Hi). split_and!; cbn; try done. by rewrite lookup_alter_ne.
Qed.

Lemma blind_set_alerts i v cfg c i' h :
  (i' = i → h = []) → blind i v cfg c → blind i v cfg (set_alerts i' h c).
Proof.
  intros Hh' (Hm & Hv & Hh & Hlt & Hi). split_and!; cbn; try done. rewrite lookup_alter.
  case_decide as E; [|done]. rewrite E, Hm. cbn. by rewrite Hh'.
Qed.

Lemma blind_if_held i v cfg c v' f :
  (v' ≠ v → blind i v cfg c → blind i v cfg (f c)) → blind i v cfg c → blind i v cfg (if_held v' f c).
Proof.
  intros Hf Hb. unfold if_held. case_bool_decide as Hin; [|done]. apply Hf; [|done].
  intros ->. by destruct Hb as (_ & _ & Hh & _).
Qed.

Lemma blind_call i v cfg c k :
  0 ≤ max_avg_validation_time_us cfg → blind i v cfg c → blind i v cfg (monitor_call show2 c k).
Proof.
  intros Hmax Hb. destruct k as [|cfg'|v' cfg'|v' now elapsed m r rrset a|v'|i' now|i']; cbn [monitor_call].
  - unfold create_validator. destruct (DnssecValidator_new c) as [c' v'] eqn:E.
    pose proof (blind_new_validator _ _ _ _ Hb) as Hb'. rewrite E in Hb'. injection E as <- <-.
    destruct Hb as (_ & _ & _ & Hlt & _), Hb' as (Hm & Hv & Hh & Hlt' & Hi).
    split_and!; try done. cbn in *. rewrite elem_of_union, elem_of_singleton. intros [->|?]; [lia|done].
  - unfold create_monitor. destruct (DnssecValidator_new c) as [c' v'] eqn:E.
    apply blind_monitor_new. by rewrite <- (f_equal fst E : _ = c'); apply blind_new_validator.
  - apply blind_if_held; [|done]. intros _. apply blind_monitor_new.
  - apply blind_if_held; [|done]. intros Hne. by apply blind_set_stats.
  - apply blind_if_held; [|done]. intros Hne. by apply blind_set_stats.
  - destruct (monitors c !! i') as [mo|] eqn:Em; [|done]. apply blind_set_alerts; [|done].
    intros ->. destruct Hb as (Hm & Hrest). rewrite Hm in Em. injection Em as <-.
    cbn. by rewrite (blind_alerts now i v cfg c Hmax (conj Hm Hrest)).
  - by apply blind_set_alerts.
Qed.

(** Handles are given out for cells that exist. *)
Definition held_ok c : Prop := ∀ v, v ∈ held c → (v < next c)%nat.

Lemma held_ok_le c c' : held c' = held c → (next c ≤ next c')%nat → held_ok c → held_ok c'.
Proof. intros Hh Hle Hok v. rewrite Hh. intros Hv%Hok. lia. Qed.

Lemma held_call c k : held_ok c → held_ok (monitor_call show2 c k).
Proof.
  intros Hok. destruct k as [|cfg|v cfg|v now elapsed m r rrset a|v|i now|i]; cbn [monitor_call];
    unfold if_held; repeat case_match;
    try (apply (held_ok_le c); cbn; solve [done | lia]); try done.
  intros v. cbn. rewrite elem_of_union, elem_of_singleton. intros [->|Hv%Hok]; lia.
Qed.

Lemma held_run ks : held_ok (monitor_run show2 ks).
Proof.
  unfold monitor_run. assert (held_ok no_cells) as Hok by (intros v; set_solver).
  revert Hok. generalize no_cells. induction ks as [|k ks IH]; intros c Hok; [done|].
  by apply IH, held_call.
Qed.
End lemmas.

(** A monitor from [create_monitor] never sees a validation: its validator is reachable
    through nothing else, so whatever is validated with the signer's other validators it
    reports none, raises no alert and keeps an empty history. *)
Lemma created_monitor_blind `{Hmac} `{Records} show2 ks cfg ks' now :
  0 ≤ max_avg_validation_time_us cfg →
  let c := monitor_run show2 (ks ++ CallCreateMonitor cfg :: ks') in
  ∃ mo, monitors c !! S (next (monitor_run show2 ks)) = Some mo ∧ mo_config mo = cfg
    ∧ get_all_alerts mo = [] ∧ (check_alerts show2 now (view mo c)).2 = []
    ∧ get_monitoring_stats now mo c =
        {| ms_validation_stats := default_stats; ms_alert_config := cfg; ms_recent_alerts_count := 0;
           ms_total_alerts := 0; ms_high_failure_rate := 0; ms_slow_validation := 0;
           ms_key_rotation_needed := 0 |}.
Proof.
  intros Hmax c.
  assert (blind (S (next (monitor_run show2 ks))) (next (monitor_run show2 ks)) cfg c) as Hb.
  { unfold c, monitor_run. rewrite foldl_app. cbn [foldl]. fold (monitor_run show2 ks).
    pose proof (held_run show2 ks) as Hheld. revert Hheld. generalize (monitor_run show2 ks). intros c0 Hheld.
    assert (blind (S (next c0)) (next c0) cfg (monitor_call show2 c0 (CallCreateMonitor cfg))) as Hb.
    { split_and!; cbn; [by rewrite lookup_insert_eq..| |lia|lia]. intros Hin%Hheld. lia. }
    revert Hb. generalize (monitor_call show2 c0 (CallCreateMonitor cfg)).
    induction ks' as [|k ks' IH]; intros c1 Hb; [done|]. apply IH, blind_call; done. }
  eexists. split; [apply Hb|]. split_and!; [done|done|by apply blind_alerts with (i := S (next (monitor_run show2 ks)))|].
  unfold get_monitoring_stats, get_validation_stats. cbn. destruct Hb as (_ & -> & _). done.
Qed.

(** ** The counts of the documents *)

Section counts.
Context `{Hhmac : Hmac} `{Hrecords : Records} (show2 : f64 → string).

Definition bounded (h : list Alert) : Prop := (length h ≤ 1000)%nat.

Lemma push_alert_bounded h a : bounded h → bounded (push_alert h a).
Proof.
  unfold bounded, push_alert. intros Hh. destruct (Z.ltb_spec 1000 (Z.of_nat (length (h ++ [a])))) as [Hlt|Hge];
    rewrite ?length_drop, length_app in *; cbn in *; lia.
Qed.

Definition histories_ok (c : Cells) : Prop := ∀ i mo, monitors c !! i = Some mo → bounded (mo_history mo).

Lemma histories_set_alerts c i h : bounded h → histories_ok c → histories_ok (set_alerts i h c).
Proof.
  intros Hh Hok j mo. cbn. rewrite lookup_alter. case_decide; [|apply Hok].
  destruct (monitors c !! i); [|done]. intros [= <-]. done.
Qed.

Lemma histories_new c v cfg : histories_ok c → histories_ok (Monitor_new v cfg c).
Proof.
  intros Hok j mo. cbn. rewrite lookup_insert. case_decide; [|apply Hok]. intros [= <-]. unfold bounded. cbn. lia.
Qed.

Lemma histories_call c k : histories_ok c → histories_ok (monitor_call show2 c k).
Proof.
  intros Hok. destruct k as [|cfg|v cfg|v now elapsed m r rrset a|v|i now|i]; cbn [monitor_call];
    unfold if_held; try (case_bool_decide; [|done]); try exact Hok.
  - apply histories_new, Hok.
  - by apply histories_new.
  - destruct (monitors c !! i) as [mo|] eqn:Em; [|done]. apply histories_set_alerts; [|done].
    cbn. generalize (current_alerts show2 now (view mo c)). intros alerts.
    pose proof (Hok _ _ Em) as Hh. revert Hh. generalize (mo_history mo).
    induction alerts as [|a alerts IH]; intros h Hh; [done|]. by apply IH, push_alert_bounded.
  - apply histories_set_alerts; [|done]. unfold bounded. cbn. lia.
Qed.

Lemma histories_run ks : histories_ok (monitor_run show2 ks).
Proof.
  unfold monitor_run. assert (histories_ok no_cells) as Hok by (intros i mo; cbn; by rewrite lookup_empty).
  revert Hok. generalize no_cells. induction ks as [|k ks IH]; intros c Hok; [done|].
  by apply IH, histories_call.
Qed.

Lemma count_types alerts :
  count_type HighFailureRate alerts + count_type SlowValidation alerts + count_type KeyRotationNeeded alerts
  ≤ Z.of_nat (length alerts).
Proof.
  unfold count_type. induction alerts as [|a alerts IH]; [done|].
  rewrite !filter_cons. destruct (alert_type a) eqn:E; repeat case_decide; simplify_eq; cbn in *; lia.
Qed.
End counts.

(** The counts of a monitor's document agree, and never exceed the thousand alerts a
    monitor keeps. *)
Lemma monitoring_counts `{Hmac} `{Records} show2 ks i mo now :
  let c := monitor_run show2 ks in
  monitors c !! i = Some mo →
  let d := get_monitoring_stats now mo c in
  ms_high_failure_rate d + ms_slow_validation d + ms_key_rotation_needed d ≤ ms_recent_alerts_count d
  ∧ ms_recent_alerts_count d ≤ ms_total_alerts d ∧ ms_total_alerts d ≤ 1000.
Proof.
  intros c Hm d. pose proof (histories_run show2 ks i mo Hm) as Hb. unfold bounded in Hb.
  split_and!; cbn; [apply count_types| |lia].
  pose proof (length_filter (λ a, now - secs 3600 < alert_timestamp a) (mo_history mo)).
  unfold get_recent_alerts. cbn. lia.
Qed.

(** ** Examples *)
Module SignerMonitorDemo.
Import DnssecDemo.

Definition strict : AlertConfig :=
  {| max_failure_rate := f64_of_Z 5; min_validations_for_alert := 1;
     max_avg_validation_time_us := 1000; alert_cooldown_seconds := 300 |}.
Definition forged : RRSIG :=
  {| input := sig_input 0 ("a.example" : Name (Records := toy_records)) A 60 (Unknown 253) 7; sig := "forged" |}.
(** The program's own validator and a monitor on it; the signer's monitor. *)
Definition calls : list MonitorCall :=
  [CallCreateValidator; CallMonitorNew 0 strict; CallCreateMonitor strict;
   CallValidate 0 (secs 1) 5 m0 forged "data" HmacSha256; CallCheckAlerts 1 (secs 2); CallCheckAlerts 3 (secs 2)].
Definition cells := monitor_run (λ _, "100.00") calls.

Example shared_monitor_sees :
  (alert_type <$> default [] (mo_history <$> monitors cells !! 1%nat)) = [HighFailureRate]
  ∧ mo_history <$> monitors cells !! 3%nat = Some [].
Proof. by vm_compute. Qed.
End SignerMonitorDemo.
