(* ===== verification/CaUpkeep.v ===== *)
(** * The authority's upkeep and the hub's use of it

    The rest of crates/edf-ca/src (ca.rs, certificate.rs, lib.rs): clean-up, statistics,
    request builders and the certificate builder's end; and the hub's certificate
    functions of crates/edgehub/src/ssh_server.rs over that authority.  X.509 parsing is
    a parameter. *)

From S2P Require Import Prelude Redis Serde Models Errors RedisCache CA SshHub.

(** ** Requests and certificates *)

Definition issuance_with_san (q : IssuanceRequest) (san : string) : IssuanceRequest :=
  {| ir_request_id := ir_request_id q; ir_common_name := ir_common_name q;
     ir_subject_alt_names := ir_subject_alt_names q ++ [san]; ir_ttl := ir_ttl q;
     ir_client_id := ir_client_id q; ir_metadata := ir_metadata q |}.
Definition issuance_with_ttl (q : IssuanceRequest) (ttl : Z) : IssuanceRequest :=
  {| ir_request_id := ir_request_id q; ir_common_name := ir_common_name q;
     ir_subject_alt_names := ir_subject_alt_names q; ir_ttl := Some ttl;
     ir_client_id := ir_client_id q; ir_metadata := ir_metadata q |}.
Definition issuance_with_metadata (q : IssuanceRequest) (key value : string) : IssuanceRequest :=
  {| ir_request_id := ir_request_id q; ir_common_name := ir_common_name q;
     ir_subject_alt_names := ir_subject_alt_names q; ir_ttl := ir_ttl q;
     ir_client_id := ir_client_id q; ir_metadata := <[key := value]> (ir_metadata q) |}.

Definition with_attribute (q : CertificateRequest) (key value : string) : CertificateRequest :=
  {| cr_common_name := cr_common_name q; cr_subject_alt_names := cr_subject_alt_names q;
     cr_key_usage := cr_key_usage q; cr_extended_key_usage := cr_extended_key_usage q;
     cr_validity_duration := cr_validity_duration q;
     cr_attributes := <[key := value]> (cr_attributes q) |}.

Definition ec_is_valid (now : Z) (c : EphemeralCertificate) : bool := now <? cm_expires_at (ec_metadata c).
Definition time_until_expiry (now : Z) (c : EphemeralCertificate) : Z := cm_expires_at (ec_metadata c) - now.
Definition ec_fingerprint (c : EphemeralCertificate) : string := cm_fingerprint (ec_metadata c).
Definition ec_serial_number (c : EphemeralCertificate) : string := cm_serial_number (ec_metadata c).

Lemma valid_while_time_is_left now c : ec_is_valid now c = true ↔ 0 < time_until_expiry now c.
Proof. unfold ec_is_valid, time_until_expiry. rewrite Z.ltb_lt. lia. Qed.

Section upkeep.
Context `{Hredis : RedisServer R} `{Hcodec : Codec} `{Hrcgen : Rcgen}.
Implicit Types (now : Z) (r : R) (ca : CertificateAuthority).

Definition builder_generate (p : CertificateParams KeyPair) : result FE.t Certificate :=
  gen_failed (from_params p).

(** The signed text is dropped and the certificate as it was returned. *)
Definition generate_signed_by (p : CertificateParams KeyPair) (ca_cert : Certificate) : result FE.t Certificate :=
  cert ← builder_generate p;
  _ ← gen_failed (serialize_pem_with_signer cert ca_cert);
  Ok cert.

Definition generate_serial_number (u : uuid) : string := uuid_to_string u.

Definition cleanup_expired_certificates now ca : CertificateAuthority * Z := cleanup_expired now ca.

Record CaStatistics := {
  cs_active_certificates : Z;
  cs_total_issued : Z;
  cs_ca_name : string;
  cs_uptime : Z;
}.
(** The uptime is the time of the call. *)
Definition ca_get_statistics now ca : CaStatistics :=
  {| cs_active_certificates := active_count ca; cs_total_issued := rl_total_issued (rate_limiter ca);
     cs_ca_name := ca_name (config ca); cs_uptime := now |}.
End upkeep.

(** ** The hub *)

(** [x509-parser]: the bytes of the serial number, the names and the seconds of the
    validity. *)
Record ParsedCert := {
  pc_serial : string;
  pc_subject : string;
  pc_issuer : string;
  pc_not_before : Z;
  pc_not_after : Z;
}.
Class X509Parser := {
  parse_der : string → result string ParsedCert;
  (** [DateTime::from_timestamp]. *)
  from_seconds : Z → option Z;
}.

(** [hex::encode]. *)
Definition lower_hex (n : Z) : ascii := ascii_of_N (Z.to_N (if n <? 10 then 48 + n else 87 + n)).
Definition hex_bytes (s : string) : string :=
  string_of_list_ascii (a ← list_ascii_of_string s; [lower_hex (code a / 16); lower_hex (code a mod 16)]).

Section hub.
Context `{Hredis : RedisServer R} `{Hcodec : Codec} `{Hrcgen : Rcgen} `{Hx509 : X509Parser}.
Implicit Types (now : Z) (r : R) (ca : CertificateAuthority).

Definition parse_certificate_pem (certificate_pem : string) : result string string :=
  certs ← map_err (λ _, "Failed to parse PEM certificates") (pem_certs certificate_pem);
  ok_or (head certs) "No certificates found in PEM data".

Definition extract_certificate_info now (cert_der : string) : option CertificateInfo :=
  match parse_der cert_der with
  | Err _ => None
  | Ok c =>
      Some {| ci_serial_number := hex_bytes (pc_serial c); ci_subject := pc_subject c;
              ci_issuer := pc_issuer c; ci_not_before := default now (from_seconds (pc_not_before c));
              ci_not_after := default now (from_seconds (pc_not_after c));
              ci_fingerprint := hex_bytes (sha256 cert_der) |}
  end.

(** The hub's validation with the authority it runs. *)
Definition hub_validate now (pinning : bool) ca r (pem : string) : bool :=
  SshHub.validate_certificate parse_certificate_pem (extract_certificate_info now) now pinning
    (Some (λ sn, Ok (CA.validate_certificate now sn ca r).2)) pem.

(** [issue_certificate]; the context hides the authority's error. *)
Definition hub_issue_certificate now (request_id entropy : string) (serial : uuid) (client_id common_name : string)
    (ca : option CertificateAuthority) r : option CertificateAuthority * R * result string IssuanceResponse :=
  match ca with
  | None => (None, r, Err "Certificate authority not configured")
  | Some ca =>
      let '(ca, r, res) := issue_certificate now entropy serial
                             (IssuanceRequest_new request_id common_name client_id) ca r in
      (Some ca, r, map_err (λ _, "Failed to issue certificate") res)
  end.

Definition get_ca_statistics now (ca : option CertificateAuthority) : option CaStatistics :=
  ca_get_statistics now <$> ca.
End hub.

(** Eight random letters after the name of the service. *)
Definition hub_generate_subdomain (letters : list Z) (service_name : string) : string :=
  service_name +:+ string_of_list_ascii ((λ n, ascii_of_N (Z.to_N (97 + n))) <$> letters).

(** ** Histories of an authority *)

Section history.
Context `{Hspec : RedisSpec R} `{Hcodec : Codec} `{Hrcgen : Rcgen}.
Implicit Types (now : Z) (r : R) (ca : CertificateAuthority).

Record CaWorld := { cw_now : Z; cw_ca : CertificateAuthority; cw_redis : R }.

(** The authority's calls, time, and a restart, which empties the registry. *)
Inductive ca_step : CaWorld → CaWorld → Prop :=
  | ca_tick w now : cw_now w ≤ now →
      ca_step w {| cw_now := now; cw_ca := cw_ca w; cw_redis := cw_redis w |}
  | ca_issue w entropy serial q ca r res :
      issue_client_certificate (cw_now w) entropy serial q (cw_ca w) (cw_redis w) = (ca, r, res) →
      ca_step w {| cw_now := cw_now w; cw_ca := ca; cw_redis := r |}
  | ca_issue_server w entropy serial fqdn sans ttl ca r res :
      issue_server_certificate (cw_now w) entropy serial fqdn sans ttl (cw_ca w) (cw_redis w) = (ca, r, res) →
      ca_step w {| cw_now := cw_now w; cw_ca := ca; cw_redis := r |}
  | ca_validate w sn ca r b :
      CA.validate_certificate (cw_now w) sn (cw_ca w) (cw_redis w) = (ca, r, b) →
      ca_step w {| cw_now := cw_now w; cw_ca := ca; cw_redis := r |}
  | ca_revoke w sn ca r res :
      revoke_certificate (cw_now w) sn (cw_ca w) (cw_redis w) = (ca, r, res) →
      ca_step w {| cw_now := cw_now w; cw_ca := ca; cw_redis := r |}
  | ca_cleanup w :
      ca_step w {| cw_now := cw_now w; cw_ca := (cleanup_expired_certificates (cw_now w) (cw_ca w)).1;
                   cw_redis := cw_redis w |}
  | ca_restart w cfg cert st :
      ca_step w {| cw_now := cw_now w; cw_ca := CertificateAuthority_new cfg cert st; cw_redis := cw_redis w |}.

(** A new authority over a store without certificates. *)
Definition ca_initial (w : CaWorld) : Prop :=
  active_certs (cw_ca w) = ∅ ∧ ∀ sn, live (cw_now w) (cw_redis w) !! cert_key sn = None.
Definition ca_reachable (w : CaWorld) : Prop := ∃ w0, ca_initial w0 ∧ rtc ca_step w0 w.

Definition is_uuid_text (sn : string) : Prop := ∃ u, sn = uuid_to_string u.

(** Everything the authority knows is filed under the text of an identifier. *)
Record filed now ca r : Prop := {
  filed_registry : ∀ sn, is_Some (active_certs ca !! sn) → is_uuid_text sn;
  filed_store : ∀ sn, is_Some (live now r !! cert_key sn) → is_uuid_text sn;
}.

(** The steps of a chain of results that succeeded. *)
Ltac peel H :=
  repeat match type of H with
         | (?x ≫= _) = Ok _ => destruct x; cbn [mbind result_bind] in H; [|done]
         end.

Lemma cert_key_inj sn sn' : cert_key sn = cert_key sn' → sn = sn'.
Proof. apply str_app_inj_l. Qed.

Lemma generate_serial now entropy serial q ca c :
  generate_certificate now entropy serial q ca = Ok c → cm_serial_number (ec_metadata c) = uuid_to_string serial.
Proof.
  unfold generate_certificate. intros Hg.
  peel Hg. by injection Hg as <-.
Qed.

Lemma register_filed now client cert ca r ca' r' :
  is_uuid_text (cm_serial_number (ec_metadata cert)) →
  register_issued now client cert ca r = (ca', r') → filed now ca r → filed now ca' r'.
Proof.
  intros Hu. unfold register_issued, register_certificate, persist_certificate. intros [= <- <-] [Hreg Hst]. split; intros sn; cbn.
  - destruct (decide (sn = cm_serial_number (ec_metadata cert))) as [->|Hne]; [done|].
    rewrite lookup_insert_ne by done. apply Hreg.
  - destruct (decide (sn = cm_serial_number (ec_metadata cert))) as [->|Hne]; [done|].
    case_match; [|apply Hst]. rewrite set_string_ex_frame; [apply Hst|]. by intros E%cert_key_inj.
Qed.

Lemma issue_filed now entropy serial q ca r ca' r' res :
  issue_client_certificate now entropy serial q ca r = (ca', r', res) → filed now ca r → filed now ca' r'.
Proof.
  unfold issue_client_certificate, issue_client_certificate_at. destruct (_ ≫= _) as [cert|e] eqn:Hg; [|by intros [= <- <- <-]].
  destruct (register_issued now (ir_client_id q) cert ca r) as [ca1 r1] eqn:Er. intros [= <- <- <-].
  apply (register_filed _ _ _ _ _ _ _) with (2 := Er). exists serial.
  peel Hg. by eapply generate_serial.
Qed.

Lemma issue_server_filed now entropy serial fqdn sans ttl ca r ca' r' res :
  issue_server_certificate now entropy serial fqdn sans ttl ca r = (ca', r', res) → filed now ca r → filed now ca' r'.
Proof.
  unfold issue_server_certificate. destruct (_ ≫= _) as [cert|e] eqn:Hg; [|by intros [= <- <- <-]].
  destruct (register_issued now fqdn cert ca r) as [ca1 r1] eqn:Er. intros [= <- <- <-].
  apply (register_filed _ _ _ _ _ _ _) with (2 := Er). exists serial.
  peel Hg. by eapply generate_serial.
Qed.

Lemma get_string_found now k r r' text :
  get_string now k r = (r', Ok (Some text)) → is_Some (live now r !! k).
Proof.
  unfold get_string, pool_get, query. intros E. inv_io E. apply connect_spec with (now := now) in Hio.
  apply get_ok_at in E as [E _]. rewrite Hio in E. unfold str_at in E. destruct (live now r !! k); [eauto|done].
Qed.

Lemma get_string_reads now k : reads (R := R) now (get_string now k).
Proof. unfold get_string, pool_get, query. apply reads_bind; [eauto with redis|]. intros []. eauto with redis. Qed.

Lemma get_certificate_filed now sn ca r ca' r' o :
  get_certificate now sn ca r = (ca', r', o) → filed now ca r →
  filed now ca' r' ∧ (is_Some o → is_uuid_text sn).
Proof.
  unfold get_certificate. intros Hg Hf.
  destruct (active_certs ca !! sn) as [c|] eqn:Ec.
  { injection Hg as <- <- <-. split; [done|]. intros _. eapply filed_registry; eauto. }
  destruct (store ca); [|injection Hg as <- <- <-; split; [done|by intros []]].
  destruct (get_string now (cert_key sn) r) as [r1 x] eqn:Es.
  pose proof (get_string_reads _ _ _ _ _ Es) as Hl.
  assert (filed now ca r1) as Hf1 by (destruct Hf; split; [done|by rewrite Hl]).
  destruct x as [[text|]|e]; [|injection Hg as <- <- <-; split; [done|by intros []]..].
  assert (is_uuid_text sn) as Hu by (eapply filed_store; [exact Hf|by eapply get_string_found]).
  destruct (from_str de_ActiveCertificate text); injection Hg as <- <- <-; [|by split].
  split; [|done]. split; intros sn'; cbn; [|apply Hf1].
  destruct (decide (sn' = sn)) as [->|Hne]; [done|]. rewrite lookup_insert_ne by done. apply Hf.
Qed.

Lemma del_key_shrinks now k r k' : is_Some (live now (del_key now k r).1 !! k') → is_Some (live now r !! k').
Proof.
  unfold del_key, mbind, io_bind, pool_get, query, io_map_err.
  destruct (r_connect r) as [r1 [[]|e]] eqn:E1; apply connect_spec with (now := now) in E1;
    cbn [map_err fst]; [|by rewrite E1].
  destruct (r_del now k r1) as [r2 x] eqn:E2; cbn [fst]. rewrite <- E1.
  assert (live now r2 = live now r1 ∨ live now r2 = delete k (live now r1)) as [-> | ->]; [|done|].
  - destruct x; [right; by eapply del_writes|by eapply del_writes].
  - rewrite lookup_delete. case_decide; [|done]. by intros [].
Qed.

Lemma revoke_filed now sn ca r ca' r' res :
  revoke_certificate now sn ca r = (ca', r', res) → filed now ca r → filed now ca' r'.
Proof.
  unfold revoke_certificate. destruct (get_certificate now sn ca r) as [[ca1 r1] o] eqn:Eg. intros Hr Hf.
  destruct (get_certificate_filed _ _ _ _ _ _ _ Eg Hf) as [[Hreg Hst] _].
  unfold remove_certificate in Hr. injection Hr as <- <- <-. split; intros sn'; cbn.
  - rewrite lookup_delete. case_decide; [by intros []|apply Hreg].
  - intros Hs. apply Hst. destruct (store ca1); [by eapply del_key_shrinks|done].
Qed.

Lemma ca_step_filed w w' :
  ca_step w w' → filed (cw_now w) (cw_ca w) (cw_redis w) → filed (cw_now w') (cw_ca w') (cw_redis w').
Proof.
  intros [w0 now Hle|w0 entropy serial q ca r res Hi|w0 entropy serial fqdn sans ttl ca r res Hi
         |w0 sn ca r b Hv|w0 sn ca r res Hv|w0|w0 cfg cert st] Hf; cbn.
  - destruct Hf as [Hreg Hst]. split; [done|]. intros sn. rewrite (live_expiry _ _ _ Hle).
    intros [e [He _]%map_lookup_filter_Some]. eauto.
  - by eapply issue_filed.
  - by eapply issue_server_filed.
  - unfold CA.validate_certificate, is_certificate_valid in Hv.
    destruct (get_certificate _ _ _ _) as [[ca1 r1] o] eqn:Eg. injection Hv as <- <- <-.
    by eapply get_certificate_filed.
  - by eapply revoke_filed.
  - destruct Hf as [Hreg Hst]. split; [|done]. intros sn. cbn.
    intros [e [He _]%map_lookup_filter_Some]. eauto.
  - destruct Hf as [Hreg Hst]. split; [|done]. intros sn. cbn. rewrite lookup_empty. by intros [].
Qed.

Lemma ca_reachable_filed w : ca_reachable w → filed (cw_now w) (cw_ca w) (cw_redis w).
Proof.
  intros (w0 & [Hreg Hst] & Hsteps).
  assert (filed (cw_now w0) (cw_ca w0) (cw_redis w0)) as Hf.
  { split; intros sn; [rewrite Hreg, lookup_empty|rewrite Hst]; by intros []. }
  clear Hreg Hst. induction Hsteps; eauto using ca_step_filed.
Qed.
End history.

Lemma lower_hex_digit n : 0 ≤ n < 16 → Ascii.eqb (lower_hex n) "-" = false.
Proof.
  intros Hn. assert (n ∈ seqZ 0 16) as Hin by (apply elem_of_seqZ; lia). clear Hn. revert n Hin.
  apply Forall_forall. repeat constructor.
Qed.

Lemma hex_bytes_no_hyphen s : str_has "-" (hex_bytes s) = false.
Proof.
  unfold hex_bytes. induction (list_ascii_of_string s) as [|a l IH]; [done|].
  cbn [mbind list_bind string_of_list_ascii app]. rewrite !str_has_cons, IH.
  pose proof (code_range a).
  rewrite !lower_hex_digit; [done| |]; [apply Z.mod_pos_bound; lia|].
  split; [apply Z.div_pos; lia|apply Z.div_lt_upper_bound; lia].
Qed.

(** C40: the hub refuses the authority's certificates.  The hub looks a certificate up
    under the hexadecimal serial number of its X.509 form, the authority files it under
    the hyphenated text of an identifier of its own.  So whatever the authority has
    issued, to this hub or to others, restarted or not, the hub finds no certificate
    valid, although the authority itself does. *)
Theorem hub_refuses_certificates `{RedisSpec R} `{Codec} `{Rcgen} `{X509Parser} (w : CaWorld (R := R)) pinning pem
    (Hw : ca_reachable w) :
  hub_validate (cw_now w) pinning (cw_ca w) (cw_redis w) pem = false.
Proof.
  apply ca_reachable_filed in Hw. apply not_true_iff_false. intros Hv.
  assert (∃ s, (CA.validate_certificate (cw_now w) (hex_bytes s) (cw_ca w) (cw_redis w)).2 = true) as [s Hs].
  { unfold hub_validate, SshHub.validate_certificate, validate_certificate_comprehensive in Hv.
    destruct (parse_certificate_pem pem) as [der|]; [|done]. revert Hv. unfold extract_certificate_info at 1.
    destruct (parse_der der) as [c|]; cbn.
    - destruct (CA.validate_certificate _ _ _ _).2 eqn:E; [eauto|].
      by destruct pinning, (SshHub.validate_certificate_pinning (extract_certificate_info (cw_now w)) der).
    - by destruct pinning, (SshHub.validate_certificate_pinning (extract_certificate_info (cw_now w)) der). }
  unfold CA.validate_certificate, is_certificate_valid in Hs.
  destruct (get_certificate _ _ _ _) as [[ca r] o] eqn:Eg.
  destruct (get_certificate_filed _ _ _ _ _ _ _ Eg Hw) as [_ Hu]. destruct o as [c|]; [|done].
  destruct (Hu (ex_intro _ c eq_refl)) as [u E]. pose proof (uuid_hyphen u) as Hh.
  rewrite <- E, hex_bytes_no_hyphen in Hh. done.
Qed.

(** ** Upkeep *)

Section upkeep_lemmas.
Context `{Hspec : RedisSpec R} `{Hcodec : Codec} `{Hrcgen : Rcgen}.
Implicit Types (now : Z) (r : R) (ca : CertificateAuthority).

(** Cleaning up forgets expired certificates only: no verdict changes, as long as the
    store has no other certificate under the serial number of one it forgets. *)
Lemma cleanup_keeps_verdicts now sn ca r :
  (∀ c text c', active_certs ca !! sn = Some c → str_at (live now r) (cert_key sn) = Some text →
     from_str de_ActiveCertificate text = Some c' →
     cm_expires_at (ac_metadata c') = cm_expires_at (ac_metadata c)) →
  (CA.validate_certificate now sn (cleanup_expired_certificates now ca).1 r).2
  = (CA.validate_certificate now sn ca r).2.
Proof.
  intros Hsame. unfold CA.validate_certificate, is_certificate_valid, get_certificate. cbn.
  destruct (active_certs ca !! sn) as [c|] eqn:Ec.
  - destruct (Z.ltb_spec now (cm_expires_at (ac_metadata c))) as [Hlt|Hge].
    + assert (filter (λ kv : string * ActiveCertificate, now < cm_expires_at (ac_metadata kv.2))
                (active_certs ca) !! sn = Some c) as -> by by apply map_lookup_filter_Some.
      cbn. by apply Z.ltb_lt.
    + assert (filter (λ kv : string * ActiveCertificate, now < cm_expires_at (ac_metadata kv.2))
                (active_certs ca) !! sn = None) as ->.
      { apply map_lookup_filter_None. right. intros c'. rewrite Ec. intros [= <-]. cbn. lia. }
      destruct (store ca); cbn; [|done].
      destruct (get_string now (cert_key sn) r) as [r1 [[text|]|e]] eqn:Es; cbn;
        [|done..].
      destruct (from_str de_ActiveCertificate text) as [c'|] eqn:Ed; cbn; [|done].
      unfold get_string, pool_get, query in Es. inv_io Es. apply connect_spec with (now := now) in Hio.
      apply get_ok_at in Es as [Es _]. rewrite Hio in Es.
      apply Z.ltb_ge. by rewrite (Hsame c text c' eq_refl (eq_sym Es) Ed).
  - assert (filter (λ kv : string * ActiveCertificate, now < cm_expires_at (ac_metadata kv.2))
              (active_certs ca) !! sn = None) as -> by (apply map_lookup_filter_None; by left).
    destruct (store ca); [|done]. destruct (get_string _ _ _) as [r1 [[text|]|e]]; [|done..].
    by destruct (from_str de_ActiveCertificate text).
Qed.

(** After cleaning up the statistics count the certificates that are valid now, and the
    clean-up's answer is how many it forgot. *)
Lemma statistics_after_cleanup now ca :
  let '(ca', n) := cleanup_expired_certificates now ca in
  cs_active_certificates (ca_get_statistics now ca') + n = cs_active_certificates (ca_get_statistics now ca)
  ∧ ∀ sn c, active_certs ca' !! sn = Some c → now < cm_expires_at (ac_metadata c).
Proof.
  cbn. unfold active_count. cbn. split; [lia|]. by intros sn c [_ Hc]%map_lookup_filter_Some.
Qed.

(** The result does not depend on who signs. *)
Lemma signed_by_unsigned p ca_cert cert :
  generate_signed_by p ca_cert = Ok cert → from_params p = Ok cert.
Proof.
  unfold generate_signed_by, builder_generate, gen_failed. destruct (from_params p) as [c|]; [|done].
  cbn. destruct (serialize_pem_with_signer c ca_cert); [|done]. by intros [= ->].
Qed.
End upkeep_lemmas.

(** ** Examples *)
Module CaUpkeepDemo.
Import MemRedis BitCodec CADemo.

(** The parsed serial number of a certificate is its text here. *)
#[export] Instance toy_x509 : X509Parser :=
  {| parse_der s := Ok {| pc_serial := s; pc_subject := s; pc_issuer := "ca"; pc_not_before := 0;
                          pc_not_after := 1800 |};
     from_seconds t := Some (secs t) |}.
Definition fresh : CaWorld := {| cw_now := 0; cw_ca := authority; cw_redis := (∅ : mem) |}.
Definition after_issue : CaWorld := {| cw_now := 0; cw_ca := issued.1.1; cw_redis := issued.1.2 |}.

Lemma hub_refuses_certificates_witness :
  (CA.validate_certificate 0 serial (cw_ca after_issue) (cw_redis after_issue)).2 = true
  ∧ hub_validate 0 false (cw_ca after_issue) (cw_redis after_issue) (ec_certificate_pem issued_cert) = false.
Proof.
  split; [by vm_compute|]. apply (hub_refuses_certificates after_issue).
  exists fresh. split; [by split|]. apply rtc_once.
  apply (ca_issue fresh "key" (7%N : @uuid bit_codec) request issued.1.1 issued.1.2 issued.2). eval_eq.
Defined.
End CaUpkeepDemo.
