(* ===== verification/Legacy.v ===== *)
(** * Earlier copies left in the tree

    crates/backendapi/src/auth.rs, the API's own authentication before the crate
    crates/auth (modelled in [Auth]), and crates/edgehub/src/redis_auth.rs, the hub's
    session store before crates/common/src/redis/auth.rs (in [RedisCache]).  Neither is
    declared in its crate any more.  The lemmas compare them with what replaced them. *)

From S2P Require Import Prelude Redis Serde Models Errors RedisCache Auth.

(** ** The API's authentication *)

Module OldAuth.

Record GitHubUser := {
  o_id : string;
  o_login : string;
  o_name : option string;
  o_email : option string;
  o_avatar_url : string;
}.
Record GitHubUserResponse := {
  or_id : Z;
  or_login : string;
  or_name : option string;
  or_email : option string;
  or_avatar_url : string;
}.
Definition de_GitHubUserResponse (j : json) : option GitHubUserResponse :=
  vs ← fields_of ["id"; "login"; "name"; "email"; "avatar_url"] j;
  match vs with
  | [id; login; name; email; avatar] =>
      id ← de_uint 64 id; login ← de_string login; name ← de_option de_string name;
      email ← de_option de_string email; avatar ← de_string avatar;
      Some {| or_id := id; or_login := login; or_name := name; or_email := email; or_avatar_url := avatar |}
  | _ => None
  end.
Definition user_of_response (g : GitHubUserResponse) : GitHubUser :=
  {| o_id := pretty (or_id g); o_login := or_login g; o_name := or_name g; o_email := or_email g;
     o_avatar_url := or_avatar_url g |}.

Definition extract_bearer_token_with_dev_bypass (headers : HeaderMap) (development_mode : bool)
    : result AE.t string :=
  if development_mode && dev_bypass headers then Ok DEV_TOKEN
  else
    auth_header ← ok_or (headers !! "authorization") (AE.AuthenticationFailed "Missing Authorization header");
    auth_str ← ok_or (hv_to_str auth_header) (AE.AuthenticationFailed "Invalid Authorization header");
    match strip_prefix "Bearer " auth_str with
    | None => Err (AE.AuthenticationFailed "Authorization header must start with 'Bearer '")
    | Some token =>
        if negb development_mode && (str_trim token =?s DEV_TOKEN)
        then Err (AE.AuthenticationFailed "Development bypass token is not accepted")
        else Ok token
    end.
Definition extract_bearer_token (headers : HeaderMap) : result AE.t string :=
  extract_bearer_token_with_dev_bypass headers false.

Section tokens.
Context `{Md5}.

Definition generate_jwt_token (now : Z) (user : GitHubUser) (secret : string) : result AE.t string :=
  let payload := o_id user +:+ ":" +:+ o_login user +:+ ":" +:+ pretty (timestamp now) in
  let signature := md5_hex (payload +:+ secret) in
  Ok (payload +:+ "." +:+ signature).

Definition failed {A} (msg : string) : result AE.t A := Err (AE.AuthenticationFailed msg).

Definition validate_jwt_token (now : Z) (token secret : string) : result AE.t GitHubUser :=
  if token =?s DEV_TOKEN then
    Ok {| o_id := "0"; o_login := "dev-user"; o_name := Some "Development User";
          o_email := Some "dev@fleetingdns.run"; o_avatar_url := "https://github.com/github.png" |}
  else
    match str_split "." token with
    | [payload; signature] =>
        if negb (signature =?s md5_hex (payload +:+ secret)) then failed "Invalid token signature"
        else
          match str_split ":" payload with
          | [user_id; username; stamp] =>
              t ← ok_or (parse_i64 stamp) (AE.AuthenticationFailed "Invalid timestamp");
              if TOKEN_LIFETIME <? as_i64 (timestamp now - t) then failed "Token expired"
              else Ok {| o_id := user_id; o_login := username; o_name := None; o_email := None; o_avatar_url := "" |}
          | _ => failed "Invalid token payload"
          end
    | _ => failed "Invalid token format"
    end.

Record AuthenticatedUserWithPlan := { o_user : GitHubUser; o_service_plan : ServicePlan }.
Definition validate_jwt_token_with_plan (now : Z) (token secret : string)
    : result AE.t AuthenticatedUserWithPlan :=
  user ← validate_jwt_token now token secret;
  Ok {| o_user := user; o_service_plan := pro_plan now |}.
End tokens.

Section github.
Context (send : HttpRequest → result string HttpResponse).

(** [?] on the client's errors converts them. *)
Definition decode_json {A} (wrap : string → AE.t) (de : json → option A) (r : HttpResponse) : result AE.t A :=
  map_err wrap (j ← resp_json r; ok_or (de j) (resp_shape_error r)).

(** The granted scopes are not looked at. *)
Definition validate_github_token (token : string) : result AE.t GitHubUser :=
  response ← map_err (λ e, api_from (FromReqwest e)) (send (user_request
    [("Authorization", "token " +:+ token); ("User-Agent", "FleetingDNS/1.0")]));
  if negb (is_success response) then failed "Invalid GitHub token"
  else
    g ← decode_json (λ e, api_from (FromReqwest e)) de_GitHubUserResponse response;
    Ok (user_of_response g).

Definition get_github_user (token : string) : result AE.t GitHubUser :=
  response ← map_err AE.ExternalService (send (user_request
    [("User-Agent", "FleetingDNS-API"); ("Authorization", "token " +:+ token)]));
  if negb (is_success response) then Err (AE.Unauthorized "Invalid GitHub token")
  else
    g ← decode_json AE.ExternalService de_GitHubUserResponse response;
    Ok (user_of_response g).

Definition exchange_github_code (client_id client_secret code : string) : result AE.t string :=
  response ← map_err (λ e, api_from (FromReqwest e)) (send
    {| req_method := "POST"; req_url := "https://github.com/login/oauth/access_token";
       req_headers := [("Accept", "application/json"); ("User-Agent", "FleetingDNS/1.0")];
       req_form := [("client_id", client_id); ("client_secret", client_secret); ("code", code)] |});
  if negb (is_success response) then failed "Failed to exchange GitHub code"
  else decode_json (λ e, api_from (FromReqwest e)) de_token_response response.
End github.

(** What the old user record keeps of the new one. *)
Definition old_user (u : Auth.GitHubUser) : GitHubUser :=
  {| o_id := gh_id u; o_login := gh_login u; o_name := gh_name u; o_email := gh_email u;
     o_avatar_url := gh_avatar_url u |}.
End OldAuth.

(** Two results agree: both succeed with corresponding values, or both fail. *)
Definition agree {E E' A B} (f : A → B) (x : result E A) (y : result E' B) : Prop :=
  match x with Ok a => y = Ok (f a) | Err _ => ∃ e, y = Err e end.

Ltac both_fail := solve [unfold agree; cbn; by eexists].

(** The tokens of the two are the same. *)
Lemma old_tokens_agree `{Md5} now user token secret headers dev :
  agree OldAuth.old_user (Auth.validate_jwt_token now token secret) (OldAuth.validate_jwt_token now token secret)
  ∧ agree id (Auth.extract_bearer_token_with_dev_bypass headers dev)
      (OldAuth.extract_bearer_token_with_dev_bypass headers dev)
  ∧ agree id (Auth.generate_jwt_token now user secret)
      (OldAuth.generate_jwt_token now (OldAuth.old_user user) secret).
Proof.
  split_and!; [| |done].
  - unfold Auth.validate_jwt_token, OldAuth.validate_jwt_token, OldAuth.failed.
    case_match; [done|]. destruct (str_split "." token) as [|p [|sg [|? ?]]]; try both_fail.
    case_match; [both_fail|]. destruct (str_split ":" p) as [|uid [|un [|st [|? ?]]]]; try both_fail.
    destruct (parse_i64 st); cbn; [|both_fail]. case_match; [both_fail|done].
  - unfold Auth.extract_bearer_token_with_dev_bypass, OldAuth.extract_bearer_token_with_dev_bypass.
    case_match; [done|]. destruct (headers !! "authorization") as [h|]; cbn [ok_or mbind result_bind]; [|both_fail].
    destruct (hv_to_str h) as [s|]; cbn [ok_or mbind result_bind]; [|both_fail].
    destruct (strip_prefix "Bearer " s); [|both_fail]. case_match; [both_fail|done].
Qed.

(** The exchange with GitHub agrees; the old one just does not look at scopes. *)
Lemma old_exchange_agrees send client_id client_secret code :
  agree id (Auth.exchange_github_code send client_id client_secret code)
    (OldAuth.exchange_github_code send client_id client_secret code).
Proof.
  unfold Auth.exchange_github_code, OldAuth.exchange_github_code, Auth.decode_json, OldAuth.decode_json.
  destruct (send _) as [r|]; cbn; [|both_fail]. destruct (is_success r); cbn; [|both_fail].
  destruct (resp_json r) as [j|]; cbn; [|both_fail]. destruct (de_token_response j); cbn; [done|both_fail].
Qed.

(** ** The hub's session store *)

Module OldSessions.
Definition PLACEHOLDER : string := "SHA256:placeholder-fingerprint-1234567890".

(** [compute_fingerprint] ignores the key; everything else is the present code. *)
Definition compute_fingerprint `{SshKeys} (_ : PublicKey) : string := PLACEHOLDER.
Definition placeholder_keys `{SshKeys} : SshKeys :=
  {| PublicKey := PublicKey; fingerprint := compute_fingerprint |}.

Section ops.
Context `{RedisServer R} `{Codec} `{Hkeys : SshKeys} (key_prefix : string).

Definition validate_public_key (now : Z) (user : string) (public_key : PublicKey) (session_id : string)
    : io R string bool :=
  RedisCache.validate_public_key (Hkeys := placeholder_keys) key_prefix now user public_key session_id.
Definition get_user_sessions := RedisCache.get_user_sessions (R := R).
Definition is_session_valid := RedisCache.is_session_valid (R := R) key_prefix.
Definition cleanup_expired_sessions := RedisCache.cleanup_expired_sessions (R := R) key_prefix.
Definition add_authorized_key := RedisCache.add_authorized_key (R := R) key_prefix.
Definition remove_authorized_key := RedisCache.remove_authorized_key (R := R) key_prefix.
End ops.
End OldSessions.

(** The old store does not tell keys apart: a session stored with a key's real
    fingerprint refuses that key, and one with the placeholder accepts every key. *)
Lemma old_store_ignores_keys `{RedisSpec R} `{Codec} `{SshKeys} prefix now user key sid (r r' : R) b :
  OldSessions.validate_public_key prefix now user key sid r = (r', Ok b) →
  (∀ key', (OldSessions.validate_public_key prefix now user key' sid r).2 = Ok b)
  ∧ (b = true ↔ ∃ s, session_at (live now r) (session_key prefix sid) = Some s
                  ∧ now ≤ s_expires_at s ∧ s_fingerprint s = OldSessions.PLACEHOLDER).
Proof.
  intros Hv. split.
  - intros key'.
    change (OldSessions.validate_public_key prefix now user key' sid r)
      with (OldSessions.validate_public_key prefix now user key sid r). by rewrite Hv.
  - by apply (validate_public_key_spec (Hkeys := OldSessions.placeholder_keys)) in Hv as [_ Hv].
Qed.

(** ** Examples *)
Module LegacyDemo.

(** GitHub answers a token that has no scopes with its user. *)
Definition unscoped (_ : HttpRequest) : result string HttpResponse :=
  Ok {| resp_status := 200;
        resp_headers := {[ "x-oauth-scopes" := {| hv_to_str := Some "repo" |} ]};
        resp_json := Ok (JObj [("id", JNum 42); ("login", JStr "ann"); ("avatar_url", JStr "a")]);
        resp_shape_error := "shape" |}.
Example old_ignores_scopes :
  is_ok (Auth.validate_github_token unscoped "t") = false
  ∧ OldAuth.o_login <$> (match OldAuth.validate_github_token unscoped "t" with Ok u => Some u | _ => None end)
    = Some "ann".
Proof. by vm_compute. Qed.
End LegacyDemo.
