(* ===== verification/Batchers.v ===== *)
(** * Batched audit log and metrics

    crates/common/src/batch_audit_logger.rs and batch_metrics_collector.rs, which no
    crate declares: one batcher over the items it takes, and its two uses.  A
    written item is the log record it becomes; writing never fails, so every answer
    is a success and is not kept. *)

From S2P Require Import Prelude Errors Float Serde.

Record BatcherConfig := {
  bt_max_batch_size : Z;
  bt_max_batch_wait_ms : Z;
  bt_max_processing_time_ms : Z;
  bt_enable_stats : bool;
  bt_flush_interval_ms : Z;
}.

Record BatcherStats := {
  bs_total_batches : Z;
  bs_total_items : Z;
  bs_avg_batch_size : f64;
  bs_avg_processing_time_ms : f64;
  bs_successful : Z;
  bs_failed : Z;
  bs_flush_operations : Z;
}.
Definition default_batcher_stats : BatcherStats :=
  {| bs_total_batches := 0; bs_total_items := 0; bs_avg_batch_size := f64_of_Z 0;
     bs_avg_processing_time_ms := f64_of_Z 0; bs_successful := 0; bs_failed := 0; bs_flush_operations := 0 |}.

Module Batcher.
Section batcher.
(** [Line] is a record of the log, [write] what an item is written as. *)
Context {Item Line : Type} (write : Item → Line).

Record Batcher := {
  config : BatcherConfig;
  pending : list Item;
  (** The channel of batches and whether the background task still receives. *)
  channel : list (list Item);
  receiving : bool;
  stats : BatcherStats;
  (** The log, in order. *)
  lines : list Line;
}.

Definition Batcher_new (cfg : BatcherConfig) : Batcher :=
  {| config := cfg; pending := []; channel := []; receiving := true; stats := default_batcher_stats;
     lines := [] |}.

(** An item is written at once and never queued. *)
Definition submit (x : Item) (b : Batcher) : Batcher :=
  {| config := config b; pending := pending b; channel := channel b; receiving := receiving b;
     stats := stats b; lines := lines b ++ [write x] |}.

(** The items leave the queue before the batch is sent; [None] is success. *)
Definition process_batch (b : Batcher) : Batcher * option string :=
  match pending b with
  | [] => (b, None)
  | items =>
      let batch_size := Nat.min (length items) (Z.to_nat (bt_max_batch_size (config b))) in
      ({| config := config b; pending := drop batch_size items;
          channel := if receiving b then channel b ++ [take batch_size items] else channel b;
          receiving := receiving b; stats := stats b; lines := lines b |},
       if receiving b then None else Some "Batch processing failed")
  end.
Definition flush (b : Batcher) : Batcher * option string :=
  match pending b with [] => (b, None) | _ => process_batch b end.

Definition record_batch (size processing_ms : Z) (s : BatcherStats) : BatcherStats :=
  let batches := as_u64 (bs_total_batches s + 1) in
  let items := as_u64 (bs_total_items s + size) in
  {| bs_total_batches := batches; bs_total_items := items;
     bs_successful := as_u64 (bs_successful s + size);
     bs_failed := bs_failed s;
     bs_avg_batch_size := if 0 <? batches then f64_div (f64_of_Z items) (f64_of_Z batches)
                          else bs_avg_batch_size s;
     bs_avg_processing_time_ms := if 0 <? batches then f64_div (f64_of_Z processing_ms) (f64_of_Z batches)
                                  else bs_avg_processing_time_ms s;
     bs_flush_operations := bs_flush_operations s |}.

(** The background task receives one batch. *)
Definition background_step (elapsed : Z) (b : Batcher) : Batcher :=
  match receiving b, channel b with
  | true, items :: rest =>
      {| config := config b; pending := pending b; channel := rest; receiving := true;
         stats := record_batch (Z.of_nat (length items)) (as_millis elapsed) (stats b);
         lines := lines b ++ (write <$> items) |}
  | _, _ => b
  end.

Definition reset_stats (b : Batcher) : Batcher :=
  {| config := config b; pending := pending b; channel := channel b; receiving := receiving b;
     stats := default_batcher_stats; lines := lines b |}.
(** Dropping the batcher stops the task; what is queued or sent is lost. *)
Definition drop_batcher (b : Batcher) : Batcher :=
  {| config := config b; pending := pending b; channel := channel b; receiving := false;
     stats := stats b; lines := lines b |}.

(** ** What callers can do *)

Inductive Call := CSubmit (x : Item) | CFlush | CReset | CBackground (elapsed : Z).
Definition call (b : Batcher) (k : Call) : Batcher :=
  match k with
  | CSubmit x => submit x b
  | CFlush => (flush b).1
  | CReset => reset_stats b
  | CBackground elapsed => background_step elapsed b
  end.
Definition run (cfg : BatcherConfig) (ks : list Call) : Batcher := foldl call (Batcher_new cfg) ks.
Definition submitted (ks : list Call) : list Item := omap (λ k, if k is CSubmit x then Some x else None) ks.

(** What is still to be written, in its order. *)
Definition backlog (b : Batcher) : list Item := mjoin (channel b) ++ pending b.
End batcher.
Arguments Batcher : clear implicits.
Arguments Call : clear implicits.
End Batcher.

(** ** The audit log *)

Module AuditLog.
Inductive AuditSeverity := SevInfo | SevWarning | SevError | SevSecurity.
Record AuditLogEntry := {
  ae_timestamp : Z;
  ae_user_id : option string;
  ae_action : string;
  ae_resource : string;
  ae_details : string;
  ae_ip_address : option string;
  ae_user_agent : option string;
  ae_severity : AuditSeverity;
}.
(** The record of the log: its level, its message and the fields of the entry. *)
Record AuditLine := { al_level : LogLevel; al_message : string; al_entry : AuditLogEntry }.

Definition write_audit_entry (e : AuditLogEntry) : AuditLine :=
  let line level prefix :=
    {| al_level := level; al_message := prefix +:+ ": " +:+ ae_action e; al_entry := e |} in
  match ae_severity e with
  | SevInfo => line LogInfo "AUDIT"
  | SevWarning => line LogWarn "AUDIT WARNING"
  | SevError => line LogError "AUDIT ERROR"
  | SevSecurity => line LogError "AUDIT SECURITY"
  end.

Definition default_audit_config : BatcherConfig :=
  {| bt_max_batch_size := 50; bt_max_batch_wait_ms := 200; bt_max_processing_time_ms := 1000;
     bt_enable_stats := true; bt_flush_interval_ms := 5000 |}.
Definition submit_entry := Batcher.submit write_audit_entry.
End AuditLog.

(** ** The metrics *)

Module MetricsLog.
Inductive MetricType := Counter | Gauge | Histogram | Summary.
Record MetricsUpdate := {
  mu_timestamp : Z;
  mu_metric_name : string;
  mu_metric_type : MetricType;
  mu_value : f64;
  mu_labels : list (string * string);
  mu_service : string;
}.
Record MetricLine := {
  ml_name : string; ml_type : MetricType; ml_value : f64; ml_labels : string; ml_service : string
}.
Definition write_metric_update (u : MetricsUpdate) : MetricLine :=
  {| ml_name := mu_metric_name u; ml_type := mu_metric_type u; ml_value := mu_value u;
     ml_labels := String.concat "," ((λ '(k, v), k +:+ "=" +:+ v) <$> mu_labels u);
     ml_service := mu_service u |}.
Definition default_metrics_batch_config : BatcherConfig :=
  {| bt_max_batch_size := 100; bt_max_batch_wait_ms := 100; bt_max_processing_time_ms := 500;
     bt_enable_stats := true; bt_flush_interval_ms := 2000 |}.
Definition submit_update := Batcher.submit write_metric_update.
End MetricsLog.

Import Batcher.

Section lemmas.
Context {Item Line : Type} (write : Item → Line).
Implicit Types b : Batcher Item Line.

(** However sending and processing interleave, the log followed by what is still
    to be written stays the same; a flush moves the first [max_batch_size] items. *)
Lemma flush_keeps_order b :
  receiving b = true →
  lines (flush b).1 ++ (write <$> backlog (flush b).1) = lines b ++ (write <$> backlog b)
  ∧ pending (flush b).1 = drop (Z.to_nat (bt_max_batch_size (config b))) (pending b).
Proof.
  intros Hr. unfold flush, process_batch, backlog. destruct (pending b) as [|x l] eqn:E.
  { cbn [fst]. rewrite E. by rewrite drop_nil. }
  rewrite Hr. cbn [fst lines channel pending]. split.
  - f_equal. f_equal. rewrite join_app, <- (assoc_L (++)). cbn [mjoin list_join]. by rewrite app_nil_r, take_drop.
  - destruct (Nat.min_spec (length (x :: l)) (Z.to_nat (bt_max_batch_size (config b)))) as [[? ->]|[_ ->]];
      [|done]. by rewrite !drop_ge by lia.
Qed.

Lemma background_keeps_order elapsed b :
  lines (background_step write elapsed b) ++ (write <$> backlog (background_step write elapsed b))
  = lines b ++ (write <$> backlog b).
Proof.
  unfold background_step, backlog. destruct (receiving b); [|done]. destruct (channel b) as [|items rest] eqn:E;
    [by rewrite E|].
  cbn [lines channel pending mjoin list_join]. rewrite <- !(assoc_L (++)), !fmap_app. by rewrite !(assoc_L (++)).
Qed.
End lemmas.

(** Callers never fill the queue: whatever they do, every item submitted is in the
    log exactly once and in order, no batch is ever sent, and the statistics report
    that nothing was processed. *)
Lemma batcher_statistics_blind {Item Line} (write : Item → Line) cfg ks :
  let b := run write cfg ks in
  lines b = write <$> submitted ks ∧ pending b = [] ∧ channel b = [] ∧ stats b = default_batcher_stats.
Proof.
  unfold run. cbn zeta. induction ks as [|k ks (IHl & Hp & Hc & IHs)] using rev_ind; [done|].
  unfold submitted in *. rewrite !foldl_snoc, omap_app.
  set (b := foldl _ _ ks) in *. destruct k as [x| | |elapsed]; cbn [call omap list_omap].
  - cbn. by rewrite fmap_app, IHl.
  - unfold flush. rewrite Hp. by rewrite app_nil_r.
  - cbn. by rewrite app_nil_r.
  - unfold background_step. rewrite app_nil_r, Hc. by destruct (receiving b).
Qed.
